(* ===== verification/_CoqProject ===== *)
-Q . S2P
Prelude.v
JsMap.v
Model.v
Crypto.v
Retention.v
Presence.v
Broadcast.v
Session.v
Process.v
Regex.v
Accounts.v
RateLimit.v
Render.v
Client.v
ServiceWorker.v
App.v
Net.v
