(* ===== verification/Prelude.v ===== *)
(** * A verification development of the Cmd-chat relay

    The program is a Socket.IO chat.  Its server, [src/server.js], keeps
    four process-wide JavaScript [Map]s: [users] (accounts by e-mail),
    [rooms] (room directory, bootstrapped with ["general"]), [messages]
    (per-room message log) and [connectedUsers] (presence registry keyed by
    user id).  Express routes register and log users in and serve the
    rooms, a room's history and statistics behind a JWT check; Socket.IO
    authenticates each connection with the same JWT and reacts to
    [join-room], [send-message], [typing-start], [typing-stop] and
    [disconnect]; a 30-minute timer trims every room's log.  The browser
    client, class [TerminalChat] of [src/app.js], logs in over HTTP, opens
    the socket with the token, renders what the server emits and runs a
    two-second typing timer.  The service worker [src/public/sw.js] caches
    static assets.

    Files, in dependency order, and what they model:
    - [Prelude]: the scope [chat_scope], the hint databases [chat] and
      [chat_rw], the tactics [chat_cases] and [by_decide], and the
      built-ins the code uses:
      [slice(-n)] ([js_slice_neg]), [filter] ([js_filter]), [trim()]
      ([js_trim]) with their lemmas, and lemmas on lists and strings.
    - [JsMap]: JavaScript's insertion-ordered [Map] and [Set] as
      association lists ([set] updates in place or appends, [delete]
      removes), with their laws and a refinement to stdpp's [gmap].
    - [Model]: the data of [server.js]: the JWT identity, account, room,
      message, presence entry, the events the server emits, the server's
      view of a socket, and the whole server state.
    - [Crypto]: the class [Crypto], the interface of [bcryptjs] and
      [jsonwebtoken] that the accounts and the socket middleware are
      proved against, and an instance used by the examples.
    - [Retention] (module [Retention]): the sweeper (server.js 74-98).
    - [Presence] (module [Presence]): the [connectedUsers] registry.
    - [Broadcast] (module [Broadcast]): the four emit forms and
      [socket.join] as operations on the map of live sockets.
    - [Session] (module [Session]): the [io.use] middleware and the
      connection handler with every socket handler, composed into the
      step function [handle] on server events, with the reachability
      relations [reachable] and [treachable] (clock never going back).
    - [Process] (module [Process]): the server process around the event
      loop, running or exited, and the [uncaughtException] handler that a
      [send-message] without payload reaches.
    - [Regex] (module [Regex]): JavaScript regular expressions as the
      program's one literal uses them: the language [re_match] as an
      inductive relation, the Brzozowski derivative matcher [matchb]
      proved to decide it, and [test] for an anchored pattern.
    - [Accounts] (module [Accounts]): [authenticateToken], [/api/register]
      split at its [await] into [register_start] and [register_finish],
      [/api/login] and the three [GET] routes; [emailRegex] is the
      literal of the e-mail check, read with [Regex]'s semantics.
    - [RateLimit] (module [RateLimit]): the [express-rate-limit]
      middleware on [/api/] (server.js 44-54) with its store of per-key
      windows, keyed by [req.ip] as Express computes it under
      [trust proxy] (server.js 16) from [X-Forwarded-For].
    - [Render] (module [Render]): the HTML strings the client writes
      ([escapeHtml], the message and user templates, the notification
      preview) and the search ([searchMessages], [highlightText]).
    - [Client] (module [Client]): [TerminalChat] as a step function on
      DOM events, [fetch] replies, socket events, timers, the answer to
      its notification permission request and [document.hidden], over
      its fields, the page, [localStorage], the timer table, the
      connections it opened and the sounds and notifications it made.
    - [ServiceWorker] (module [SW]): the [install], [activate] and
      [fetch] handlers of sw.js over the browser's cache storage.
    - [App] (module [App]): the server's two halves together: a token from
      [/api/login] opening a socket, what the socket side never does to
      the accounts, and what two registrations in one millisecond do to
      the presence registry.
    - [Net] (module [Net]): clients and server composed over Socket.IO.
      The system state [sys] holds the server, the clients and the
      [link]s.  A link joins a client connection to the server socket
      it became, and counts what each direction has carried.  The step
      function [net_step] runs one [action]: a client input, the
      handshake through [io.use], the delivery of the next item on one
      direction of a link, the hang-up of a closed connection, a sweep
      tick, or the answer to a client's oldest pending [fetch]: the rate
      limiter first ([api_request], with the store in [sys]), then the
      Express route it names (or a network error).  [net_reachable] is the reachability relation of
      [net_step], and [deliver] is the relation of one delivery.

    What the theorems show, by group: the sweeper's bounds, its window and
    its equivalence with the reference filter ([Retention]); the presence
    registry's soundness and the bug of the unguarded delete (in every
    state where a user connects again), delivery
    order, the specification of each handler, and the invariants of
    [reachable] states proved by rule induction ([Session]); the exit of
    the whole process on one malformed packet ([Process]); the accounts'
    round trip, error paths, the hand-written e-mail check equal to
    [RegExp]'s reading of its literal, and the race of [/api/register]
    ([Accounts]); the derivative matcher's correctness ([Regex]); the rate
    limiter's bound of 200 requests per key in any 15 minutes, its exact
    behaviour inside one window, and its bypass by forged
    [X-Forwarded-For] entries ([RateLimit]); escaping and
    its undoing by the search ([Render]); the client's timer invariant, the
    effect of each handler, that no notification is raised without the
    user's consent, and the client bugs found ([Client]); the
    cache-first behaviour of the service worker ([SW]); the
    composition of login and connection, and the id shared by any two
    accounts registered in one millisecond with its effect on the
    registry ([App]); and, for clients and
    server together ([Net]): the invariant of every reachable system
    (each live socket is the end of exactly one link, and its user is
    the identity verified from that connection's token); the end-to-end
    path from the login form to a live socket of the account, and the
    login refused by the rate limiter with the server untouched; the
    history a client loads being the room's log on the server; the path
    of a typed message into the room's log and every room member's
    inbox; the double relay of each keystroke; and the termination of
    delivery.  PROJECT.json lists the
    forty properties in order of importance, with the findings.

    Bounds and termination: every recursive definition is structural
    except [Render.mark_matches], defined with Equations by well-founded
    recursion on the length of the text; no definition uses fuel.
    Properties of all executions are stated over the inductive
    reachability relations, so they hold for runs of any length.
    Termination of delivery ([Net.delivery_terminates]) is accessibility
    of the [deliver] relation, proved with the measure [Net.in_flight]:
    the waiting downlink events, plus the waiting emits weighted by one
    more than the number of links.  An emit gives each socket at most
    one event, and the client's handlers of server events emit nothing,
    so the measure drops at every delivery.

    Socket.IO's transport is modelled as one FIFO channel per direction
    of a connection.  Emits made before the handshake wait in the
    connection and cross once it is up.  A closed connection sends
    nothing more.  A refused connection is not retried by Socket.IO;
    the client's own timer opens a new one.

    The two packages behind the rate limiter, [express-rate-limit] and
    [proxy-addr], are libraries; they are modelled as they document
    their behaviour, with the options the server passes.  In [Net] a
    browser's requests carry no forwarding header, so its key is its own
    address ([Net.client_peer]).  [RegExp] is a built-in of the
    language; [Regex] models its documented semantics for patterns
    without look-arounds or back-references, where the backtracking
    matcher finds a match exactly when one exists.

    Not modelled: the [SIGTERM] and [error] handlers and [listen] of
    server.js, which react to the operating system; the Express,
    helmet, compression, CORS and body-parser set-up and the static
    files of server.js; request bodies whose fields are not strings (a
    non-string password passes the length check and makes [bcrypt] throw
    into the 500 path, and an array e-mail would become a key of
    [users] that no later request can name), since the model keys
    [users] by strings; an interleaving of a registration's write of an
    e-mail with the [await bcrypt.compare] of a login of the same
    e-mail, since [/api/login] is one step (the code would then mark the
    replaced account object online and sign its identity); [skipWaiting] and [clients.claim] of sw.js; the
    client's theme toggle, emoji picker and message search as DOM
    handlers, whose triggering elements no page template renders (so
    they never run), and [loadTheme]'s CSS class; the internals of
    Socket.IO, bcrypt and JWT, which enter only through the calls the
    code makes; search terms with regular-expression metacharacters;
    the Unicode white space that [trim()] and [\s] also remove.

    Time is a [Z] count of milliseconds ([Date.now()]); a message's
    [timestamp] is [new Date().toISOString()], which [new Date(...)] parses
    back to the same millisecond, so the model stores the millisecond.
    Strings are byte strings. *)

From stdpp Require Export base list gmap strings pretty sorting.
From Stdlib Require Export ZArith Lia Ascii.

Declare Scope chat_scope.
Delimit Scope chat_scope with chat.

(** [l.slice(-n)] for [n > 0]: the last [n] elements, or all of [l]. *)
Definition js_slice_neg {A} (n : nat) (l : list A) : list A :=
  drop (length l - n) l.

(** [l.filter(p)] for a boolean predicate. *)
Definition js_filter {A} (p : A -> bool) (l : list A) : list A :=
  List.filter p l.

(** [\s] of a JavaScript regular expression, and the white space that
    [String.prototype.trim] removes, on single bytes: tab, line feed,
    vertical tab, form feed, carriage return and space.  The multi-byte
    spaces of Unicode (no-break space, the [Zs] class, U+2028/9, U+FEFF)
    are outside the byte model. *)
Definition is_js_space (c : ascii) : bool :=
  match nat_of_ascii c with 9 | 10 | 11 | 12 | 13 | 32 => true | _ => false end.

Fixpoint drop_js_space (l : list ascii) : list ascii :=
  match l with
  | c :: l' => if is_js_space c then drop_js_space l' else l
  | [] => []
  end.

(** [s.trim()]: white space removed at both ends. *)
Definition js_trim (s : string) : string :=
  String.string_of_list_ascii
    (rev (drop_js_space (rev (drop_js_space (String.list_ascii_of_string s))))).

(** The first character of a list is not white space. *)
Definition head_not_space (l : list ascii) : Prop :=
  match l with c :: _ => is_js_space c = false | [] => True end.

(** [s.includes(t)]. *)
Fixpoint js_includes (s t : string) : bool :=
  String.prefix t s || match s with EmptyString => false | String _ r => js_includes r t end.

Notation "l '.slice(-' n ')'" := (js_slice_neg n l)
  (at level 1, format "l .slice(- n )") : chat_scope.

Create HintDb chat discriminated.
Create Rewrite HintDb chat_rw.

(** Destruct the [if]s and [match]es of the goal, as [case_match] does,
    then simplify. *)
Ltac chat_cases := repeat (case_match; simplify_eq/=); try done.

(** A decidable proposition on closed data, by evaluating its decision
    procedure. *)
Ltac by_decide := refine (bool_decide_unpack _ _); vm_compute; exact I.

Lemma js_slice_neg_length {A} n (l : list A) :
  length (js_slice_neg n l) = Nat.min n (length l).
Proof. unfold js_slice_neg. rewrite length_drop. lia. Qed.

Lemma js_slice_neg_le {A} n (l : list A) :
  length (js_slice_neg n l) <= n.
Proof. rewrite js_slice_neg_length. lia. Qed.

Lemma js_slice_neg_short {A} n (l : list A) :
  length l <= n -> js_slice_neg n l = l.
Proof. intros H. unfold js_slice_neg. by replace (length l - n) with 0 by lia. Qed.

Lemma js_slice_neg_suffix {A} n (l : list A) :
  suffix (js_slice_neg n l) l.
Proof. unfold js_slice_neg. apply suffix_drop. Qed.

Lemma js_slice_neg_idem {A} n (l : list A) :
  js_slice_neg n (js_slice_neg n l) = js_slice_neg n l.
Proof. apply js_slice_neg_short, js_slice_neg_le. Qed.

Lemma js_filter_sublist {A} (p : A -> bool) (l : list A) :
  sublist (js_filter p l) l.
Proof.
  induction l as [|x l IH]; simpl; [constructor|].
  destruct (p x); by constructor.
Qed.

Lemma js_filter_forall {A} (p : A -> bool) (l : list A) :
  Forall (fun x => p x = true) (js_filter p l).
Proof.
  induction l as [|x l IH]; simpl; [constructor|].
  destruct (p x) eqn:E; auto.
Qed.

Lemma js_filter_all {A} (p : A -> bool) (l : list A) :
  Forall (fun x => p x = true) l -> js_filter p l = l.
Proof.
  induction 1 as [|x l Hx _ IH]; simpl; [done|]. by rewrite Hx, IH.
Qed.

Lemma js_filter_idem {A} (p : A -> bool) (l : list A) :
  js_filter p (js_filter p l) = js_filter p l.
Proof. apply js_filter_all, js_filter_forall. Qed.

Lemma Forall_suffix {A} (P : A -> Prop) (l1 l2 : list A) :
  suffix l1 l2 -> Forall P l2 -> Forall P l1.
Proof. intros [k ->] H. by apply Forall_app in H as [_ H]. Qed.

Lemma js_slice_neg_snoc {A} n (l : list A) x :
  0 < n -> exists l', js_slice_neg n (l ++ [x]) = l' ++ [x].
Proof.
  intros Hn. unfold js_slice_neg. rewrite length_app. simpl.
  exists (drop (length l + 1 - n) l). apply drop_app_le. lia.
Qed.

Lemma js_filter_snoc {A} (p : A -> bool) (l : list A) x :
  p x = true -> js_filter p (l ++ [x]) = js_filter p l ++ [x].
Proof.
  intros Hx. induction l as [|y l IH]; simpl; [by rewrite Hx|].
  destruct (p y); simpl; by rewrite IH.
Qed.

(** A sublist as long as its list is the list itself. *)
Lemma sublist_length_eq {A} (l1 l2 : list A) :
  sublist l1 l2 -> length l2 <= length l1 -> l1 = l2.
Proof.
  induction 1 as [|x l1 l2 Hs IH|x l1 l2 Hs IH]; simpl; intros Hle; [done| |].
  - f_equal. apply IH. lia.
  - apply sublist_length in Hs. lia.
Qed.

Lemma suffix_sublist {A} (l1 l2 : list A) : suffix l1 l2 -> sublist l1 l2.
Proof.
  intros [k ->]. induction k as [|x k IH]; simpl; [done|]. by constructor.
Qed.

Lemma Forall_sublist {A} (P : A -> Prop) (l1 l2 : list A) :
  sublist l1 l2 -> Forall P l2 -> Forall P l1.
Proof. induction 1; inversion 1; subst; auto. Qed.

Lemma StronglySorted_sublist {A} (R : relation A) (l1 l2 : list A) :
  sublist l1 l2 -> StronglySorted R l2 -> StronglySorted R l1.
Proof.
  induction 1 as [|x l1 l2 Hs IH|x l1 l2 Hs IH]; [done| |];
    inversion 1 as [|? ? Hs2 Hall]; subst; [|by apply IH].
  constructor; [by apply IH|]. eapply Forall_sublist; eauto.
Qed.

Lemma drop_js_space_head l : head_not_space (drop_js_space l).
Proof. induction l as [|c l IH]; simpl; [done|]. destruct (is_js_space c) eqn:E; done. Qed.

Lemma drop_js_space_id l : head_not_space l -> drop_js_space l = l.
Proof. destruct l as [|c l]; simpl; [done|]. by intros ->. Qed.

Lemma drop_js_space_split l :
  exists pre, l = pre ++ drop_js_space l /\ Forall (fun c => is_js_space c = true) pre.
Proof.
  induction l as [|c l (pre & Hl & Hpre)]; simpl; [by exists []|].
  destruct (is_js_space c) eqn:E; [|by exists []].
  exists (c :: pre). split; [simpl; congruence|by constructor].
Qed.

(** Trimming the end keeps a head that is not white space. *)
Lemma trim_end_head l :
  head_not_space l -> head_not_space (rev (drop_js_space (rev l))).
Proof.
  intros Hl. destruct (drop_js_space_split (rev l)) as (pre & Hs & _).
  destruct (drop_js_space (rev l)) as [|d ds] eqn:E; [done|].
  apply (f_equal (@rev ascii)) in Hs. rewrite rev_involutive, rev_app_distr in Hs.
  simpl in Hs. rewrite Hs in Hl. simpl. rewrite <-app_assoc in Hl.
  destruct (rev ds) as [|y ys]; simpl in *; done.
Qed.

Lemma js_trim_list s :
  String.list_ascii_of_string (js_trim s) =
    rev (drop_js_space (rev (drop_js_space (String.list_ascii_of_string s)))).
Proof. apply String.list_ascii_of_string_of_list_ascii. Qed.

(** A trimmed string neither starts nor ends with white space. *)
Lemma js_trim_ends s :
  head_not_space (String.list_ascii_of_string (js_trim s)) /\
  head_not_space (rev (String.list_ascii_of_string (js_trim s))).
Proof.
  rewrite js_trim_list, rev_involutive. split; [|apply drop_js_space_head].
  apply trim_end_head, drop_js_space_head.
Qed.

Lemma js_trim_idem s : js_trim (js_trim s) = js_trim s.
Proof.
  destruct (js_trim_ends s) as [Hh Ht].
  unfold js_trim at 1. rewrite (drop_js_space_id _ Hh), (drop_js_space_id _ Ht).
  rewrite rev_involutive. apply String.string_of_list_ascii_of_string.
Qed.

Lemma drop_js_space_nil l :
  drop_js_space l = [] <-> Forall (fun c => is_js_space c = true) l.
Proof.
  induction l as [|c l IH]; simpl; [split; auto|].
  destruct (is_js_space c) eqn:E.
  - rewrite IH. split; [by constructor|by inversion 1].
  - split; [done|inversion 1; congruence].
Qed.

(** A string trims to [""] exactly when it is all white space. *)
Lemma js_trim_empty s :
  js_trim s = "" <-> Forall (fun c => is_js_space c = true) (String.list_ascii_of_string s).
Proof.
  transitivity (String.list_ascii_of_string (js_trim s) = []).
  { split; [by intros ->|]. intros E.
    by rewrite <-(String.string_of_list_ascii_of_string (js_trim s)), E. }
  rewrite js_trim_list, <-drop_js_space_nil.
  pose proof (drop_js_space_head (String.list_ascii_of_string s)) as Hm.
  revert Hm. generalize (drop_js_space (String.list_ascii_of_string s)) as m.
  intros m Hm. split; intros E.
  - apply (f_equal (@rev ascii)) in E. rewrite rev_involutive in E. simpl in E.
    apply drop_js_space_nil, Forall_rev in E. rewrite ?rev_involutive in E.
    destruct m as [|c m']; [done|].
    inversion E; simpl in Hm; congruence.
  - by rewrite E.
Qed.

(** [String.append] is [simpl never] in stdpp: its two equations. *)
Lemma string_app_nil (t : string) : "" +:+ t = t.
Proof. reflexivity. Qed.

Lemma string_app_cons c (s t : string) : String c s +:+ t = String c (s +:+ t).
Proof. reflexivity. Qed.

Lemma string_app_assoc (a b c : string) : (a +:+ b) +:+ c = a +:+ (b +:+ c).
Proof. induction a as [|x a IH]; [done|]. by rewrite !string_app_cons, IH. Qed.

Lemma string_app_nil_r (a : string) : a +:+ "" = a.
Proof. induction a as [|x a IH]; [done|]. by rewrite string_app_cons, IH. Qed.

Lemma list_ascii_of_string_app (a b : string) :
  String.list_ascii_of_string (a +:+ b) = String.list_ascii_of_string a ++ String.list_ascii_of_string b.
Proof. induction a as [|x a IH]; [done|]. simpl. by rewrite IH. Qed.

Lemma string_length_app (a b : string) :
  String.length (a +:+ b) = String.length a + String.length b.
Proof. induction a as [|c a IH]; [done|]. rewrite string_app_cons. simpl. by rewrite IH. Qed.

Lemma sublist_map {A B} (f : A -> B) (l1 l2 : list A) :
  sublist l1 l2 -> sublist (map f l1) (map f l2).
Proof. induction 1; simpl; by constructor. Qed.

(** Induction on strings by their length. *)
Lemma string_length_ind (P : string -> Prop) :
  (forall s, (forall s', String.length s' < String.length s -> P s') -> P s) -> forall s, P s.
Proof.
  intros Hind s. remember (String.length s) as n eqn:Hn.
  revert s Hn. induction (lt_wf n) as [n _ IH]. intros s ->.
  apply Hind. intros s' Hlt. by apply (IH (String.length s')).
Qed.

(** Lists updated by index: replacing an element by one with the same
    image, and what [delete] leaves of a list without duplicates. *)
Lemma map_insert_same {A B} (f : A -> B) (l : list A) j x x' :
  l !! j = Some x -> f x' = f x -> map f (<[j := x']> l) = map f l.
Proof.
  revert j. induction l as [|a l IH]; intros [|j] Hj Hf; simplify_eq/=; [by rewrite Hf|].
  by rewrite IH.
Qed.

Lemma NoDup_map_delete {A B} (f : A -> B) (l : list A) j x :
  NoDup (map f l) -> l !! j = Some x ->
  NoDup (map f (delete j l)) /\ Forall (fun y => f y <> f x) (delete j l).
Proof.
  intros Hnd Hj. rewrite <-(take_drop_middle l j x Hj) in Hnd.
  rewrite delete_take_drop. rewrite map_app in *. simpl in Hnd.
  apply NoDup_app in Hnd as (Hnd1 & Hdis & Hnd2). apply NoDup_cons in Hnd2 as [Hx Hnd2].
  split.
  - apply NoDup_app. split_and!; [done| |done]. intros a Ha1 Ha2. apply (Hdis a Ha1).
    by apply list_elem_of_further.
  - apply Forall_app. split; apply Forall_forall; intros y Hy Hfy.
    + apply (Hdis (f y)); [apply list_elem_of_fmap; by exists y|rewrite Hfy; by left].
    + apply Hx. rewrite <-Hfy. apply list_elem_of_fmap. by exists y.
Qed.

Lemma elem_of_delete_ne {A} (l : list A) j x y :
  l !! j = Some x -> y ∈ l -> y <> x -> y ∈ delete j l.
Proof.
  intros Hj Hy Hne. rewrite <-(take_drop_middle l j x Hj) in Hy.
  rewrite delete_take_drop. rewrite elem_of_app in *. rewrite elem_of_cons in Hy.
  destruct Hy as [|[|]]; auto. done.
Qed.

(** Sums over lists, for measures. *)
Lemma sum_list_with_insert {A} (f : A -> nat) (l : list A) j a x :
  l !! j = Some a -> sum_list_with f (<[j := x]> l) + f a = sum_list_with f l + f x.
Proof.
  revert j. induction l as [|b l IH]; intros [|j] Hj; simplify_eq/=; [lia|].
  specialize (IH j Hj). lia.
Qed.

Lemma sum_list_with_ext {A} (f g : A -> nat) (l : list A) :
  (forall x, x ∈ l -> f x = g x) -> sum_list_with f l = sum_list_with g l.
Proof.
  induction l as [|a l IH]; intros Hfg; simpl; [done|].
  rewrite (Hfg a), IH by set_solver. done.
Qed.

Lemma sum_list_with_le_S {A} (f g : A -> nat) (l : list A) :
  (forall x, x ∈ l -> f x <= g x + 1) -> sum_list_with f l <= sum_list_with g l + length l.
Proof.
  induction l as [|a l IH]; intros Hfg; simpl; [done|].
  assert (f a <= g a + 1) by set_solver. assert (sum_list_with f l <= sum_list_with g l + length l)
    by (apply IH; set_solver). lia.
Qed.

#[export] Hint Resolve js_slice_neg_le js_slice_neg_suffix js_filter_sublist
  js_filter_forall : chat.
#[export] Hint Rewrite @js_slice_neg_length @js_filter_idem @js_slice_neg_idem : chat_rw.
