(* ===== verification/JsMap.v ===== *)
(** JavaScript's [Map] and [Set], as the server's process-wide stores use
    them ([new Map()], [get], [has], [set], [delete], [values()],
    [forEach]).  A [Map] is an association list in insertion order: [set]
    on a present key updates the entry in place, on a new key appends it;
    [delete] removes the entry.  Iteration ([values()], [forEach],
    [Array.from]) follows the list.  The refinement lemmas relate the
    association list to stdpp's [gmap] through [list_to_map], so that map
    reasoning in the components goes through [gmap]'s lemma library. *)

From S2P Require Import Prelude.

Section JsMap.
Context {K V : Type} `{EqDecision K}.

Definition jsmap := list (K * V).

(** [m.get(k)], with [undefined] as [None]. *)
Fixpoint jm_get (k : K) (m : jsmap) : option V :=
  match m with
  | [] => None
  | (k', v) :: m' => if decide (k = k') then Some v else jm_get k m'
  end.

(** [m.has(k)]. *)
Definition jm_has (k : K) (m : jsmap) : bool :=
  match jm_get k m with Some _ => true | None => false end.

(** [m.set(k, v)]: in place when [k] is present, appended otherwise. *)
Fixpoint jm_set (k : K) (v : V) (m : jsmap) : jsmap :=
  match m with
  | [] => [(k, v)]
  | (k', v') :: m' =>
      if decide (k = k') then (k, v) :: m' else (k', v') :: jm_set k v m'
  end.

(** [m.delete(k)]. *)
Definition jm_delete (k : K) (m : jsmap) : jsmap :=
  List.filter (fun kv => negb (bool_decide (kv.1 = k))) m.

(** [Array.from(m.values())] and [Array.from(m.keys())]. *)
Definition jm_values (m : jsmap) : list V := map snd m.
Definition jm_keys (m : jsmap) : list K := map fst m.

(** A [Map] holds each key once. *)
Definition jm_wf (m : jsmap) : Prop := NoDup (jm_keys m).

(** Update the value at [k] in place, when [k] is present (a mutation of
    the object a [Map] entry holds). *)
Definition jm_alter (f : V -> V) (k : K) (m : jsmap) : jsmap :=
  map (fun kv => if decide (kv.1 = k) then (kv.1, f kv.2) else kv) m.

(** [m.forEach((v, k) => m.set(k, f k v))]: replace every value in
    place, keeping the order. *)
Definition jm_map_values (f : K -> V -> V) (m : jsmap) : jsmap :=
  map (fun kv => (kv.1, f kv.1 kv.2)) m.
End JsMap.

Arguments jsmap : clear implicits.

Section JsSet.
Context {A : Type} `{EqDecision A}.

(** [s.add(x)] on an insertion-ordered [Set]. *)
Definition jset_add (x : A) (s : list A) : list A :=
  if bool_decide (x ∈ s) then s else s ++ [x].

(** [s.has(x)]. *)
Definition jset_has (x : A) (s : list A) : bool := bool_decide (x ∈ s).
End JsSet.

Section JsMapLaws.
Context {K V : Type} `{Countable K}.
Implicit Types (m : jsmap K V) (k : K) (v : V).

Lemma jm_get_set_eq m k v : jm_get k (jm_set k v m) = Some v.
Proof.
  induction m as [|[k' v'] m IH]; simpl; [by rewrite decide_True|].
  case_decide; simpl; [by rewrite decide_True|].
  by rewrite decide_False.
Qed.

Lemma jm_get_set_ne m k k' v :
  k <> k' -> jm_get k' (jm_set k v m) = jm_get k' m.
Proof.
  intros Hne. induction m as [|[k0 v0] m IH]; simpl.
  - by rewrite decide_False.
  - repeat (case_decide; simplify_eq/=); auto; congruence.
Qed.

Lemma jm_get_delete_eq m k : jm_get k (jm_delete k m) = None.
Proof.
  induction m as [|[k0 v0] m IH]; simpl; [done|].
  case_bool_decide; simpl; [done|]. by rewrite decide_False.
Qed.

Lemma jm_get_delete_ne m k k' :
  k <> k' -> jm_get k' (jm_delete k m) = jm_get k' m.
Proof.
  intros Hne. induction m as [|[k0 v0] m IH]; simpl; [done|].
  case_bool_decide; simpl; subst; [by rewrite decide_False|].
  by case_decide.
Qed.

(** The association list refines a [gmap]: every lookup agrees. *)
Lemma jm_get_gmap m k : jm_get k m = (list_to_map m : gmap K V) !! k.
Proof.
  induction m as [|[k0 v0] m IH]; simpl; [by rewrite lookup_empty|].
  rewrite lookup_insert. case_decide; subst; by case_decide.
Qed.

Lemma jm_set_gmap m k v :
  (list_to_map (jm_set k v m) : gmap K V) = <[k:=v]> (list_to_map m).
Proof.
  apply map_eq. intros k'. rewrite <-!jm_get_gmap, lookup_insert, <-jm_get_gmap.
  case_decide; subst; [apply jm_get_set_eq|by apply jm_get_set_ne].
Qed.

Lemma jm_delete_gmap m k :
  (list_to_map (jm_delete k m) : gmap K V) = delete k (list_to_map m).
Proof.
  apply map_eq. intros k'. rewrite <-!jm_get_gmap, lookup_delete, <-jm_get_gmap.
  case_decide; subst; [apply jm_get_delete_eq|by apply jm_get_delete_ne].
Qed.

Lemma jm_keys_set m k v :
  jm_keys (jm_set k v m) =
    if jm_has k m then jm_keys m else jm_keys m ++ [k].
Proof.
  unfold jm_has. induction m as [|[k0 v0] m IH]; simpl; [done|].
  case_decide; simplify_eq/=; [done|]. rewrite IH. by destruct (jm_get k m).
Qed.

Lemma jm_get_In m k v : jm_get k m = Some v -> In (k, v) m.
Proof.
  induction m as [|[k0 v0] m IH]; simpl; [done|].
  case_decide; intros; simplify_eq; auto.
Qed.

Lemma jm_get_None_keys m k : jm_get k m = None <-> k ∉ jm_keys m.
Proof.
  induction m as [|[k0 v0] m IH]; simpl; [set_solver|].
  rewrite elem_of_cons. case_decide as Hk; [subst; split; [done|]; tauto|].
  rewrite IH. split; [intros Hn [->|?]; by auto|intros Hn ?; auto].
Qed.

Lemma jm_set_wf m k v : jm_wf m -> jm_wf (jm_set k v m).
Proof.
  unfold jm_wf. rewrite jm_keys_set. unfold jm_has.
  destruct (jm_get k m) eqn:E; [done|]. intros Hnd.
  apply NoDup_app. split_and!; [done| |by apply NoDup_singleton].
  intros x Hx ->%list_elem_of_singleton. by apply jm_get_None_keys in E.
Qed.

Lemma jm_delete_keys m k :
  jm_keys (jm_delete k m) = List.filter (fun x => negb (bool_decide (x = k))) (jm_keys m).
Proof.
  induction m as [|[k0 v0] m IH]; simpl; [done|].
  by case_bool_decide; simpl; rewrite IH.
Qed.

Lemma jm_delete_wf m k : jm_wf m -> jm_wf (jm_delete k m).
Proof.
  unfold jm_wf. rewrite jm_delete_keys. intros Hnd.
  apply NoDup_ListNoDup, List.NoDup_filter, NoDup_ListNoDup, Hnd.
Qed.

Lemma jm_wf_get m k v : jm_wf m -> In (k, v) m -> jm_get k m = Some v.
Proof.
  unfold jm_wf, jm_keys. induction m as [|[k0 v0] m IH]; simpl; [done|].
  rewrite NoDup_cons. intros [Hnin Hnd] [Heq|Hin]; simplify_eq.
  - by rewrite decide_True.
  - rewrite decide_False; [by apply IH|]. intros ->. apply Hnin.
    apply list_elem_of_In, in_map_iff. by exists (k0, v).
Qed.

Lemma jm_values_set_has m k v :
  jm_has k m = false -> jm_values (jm_set k v m) = jm_values m ++ [v].
Proof.
  unfold jm_has, jm_values. induction m as [|[k0 v0] m IH]; simpl; [done|].
  case_decide; [done|]. intros Hg. simpl. by rewrite IH.
Qed.

Lemma jm_get_map_values (f : K -> V -> V) m k :
  jm_get k (jm_map_values f m) = f k <$> jm_get k m.
Proof.
  induction m as [|[k0 v0] m IH]; simpl; [done|].
  case_decide; subst; [done|apply IH].
Qed.

Lemma jm_keys_map_values (f : K -> V -> V) m :
  jm_keys (jm_map_values f m) = jm_keys m.
Proof. unfold jm_keys, jm_map_values. rewrite map_map. by induction m. Qed.

Lemma jm_set_get_id m k v : jm_get k m = Some v -> jm_set k v m = m.
Proof.
  induction m as [|[k0 v0] m IH]; simpl; [done|].
  case_decide; intros; simplify_eq/=; [done|]. by rewrite IH.
Qed.

Lemma jm_set_app_notin (p r : jsmap K V) k v v' :
  k ∉ jm_keys p -> jm_set k v (p ++ (k, v') :: r) = p ++ (k, v) :: r.
Proof.
  induction p as [|[k0 v0] p IH]; simpl; [by rewrite decide_True|].
  rewrite not_elem_of_cons. intros [Hne Hn]. rewrite decide_False; [|done].
  by rewrite IH.
Qed.

Lemma jm_get_app_notin (p r : jsmap K V) k :
  k ∉ jm_keys p -> jm_get k (p ++ r) = jm_get k r.
Proof.
  induction p as [|[k0 v0] p IH]; simpl; [done|].
  rewrite not_elem_of_cons. intros [Hne Hn]. rewrite decide_False; auto.
Qed.

Lemma jm_get_alter (f : V -> V) m k k' :
  jm_get k' (jm_alter f k m) = if decide (k' = k) then f <$> jm_get k' m else jm_get k' m.
Proof.
  induction m as [|[k0 v0] m IH]; simpl; [by case_decide|].
  repeat (case_decide; simplify_eq/=); done.
Qed.

Lemma jm_keys_alter (f : V -> V) m k : jm_keys (jm_alter f k m) = jm_keys m.
Proof.
  unfold jm_keys, jm_alter. rewrite map_map. apply map_ext. intros [k0 v0].
  simpl. by case_decide.
Qed.

Lemma jm_delete_absent m k : jm_get k m = None -> jm_delete k m = m.
Proof.
  unfold jm_delete. induction m as [|[k0 v0] m IH]; simpl; [done|].
  case_decide; [done|]. intros Hg. rewrite bool_decide_false by congruence. simpl.
  by rewrite IH.
Qed.

Lemma jm_alter_idem (f : V -> V) m k :
  (forall v, f (f v) = f v) -> jm_alter f k (jm_alter f k m) = jm_alter f k m.
Proof.
  intros Hf. unfold jm_alter. rewrite map_map. apply map_ext. intros [k0 v0]. simpl.
  repeat (case_decide; simpl in *); congruence.
Qed.

Lemma jm_has_get m k : jm_has k m = true <-> is_Some (jm_get k m).
Proof. unfold jm_has. destruct (jm_get k m); split; intros; by try inversion 1. Qed.
End JsMapLaws.

Section JsSetLaws.
Context {A : Type} `{EqDecision A}.

Lemma jset_add_elem (x y : A) (s : list A) : y ∈ jset_add x s <-> y = x \/ y ∈ s.
Proof. unfold jset_add. case_bool_decide; set_solver. Qed.

Lemma jset_add_NoDup (x : A) (s : list A) : NoDup s -> NoDup (jset_add x s).
Proof.
  unfold jset_add. case_bool_decide; [done|]. intros Hnd.
  apply NoDup_app. split_and!; [done| |by apply NoDup_singleton]. set_solver.
Qed.

Lemma jset_add_idem (x : A) (s : list A) : x ∈ s -> jset_add x s = s.
Proof. unfold jset_add. by case_bool_decide. Qed.
End JsSetLaws.

#[export] Hint Resolve jm_set_wf jm_delete_wf jset_add_NoDup : chat.
#[export] Hint Rewrite @jm_get_set_eq @jm_get_delete_eq @jm_get_map_values
  @jm_keys_map_values : chat_rw.
