(* ===== verification/Model.v ===== *)
(** The data of [src/server.js]: the identity carried by a verified JWT
    ([socket.user]), the account record of the [users] map, the room
    record of the [rooms] map, the message record of the [messages] map,
    the presence entry of [connectedUsers], the outbound Socket.IO events,
    the server's view of a socket (its user, its room set, and the events
    delivered to it), and the whole process state.  Strings stay strings;
    times are milliseconds; JavaScript [Map]s are [jsmap]s. *)

From S2P Require Import Prelude JsMap.

(** [jwt.sign({ id, email, displayName }, ...)] (server.js 186-190):
    the payload that [jwt.verify] hands back as [socket.user]. *)
Record identity := Identity {
  id : string;
  email : string;
  displayName : string;
}.

(** An entry of [users] (server.js 143-150, 183-184). *)
Record account := Account {
  acc_id : string;
  acc_email : string;
  acc_password : string;
  acc_displayName : string;
  acc_status : string;
  acc_createdAt : Z;
  acc_lastLogin : option Z;
}.

(** An entry of [rooms] (server.js 65-71). *)
Record room := Room {
  room_id : string;
  room_name : string;
  room_type : string;
  room_members : list string;
  room_createdAt : Z;
}.

(** A message (server.js 293-301).  [msg_id] is [Date.now().toString()]. *)
Record message := Message {
  msg_id : string;
  msg_roomId : string;
  senderId : string;
  senderName : string;
  content : string;
  msg_type : string;
  timestamp : Z;
}.

(** The payload of [send-message]: [{ roomId, content, type }], with
    [type] possibly absent (server.js 291). *)
Record send_data := SendData {
  d_roomId : string;
  d_content : string;
  d_type : option string;
}.

(** An entry of [connectedUsers] (server.js 260-264). *)
Record presence_entry := PresenceEntry {
  socketId : string;
  pe_user : identity;
  pe_status : string;
}.

(** An element of the [users-list] payload (server.js 276-280). *)
Record user_summary := UserSummary {
  us_id : string;
  us_displayName : string;
  us_status : string;
}.

(** The events the server emits. *)
Inductive out_event :=
| UserOnline (userId displayName : string)
| UserOffline (userId displayName : string)
| UsersList (users : list user_summary)
| NewMessage (m : message)
| UserTyping (userId displayName : string) (typing : bool).

(** A live Socket.IO socket as the server sees it: its authenticated user,
    its room [Set] (Socket.IO puts every socket in the room named by its
    own id on connection), and the events delivered to it, oldest first. *)
Record socket := Socket {
  sock_user : identity;
  sock_rooms : list string;
  sock_inbox : list out_event;
}.

(** The process state: the four [Map]s of server.js and Socket.IO's map of
    live sockets by socket id. *)
Record server := Server {
  users : jsmap string account;
  rooms : jsmap string room;
  messages : jsmap string (list message);
  connectedUsers : jsmap string presence_entry;
  sockets : jsmap string socket;
}.

#[export] Instance identity_eq_dec : EqDecision identity.
Proof. solve_decision. Defined.
#[export] Instance message_eq_dec : EqDecision message.
Proof. solve_decision. Defined.
#[export] Instance user_summary_eq_dec : EqDecision user_summary.
Proof. solve_decision. Defined.
#[export] Instance out_event_eq_dec : EqDecision out_event.
Proof. solve_decision. Defined.

(** The default room created at start-up, at time [t0] (server.js 65-71). *)
Definition general_room (t0 : Z) : room :=
  {| room_id := "general"; room_name := "القناة العامة"; room_type := "public";
     room_members := []; room_createdAt := t0 |}.

(** The state when the server starts listening: empty [Map]s but for the
    bootstrap room (server.js 60-71, 254). *)
Definition init_server (t0 : Z) : server :=
  {| users := []; rooms := [("general", general_room t0)]; messages := [];
     connectedUsers := []; sockets := [] |}.

(** Record updates of the state, one per field. *)
Definition set_users (f : jsmap string account -> jsmap string account) (s : server) : server :=
  {| users := f (users s); rooms := rooms s; messages := messages s;
     connectedUsers := connectedUsers s; sockets := sockets s |}.
Definition set_messages (f : jsmap string (list message) -> jsmap string (list message))
    (s : server) : server :=
  {| users := users s; rooms := rooms s; messages := f (messages s);
     connectedUsers := connectedUsers s; sockets := sockets s |}.
Definition set_connectedUsers (f : jsmap string presence_entry -> jsmap string presence_entry)
    (s : server) : server :=
  {| users := users s; rooms := rooms s; messages := messages s;
     connectedUsers := f (connectedUsers s); sockets := sockets s |}.
Definition set_sockets (f : jsmap string socket -> jsmap string socket) (s : server) : server :=
  {| users := users s; rooms := rooms s; messages := messages s;
     connectedUsers := connectedUsers s; sockets := f (sockets s) |}.
