(* ===== verification/Crypto.v ===== *)
(** The two libraries server.js consumes as opaque capabilities:
    [bcryptjs] ([bcrypt.hash(password, 10)], [bcrypt.compare(password,
    hash)], server.js 141 and 178) and [jsonwebtoken] ([jwt.sign(payload,
    JWT_SECRET, { expiresIn: '7d' })] and [jwt.verify(token, JWT_SECRET)],
    server.js 109, 186-190, 245).  The class [Crypto] is the interface
    the accounts component and the socket middleware are proved against:
    a hash verifies against its password, a token verifies to its payload
    during its seven-day lifetime, and a token is never empty.  The salt
    of [bcrypt.hash] and the issue time of [jwt.sign] are explicit
    arguments, since both functions read hidden state (randomness, the
    clock).  [demo_crypto] is an instance that meets the laws, used by the
    examples: it does not model the cryptography. *)

From S2P Require Import Prelude Model.

(** [expiresIn: '7d'] in milliseconds (server.js 189). *)
Definition jwt_lifetime : Z := 7 * 24 * 60 * 60 * 1000.

Class Crypto := {
  bcrypt_hash : string -> Z -> string;
  bcrypt_compare : string -> string -> bool;
  jwt_sign : identity -> Z -> string;
  jwt_verify : string -> Z -> option identity;
  bcrypt_compare_hash p salt : bcrypt_compare p (bcrypt_hash p salt) = true;
  jwt_verify_sign u t now :
    (t <= now < t + jwt_lifetime)%Z -> jwt_verify (jwt_sign u t) now = Some u;
  jwt_sign_nonempty u t : jwt_sign u t <> "";
}.

(** A string field, each character tagged by ["a"], closed by ["b"]. *)
Fixpoint enc_field (s : string) : string :=
  match s with
  | EmptyString => "b"
  | String c s' => String "a"%char (String c (enc_field s'))
  end.

Fixpoint dec_field (s : string) : option (string * string) :=
  match s with
  | String "a"%char (String c rest) =>
      match dec_field rest with
      | Some (f, r) => Some (String c f, r)
      | None => None
      end
  | String "b"%char rest => Some (EmptyString, rest)
  | _ => None
  end.

Definition enc_identity (u : identity) : string :=
  enc_field (id u) +:+ enc_field (email u) +:+ enc_field (displayName u).

Definition dec_identity (tok : string) : option identity :=
  match dec_field tok with
  | Some (i, r1) =>
      match dec_field r1 with
      | Some (e, r2) =>
          match dec_field r2 with
          | Some (n, EmptyString) => Some {| id := i; email := e; displayName := n |}
          | _ => None
          end
      | None => None
      end
  | None => None
  end.

Lemma dec_enc_field f rest : dec_field (enc_field f +:+ rest) = Some (f, rest).
Proof. induction f as [|c f IH]; [done|]. simpl. by rewrite IH. Qed.

Lemma dec_enc_identity u : dec_identity (enc_identity u) = Some u.
Proof.
  destruct u as [i e n]. unfold dec_identity, enc_identity.
  rewrite dec_enc_field. cbn iota beta. rewrite dec_enc_field. cbn iota beta.
  cbn [displayName]. by rewrite <-(string_app_nil_r (enc_field n)), dec_enc_field.
Qed.

#[export] Program Instance demo_crypto : Crypto := {
  bcrypt_hash p _ := "$2a$10$" +:+ p;
  bcrypt_compare p h := String.eqb h ("$2a$10$" +:+ p);
  jwt_sign u _ := enc_identity u;
  jwt_verify tok _ := dec_identity tok;
}.
Next Obligation. intros. apply String.eqb_refl. Qed.
Next Obligation. intros. apply dec_enc_identity. Qed.
Next Obligation. intros [i e n] _. unfold enc_identity. destruct i; simpl; by rewrite ?string_app_cons. Qed.
