(* ===== verification/Retention.v ===== *)
(** The retention sweeper of server.js (lines 74-98), run by [setInterval]
    every 30 minutes.  For every entry of [messages], in the map's order,
    it filters the room's log to the messages strictly newer than
    [Date.now() - 2h], keeps the last 100 of those ([slice(-100)]), and
    writes the result back with [messages.set] only when it is shorter
    than the original; it adds the difference to [totalCleaned].
    [cleanup] is that loop; [retained] is the reference definition in
    which every room is replaced by its filtered log.  The theorems show
    they agree, bound every log, characterise what survives, count what is
    removed, and show that a second pass removes nothing. *)

From S2P Require Import Prelude JsMap Model.

Module Retention.
Local Open Scope chat_scope.

(** [2 * 60 * 60 * 1000] (server.js 75). *)
Definition two_hours : Z := 2 * 60 * 60 * 1000.

(** The bound of [slice(-100)] (server.js 84). *)
Definition max_kept : nat := 100.

(** [msg => new Date(msg.timestamp) > twoHoursAgo] (server.js 83). *)
Definition is_recent (twoHoursAgo : Z) (msg : message) : bool :=
  Z.ltb twoHoursAgo (timestamp msg).

(** [roomMessages.filter(...).slice(-100)] (server.js 82-84). *)
Definition filteredMessages (twoHoursAgo : Z) (roomMessages : list message)
    : list message :=
  (js_filter (is_recent twoHoursAgo) roomMessages).slice(-max_kept).

(** The [forEach] callback on the state [(messages, totalCleaned)]
    (server.js 78-91). *)
Definition clean_room (twoHoursAgo : Z)
    (st : jsmap string (list message) * nat)
    (roomId : string) (roomMessages : list message)
    : jsmap string (list message) * nat :=
  let originalCount := length roomMessages in
  let filtered := filteredMessages twoHoursAgo roomMessages in
  if Nat.ltb (length filtered) originalCount then
    (jm_set roomId filtered st.1, st.2 + (originalCount - length filtered))
  else st.

(** [messages.forEach(...)]: the entries are visited in insertion order;
    [set] on a visited key changes neither the keys nor the entries
    still to visit. *)
Fixpoint clean_rooms (twoHoursAgo : Z) (entries : jsmap string (list message))
    (st : jsmap string (list message) * nat) : jsmap string (list message) * nat :=
  match entries with
  | [] => st
  | (roomId, roomMessages) :: rest =>
      clean_rooms twoHoursAgo rest (clean_room twoHoursAgo st roomId roomMessages)
  end.

(** One tick of the sweeper at time [now]: the new [messages] map and
    [totalCleaned] (server.js 74-98; the [console.log]s are dropped). *)
Definition cleanup (now : Z) (msgs : jsmap string (list message))
    : jsmap string (list message) * nat :=
  clean_rooms (now - two_hours) msgs (msgs, 0).

(** Reference: every room replaced by its filtered log. *)
Definition retained (now : Z) (msgs : jsmap string (list message))
    : jsmap string (list message) :=
  jm_map_values (fun _ l => filteredMessages (now - two_hours) l) msgs.

(** [Array.from(messages.values()).reduce((t, msgs) => t + msgs.length, 0)]
    (server.js 226). *)
Definition total_messages (msgs : jsmap string (list message)) : nat :=
  sum_list_with length (jm_values msgs).

(** A log is in chronological order. *)
Definition chronological (l : list message) : Prop :=
  StronglySorted (fun a b => (timestamp a <= timestamp b)%Z) l.

(** Messages removed from one room. *)
Definition cleaned_count (twoHoursAgo : Z) (kv : string * list message) : nat :=
  length kv.2 - length (filteredMessages twoHoursAgo kv.2).

(** A message of room [r] sent by ["1"] at time [ts], for the examples. *)
Definition sample_message (r : string) (ts : Z) : message :=
  {| msg_id := pretty ts; msg_roomId := r; senderId := "1"; senderName := "a";
     content := "hi"; msg_type := "text"; timestamp := ts |}.

Lemma filteredMessages_sublist c l : sublist (filteredMessages c l) l.
Proof.
  unfold filteredMessages. etrans; [apply suffix_sublist, js_slice_neg_suffix|].
  apply js_filter_sublist.
Qed.

Lemma filteredMessages_recent c l :
  Forall (fun m => (c < timestamp m)%Z) (filteredMessages c l).
Proof.
  eapply Forall_suffix; [apply js_slice_neg_suffix|].
  eapply Forall_impl; [apply js_filter_forall|]. intros m. apply Z.ltb_lt.
Qed.

Lemma filteredMessages_idem c l :
  filteredMessages c (filteredMessages c l) = filteredMessages c l.
Proof.
  unfold filteredMessages at 1. rewrite js_filter_all.
  - apply js_slice_neg_idem.
  - eapply Forall_impl; [apply filteredMessages_recent|]. intros m. apply Z.ltb_lt.
Qed.

(** The guard [filtered.length < originalCount] only skips writes that
    would not change the map. *)
Lemma clean_room_set c m n k l :
  jm_get k m = Some l ->
  clean_room c (m, n) k l = (jm_set k (filteredMessages c l) m, n + cleaned_count c (k, l)).
Proof.
  intros Hget. unfold clean_room, cleaned_count; simpl.
  destruct (Nat.ltb_spec (length (filteredMessages c l)) (length l)) as [Hlt|Hge]; [done|].
  rewrite (sublist_length_eq _ _ (filteredMessages_sublist c l) Hge).
  rewrite jm_set_get_id by done. f_equal. lia.
Qed.

Lemma clean_rooms_retained c (pre es : jsmap string (list message)) n :
  jm_wf (pre ++ es) ->
  clean_rooms c es (jm_map_values (fun _ l => filteredMessages c l) pre ++ es, n) =
    (jm_map_values (fun _ l => filteredMessages c l) (pre ++ es),
     n + sum_list_with (cleaned_count c) es).
Proof.
  revert pre n. induction es as [|[k l] es IH]; intros pre n Hwf; simpl.
  { by rewrite !app_nil_r, Nat.add_0_r. }
  assert (k ∉ jm_keys pre) as Hk.
  { unfold jm_wf, jm_keys in Hwf. rewrite map_app in Hwf. simpl in Hwf.
    apply NoDup_app in Hwf as (_ & Hdis & _). intros Hin.
    apply (Hdis k Hin), elem_of_cons. by left. }
  rewrite clean_room_set.
  2:{ rewrite jm_get_app_notin by (by autorewrite with chat_rw). simpl.
      by rewrite decide_True. }
  rewrite jm_set_app_notin by (by autorewrite with chat_rw).
  replace (jm_map_values _ pre ++ (k, filteredMessages c l) :: es)
    with (jm_map_values (fun _ l => filteredMessages c l) (pre ++ [(k, l)]) ++ es)
    by (unfold jm_map_values; rewrite map_app, <-app_assoc; done).
  rewrite IH by (by rewrite <-app_assoc). rewrite <-app_assoc. f_equal. simpl. lia.
Qed.

Lemma cleanup_unfold now msgs :
  jm_wf msgs ->
  cleanup now msgs = (retained now msgs, sum_list_with (cleaned_count (now - two_hours)) msgs).
Proof.
  intros Hwf. unfold cleanup, retained.
  apply (clean_rooms_retained _ [] msgs 0 Hwf).
Qed.

Lemma sum_cleaned c (es : jsmap string (list message)) :
  sum_list_with (cleaned_count c) es +
    sum_list_with length (jm_values (jm_map_values (fun _ l => filteredMessages c l) es)) =
  sum_list_with length (jm_values es).
Proof.
  induction es as [|[k l] es IH]; simpl; [done|].
  pose proof (sublist_length _ _ (filteredMessages_sublist c l)).
  unfold cleaned_count in *; simpl. lia.
Qed.
Lemma retained_wf now msgs : jm_wf msgs -> jm_wf (retained now msgs).
Proof. unfold jm_wf, retained. by autorewrite with chat_rw. Qed.

Lemma cleaned_count_filtered c (es : jsmap string (list message)) :
  sum_list_with (cleaned_count c) (jm_map_values (fun _ l => filteredMessages c l) es) = 0.
Proof.
  induction es as [|[k l] es IH]; simpl; [done|].
  unfold cleaned_count at 1; simpl. rewrite filteredMessages_idem, IH. lia.
Qed.

(** C1. After a sweep at time [now], every room's log holds at most 100
    messages, each strictly newer than [now - 2h]. *)
Theorem cleanup_bounds now msgs k l :
  jm_wf msgs -> jm_get k (cleanup now msgs).1 = Some l ->
  length l <= max_kept /\ Forall (fun m => (now - two_hours < timestamp m)%Z) l.
Proof.
  intros Hwf. rewrite cleanup_unfold by done. simpl.
  unfold retained. rewrite jm_get_map_values.
  destruct (jm_get k msgs) as [l0|]; intros; simplify_eq/=.
  split; [apply js_slice_neg_le|apply filteredMessages_recent].
Qed.

Lemma cleanup_bounds_witness :
  length [sample_message "general" 9000000] <= max_kept /\
  Forall (fun m => (9000000 - two_hours < timestamp m)%Z) [sample_message "general" 9000000].
Proof.
  apply (cleanup_bounds 9000000 [("general", [sample_message "general" 0;
    sample_message "general" 9000000])] "general").
  - vm_compute. repeat constructor; set_solver.
  - vm_compute. reflexivity.
Defined.

(** C36. The sweep loop, which writes a room back only when its filtered
    log is shorter, yields the same [messages] map as replacing every
    room's log by its filtered log. *)
Theorem cleanup_equiv now msgs :
  jm_wf msgs -> (cleanup now msgs).1 = retained now msgs.
Proof. intros Hwf. by rewrite cleanup_unfold. Qed.

Lemma cleanup_equiv_witness :
  (cleanup 9000000 [("general", [sample_message "general" 0])]).1 =
  retained 9000000 [("general", [sample_message "general" 0])].
Proof. apply cleanup_equiv. vm_compute. repeat constructor; set_solver. Defined.

(** When at most 100 messages of a room are newer than [now - 2h],
    all of them survive the sweep, in their order. *)
Theorem cleanup_keeps_window now msgs k l :
  jm_wf msgs -> jm_get k msgs = Some l ->
  length (js_filter (is_recent (now - two_hours)) l) <= max_kept ->
  jm_get k (cleanup now msgs).1 = Some (js_filter (is_recent (now - two_hours)) l).
Proof.
  intros Hwf Hget Hlen. rewrite cleanup_unfold by done. simpl.
  unfold retained. rewrite jm_get_map_values, Hget. simpl.
  unfold filteredMessages. by rewrite js_slice_neg_short.
Qed.

Lemma cleanup_keeps_window_witness :
  jm_get "general" (cleanup 9000000 [("general", [sample_message "general" 0;
    sample_message "general" 9000000])]).1 =
  Some (js_filter (is_recent (9000000 - two_hours)) [sample_message "general" 0;
    sample_message "general" 9000000]).
Proof.
  apply cleanup_keeps_window; [vm_compute; repeat constructor; set_solver|done|].
  vm_compute. lia.
Defined.

(** [totalCleaned] is exactly the number of messages the sweep
    removed from the [messages] map. *)
Theorem cleanup_count now msgs :
  jm_wf msgs ->
  (cleanup now msgs).2 + total_messages (cleanup now msgs).1 = total_messages msgs.
Proof.
  intros Hwf. rewrite cleanup_unfold by done. simpl. apply sum_cleaned.
Qed.

Lemma cleanup_count_witness :
  (cleanup 9000000 [("general", [sample_message "general" 0])]).2 +
  total_messages (cleanup 9000000 [("general", [sample_message "general" 0])]).1 =
  total_messages [("general", [sample_message "general" 0])].
Proof. apply cleanup_count. vm_compute. repeat constructor; set_solver. Defined.

(** A second sweep at the same time changes nothing and counts no
    removed message. *)
Theorem cleanup_idempotent now msgs :
  jm_wf msgs ->
  cleanup now (cleanup now msgs).1 = ((cleanup now msgs).1, 0).
Proof.
  intros Hwf. rewrite (cleanup_unfold now msgs Hwf). simpl.
  rewrite cleanup_unfold by (by apply retained_wf). f_equal.
  - unfold retained, jm_map_values. rewrite map_map. apply map_ext.
    intros [k l]. simpl. by rewrite filteredMessages_idem.
  - apply cleaned_count_filtered.
Qed.

Lemma cleanup_idempotent_witness :
  cleanup 9000000 (cleanup 9000000 [("general", [sample_message "general" 0])]).1 =
  ((cleanup 9000000 [("general", [sample_message "general" 0])]).1, 0).
Proof. apply cleanup_idempotent. vm_compute. repeat constructor; set_solver. Defined.

(** The sweep keeps a room's surviving messages in their original
    order and invents none: each room's new log is a sublist of its old
    one, so a chronological log stays chronological. *)
Theorem cleanup_sublist now msgs k l' :
  jm_wf msgs -> jm_get k (cleanup now msgs).1 = Some l' ->
  exists l, jm_get k msgs = Some l /\ sublist l' l /\
            (chronological l -> chronological l').
Proof.
  intros Hwf. rewrite cleanup_unfold by done. simpl.
  unfold retained. rewrite jm_get_map_values.
  destruct (jm_get k msgs) as [l|]; intros; simplify_eq/=.
  exists l. split_and!; [done|apply filteredMessages_sublist|].
  apply StronglySorted_sublist, filteredMessages_sublist.
Qed.

Lemma cleanup_sublist_witness :
  exists l, jm_get "general" [("general", [sample_message "general" 0])] = Some l /\
    sublist [] l /\ (chronological l -> chronological []).
Proof.
  apply (cleanup_sublist 9000000 [("general", [sample_message "general" 0])]).
  - vm_compute. repeat constructor; set_solver.
  - vm_compute. reflexivity.
Defined.

(** The comment above the filter (server.js 81) promises to keep "the
    last 100 messages or the messages of the last two hours"; the code
    keeps only messages that are both.  A room whose single message is
    three hours old loses it. *)
Theorem cleanup_drops_old_within_last_100 :
  jm_get "general" (cleanup (3 * 60 * 60 * 1000) [("general", [sample_message "general" 0])]).1
    = Some [].
Proof. vm_compute. reflexivity. Qed.
End Retention.
