(* ===== verification/Presence.v ===== *)
(** The presence registry [connectedUsers] of server.js (line 254): a
    [Map] from user id to [{ socketId, user, status: 'online' }].  The
    connection handler sets the entry of the connecting user (lines
    260-264); the disconnect handler deletes the entry of the
    disconnecting socket's user, whichever socket the entry names (line
    335); the [users-list] payload is the map's values in insertion order
    (lines 276-280); [/api/stats] reports its size (line 224).
    [unregister_guarded] is the registry of the spec (4.4), which deletes
    only when the entry still names the disconnecting socket. *)

From S2P Require Import Prelude JsMap Model.

Module Presence.

Abbreviation registry := (jsmap string presence_entry).

(** [connectedUsers.set(socket.user.id, {...})] (server.js 260-264). *)
Definition register (u : identity) (sid : string) (cu : registry) : registry :=
  jm_set (id u) {| socketId := sid; pe_user := u; pe_status := "online" |} cu.

(** [connectedUsers.delete(socket.user.id)] (server.js 335). *)
Definition unregister (u : identity) (cu : registry) : registry :=
  jm_delete (id u) cu.

(** [Array.from(connectedUsers.values()).map(...)] (server.js 276-280). *)
Definition summary (e : presence_entry) : user_summary :=
  {| us_id := id (pe_user e); us_displayName := displayName (pe_user e);
     us_status := pe_status e |}.

Definition onlineUsers (cu : registry) : list user_summary :=
  map summary (jm_values cu).

(** [connectedUsers.size] (server.js 224). *)
Definition onlineCount (cu : registry) : nat := length cu.

(** The spec's [unregister(identity, connectionId)] (4.4): remove only
    when the stored connection is the disconnecting one. *)
Definition unregister_guarded (u : identity) (sid : string) (cu : registry) : registry :=
  match jm_get (id u) cu with
  | Some e => if decide (socketId e = sid) then jm_delete (id u) cu else cu
  | None => cu
  end.

(** The registry is well formed: keys are unique and every entry is
    stored under its own user's id. *)
Definition registry_ok (cu : registry) : Prop :=
  jm_wf cu /\ Forall (fun kv => id (pe_user kv.2) = kv.1) cu.

Lemma register_get u sid cu :
  jm_get (id u) (register u sid cu) =
    Some {| socketId := sid; pe_user := u; pe_status := "online" |}.
Proof. apply jm_get_set_eq. Qed.

Lemma register_get_ne u sid cu k :
  id u <> k -> jm_get k (register u sid cu) = jm_get k cu.
Proof. apply jm_get_set_ne. Qed.

Lemma unregister_get u cu : jm_get (id u) (unregister u cu) = None.
Proof. apply jm_get_delete_eq. Qed.

Lemma unregister_get_ne u cu k :
  id u <> k -> jm_get k (unregister u cu) = jm_get k cu.
Proof. apply jm_get_delete_ne. Qed.

Lemma Forall_jm_set {V} (P : string * V -> Prop) (m : jsmap string V) k v :
  Forall P m -> P (k, v) -> Forall P (jm_set k v m).
Proof.
  induction 1 as [|[k0 v0] m Hx Hm IH]; simpl; [by repeat constructor|].
  intros Hp. case_decide; subst; constructor; auto.
Qed.

Lemma Forall_jm_delete {V} (P : string * V -> Prop) (m : jsmap string V) k :
  Forall P m -> Forall P (jm_delete k m).
Proof. unfold jm_delete. induction 1; simpl; [constructor|]. destruct (negb _); auto. Qed.

Lemma register_ok u sid cu : registry_ok cu -> registry_ok (register u sid cu).
Proof.
  intros [Hwf Hall]. split; [eauto with chat|by apply Forall_jm_set].
Qed.

Lemma unregister_ok u cu : registry_ok cu -> registry_ok (unregister u cu).
Proof.
  intros [Hwf Hall]. split; [eauto with chat|by apply Forall_jm_delete].
Qed.

Lemma unregister_guarded_ok u sid cu :
  registry_ok cu -> registry_ok (unregister_guarded u sid cu).
Proof.
  unfold unregister_guarded. destruct (jm_get _ _); [|done].
  case_decide; [apply unregister_ok|done].
Qed.

Lemma registry_ok_get cu k e :
  registry_ok cu -> jm_get k cu = Some e -> id (pe_user e) = k.
Proof.
  intros [_ Hall] Hget%jm_get_In. rewrite Forall_forall in Hall.
  apply (Hall (k, e)). by apply list_elem_of_In.
Qed.

(** A new user's summary is appended to the end of [users-list]. *)
Lemma onlineUsers_register_new u sid cu :
  jm_get (id u) cu = None ->
  onlineUsers (register u sid cu) =
    onlineUsers cu ++ [{| us_id := id u; us_displayName := displayName u;
                          us_status := "online" |}].
Proof.
  intros Hnone. unfold onlineUsers, register.
  rewrite jm_values_set_has; [by rewrite map_app|].
  unfold jm_has. by rewrite Hnone.
Qed.
End Presence.
