(* ===== verification/Broadcast.v ===== *)
(** The Socket.IO operations server.js uses, on the map of live sockets:
    [socket.join(r)] adds [r] to the socket's room [Set]; the four emit
    forms deliver an event to a set of live sockets, each delivery an
    append to that socket's inbox.  [emit_where P] is the common shape;
    the forms differ only in the predicate that picks the recipients:
    - [socket.emit(e)]: the socket itself (server.js 281);
    - [socket.broadcast.emit(e)]: every other socket (lines 270, 337);
    - [io.to(r).emit(e)]: every socket in room [r], the sender included
      (line 310);
    - [socket.to(r).emit(e)]: every socket in room [r] but the sender
      (lines 315, 324).
    Deliveries of one emit are one step; the server is single-threaded, so
    two emits reach a socket in the order they were made. *)

From S2P Require Import Prelude JsMap Model.

Module Broadcast.

Abbreviation sockmap := (jsmap string socket).

(** Append [ev] to the socket's inbox. *)
Definition deliver (ev : out_event) (s : socket) : socket :=
  {| sock_user := sock_user s; sock_rooms := sock_rooms s;
     sock_inbox := sock_inbox s ++ [ev] |}.

(** Is the socket in room [r]? ([socket.rooms.has(r)]) *)
Definition in_room (r : string) (s : socket) : bool := jset_has r (sock_rooms s).

(** Deliver [ev] to every live socket [k] with [P k s]. *)
Definition emit_where (P : string -> socket -> bool) (ev : out_event) (socks : sockmap)
    : sockmap :=
  jm_map_values (fun k s => if P k s then deliver ev s else s) socks.

(** [socket.emit(ev)] from socket [sid]. *)
Definition emit_self (sid : string) : out_event -> sockmap -> sockmap :=
  emit_where (fun k _ => bool_decide (k = sid)).

(** [socket.broadcast.emit(ev)] from socket [sid]. *)
Definition broadcast_from (sid : string) : out_event -> sockmap -> sockmap :=
  emit_where (fun k _ => negb (bool_decide (k = sid))).

(** [io.to(r).emit(ev)]. *)
Definition to_room (r : string) : out_event -> sockmap -> sockmap :=
  emit_where (fun _ s => in_room r s).

(** [socket.to(r).emit(ev)] from socket [sid]. *)
Definition to_room_from (sid r : string) : out_event -> sockmap -> sockmap :=
  emit_where (fun k s => in_room r s && negb (bool_decide (k = sid))).

(** [socket.join(r)] for socket [sid]. *)
Definition join (sid r : string) (socks : sockmap) : sockmap :=
  jm_alter (fun s => {| sock_user := sock_user s; sock_rooms := jset_add r (sock_rooms s);
                        sock_inbox := sock_inbox s |}) sid socks.

Lemma emit_where_get P ev socks k :
  jm_get k (emit_where P ev socks) =
    (fun s => if P k s then deliver ev s else s) <$> jm_get k socks.
Proof. apply jm_get_map_values. Qed.

Lemma emit_where_keys P ev socks : jm_keys (emit_where P ev socks) = jm_keys socks.
Proof. apply jm_keys_map_values. Qed.

Lemma emit_where_wf P ev socks : jm_wf socks -> jm_wf (emit_where P ev socks).
Proof. unfold jm_wf. by rewrite emit_where_keys. Qed.

(** What an emit does to one socket: its user and rooms are unchanged,
    and its inbox gains [ev] exactly when it is a recipient. *)
Lemma emit_where_socket P ev socks k s :
  jm_get k socks = Some s ->
  exists s', jm_get k (emit_where P ev socks) = Some s' /\
    sock_user s' = sock_user s /\ sock_rooms s' = sock_rooms s /\
    sock_inbox s' = sock_inbox s ++ (if P k s then [ev] else []).
Proof.
  intros Hget. rewrite emit_where_get, Hget. simpl. eexists; split; [done|].
  destruct (P k s); simpl; by rewrite ?app_nil_r.
Qed.

Lemma join_get sid r socks k :
  jm_get k (join sid r socks) =
    if decide (k = sid)
    then (fun s => {| sock_user := sock_user s; sock_rooms := jset_add r (sock_rooms s);
                      sock_inbox := sock_inbox s |}) <$> jm_get k socks
    else jm_get k socks.
Proof. apply jm_get_alter. Qed.

Lemma join_wf sid r socks : jm_wf socks -> jm_wf (join sid r socks).
Proof. unfold jm_wf, join. by rewrite jm_keys_alter. Qed.
End Broadcast.

#[export] Hint Resolve Broadcast.emit_where_wf Broadcast.join_wf : chat.
