(* ===== verification/Session.v ===== *)
(** The Socket.IO side of server.js: the authentication middleware (lines
    239-252), the [connection] handler (256-281) and the handlers it
    installs on the socket: [join-room] (284-287), [send-message]
    (290-311), [typing-start] (314-320), [typing-stop] (323-329) and
    [disconnect] (332-341); and the sweeper tick (74-98) on the shared
    [messages] map.  [handle] is the event loop: each inbound event runs
    to completion on the process state before the next one.  [reachable]
    is the set of states the loop can reach from start-up, and
    [treachable] the same with a clock that never goes back.

    [jwt.verify(token, JWT_SECRET, cb)] is the Section variable [verify]:
    given the token and the current time it yields the payload or fails
    (bad signature, expired).  Socket.IO gives each connection a fresh id;
    events for a socket id that is not live (or a second connection with
    a live id) have no handler and leave the state unchanged. *)

From S2P Require Import Prelude JsMap Model Retention Presence Broadcast.

Module Session.

Section Handlers.
Variable verify : string -> Z -> option identity.

(** The [io.use] middleware: a missing token or a token that
    [jwt.verify] rejects is an [Authentication error]; otherwise the
    payload becomes [socket.user] (server.js 239-252). *)
Definition authenticate (token : string) (now : Z) : option identity :=
  if String.eqb token "" then None else verify token now.

(** [io.on('connection', ...)] for a new socket [sid] of user [u]
    (server.js 256-281).  Socket.IO has already added the socket to
    the live sockets, in the room named by its id. *)
Definition on_connection (sid : string) (u : identity) (st : server) : server :=
  let socks0 := jm_set sid {| sock_user := u; sock_rooms := [sid]; sock_inbox := [] |}
                  (sockets st) in
  let cu := Presence.register u sid (connectedUsers st) in
  let socks1 := Broadcast.join sid "general" socks0 in
  let socks2 := Broadcast.broadcast_from sid (UserOnline (id u) (displayName u)) socks1 in
  let socks3 := Broadcast.emit_self sid (UsersList (Presence.onlineUsers cu)) socks2 in
  {| users := users st; rooms := rooms st; messages := messages st;
     connectedUsers := cu; sockets := socks3 |}.

(** [socket.on('join-room', roomId => socket.join(roomId))]
    (server.js 284-287). *)
Definition on_join_room (sid roomId : string) (st : server) : server :=
  set_sockets (Broadcast.join sid roomId) st.

(** The message built by [send-message] (server.js 291-301). *)
Definition make_message (u : identity) (data : send_data) (now : Z) : message :=
  {| msg_id := pretty now; msg_roomId := d_roomId data; senderId := id u;
     senderName := displayName u; content := d_content data;
     msg_type := default "text" (d_type data); timestamp := now |}.

(** [if (!messages.has(roomId)) messages.set(roomId, []);
    messages.get(roomId).push(message)] (server.js 304-307). *)
Definition append_message (m : message) (msgs : jsmap string (list message))
    : jsmap string (list message) :=
  let msgs' := if jm_has (msg_roomId m) msgs then msgs else jm_set (msg_roomId m) [] msgs in
  jm_set (msg_roomId m) (default [] (jm_get (msg_roomId m) msgs') ++ [m]) msgs'.

(** [socket.on('send-message', ...)] (server.js 290-311). *)
Definition on_send_message (sid : string) (u : identity) (data : send_data) (now : Z)
    (st : server) : server :=
  let m := make_message u data now in
  let st' := set_messages (append_message m) st in
  set_sockets (Broadcast.to_room (d_roomId data) (NewMessage m)) st'.

(** [socket.to(roomId).emit('user-typing', {..., typing})]. *)
Definition typing_event (sid : string) (u : identity) (roomId : string) (typing : bool)
    (st : server) : server :=
  set_sockets (Broadcast.to_room_from sid roomId
                 (UserTyping (id u) (displayName u) typing)) st.

(** [socket.on('typing-start', ...)] (server.js 314-320). *)
Definition on_typing_start (sid : string) (u : identity) (roomId : string) (st : server)
    : server :=
  typing_event sid u roomId true st.

(** [socket.on('typing-stop', ...)] (server.js 323-329). *)
Definition on_typing_stop (sid : string) (u : identity) (roomId : string) (st : server)
    : server :=
  typing_event sid u roomId false st.

(** [socket.on('disconnect', ...)] (server.js 332-341).  Socket.IO has
    removed the socket from the live sockets and from its rooms before
    the handler runs. *)
Definition on_disconnect (sid : string) (u : identity) (st : server) : server :=
  let socks := jm_delete sid (sockets st) in
  {| users := users st; rooms := rooms st; messages := messages st;
     connectedUsers := Presence.unregister u (connectedUsers st);
     sockets := Broadcast.broadcast_from sid (UserOffline (id u) (displayName u)) socks |}.

(** One tick of [setInterval] (server.js 74-98). *)
Definition on_sweep (now : Z) (st : server) : server :=
  set_messages (fun msgs => (Retention.cleanup now msgs).1) st.

(** Inbound events. *)
Inductive event :=
| EvConnect (sid token : string) (now : Z)
| EvJoinRoom (sid roomId : string)
| EvSendMessage (sid : string) (data : send_data) (now : Z)
| EvTypingStart (sid roomId : string)
| EvTypingStop (sid roomId : string)
| EvDisconnect (sid : string)
| EvSweep (now : Z).

(** Run the handler of the event's socket, if it is live. *)
Definition with_socket (sid : string) (st : server) (h : identity -> server) : server :=
  match jm_get sid (sockets st) with
  | Some s => h (sock_user s)
  | None => st
  end.

(** The event loop: one event handled to completion. *)
Definition handle (st : server) (ev : event) : server :=
  match ev with
  | EvConnect sid token now =>
      match authenticate token now with
      | Some u => if jm_has sid (sockets st) then st else on_connection sid u st
      | None => st
      end
  | EvJoinRoom sid roomId => with_socket sid st (fun _ => on_join_room sid roomId st)
  | EvSendMessage sid data now =>
      with_socket sid st (fun u => on_send_message sid u data now st)
  | EvTypingStart sid roomId => with_socket sid st (fun u => on_typing_start sid u roomId st)
  | EvTypingStop sid roomId => with_socket sid st (fun u => on_typing_stop sid u roomId st)
  | EvDisconnect sid => with_socket sid st (fun u => on_disconnect sid u st)
  | EvSweep now => on_sweep now st
  end.

(** A sequence of events, handled in order. *)
Definition run (st : server) (evs : list event) : server := foldl handle st evs.

(** The states reachable from start-up at time [t0]. *)
Inductive reachable (t0 : Z) : server -> Prop :=
| reach_init : reachable t0 (init_server t0)
| reach_step st ev : reachable t0 st -> reachable t0 (handle st ev).

(** The time an event carries, if it reads the clock. *)
Definition event_time (ev : event) : option Z :=
  match ev with
  | EvConnect _ _ now | EvSendMessage _ _ now | EvSweep now => Some now
  | _ => None
  end.

(** Reachable states with a clock that never goes back: [t] bounds
    every time read so far. *)
Inductive treachable (t0 : Z) : Z -> server -> Prop :=
| treach_init : treachable t0 t0 (init_server t0)
| treach_step t st ev :
    treachable t0 t st ->
    (forall now, event_time ev = Some now -> (t <= now)%Z) ->
    treachable t0 (default t (event_time ev)) (handle st ev).
End Handlers.

(** Every live socket of [socks] is still live in [socks'], with the
    same user. *)
Definition sockets_grow (socks socks' : jsmap string socket) : Prop :=
  forall k s, jm_get k socks = Some s ->
    exists s', jm_get k socks' = Some s' /\ sock_user s' = sock_user s.

(** Every presence entry names a live socket of its user. *)
Definition registry_sound (cu : jsmap string presence_entry)
    (socks : jsmap string socket) : Prop :=
  forall k e, jm_get k cu = Some e ->
    exists s, jm_get (socketId e) socks = Some s /\ sock_user s = pe_user e.

(** Every message of a room's log names that room. *)
Definition log_consistent (msgs : jsmap string (list message)) : Prop :=
  forall r l, jm_get r msgs = Some l -> Forall (fun m => msg_roomId m = r) l.

(** The invariant of the process state. *)
Definition state_ok (st : server) : Prop :=
  jm_wf (sockets st) /\ Presence.registry_ok (connectedUsers st) /\
  registry_sound (connectedUsers st) (sockets st) /\
  jm_wf (messages st) /\ log_consistent (messages st).

(** Each identity has at most one live socket. *)
Definition single_session (socks : jsmap string socket) : Prop :=
  forall k1 k2 s1 s2, jm_get k1 socks = Some s1 -> jm_get k2 socks = Some s2 ->
    id (sock_user s1) = id (sock_user s2) -> k1 = k2.

(** Two users and a token table, for the examples. *)
Definition alice : identity :=
  {| id := "1700000000001"; email := "alice@example.com"; displayName := "alice" |}.
Definition bob : identity :=
  {| id := "1700000000002"; email := "bob@example.com"; displayName := "bob" |}.
Definition demo_verify (token : string) (now : Z) : option identity :=
  if String.eqb token "tokA" then Some alice
  else if String.eqb token "tokB" then Some bob else None.

(** Every socket live in both maps keeps its user and only gains inbox
    events at the end. *)
Definition inbox_extends (socks socks' : jsmap string socket) : Prop :=
  forall k s s', jm_get k socks = Some s -> jm_get k socks' = Some s' ->
    sock_user s' = sock_user s /\ prefix (sock_inbox s) (sock_inbox s').

(** States and sockets of the examples: Alice connected on [s1], then Bob
    on [s2]. *)
Definition demo_st1 : server := handle demo_verify (init_server 0) (EvConnect "s1" "tokA" 1).
Definition demo_st2 : server :=
  run demo_verify (init_server 0) [EvConnect "s1" "tokA" 1; EvConnect "s2" "tokB" 2].
Definition demo_socket (st : server) (sid : string) : socket :=
  default {| sock_user := alice; sock_rooms := []; sock_inbox := [] |} (jm_get sid (sockets st)).
Definition demo_hi : send_data := {| d_roomId := "general"; d_content := "hi"; d_type := None |}.
Definition demo_yo : send_data := {| d_roomId := "general"; d_content := "yo"; d_type := None |}.

(** Every room's log is chronological and stamped no later than [t]. *)
Definition msgs_timed (t : Z) (msgs : jsmap string (list message)) : Prop :=
  forall r l, jm_get r msgs = Some l ->
    Retention.chronological l /\ Forall (fun m => (timestamp m <= t)%Z) l.

(** Sockets evolve: live ones stay live with their user, and their inbox
    only grows at the end. *)
Definition sockets_evolve (socks socks' : jsmap string socket) : Prop :=
  sockets_grow socks socks' /\ inbox_extends socks socks'.

#[export] Instance sockets_grow_preorder : PreOrder sockets_grow.
Proof.
  split.
  - intros socks k s Hs. by exists s.
  - intros a b c Hab Hbc k s Hs.
    destruct (Hab k s Hs) as (s1 & H1 & <-). destruct (Hbc k s1 H1) as (s2 & H2 & <-).
    by exists s2.
Qed.

Lemma emit_where_grow P ev socks : sockets_grow socks (Broadcast.emit_where P ev socks).
Proof.
  intros k s Hs. destruct (Broadcast.emit_where_socket P ev socks k s Hs) as (s' & ? & ? & _).
  by exists s'.
Qed.

Lemma join_grow sid r socks : sockets_grow socks (Broadcast.join sid r socks).
Proof.
  intros k s Hs. rewrite Broadcast.join_get, Hs. case_decide; simpl; by eexists.
Qed.

Lemma set_fresh_grow sid s0 (socks : jsmap string socket) :
  jm_has sid socks = false -> sockets_grow socks (jm_set sid s0 socks).
Proof.
  intros Hfresh k s Hs. exists s. split; [|done].
  rewrite jm_get_set_ne; [done|]. intros ->. unfold jm_has in Hfresh. by rewrite Hs in Hfresh.
Qed.

Lemma registry_sound_grow cu socks socks' :
  sockets_grow socks socks' -> registry_sound cu socks -> registry_sound cu socks'.
Proof.
  intros Hg Hs k e He. destruct (Hs k e He) as (s & Hget & Hu).
  destruct (Hg _ _ Hget) as (s' & ? & ?). exists s'. split; congruence.
Qed.

#[export] Instance registry_sound_proper cu :
  Proper (sockets_grow ==> impl) (registry_sound cu).
Proof. intros socks socks' Hg Hs. by eapply registry_sound_grow. Qed.

Lemma join_user_get sid r socks s :
  jm_get sid socks = Some s ->
  exists s', jm_get sid (Broadcast.join sid r socks) = Some s' /\ sock_user s' = sock_user s /\
             sock_rooms s' = jset_add r (sock_rooms s) /\ sock_inbox s' = sock_inbox s.
Proof. intros Hs. rewrite Broadcast.join_get, decide_True, Hs by done. by eexists. Qed.

Lemma state_ok_sockets st f :
  state_ok st -> jm_wf (f (sockets st)) -> sockets_grow (sockets st) (f (sockets st)) ->
  state_ok (set_sockets f st).
Proof.
  intros (Hw & Hr & Hs & Hmw & Hlc) Hw' Hg. split_and!; simpl; try done.
  by eapply registry_sound_grow.
Qed.

Lemma emit_where_ok st P ev :
  state_ok st -> state_ok (set_sockets (Broadcast.emit_where P ev) st).
Proof.
  intros Hok. apply state_ok_sockets; [done| |apply emit_where_grow].
  apply Broadcast.emit_where_wf, Hok.
Qed.

Lemma append_message_get m msgs r :
  jm_get r (append_message m msgs) =
    if decide (r = msg_roomId m) then Some (default [] (jm_get r msgs) ++ [m])
    else jm_get r msgs.
Proof.
  unfold append_message. case_decide as Hr.
  - subst. rewrite jm_get_set_eq. f_equal. unfold jm_has.
    destruct (jm_get (msg_roomId m) msgs) eqn:E; [by rewrite E|by rewrite jm_get_set_eq].
  - rewrite jm_get_set_ne by congruence. unfold jm_has.
    destruct (jm_get (msg_roomId m) msgs); [done|]. by rewrite jm_get_set_ne by congruence.
Qed.

Lemma append_message_wf m msgs : jm_wf msgs -> jm_wf (append_message m msgs).
Proof.
  intros Hw. unfold append_message. destruct (jm_has _ _); eauto with chat.
Qed.

Lemma append_message_consistent m msgs :
  log_consistent msgs -> log_consistent (append_message m msgs).
Proof.
  intros Hlc r l. rewrite append_message_get. case_decide as Hr; [|apply Hlc].
  intros [= <-]. apply Forall_app. split; [|by constructor].
  destruct (jm_get r msgs) as [l0|] eqn:E; simpl; [by apply Hlc|constructor].
Qed.

Lemma on_send_message_ok sid u data now st :
  state_ok st -> state_ok (on_send_message sid u data now st).
Proof.
  intros Hok. unfold on_send_message, Broadcast.to_room. apply emit_where_ok.
  destruct Hok as (Hw & Hr & Hs & Hmw & Hlc). split_and!; simpl; try done.
  - by apply append_message_wf.
  - by apply append_message_consistent.
Qed.

Lemma on_join_room_ok sid r st : state_ok st -> state_ok (on_join_room sid r st).
Proof.
  intros Hok. apply state_ok_sockets; [done| |apply join_grow].
  apply Broadcast.join_wf, Hok.
Qed.

Lemma typing_event_ok sid u r b st : state_ok st -> state_ok (typing_event sid u r b st).
Proof. apply emit_where_ok. Qed.

Lemma on_sweep_ok now st : state_ok st -> state_ok (on_sweep now st).
Proof.
  intros (Hw & Hr & Hs & Hmw & Hlc). unfold on_sweep, set_messages. simpl.
  rewrite Retention.cleanup_unfold by done.
  split_and!; simpl; try done; [by apply Retention.retained_wf|].
  intros r l. unfold Retention.retained. rewrite jm_get_map_values.
  destruct (jm_get r (messages st)) as [l0|] eqn:E; intros; simplify_eq/=.
  eapply Forall_sublist; [apply Retention.filteredMessages_sublist|by apply Hlc].
Qed.

Lemma on_connection_ok sid u st :
  jm_has sid (sockets st) = false -> state_ok st -> state_ok (on_connection sid u st).
Proof.
  intros Hfresh (Hw & Hr & Hs & Hmw & Hlc).
  set (s0 := {| sock_user := u; sock_rooms := [sid]; sock_inbox := [] |}).
  assert (sockets_grow (jm_set sid s0 (sockets st)) (sockets (on_connection sid u st))) as Hg.
  { simpl. unfold Broadcast.emit_self, Broadcast.broadcast_from.
    etrans; [apply join_grow|]. etrans; apply emit_where_grow. }
  split_and!; simpl; try done.
  - unfold Broadcast.emit_self, Broadcast.broadcast_from.
    eauto with chat.
  - by apply Presence.register_ok.
  - intros k e. destruct (decide (k = id u)) as [->|Hne].
    + rewrite Presence.register_get. intros [= <-]. simpl.
      destruct (Hg sid s0) as (s' & ? & ?); [apply jm_get_set_eq|]. by exists s'.
    + rewrite Presence.register_get_ne by congruence. intros He.
      eapply registry_sound_grow; [|by eapply registry_sound_grow, Hs; apply set_fresh_grow|done].
      exact Hg.
Qed.

Lemma on_disconnect_ok sid s st :
  jm_get sid (sockets st) = Some s -> state_ok st ->
  state_ok (on_disconnect sid (sock_user s) st).
Proof.
  intros Hsid (Hw & Hr & Hs & Hmw & Hlc).
  split_and!; simpl; try done.
  - eauto with chat.
  - by apply Presence.unregister_ok.
  - intros k e He. destruct (decide (k = id (sock_user s))) as [->|Hne].
    { by rewrite Presence.unregister_get in He. }
    rewrite Presence.unregister_get_ne in He by congruence.
    destruct (Hs k e He) as (s1 & Hs1 & Hu).
    assert (socketId e <> sid) as Hne'.
    { intros Heq. rewrite Heq, Hsid in Hs1. simplify_eq.
      apply Hne. rewrite Hu. symmetry. by eapply Presence.registry_ok_get. }
    destruct (emit_where_grow (fun k _ => negb (bool_decide (k = sid)))
      (UserOffline (id (sock_user s)) (displayName (sock_user s)))
      (jm_delete sid (sockets st)) (socketId e) s1) as (s2 & ? & ?).
    { by rewrite jm_get_delete_ne by congruence. }
    exists s2. split; [done|congruence].
Qed.

(** The invariant is preserved by every event. *)
Lemma handle_ok verify st ev : state_ok st -> state_ok (handle verify st ev).
Proof.
  intros Hok. destruct ev; simpl; unfold with_socket;
    try (destruct (jm_get _ (sockets st)) eqn:E; [|done]).
  - destruct (authenticate _ _ _); [|done].
    destruct (jm_has _ _) eqn:Hf; [done|]. by apply on_connection_ok.
  - by apply on_join_room_ok.
  - by apply on_send_message_ok.
  - by apply typing_event_ok.
  - by apply typing_event_ok.
  - by eapply on_disconnect_ok.
  - by apply on_sweep_ok.
Qed.

Lemma init_ok t0 : state_ok (init_server t0).
Proof.
  split_and!; [constructor|split; constructor|intros k e He; done|constructor|].
  intros r l He. done.
Qed.

Lemma reachable_ok verify t0 st : reachable verify t0 st -> state_ok st.
Proof. induction 1; [apply init_ok|by apply handle_ok]. Qed.

Lemma single_session_one k s : single_session [(k, s)].
Proof.
  intros k1 k2 s1 s2. simpl. do 2 case_decide; congruence.
Qed.

(** A connection the middleware accepts on a fresh socket id registers
    its user as online under that socket. *)
Lemma connect_accepted verify st sid tok now u :
  authenticate verify tok now = Some u -> jm_has sid (sockets st) = false ->
  let st' := handle verify st (EvConnect sid tok now) in
  jm_get (id u) (connectedUsers st') =
    Some {| socketId := sid; pe_user := u; pe_status := "online" |} /\
  option_map sock_user (jm_get sid (sockets st')) = Some u.
Proof.
  intros Ha Hf st'. unfold st', handle. rewrite Ha, Hf.
  unfold on_connection, Broadcast.emit_self, Broadcast.broadcast_from; simpl.
  split; [apply Presence.register_get|].
  rewrite !Broadcast.emit_where_get, Broadcast.join_get, decide_True, jm_get_set_eq by done.
  simpl. by case_match.
Qed.

Lemma with_socket_live sid st s (h : identity -> server) :
  jm_get sid (sockets st) = Some s -> with_socket sid st h = h (sock_user s).
Proof. unfold with_socket. by intros ->. Qed.

(** A connection leaves every other socket id as it was: live with the
    same user, or not live. *)
Lemma connect_get_ne verify st sid tok now k :
  k <> sid ->
  option_map sock_user (jm_get k (sockets (handle verify st (EvConnect sid tok now)))) =
  option_map sock_user (jm_get k (sockets st)).
Proof.
  intros Hne. unfold handle. destruct (authenticate _ _ _); [|done].
  destruct (jm_has _ _); [done|].
  unfold on_connection, Broadcast.emit_self, Broadcast.broadcast_from; simpl.
  rewrite !Broadcast.emit_where_get, Broadcast.join_get, decide_False, jm_get_set_ne by congruence.
  destruct (jm_get k (sockets st)); simpl; [by repeat case_match|done].
Qed.

Lemma connect_fresh_ne verify st sid tok now k :
  k <> sid -> jm_has k (sockets st) = false ->
  jm_has k (sockets (handle verify st (EvConnect sid tok now))) = false.
Proof.
  intros Hne. pose proof (connect_get_ne verify st sid tok now k Hne) as E. unfold jm_has.
  by destruct (jm_get k (sockets st)), (jm_get k (sockets (handle _ _ _))).
Qed.

(** [disconnect] of a live socket deletes the registry entry of its
    user's id, whichever socket the entry names. *)
Lemma disconnect_registry verify st sid s :
  jm_get sid (sockets st) = Some s ->
  connectedUsers (handle verify st (EvDisconnect sid)) =
    Presence.unregister (sock_user s) (connectedUsers st).
Proof. intros Hs. unfold handle. by rewrite (with_socket_live _ _ s). Qed.

(** [disconnect] of a live socket appends [user-offline] for its user to
    every other live socket, which keeps its user. *)
Lemma disconnect_other verify st sid s k sk :
  jm_get sid (sockets st) = Some s -> k <> sid -> jm_get k (sockets st) = Some sk ->
  exists sk', jm_get k (sockets (handle verify st (EvDisconnect sid))) = Some sk' /\
    sock_user sk' = sock_user sk /\
    sock_inbox sk' = sock_inbox sk ++ [UserOffline (id (sock_user s)) (displayName (sock_user s))].
Proof.
  intros Hs Hne Hk. unfold handle. rewrite (with_socket_live _ _ s) by done.
  unfold on_disconnect, Broadcast.broadcast_from; simpl.
  destruct (Broadcast.emit_where_socket (fun k _ => negb (bool_decide (k = sid)))
              (UserOffline (id (sock_user s)) (displayName (sock_user s)))
              (jm_delete sid (sockets st)) k sk) as (sk' & ? & ? & _ & Hi);
    [by rewrite jm_get_delete_ne by congruence|].
  exists sk'. split_and!; [done|done|]. by rewrite Hi, bool_decide_false.
Qed.

Lemma emit_where_extends P ev socks : inbox_extends socks (Broadcast.emit_where P ev socks).
Proof.
  intros k s s' Hs Hs'. destruct (Broadcast.emit_where_socket P ev socks k s Hs)
    as (s1 & H1 & Hu & _ & Hi). rewrite H1 in Hs'. simplify_eq. split; [done|].
  rewrite Hi. by eexists.
Qed.

Lemma handle_rooms verify st ev : rooms (handle verify st ev) = rooms st.
Proof.
  destruct ev; simpl; unfold with_socket;
    repeat (case_match; simpl); done.
Qed.

Lemma join_idem sid r socks :
  Broadcast.join sid r (Broadcast.join sid r socks) = Broadcast.join sid r socks.
Proof.
  apply jm_alter_idem. intros [u rs ib]. simpl. f_equal.
  apply jset_add_idem, jset_add_elem. by left.
Qed.

Lemma treachable_reachable verify t0 t st :
  treachable verify t0 t st -> reachable verify t0 st.
Proof. induction 1; [apply reach_init|by apply reach_step]. Qed.

Lemma msgs_timed_mono t t' msgs : (t <= t')%Z -> msgs_timed t msgs -> msgs_timed t' msgs.
Proof.
  intros Ht H r l Hl. destruct (H r l Hl) as [Hc Hf]. split; [done|].
  eapply Forall_impl; [done|]. simpl. lia.
Qed.

Lemma msgs_timed_append t m msgs :
  msgs_timed t msgs -> (t <= timestamp m)%Z -> msgs_timed (timestamp m) (append_message m msgs).
Proof.
  intros H Ht r l. rewrite append_message_get. case_decide as Hr.
  - intros [= <-]. destruct (jm_get r msgs) as [l0|] eqn:E; simpl.
    + destruct (H r l0 E) as [Hc Hf]. split.
      * apply StronglySorted_app. split_and!; [|done|by repeat constructor].
        intros x1 x2 Hx1 ->%list_elem_of_singleton. rewrite Forall_forall in Hf.
        specialize (Hf x1 Hx1). simpl in Hf. lia.
      * apply Forall_app. split; [|by repeat constructor].
        eapply Forall_impl; [done|]. simpl. lia.
    + split; [repeat constructor|]. constructor; [simpl; lia|constructor].
  - intros Hl. by apply (msgs_timed_mono t (timestamp m) msgs Ht H r l).
Qed.

Lemma msgs_timed_sweep t now msgs :
  jm_wf msgs -> msgs_timed t msgs -> msgs_timed t (Retention.cleanup now msgs).1.
Proof.
  intros Hwf H r l. rewrite Retention.cleanup_unfold by done. simpl.
  unfold Retention.retained. rewrite jm_get_map_values.
  destruct (jm_get r msgs) as [l0|] eqn:E; intros; simplify_eq/=.
  destruct (H r l0 E) as [Hc Hf]. split.
  - eapply StronglySorted_sublist; [apply Retention.filteredMessages_sublist|done].
  - eapply Forall_sublist; [apply Retention.filteredMessages_sublist|done].
Qed.

Lemma handle_timed verify st ev t :
  state_ok st -> msgs_timed t (messages st) ->
  (forall now, event_time ev = Some now -> (t <= now)%Z) ->
  msgs_timed (default t (event_time ev)) (messages (handle verify st ev)).
Proof.
  intros (_ & _ & _ & Hwf & _) H Ht. destruct ev; simpl in *; unfold with_socket;
    try (destruct (jm_get _ (sockets st)); simpl; done).
  - specialize (Ht now eq_refl). apply (msgs_timed_mono t); [done|].
    destruct (authenticate _ _ _); [|done]. by destruct (jm_has _ _).
  - specialize (Ht now eq_refl). destruct (jm_get _ (sockets st)) as [s|]; simpl;
      [by apply (msgs_timed_append t (make_message (sock_user s) data now))
      |by apply (msgs_timed_mono t)].
  - specialize (Ht now eq_refl). apply (msgs_timed_mono t); [done|].
    by apply msgs_timed_sweep.
Qed.

#[export] Instance sockets_evolve_preorder : PreOrder sockets_evolve.
Proof.
  split.
  - intros socks. split; [reflexivity|]. intros k s s' H1 H2. rewrite H1 in H2.
    simplify_eq. split; [done|reflexivity].
  - intros a b c [Gab Eab] [Gbc Ebc]. split; [by etrans|].
    intros k s s'' Ha Hc. destruct (Gab k s Ha) as (s1 & Hb & _).
    destruct (Eab k s s1 Ha Hb) as [Hu1 Hp1]. destruct (Ebc k s1 s'' Hb Hc) as [Hu2 Hp2].
    split; [congruence|by etrans].
Qed.

Lemma emit_where_evolve P ev socks : sockets_evolve socks (Broadcast.emit_where P ev socks).
Proof. split; [apply emit_where_grow|apply emit_where_extends]. Qed.

Lemma join_evolve sid r socks : sockets_evolve socks (Broadcast.join sid r socks).
Proof.
  split; [apply join_grow|]. intros k s s' Hs Hs'. rewrite Broadcast.join_get, Hs in Hs'.
  case_decide; simplify_eq/=; split; done.
Qed.

Lemma set_fresh_evolve sid s0 (socks : jsmap string socket) :
  jm_has sid socks = false -> sockets_evolve socks (jm_set sid s0 socks).
Proof.
  intros Hf. split; [by apply set_fresh_grow|]. intros k s s' Hs Hs'.
  rewrite jm_get_set_ne in Hs'; [by simplify_eq|].
  intros ->. unfold jm_has in Hf. by rewrite Hs in Hf.
Qed.

Lemma handle_evolve verify st ev :
  (forall sid, ev <> EvDisconnect sid) ->
  sockets_evolve (sockets st) (sockets (handle verify st ev)).
Proof.
  intros Hev. destruct ev; simpl; unfold with_socket;
    try (destruct (jm_get _ (sockets st)); simpl; [|reflexivity]).
  - destruct (authenticate _ _ _); [|reflexivity].
    destruct (jm_has sid (sockets st)) eqn:Hf; [reflexivity|]. simpl.
    unfold Broadcast.emit_self, Broadcast.broadcast_from.
    etrans; [by apply set_fresh_evolve|]. etrans; [apply join_evolve|].
    etrans; apply emit_where_evolve.
  - apply join_evolve.
  - apply emit_where_evolve.
  - apply emit_where_evolve.
  - apply emit_where_evolve.
  - by destruct (Hev sid).
  - reflexivity.
Qed.

Lemma send_socket_step verify st sid s d now k sk :
  jm_get sid (sockets st) = Some s -> jm_get k (sockets st) = Some sk ->
  exists sk', jm_get k (sockets (handle verify st (EvSendMessage sid d now))) = Some sk' /\
    sock_user sk' = sock_user sk /\ sock_rooms sk' = sock_rooms sk /\
    sock_inbox sk' = sock_inbox sk ++
      (if Broadcast.in_room (d_roomId d) sk
       then [NewMessage (make_message (sock_user s) d now)] else []).
Proof.
  intros Hs Hk. unfold handle. rewrite (with_socket_live _ _ s) by done.
  unfold on_send_message, set_sockets, set_messages, Broadcast.to_room; simpl.
  apply (Broadcast.emit_where_socket (fun _ s => Broadcast.in_room (d_roomId d) s)
           _ _ k sk Hk).
Qed.

(** C10. In every reachable state, every user the [users-list] payload
    would name has a live socket of that user: the roster never lists a
    user whose connections are all closed. *)
Theorem roster_sound verify t0 st us :
  reachable verify t0 st -> us ∈ Presence.onlineUsers (connectedUsers st) ->
  exists sid s, jm_get sid (sockets st) = Some s /\ id (sock_user s) = us_id us.
Proof.
  intros Hr Hin. destruct (reachable_ok _ _ _ Hr) as (_ & Hreg & Hs & _).
  unfold Presence.onlineUsers, jm_values in Hin.
  apply list_elem_of_fmap in Hin as (e & -> & Hin).
  apply list_elem_of_fmap in Hin as ([k e'] & -> & Hin). simpl.
  assert (jm_get k (connectedUsers st) = Some e') as Hget.
  { apply jm_wf_get; [apply Hreg|by apply list_elem_of_In]. }
  destruct (Hs k e' Hget) as (s & Hsock & Hu). exists (socketId e'), s.
  by rewrite Hu.
Qed.

Lemma roster_sound_witness :
  exists sid s, jm_get sid (sockets (handle demo_verify (init_server 0) (EvConnect "s1" "tokA" 1)))
    = Some s /\ id (sock_user s) = us_id (Presence.summary
        {| socketId := "s1"; pe_user := alice; pe_status := "online" |}).
Proof.
  apply (roster_sound demo_verify 0).
  - apply reach_step, reach_init.
  - vm_compute. left.
Defined.

(** C2. A stale disconnect evicts the newer session, where the spec
    (4.4, 9) requires a guarded delete.  Take any state with a live
    socket [sid1] of user [u], and let [u] connect again on a fresh
    socket [sid2] with a token the middleware accepts: the registry
    entry of [u] now names [sid2], so the spec's guarded unregister of
    [sid1] would leave it in place.  The code's disconnect of [sid1]
    deletes it all the same, while [sid2] stays live as [u] and the last
    event it receives says that [u] went offline. *)
Theorem stale_disconnect_evicts_new_session verify st sid1 s1 sid2 tok now :
  jm_get sid1 (sockets st) = Some s1 -> jm_has sid2 (sockets st) = false ->
  authenticate verify tok now = Some (sock_user s1) ->
  let u := sock_user s1 in
  let st1 := handle verify st (EvConnect sid2 tok now) in
  let st2 := handle verify st1 (EvDisconnect sid1) in
  jm_get (id u) (connectedUsers st1) =
    Some {| socketId := sid2; pe_user := u; pe_status := "online" |} /\
  Presence.unregister_guarded u sid1 (connectedUsers st1) = connectedUsers st1 /\
  jm_get (id u) (connectedUsers st2) = None /\
  exists s2, jm_get sid2 (sockets st2) = Some s2 /\ sock_user s2 = u /\
    last (sock_inbox s2) = Some (UserOffline (id u) (displayName u)).
Proof.
  intros Hs1 Hf Ha u st1 st2.
  assert (sid1 <> sid2) as Hne by (intros ->; unfold jm_has in Hf; by rewrite Hs1 in Hf).
  destruct (connect_accepted verify st sid2 tok now u Ha Hf) as [Hreg Hu2]. fold st1 in Hreg, Hu2.
  pose proof (connect_get_ne verify st sid2 tok now sid1 Hne) as Hu1. fold st1 in Hu1.
  rewrite Hs1 in Hu1.
  destruct (jm_get sid1 (sockets st1)) as [s1'|] eqn:E1; simpl in Hu1; simplify_eq.
  destruct (jm_get sid2 (sockets st1)) as [s2|] eqn:E2; simpl in Hu2; simplify_eq.
  split_and!.
  - done.
  - unfold Presence.unregister_guarded. rewrite Hreg. simpl. by rewrite decide_False by congruence.
  - unfold st2. rewrite (disconnect_registry _ _ _ s1') by done. rewrite Hu1.
    apply Presence.unregister_get.
  - destruct (disconnect_other verify st1 sid1 s1' sid2 s2) as (s2' & Hg & Hu & Hi); [done|congruence|done|].
    exists s2'. unfold st2. rewrite Hg, Hu, Hi, last_snoc, Hu1. split_and!; done.
Qed.

Lemma stale_disconnect_evicts_new_session_witness :
  let u := sock_user (demo_socket demo_st1 "s1") in
  let st1 := handle demo_verify demo_st1 (EvConnect "s2" "tokA" 2) in
  let st2 := handle demo_verify st1 (EvDisconnect "s1") in
  jm_get (id u) (connectedUsers st1) =
    Some {| socketId := "s2"; pe_user := u; pe_status := "online" |} /\
  Presence.unregister_guarded u "s1" (connectedUsers st1) = connectedUsers st1 /\
  jm_get (id u) (connectedUsers st2) = None /\
  exists s2, jm_get "s2" (sockets st2) = Some s2 /\ sock_user s2 = u /\
    last (sock_inbox s2) = Some (UserOffline (id u) (displayName u)).
Proof.
  apply (stale_disconnect_evicts_new_session demo_verify demo_st1 "s1" (demo_socket demo_st1 "s1"));
    vm_compute; reflexivity.
Defined.

(** C34. Refinement of the spec's registry: when every identity has at
    most one live socket, the code's unguarded [connectedUsers.delete]
    on disconnect removes exactly what the spec's guarded
    [unregister(identity, connectionId)] removes. *)
Theorem unregister_refines_guarded st sid s :
  state_ok st -> single_session (sockets st) -> jm_get sid (sockets st) = Some s ->
  Presence.unregister (sock_user s) (connectedUsers st) =
  Presence.unregister_guarded (sock_user s) sid (connectedUsers st).
Proof.
  intros (_ & Hreg & Hsound & _) Hsingle Hs. unfold Presence.unregister_guarded.
  destruct (jm_get (id (sock_user s)) (connectedUsers st)) as [e|] eqn:He.
  - case_decide as Hsid; [done|]. exfalso.
    destruct (Hsound _ _ He) as (s' & Hs' & Hu). apply Hsid.
    apply (Hsingle _ _ _ _ Hs' Hs). rewrite Hu. by eapply Presence.registry_ok_get.
  - by apply jm_delete_absent.
Qed.

Lemma unregister_refines_guarded_witness :
  let st := handle demo_verify (init_server 0) (EvConnect "s1" "tokA" 1) in
  Presence.unregister alice (connectedUsers st) =
  Presence.unregister_guarded alice "s1" (connectedUsers st).
Proof.
  simpl.
  apply (unregister_refines_guarded (handle demo_verify (init_server 0) (EvConnect "s1" "tokA" 1))
           "s1" {| sock_user := alice; sock_rooms := ["s1"; "general"];
                   sock_inbox := [UsersList [Presence.summary
                     {| socketId := "s1"; pe_user := alice; pe_status := "online" |}]] |}).
  - apply handle_ok, init_ok.
  - match goal with |- single_session ?x =>
      let y := eval vm_compute in x in change x with y end.
    apply single_session_one.
  - vm_compute. reflexivity.
Defined.

(** A connection whose token is missing or rejected by
    [jwt.verify] is refused ([Authentication error]) and changes
    nothing. *)
Theorem connect_rejected verify st sid token now :
  authenticate verify token now = None ->
  handle verify st (EvConnect sid token now) = st.
Proof. simpl. by intros ->. Qed.

Lemma connect_rejected_witness :
  handle demo_verify (init_server 0) (EvConnect "s1" "" 1) = init_server 0.
Proof. apply connect_rejected. reflexivity. Defined.

(** C5. [send-message] from a live socket builds a message whose sender
    is the socket's user and whose room is the requested one, appends it
    to the end of that room's log (creating the log if needed), leaves
    the registry alone, and delivers it once, at the end of its inbox, to
    every socket in the room, the sender included; no other socket gets
    anything.  Neither membership, nor the room's existence, nor the
    content is checked. *)
Theorem send_message_spec verify st sid s d now :
  jm_get sid (sockets st) = Some s ->
  let m := make_message (sock_user s) d now in
  let st' := handle verify st (EvSendMessage sid d now) in
  jm_get (d_roomId d) (messages st') =
    Some (default [] (jm_get (d_roomId d) (messages st)) ++ [m]) /\
  senderId m = id (sock_user s) /\ msg_roomId m = d_roomId d /\
  connectedUsers st' = connectedUsers st /\
  (forall k sk, jm_get k (sockets st) = Some sk ->
     exists sk', jm_get k (sockets st') = Some sk' /\ sock_rooms sk' = sock_rooms sk /\
       sock_inbox sk' = sock_inbox sk ++
         (if Broadcast.in_room (d_roomId d) sk then [NewMessage m] else [])).
Proof.
  intros Hs m st'. split_and!; try done.
  - unfold st', handle. rewrite (with_socket_live _ _ s) by done. simpl.
    rewrite append_message_get, decide_True; done.
  - unfold st', handle. by rewrite (with_socket_live _ _ s).
  - intros k sk Hk. destruct (send_socket_step verify st sid s d now k sk Hs Hk)
      as (sk' & ? & _ & ? & ?). by exists sk'.
Qed.

Lemma send_message_spec_witness :
  let m := make_message (sock_user (demo_socket demo_st1 "s1")) demo_hi 5 in
  let st' := handle demo_verify demo_st1 (EvSendMessage "s1" demo_hi 5) in
  jm_get (d_roomId demo_hi) (messages st') =
    Some (default [] (jm_get (d_roomId demo_hi) (messages demo_st1)) ++ [m]) /\
  senderId m = id (sock_user (demo_socket demo_st1 "s1")) /\ msg_roomId m = d_roomId demo_hi /\
  connectedUsers st' = connectedUsers demo_st1 /\
  (forall k sk, jm_get k (sockets demo_st1) = Some sk ->
     exists sk', jm_get k (sockets st') = Some sk' /\ sock_rooms sk' = sock_rooms sk /\
       sock_inbox sk' = sock_inbox sk ++
         (if Broadcast.in_room (d_roomId demo_hi) sk then [NewMessage m] else [])).
Proof. apply send_message_spec. vm_compute. reflexivity. Defined.

(** C4. Per-room delivery order is send order: when two live sockets
    send to the same room one after the other, every socket in that
    room receives the first message and then the second, at the end of
    its inbox. *)
Theorem room_order verify st sid1 sid2 s1 s2 d1 d2 t1 t2 k sk :
  jm_get sid1 (sockets st) = Some s1 -> jm_get sid2 (sockets st) = Some s2 ->
  d_roomId d2 = d_roomId d1 ->
  jm_get k (sockets st) = Some sk -> Broadcast.in_room (d_roomId d1) sk = true ->
  exists sk', jm_get k (sockets (run verify st [EvSendMessage sid1 d1 t1;
                                               EvSendMessage sid2 d2 t2])) = Some sk' /\
    sock_inbox sk' = sock_inbox sk ++ [NewMessage (make_message (sock_user s1) d1 t1);
                                       NewMessage (make_message (sock_user s2) d2 t2)].
Proof.
  intros Hs1 Hs2 Hr Hk Hin. unfold run; simpl.
  destruct (send_socket_step verify st sid1 s1 d1 t1 sid2 s2 Hs1 Hs2) as (s2' & Hs2' & Hu2 & _).
  destruct (send_socket_step verify st sid1 s1 d1 t1 k sk Hs1 Hk)
    as (sk1 & Hk1 & _ & Hr1 & Hi1).
  destruct (send_socket_step verify _ sid2 s2' d2 t2 k sk1 Hs2' Hk1)
    as (sk2 & Hk2 & _ & _ & Hi2).
  exists sk2. split; [done|]. rewrite Hi2, Hi1, Hu2, Hin.
  unfold Broadcast.in_room in *. rewrite Hr, Hr1, Hin. by rewrite <-app_assoc.
Qed.

Lemma room_order_witness :
  exists sk', jm_get "s2" (sockets (run demo_verify demo_st2 [EvSendMessage "s1" demo_hi 3;
                                                            EvSendMessage "s2" demo_yo 4]))
              = Some sk' /\
    sock_inbox sk' = sock_inbox (demo_socket demo_st2 "s2") ++
      [NewMessage (make_message (sock_user (demo_socket demo_st2 "s1")) demo_hi 3);
       NewMessage (make_message (sock_user (demo_socket demo_st2 "s2")) demo_yo 4)].
Proof. apply room_order; vm_compute; reflexivity. Defined.

(** C11. [disconnect] of a live socket removes its user's presence entry
    and the socket, and every other live socket receives exactly one
    event, [user-offline] for that user, at the end of its inbox. *)
Theorem disconnect_spec verify st sid s :
  jm_get sid (sockets st) = Some s ->
  let u := sock_user s in
  let st' := handle verify st (EvDisconnect sid) in
  jm_get (id u) (connectedUsers st') = None /\ jm_get sid (sockets st') = None /\
  (forall k sk, k <> sid -> jm_get k (sockets st) = Some sk ->
     exists sk', jm_get k (sockets st') = Some sk' /\
       sock_inbox sk' = sock_inbox sk ++ [UserOffline (id u) (displayName u)]).
Proof.
  intros Hs u st'. split_and!.
  - unfold st'. rewrite (disconnect_registry _ _ _ s) by done. apply Presence.unregister_get.
  - unfold st', handle. rewrite (with_socket_live _ _ s) by done.
    unfold on_disconnect, Broadcast.broadcast_from; simpl.
    by rewrite Broadcast.emit_where_get, jm_get_delete_eq.
  - intros k sk Hne Hk.
    destruct (disconnect_other verify st sid s k sk) as (sk' & ? & _ & ?); [done..|].
    by exists sk'.
Qed.

Lemma disconnect_spec_witness :
  let u := sock_user (demo_socket demo_st2 "s1") in
  let st' := handle demo_verify demo_st2 (EvDisconnect "s1") in
  jm_get (id u) (connectedUsers st') = None /\ jm_get "s1" (sockets st') = None /\
  (forall k sk, k <> "s1" -> jm_get k (sockets demo_st2) = Some sk ->
     exists sk', jm_get k (sockets st') = Some sk' /\
       sock_inbox sk' = sock_inbox sk ++ [UserOffline (id u) (displayName u)]).
Proof. apply disconnect_spec. vm_compute. reflexivity. Defined.

(** C17. An authenticated connection on a fresh socket id registers the
    user as online under that socket, puts the socket in ["general"],
    sends it the roster of the updated registry as its first event, and
    appends exactly one [user-online] event for the user to every other
    live socket. *)
Theorem connect_spec verify st sid token now u :
  authenticate verify token now = Some u -> jm_has sid (sockets st) = false ->
  let st' := handle verify st (EvConnect sid token now) in
  jm_get (id u) (connectedUsers st') =
    Some {| socketId := sid; pe_user := u; pe_status := "online" |} /\
  jm_get sid (sockets st') =
    Some {| sock_user := u; sock_rooms := jset_add "general" [sid];
            sock_inbox := [UsersList (Presence.onlineUsers (connectedUsers st'))] |} /\
  (forall k sk, jm_get k (sockets st) = Some sk ->
     exists sk', jm_get k (sockets st') = Some sk' /\
       sock_inbox sk' = sock_inbox sk ++ [UserOnline (id u) (displayName u)]).
Proof.
  intros Ha Hf st'. unfold st', handle. rewrite Ha, Hf.
  unfold on_connection, Broadcast.emit_self, Broadcast.broadcast_from; simpl. split_and!.
  - apply Presence.register_get.
  - rewrite !Broadcast.emit_where_get, Broadcast.join_get, decide_True, jm_get_set_eq by done.
    simpl. by rewrite bool_decide_true.
  - intros k sk Hk. assert (k <> sid) as Hne.
    { intros ->. unfold jm_has in Hf. by rewrite Hk in Hf. }
    rewrite !Broadcast.emit_where_get, Broadcast.join_get, decide_False, jm_get_set_ne, Hk
      by congruence.
    simpl. rewrite !bool_decide_false by done. simpl. by eexists.
Qed.

Lemma connect_spec_witness :
  let st' := handle demo_verify demo_st1 (EvConnect "s2" "tokB" 2) in
  jm_get (id bob) (connectedUsers st') =
    Some {| socketId := "s2"; pe_user := bob; pe_status := "online" |} /\
  jm_get "s2" (sockets st') =
    Some {| sock_user := bob; sock_rooms := jset_add "general" ["s2"];
            sock_inbox := [UsersList (Presence.onlineUsers (connectedUsers st'))] |} /\
  (forall k sk, jm_get k (sockets demo_st1) = Some sk ->
     exists sk', jm_get k (sockets st') = Some sk' /\
       sock_inbox sk' = sock_inbox sk ++ [UserOnline (id bob) (displayName bob)]).
Proof. apply connect_spec; vm_compute; reflexivity. Defined.

(** C38. [typing-start] and [typing-stop] deliver exactly one
    [user-typing] event, with the flag of the handler, to every other
    socket in the room and nothing to the sender; messages and presence
    are untouched.  The sender's membership of the room is not
    checked. *)
Theorem typing_spec verify st sid s r (b : bool) k sk :
  jm_get sid (sockets st) = Some s -> jm_get k (sockets st) = Some sk ->
  let ev := if b then EvTypingStart sid r else EvTypingStop sid r in
  let st' := handle verify st ev in
  messages st' = messages st /\ connectedUsers st' = connectedUsers st /\
  exists sk', jm_get k (sockets st') = Some sk' /\
    sock_inbox sk' = sock_inbox sk ++
      (if Broadcast.in_room r sk && negb (bool_decide (k = sid))
       then [UserTyping (id (sock_user s)) (displayName (sock_user s)) b] else []).
Proof.
  intros Hs Hk ev st'.
  assert (handle verify st ev = typing_event sid (sock_user s) r b st) as Heq.
  { unfold ev, handle. destruct b; by rewrite (with_socket_live _ _ s). }
  unfold st'. rewrite Heq.
  unfold typing_event, Broadcast.to_room_from; simpl. split_and!; [done|done|].
  destruct (Broadcast.emit_where_socket (fun k s => Broadcast.in_room r s && negb (bool_decide (k = sid)))
              (UserTyping (id (sock_user s)) (displayName (sock_user s)) b) (sockets st) k sk Hk)
    as (sk' & ? & _ & _ & ?).
  by exists sk'.
Qed.

Lemma typing_spec_witness :
  let ev := if true then EvTypingStart "s1" "general" else EvTypingStop "s1" "general" in
  let st' := handle demo_verify demo_st2 ev in
  messages st' = messages demo_st2 /\ connectedUsers st' = connectedUsers demo_st2 /\
  exists sk', jm_get "s2" (sockets st') = Some sk' /\
    sock_inbox sk' = sock_inbox (demo_socket demo_st2 "s2") ++
      (if Broadcast.in_room "general" (demo_socket demo_st2 "s2") && negb (bool_decide ("s2" = "s1"))
       then [UserTyping (id (sock_user (demo_socket demo_st2 "s1")))
               (displayName (sock_user (demo_socket demo_st2 "s1"))) true] else []).
Proof. apply typing_spec; vm_compute; reflexivity. Defined.

(** [join-room] puts the socket in the requested room whether or not
    the room directory knows it ([RoomNotFound] is never raised), leaves
    the directory unchanged, and is idempotent. *)
Theorem join_room_unchecked verify st sid s r :
  jm_get sid (sockets st) = Some s ->
  let st' := handle verify st (EvJoinRoom sid r) in
  rooms st' = rooms st /\
  (exists s', jm_get sid (sockets st') = Some s' /\ sock_user s' = sock_user s /\
              sock_rooms s' = jset_add r (sock_rooms s)) /\
  handle verify st' (EvJoinRoom sid r) = st'.
Proof.
  intros Hs st'. split_and!.
  - apply handle_rooms.
  - unfold st', handle. rewrite (with_socket_live _ _ s) by done.
    destruct (join_user_get sid r (sockets st) s Hs) as (s' & ? & ? & ? & _). by exists s'.
  - destruct (join_user_get sid r (sockets st) s Hs) as (s' & Hs' & _).
    unfold st', handle. rewrite (with_socket_live sid st s) by done.
    unfold with_socket, on_join_room, set_sockets; simpl. rewrite Hs'; simpl.
    by rewrite join_idem.
Qed.

Lemma join_room_unchecked_witness :
  let st' := handle demo_verify demo_st1 (EvJoinRoom "s1" "nowhere") in
  rooms st' = rooms demo_st1 /\
  (exists s', jm_get "s1" (sockets st') = Some s' /\
              sock_user s' = sock_user (demo_socket demo_st1 "s1") /\
              sock_rooms s' = jset_add "nowhere" (sock_rooms (demo_socket demo_st1 "s1"))) /\
  handle demo_verify st' (EvJoinRoom "s1" "nowhere") = st'.
Proof. apply join_room_unchecked. vm_compute. reflexivity. Defined.

(** The room directory never changes after start-up: it holds the
    ["general"] room only, since no handler creates, updates or deletes
    a room. *)
Theorem rooms_constant verify t0 st :
  reachable verify t0 st -> rooms st = [("general", general_room t0)].
Proof. induction 1; [done|]. by rewrite handle_rooms. Qed.

Lemma rooms_constant_witness :
  rooms (handle demo_verify (init_server 0) (EvConnect "s1" "tokA" 1)) =
  [("general", general_room 0)].
Proof. apply (rooms_constant demo_verify 0), reach_step, reach_init. Defined.

(** The spec's invariant that every message names an existing room
    fails: a message sent to a room the directory does not know is
    stored under that room and delivered. *)
Theorem message_in_unknown_room :
  let d := {| d_roomId := "nowhere"; d_content := "hi"; d_type := None |} in
  let st := handle demo_verify demo_st1 (EvSendMessage "s1" d 5) in
  jm_get "nowhere" (rooms st) = None /\
  jm_get "nowhere" (messages st) = Some [make_message alice d 5].
Proof. vm_compute. split; reflexivity. Qed.

(** C37. With a clock that never goes back, every room's log is in
    chronological order and holds no message stamped after the latest
    time read (the spec's invariant (d)). *)
Theorem treachable_chronological verify t0 t st r l :
  treachable verify t0 t st -> jm_get r (messages st) = Some l ->
  Retention.chronological l /\ Forall (fun m => (timestamp m <= t)%Z) l.
Proof.
  intros Htr. revert r l. change (msgs_timed t (messages st)).
  induction Htr as [|t st ev Htr IH Ht]; [intros r l [=]|].
  apply handle_timed; [|done|done].
  eapply reachable_ok, treachable_reachable, Htr.
Qed.

Lemma treachable_chronological_witness :
  Retention.chronological [make_message alice demo_hi 5] /\
  Forall (fun m => (timestamp m <= 5)%Z) [make_message alice demo_hi 5].
Proof.
  apply (treachable_chronological demo_verify 0 5
           (handle demo_verify demo_st1 (EvSendMessage "s1" demo_hi 5)) "general").
  - apply (treach_step demo_verify 0 1 demo_st1 (EvSendMessage "s1" demo_hi 5)).
    + apply (treach_step demo_verify 0 0 (init_server 0) (EvConnect "s1" "tokA" 1)).
      * apply treach_init.
      * intros now [= <-]. lia.
    + intros now [= <-]. lia.
  - vm_compute. reflexivity.
Defined.

(** Delivered events are never withdrawn or reordered: across any
    event, a socket live before and after keeps its user and its inbox
    only grows at the end. *)
Theorem inbox_append_only verify st ev k sk sk' :
  jm_get k (sockets st) = Some sk -> jm_get k (sockets (handle verify st ev)) = Some sk' ->
  sock_user sk' = sock_user sk /\ prefix (sock_inbox sk) (sock_inbox sk').
Proof.
  intros Hk Hk'.
  destruct ev as [| | | | |sid|];
    try (refine (proj2 (handle_evolve verify st _ _) k sk sk' Hk Hk'); intros ? ?; discriminate).
  unfold handle, with_socket in Hk'.
  destruct (jm_get sid (sockets st)); [|by simplify_eq].
  unfold on_disconnect, Broadcast.broadcast_from in Hk'. cbn [sockets] in Hk'.
  assert (k <> sid) as Hne.
  { intros ->. by rewrite Broadcast.emit_where_get, jm_get_delete_eq in Hk'. }
  eapply emit_where_extends; [|exact Hk']. by rewrite jm_get_delete_ne by congruence.
Qed.

Lemma inbox_append_only_witness :
  sock_user (demo_socket (handle demo_verify demo_st2 (EvDisconnect "s2")) "s1") =
    sock_user (demo_socket demo_st2 "s1") /\
  prefix (sock_inbox (demo_socket demo_st2 "s1"))
         (sock_inbox (demo_socket (handle demo_verify demo_st2 (EvDisconnect "s2")) "s1")).
Proof. apply (inbox_append_only demo_verify demo_st2 (EvDisconnect "s2") "s1"); vm_compute; reflexivity. Defined.

(** A sweep never loses a message that was just appended: when a
    message is stored and a sweep runs next, within two hours of the
    message's time, the message is still the last one of its room. *)
Theorem append_survives_sweep verify st sid s d now now' :
  state_ok st -> jm_get sid (sockets st) = Some s ->
  (now' - Retention.two_hours < now)%Z ->
  exists l, jm_get (d_roomId d) (messages (run verify st [EvSendMessage sid d now; EvSweep now']))
            = Some (l ++ [make_message (sock_user s) d now]).
Proof.
  intros Hok Hs Hnow. unfold run; simpl foldl.
  pose proof (handle_ok verify st (EvSendMessage sid d now) Hok) as (_ & _ & _ & Hwf & _).
  simpl. unfold on_sweep, set_messages; simpl.
  rewrite Retention.cleanup_unfold by done. unfold Retention.retained. simpl.
  rewrite jm_get_map_values, (with_socket_live _ _ s) by done.
  simpl. rewrite append_message_get, decide_True by done. simpl.
  unfold Retention.filteredMessages. rewrite js_filter_snoc by (apply Z.ltb_lt; simpl; lia).
  match goal with |- exists _, Some (js_slice_neg ?n (?l ++ [?x])) = _ =>
    destruct (js_slice_neg_snoc n l x) as [l' Hl']; [unfold Retention.max_kept; lia|] end.
  exists l'. by rewrite Hl'.
Qed.

Lemma append_survives_sweep_witness :
  exists l, jm_get (d_roomId demo_hi)
              (messages (run demo_verify demo_st1 [EvSendMessage "s1" demo_hi 5; EvSweep 100]))
            = Some (l ++ [make_message (sock_user (demo_socket demo_st1 "s1")) demo_hi 5]).
Proof.
  apply append_survives_sweep.
  - apply handle_ok, init_ok.
  - vm_compute. reflexivity.
  - vm_compute. reflexivity.
Defined.
End Session.
