(* ===== verification/Process.v ===== *)
(** The server process around the event loop (server.js 290-291 and
    345-353): whether it runs, and what ends it.  Socket.IO runs an event
    listener from [process.nextTick], so an exception a listener throws
    is not caught by Socket.IO; it reaches
    [process.on('uncaughtException')], which logs it and calls
    [process.exit(1)].  The listener of [send-message] begins with
    [const { roomId, content, type = 'text' } = data], which throws a
    [TypeError] when the packet carries no payload ([undefined] or
    [null]); any other payload is an object and the listener runs as in
    [Session].  All of the server's state is in memory, so the exit
    loses every account, message and session.

    The [SIGTERM] handler, the [error] handler of [server.listen] and the
    [unhandledRejection] handler are not modelled: the first two react
    to the operating system, and no promise of the code is left
    unhandled (both [async] routes catch what they await). *)

From S2P Require Import Prelude JsMap Model Session.

Module Process.

(** The process: running with the server state, or exited with a code. *)
Inductive proc := Running (st : server) | Exited (code : Z).

(** A packet of a client as Socket.IO decodes it: an event with its
    payload, or a [send-message] whose payload is missing. *)
Inductive packet :=
| Packet (ev : Session.event)
| SendMessageNoData (sid : string).

(** [process.on('uncaughtException', ...)] (server.js 345-348). *)
Definition uncaughtException (p : proc) : proc := Exited 1.

Section Step.
Variable verify : string -> Z -> option identity.

(** One packet.  A [send-message] without payload runs the listener of
    a live socket only: an unknown socket has no listener. *)
Definition proc_step (p : proc) (pk : packet) : proc :=
  match p with
  | Exited code => Exited code
  | Running st =>
      match pk with
      | Packet ev => Running (Session.handle verify st ev)
      | SendMessageNoData sid => if jm_has sid (sockets st) then uncaughtException p else p
      end
  end.

Definition proc_run (p : proc) (pks : list packet) : proc := foldl proc_step p pks.
End Step.

Lemma proc_run_exited verify code pks : proc_run verify (Exited code) pks = Exited code.
Proof. by induction pks. Qed.

(** Packets with a payload keep the process running the event loop. *)
Lemma proc_run_packets verify st evs :
  proc_run verify (Running st) (map Packet evs) = Running (Session.run verify st evs).
Proof.
  unfold Session.run. revert st. induction evs as [|ev evs IH]; intros st; [done|]. apply IH.
Qed.

(** C3. One [send-message] without payload from any connected client ends
    the server process with code 1, whatever the clients send before
    (with payloads) and after, so every account, message and session is
    lost: the run ends in [Exited 1]. *)
Theorem send_without_payload_exits verify st evs sid rest :
  jm_has sid (sockets (Session.run verify st evs)) = true ->
  proc_run verify (Running st) (map Packet evs ++ SendMessageNoData sid :: rest) = Exited 1.
Proof.
  intros Hs. unfold proc_run. rewrite foldl_app. fold (proc_run verify (Running st) (map Packet evs)).
  rewrite proc_run_packets. simpl. rewrite Hs. apply proc_run_exited.
Qed.

Lemma send_without_payload_exits_witness :
  jm_has "s1" (sockets (Session.run Session.demo_verify (init_server 0) [Session.EvConnect "s1" "tokA" 1])) = true /\
  proc_run Session.demo_verify (Running (init_server 0))
    (map Packet [Session.EvConnect "s1" "tokA" 1] ++
     SendMessageNoData "s1" :: [Packet (Session.EvConnect "s2" "tokB" 2)]) = Exited 1.
Proof. split; [reflexivity|]. apply send_without_payload_exits. reflexivity. Defined.
End Process.
