(* ===== verification/Regex.v ===== *)
(** Regular expressions as JavaScript's [RegExp] reads the literals of
    the program: literal characters, character classes [[...]] and
    [[^...]] over [\s] and single characters, concatenation,
    alternation, [*] and [+].  [re_match r w] is the language of [r], an
    inductive relation with one rule per operator; [matchb] decides it
    with Brzozowski derivatives ([nullable] and [deriv]), and
    [matchb_correct] shows that the two agree.

    A pattern anchored as [/^r$/] and without flags is tested by
    [RegExp.prototype.test] against the whole input, so [test r s]
    holds exactly when [s] is in the language of [r]: the backtracking
    matcher finds a match whenever one exists for patterns without
    look-arounds or back-references, and [$] without the [m] flag
    matches at the end of the input only.  This is the library's
    documented semantics; the program's one literal is the e-mail check
    of server.js line 128 ([Accounts.emailRegex]).  Characters are bytes
    and [\s] is [is_js_space]. *)

From S2P Require Import Prelude.

Module Regex.

(** The members of a character class: [\s] or one character. *)
Inductive class_item := ClsSpace | ClsChar (c : ascii).

Inductive regex :=
| REps
| RChar (c : ascii)
| RClass (negated : bool) (items : list class_item)
| RSeq (r1 r2 : regex)
| RAlt (r1 r2 : regex)
| RStar (r : regex)
| RPlus (r : regex).

Definition item_matches (i : class_item) (c : ascii) : bool :=
  match i with ClsSpace => is_js_space c | ClsChar d => Ascii.eqb c d end.

(** [[items]] and [[^items]]. *)
Definition class_matches (negated : bool) (items : list class_item) (c : ascii) : bool :=
  if negated then negb (existsb (fun i => item_matches i c) items)
  else existsb (fun i => item_matches i c) items.

(** The language of a regular expression. *)
Inductive re_match : regex -> list ascii -> Prop :=
| MEps : re_match REps []
| MChar c : re_match (RChar c) [c]
| MClass n cls c : class_matches n cls c = true -> re_match (RClass n cls) [c]
| MSeq r1 r2 w1 w2 : re_match r1 w1 -> re_match r2 w2 -> re_match (RSeq r1 r2) (w1 ++ w2)
| MAltL r1 r2 w : re_match r1 w -> re_match (RAlt r1 r2) w
| MAltR r1 r2 w : re_match r2 w -> re_match (RAlt r1 r2) w
| MStar0 r : re_match (RStar r) []
| MStar r w1 w2 : re_match r w1 -> re_match (RStar r) w2 -> re_match (RStar r) (w1 ++ w2)
| MPlus r w1 w2 : re_match r w1 -> re_match (RStar r) w2 -> re_match (RPlus r) (w1 ++ w2).

(** The empty class [[]], which matches no character. *)
Definition RVoid : regex := RClass false [].

(** Does the language contain the empty word? *)
Fixpoint nullable (r : regex) : bool :=
  match r with
  | REps | RStar _ => true
  | RChar _ | RClass _ _ => false
  | RSeq r1 r2 => nullable r1 && nullable r2
  | RAlt r1 r2 => nullable r1 || nullable r2
  | RPlus r => nullable r
  end.

(** The derivative: the words [w] with [c :: w] in the language. *)
Fixpoint deriv (c : ascii) (r : regex) : regex :=
  match r with
  | REps => RVoid
  | RChar d => if Ascii.eqb c d then REps else RVoid
  | RClass n cls => if class_matches n cls c then REps else RVoid
  | RSeq r1 r2 =>
      if nullable r1 then RAlt (RSeq (deriv c r1) r2) (deriv c r2)
      else RSeq (deriv c r1) r2
  | RAlt r1 r2 => RAlt (deriv c r1) (deriv c r2)
  | RStar r1 => RSeq (deriv c r1) (RStar r1)
  | RPlus r1 => RSeq (deriv c r1) (RStar r1)
  end.

Fixpoint matchb (r : regex) (w : list ascii) : bool :=
  match w with [] => nullable r | c :: w' => matchb (deriv c r) w' end.

(** [/^r$/.test(s)]. *)
Definition test (r : regex) (s : string) : bool := matchb r (String.list_ascii_of_string s).

Lemma re_match_void w : ~ re_match RVoid w.
Proof. inversion 1. done. Qed.

Lemma re_match_char_iff c w : re_match (RChar c) w <-> w = [c].
Proof. split; [by inversion 1|intros ->; constructor]. Qed.

Lemma re_match_class_iff n cls w :
  re_match (RClass n cls) w <-> exists c, w = [c] /\ class_matches n cls c = true.
Proof. split; [inversion 1; eauto|intros (c & -> & Hc); by constructor]. Qed.

Lemma re_match_seq_iff r1 r2 w :
  re_match (RSeq r1 r2) w <-> exists w1 w2, w = w1 ++ w2 /\ re_match r1 w1 /\ re_match r2 w2.
Proof. split; [inversion 1; eauto|intros (w1 & w2 & -> & H1 & H2); by constructor]. Qed.

Lemma re_match_alt_iff r1 r2 w : re_match (RAlt r1 r2) w <-> re_match r1 w \/ re_match r2 w.
Proof. split; [inversion 1; auto|intros [?|?]; by constructor]. Qed.

Lemma re_match_plus_iff r w :
  re_match (RPlus r) w <-> exists w1 w2, w = w1 ++ w2 /\ re_match r w1 /\ re_match (RStar r) w2.
Proof. split; [inversion 1; eauto|intros (w1 & w2 & -> & H1 & H2); by constructor]. Qed.

(** A non-empty word of [r*] starts with a non-empty word of [r]. *)
Lemma re_match_star_cons r c w :
  re_match (RStar r) (c :: w) ->
  exists w1 w2, w = w1 ++ w2 /\ re_match r (c :: w1) /\ re_match (RStar r) w2.
Proof.
  intros H. remember (RStar r) as rs eqn:Er. remember (c :: w) as cw eqn:Ew.
  revert c w Ew. induction H; intros c' w' Ew; simplify_eq.
  destruct w1 as [|x w1]; simpl in Ew; [by apply IHre_match2|].
  simplify_eq. by exists w1, w2.
Qed.

Lemma nullable_correct r : nullable r = true <-> re_match r [].
Proof.
  induction r as [| | |r1 IH1 r2 IH2|r1 IH1 r2 IH2|r IH|r IH]; simpl.
  - split; [constructor|done].
  - split; [done|inversion 1].
  - split; [done|inversion 1].
  - rewrite andb_true_iff, IH1, IH2, re_match_seq_iff. split.
    + intros [H1 H2]. by exists [], [].
    + intros (w1 & w2 & E & H1 & H2). symmetry in E. apply app_eq_nil in E as [-> ->]. done.
  - by rewrite orb_true_iff, IH1, IH2, re_match_alt_iff.
  - split; [constructor|done].
  - rewrite IH, re_match_plus_iff. split.
    + intros H. exists [], []. split_and!; [done|done|constructor].
    + intros (w1 & w2 & E & H1 & _). symmetry in E. by apply app_eq_nil in E as [-> ->].
Qed.

Lemma deriv_atom (b : bool) w : re_match (if b then REps else RVoid) w <-> b = true /\ w = [].
Proof.
  destruct b; split.
  - by inversion 1.
  - intros [_ ->]. constructor.
  - by intros ?%re_match_void.
  - by intros [? _].
Qed.

Lemma deriv_correct c r w : re_match (deriv c r) w <-> re_match r (c :: w).
Proof.
  revert w. induction r as [|d| n cls |r1 IH1 r2 IH2|r1 IH1 r2 IH2|r IH|r IH]; intros w; simpl.
  - split; [by intros ?%re_match_void|inversion 1].
  - rewrite deriv_atom, re_match_char_iff.
    split; [intros [->%Ascii.eqb_eq ->]; done|intros [= -> ->]; by rewrite Ascii.eqb_refl].
  - rewrite deriv_atom, re_match_class_iff.
    split; [intros [Hc ->]; by exists c|intros (c' & [= -> ->] & Hc); done].
  - destruct (nullable r1) eqn:Hn.
    + rewrite re_match_alt_iff, !re_match_seq_iff, IH2. split.
      * intros [(w1 & w2 & -> & H1%IH1 & H2)|H]; [by exists (c :: w1), w2|].
        exists [], (c :: w). split_and!; [done|by apply nullable_correct|done].
      * intros ([|x w1] & w2 & E & H1 & H2); simpl in E; subst; [by right|].
        simplify_eq. left. exists w1, w2. split_and!; [done|by apply IH1|done].
    + rewrite !re_match_seq_iff. split.
      * intros (w1 & w2 & -> & H1%IH1 & H2). by exists (c :: w1), w2.
      * intros ([|x w1] & w2 & E & H1 & H2); simpl in E; subst.
        -- apply nullable_correct in H1. congruence.
        -- simplify_eq. exists w1, w2. split_and!; [done|by apply IH1|done].
  - by rewrite !re_match_alt_iff, IH1, IH2.
  - rewrite re_match_seq_iff. split.
    + intros (w1 & w2 & -> & H1%IH & H2). by apply (MStar _ (c :: w1)).
    + intros (w1 & w2 & -> & H1 & H2)%re_match_star_cons. exists w1, w2. by rewrite IH.
  - rewrite re_match_seq_iff, re_match_plus_iff. split.
    + intros (w1 & w2 & -> & H1%IH & H2). by exists (c :: w1), w2.
    + intros ([|x w1] & w2 & E & H1 & H2); simpl in E; subst.
      * apply re_match_star_cons in H2 as (w1 & w3 & -> & H1' & H3).
        exists w1, w3. by rewrite IH.
      * simplify_eq. exists w1, w2. by rewrite IH.
Qed.

(** The derivative matcher decides the language. *)
Theorem matchb_correct r w : matchb r w = true <-> re_match r w.
Proof.
  revert r. induction w as [|c w IH]; intros r; simpl; [apply nullable_correct|].
  by rewrite IH, deriv_correct.
Qed.

(** Words of [c*] and [c+] for a character class [c]. *)
Lemma re_match_star_class n cls w :
  re_match (RStar (RClass n cls)) w <-> Forall (fun c => class_matches n cls c = true) w.
Proof.
  split.
  - intros H. remember (RStar (RClass n cls)) as r eqn:Er. induction H; simplify_eq; [done|].
    apply re_match_class_iff in H as (c & -> & Hc). constructor; auto.
  - induction 1 as [|c w Hc _ IH]; [constructor|]. apply (MStar _ [c]); [by constructor|done].
Qed.

Lemma re_match_plus_class n cls w :
  re_match (RPlus (RClass n cls)) w <-> w <> [] /\ Forall (fun c => class_matches n cls c = true) w.
Proof.
  rewrite re_match_plus_iff. split.
  - intros (w1 & w2 & -> & (c & -> & Hc)%re_match_class_iff & H2%re_match_star_class).
    split; [done|by constructor].
  - intros [Hne Hall]. destruct w as [|c w]; [done|]. inversion Hall; subst.
    exists [c], w. split_and!; [done|by constructor|by apply re_match_star_class].
Qed.
End Regex.
