(* ===== verification/Accounts.v ===== *)
(** The HTTP side of server.js: the [authenticateToken] middleware (lines
    101-116), [POST /api/register] (119-162), [POST /api/login]
    (165-205), and the authenticated [GET] routes [/api/rooms] (208-211),
    [/api/messages/:roomId] (214-218) and [/api/stats] (221-231), over
    the [users] map and the shared state of [Model].

    [register] awaits [bcrypt.hash] between its duplicate check and its
    [users.set]: it is modelled as two steps, [register_start] (validation
    and the [users.has] check, before the await) and [register_finish]
    (what runs when the hash resolves), so that two requests can
    interleave as the event loop allows.  [login] awaits [bcrypt.compare]
    but writes nothing before it, so it is one step; this leaves out a
    registration of the same e-mail completing during that await (the
    race of [register_race_overwrites]), after which the code would mark
    the replaced account object online.  Request bodies are
    JSON objects whose fields are strings or absent ([option string]);
    JavaScript truthiness of such a field is [truthy].  [login_json] is
    [/api/login] on any JSON values ([jval]), with the [catch] that
    answers 500 when [bcrypt.compare] rejects a password that is not a
    string; on strings it is [login].  [/api/register] is kept to
    strings: an array e-mail passes its checks and would become a key
    of [users] that is not a string.  Strings are
    byte strings: [password.length] counts UTF-16 units in JavaScript and
    bytes here, which agree on ASCII passwords.  The e-mail regular
    expression's [\s] is modelled on ASCII (space, tab, LF, VT, FF, CR);
    the Unicode spaces it also matches are not.  The literal itself is
    [emailRegex], read with the semantics of [Regex]; [email_test_correct]
    shows that the hand-written [email_test] decides its language.  Response bodies keep the
    server's Arabic error messages. *)

From S2P Require Import Prelude JsMap Model Crypto Retention Presence Regex.

Module Accounts.

(** Response bodies, one constructor per JSON shape the routes send. *)
Inductive body :=
| ErrorBody (error : string)
| Registered
| LoggedIn (token : string) (user : identity)
| RoomList (rs : list room)
| MessageList (ms : list message)
| StatsBody (totalUsers onlineUsers totalRooms totalMessages : nat).

Record response := Response { status : nat; resp_body : body }.

(** [{ email, password, displayName } = req.body] and
    [{ email, password } = req.body]. *)
Record register_body := RegisterBody {
  rb_email : option string; rb_password : option string; rb_displayName : option string }.
Record login_body := LoginBody { lb_email : option string; lb_password : option string }.

(** A value of a JSON body as [express.json()] parses it; numbers are
    kept to integers. *)
#[warnings="-register-all"]
Inductive jval :=
| JNull
| JBool (b : bool)
| JNum (z : Z)
| JStr (s : string)
| JArr (l : list jval)
| JObj (l : list (string * jval)).

(** JavaScript truthiness of a field, [None] for an absent one. *)
Definition jtruthy (o : option jval) : bool :=
  match o with
  | Some JNull | None => false
  | Some (JBool b) => b
  | Some (JNum z) => negb (Z.eqb z 0)
  | Some (JStr s) => negb (String.eqb s "")
  | Some (JArr _) | Some (JObj _) => true
  end.

(** A string field is truthy when present and not empty. *)
Definition truthy (o : option string) : bool :=
  match o with Some s => negb (String.eqb s "") | None => false end.

(** [[^\s@]]. *)
Definition email_char (c : ascii) : bool := negb (is_js_space c || Ascii.eqb c "@"%char).

(** Split at the first occurrence of [c]. *)
Fixpoint split_at_first (c : ascii) (l : list ascii) : option (list ascii * list ascii) :=
  match l with
  | [] => None
  | x :: l' =>
      if Ascii.eqb x c then Some ([], l')
      else match split_at_first c l' with
           | Some (a, d) => Some (x :: a, d)
           | None => None
           end
  end.

(** A dot that is neither the first nor the last character. *)
Definition dot_inside (d : list ascii) : bool :=
  match d with
  | [] => false
  | _ :: d' => existsb (fun x => Ascii.eqb x "."%char) (removelast d')
  end.

(** [/^[^\s@]+@[^\s@]+\.[^\s@]+$/.test(email)] (server.js 128-129). *)
Definition email_test (s : string) : bool :=
  match split_at_first "@"%char (String.list_ascii_of_string s) with
  | Some (a, d) =>
      negb (bool_decide (a = [])) && forallb email_char a && forallb email_char d &&
      dot_inside d
  | None => false
  end.

(** The strings of the shape [local@domain.tld]: three non-empty runs of
    [[^\s@]] around an [@] and a dot. *)
Definition email_regex (s : string) : Prop :=
  exists a b c, String.list_ascii_of_string s = a ++ ["@"%char] ++ b ++ ["."%char] ++ c /\
    a <> [] /\ b <> [] /\ c <> [] /\ Forall (fun x => email_char x = true) (a ++ b ++ c).

(** The class [[^\s@]] and the literal [/^[^\s@]+@[^\s@]+\.[^\s@]+$/]
    (server.js 128). *)
Definition email_cls : Regex.regex := Regex.RClass true [Regex.ClsSpace; Regex.ClsChar "@"%char].

Definition emailRegex : Regex.regex :=
  Regex.RSeq (Regex.RPlus email_cls) (Regex.RSeq (Regex.RChar "@"%char)
    (Regex.RSeq (Regex.RPlus email_cls) (Regex.RSeq (Regex.RChar "."%char) (Regex.RPlus email_cls)))).

(** [str.split(' ')] on the characters of a string. *)
Fixpoint split_on (sep : ascii) (l : list ascii) : list (list ascii) :=
  match l with
  | [] => [[]]
  | x :: l' =>
      if Ascii.eqb x sep then [] :: split_on sep l'
      else match split_on sep l' with
           | w :: ws => (x :: w) :: ws
           | [] => [[x]]
           end
  end.

(** [authHeader && authHeader.split(' ')[1]] (server.js 103). *)
Definition bearer_token (authHeader : option string) : option string :=
  match authHeader with
  | Some h =>
      if String.eqb h "" then None
      else String.string_of_list_ascii <$> nth_error (split_on " "%char (String.list_ascii_of_string h)) 1
  | None => None
  end.

Section Routes.
Context `{Crypto}.

(** [authenticateToken] (server.js 101-116): the failure response, or the
    payload put in [req.user]. *)
Definition authenticateToken (authHeader : option string) (now : Z) : response + identity :=
  match bearer_token authHeader with
  | Some token =>
      if String.eqb token "" then inl (Response 401 (ErrorBody "مطلوب رمز الدخول"))
      else match jwt_verify token now with
           | Some u => inr u
           | None => inl (Response 403 (ErrorBody "رمز دخول غير صحيح"))
           end
  | None => inl (Response 401 (ErrorBody "مطلوب رمز الدخول"))
  end.

(** [POST /api/register] up to [await bcrypt.hash] (server.js 121-139):
    the error response, or the validated [(email, password, displayName)]. *)
Definition register_start (b : register_body) (users : jsmap string account)
    : response + (string * string * string) :=
  if negb (truthy (rb_email b) && truthy (rb_password b) && truthy (rb_displayName b))
  then inl (Response 400 (ErrorBody "جميع الحقول مطلوبة"))
  else
    let email := default "" (rb_email b) in
    let password := default "" (rb_password b) in
    let displayName := default "" (rb_displayName b) in
    if negb (email_test email) then inl (Response 400 (ErrorBody "البريد الإلكتروني غير صحيح"))
    else if Nat.ltb (String.length password) 6
    then inl (Response 400 (ErrorBody "كلمة المرور يجب أن تكون 6 أحرف على الأقل"))
    else if jm_has email users
    then inl (Response 409 (ErrorBody "البريد الإلكتروني مستخدم مسبقاً"))
    else inr (email, password, displayName).

(** The user object of [/api/register] (server.js 143-150): its id is
    [Date.now().toString()]. *)
Definition new_account (p : string * string * string) (hashedPassword : string) (now : Z)
    : account :=
  let '(email, _, displayName) := p in
  {| acc_id := pretty now; acc_email := email; acc_password := hashedPassword;
     acc_displayName := displayName; acc_status := "offline";
     acc_createdAt := now; acc_lastLogin := None |}.

(** [POST /api/register] after the hash resolves at time [now]
    (server.js 143-157). *)
Definition register_finish (p : string * string * string) (hashedPassword : string) (now : Z)
    (users : jsmap string account) : jsmap string account * response :=
  (jm_set p.1.1 (new_account p hashedPassword now) users, Response 201 Registered).

(** A registration that no other request interleaves with: the hash is
    [bcrypt.hash(password, 10)] with salt [salt]. *)
Definition register (b : register_body) (salt now : Z) (users : jsmap string account)
    : jsmap string account * response :=
  match register_start b users with
  | inl r => (users, r)
  | inr p => register_finish p (bcrypt_hash p.1.2 salt) now users
  end.

(** The payload [jwt.sign] gets (server.js 187). *)
Definition account_identity (a : account) : identity :=
  {| id := acc_id a; email := acc_email a; displayName := acc_displayName a |}.

(** [POST /api/login] (server.js 165-205). *)
Definition login (b : login_body) (now : Z) (users : jsmap string account)
    : jsmap string account * response :=
  if negb (truthy (lb_email b) && truthy (lb_password b))
  then (users, Response 400 (ErrorBody "البريد الإلكتروني وكلمة المرور مطلوبان"))
  else
    let email := default "" (lb_email b) in
    let password := default "" (lb_password b) in
    match jm_get email users with
    | None => (users, Response 401 (ErrorBody "بيانات دخول غير صحيحة"))
    | Some user =>
        if negb (bcrypt_compare password (acc_password user))
        then (users, Response 401 (ErrorBody "بيانات دخول غير صحيحة"))
        else
          let user' := {| acc_id := acc_id user; acc_email := acc_email user;
                          acc_password := acc_password user;
                          acc_displayName := acc_displayName user; acc_status := "online";
                          acc_createdAt := acc_createdAt user; acc_lastLogin := Some now |} in
          (jm_set email user' users,
           Response 200 (LoggedIn (jwt_sign (account_identity user) now) (account_identity user)))
    end.

(** [POST /api/login] (server.js 165-205) on any JSON body.  [users]
    has string keys, so [users.get] of a value that is not a string
    finds nothing; [bcrypt.compare] rejects a password that is not a
    string, and the [catch] answers 500. *)
Definition login_json (email password : option jval) (now : Z) (users : jsmap string account)
    : jsmap string account * response :=
  if negb (jtruthy email && jtruthy password)
  then (users, Response 400 (ErrorBody "البريد الإلكتروني وكلمة المرور مطلوبان"))
  else
    match match email with Some (JStr e) => (fun u => (e, u)) <$> jm_get e users | _ => None end with
    | None => (users, Response 401 (ErrorBody "بيانات دخول غير صحيحة"))
    | Some (e, user) =>
        match password with
        | Some (JStr p) =>
            if negb (bcrypt_compare p (acc_password user))
            then (users, Response 401 (ErrorBody "بيانات دخول غير صحيحة"))
            else
              let user' := {| acc_id := acc_id user; acc_email := acc_email user;
                              acc_password := acc_password user;
                              acc_displayName := acc_displayName user; acc_status := "online";
                              acc_createdAt := acc_createdAt user; acc_lastLogin := Some now |} in
              (jm_set e user' users,
               Response 200 (LoggedIn (jwt_sign (account_identity user) now) (account_identity user)))
        | _ => (users, Response 500 (ErrorBody "خطأ في الخادم"))
        end
    end.

(** [GET /api/rooms] (server.js 208-211). *)
Definition rooms_route (authHeader : option string) (now : Z) (st : server) : response :=
  match authenticateToken authHeader now with
  | inl r => r
  | inr _ => Response 200 (RoomList (jm_values (rooms st)))
  end.

(** [GET /api/messages/:roomId] (server.js 214-218). *)
Definition messages_route (authHeader : option string) (roomId : string) (now : Z) (st : server)
    : response :=
  match authenticateToken authHeader now with
  | inl r => r
  | inr _ => Response 200 (MessageList (default [] (jm_get roomId (messages st))))
  end.

(** [GET /api/stats] (server.js 221-231); [uptime] and [memoryUsage] read
    the process and are left out. *)
Definition stats_route (authHeader : option string) (now : Z) (st : server) : response :=
  match authenticateToken authHeader now with
  | inl r => r
  | inr _ => Response 200 (StatsBody (length (users st))
                             (Presence.onlineCount (connectedUsers st))
                             (length (rooms st)) (Retention.total_messages (messages st)))
  end.
End Routes.

Lemma split_at_first_spec c l a d :
  split_at_first c l = Some (a, d) -> l = a ++ c :: d /\ Forall (fun x => x <> c) a.
Proof.
  revert a. induction l as [|x l IH]; intros a; simpl; [done|].
  destruct (Ascii.eqb_spec x c) as [->|Hne]; [intros [= <- <-]; by split|].
  destruct (split_at_first c l) as [[a' d']|] eqn:E; [|done]. intros [= <- <-].
  destruct (IH a' eq_refl) as [-> Hall]. split; [done|by constructor].
Qed.

Lemma split_at_first_app c a d :
  Forall (fun x => x <> c) a -> split_at_first c (a ++ [c] ++ d) = Some (a, d).
Proof.
  change ([c] ++ d) with (c :: d).
  induction 1 as [|x a Hx _ IH]; simpl.
  - by rewrite Ascii.eqb_refl.
  - destruct (Ascii.eqb_spec x c); [done|]. by rewrite IH.
Qed.

Lemma dot_inside_spec d :
  dot_inside d = true <-> exists b c, d = b ++ "."%char :: c /\ b <> [] /\ c <> [].
Proof.
  destruct d as [|x d']; simpl.
  { split; [done|]. intros (b & c & Hd & Hb & _). destruct b; simpl in Hd; congruence. }
  rewrite existsb_exists. split.
  - intros (y & Hin & Hy%Ascii.eqb_eq). subst y.
    destruct d' as [|z d'']; [done|].
    pose proof (app_removelast_last "."%char (l:=z :: d'') ltac:(done)) as Hsplit.
    apply in_split in Hin as (u & w & Hu). rewrite Hu in Hsplit.
    exists (x :: u), (w ++ [List.last (z :: d'') "."%char]). split_and!; [|done|].
    + simpl. f_equal. rewrite <-app_assoc in Hsplit. exact Hsplit.
    + by destruct w.
  - intros (b & c & Hd & Hb & Hc). destruct b as [|y b]; [done|]. simpl in Hd. simplify_eq.
    exists "."%char. split; [|apply Ascii.eqb_refl].
    rewrite removelast_app by done. apply in_or_app. right. simpl.
    destruct c; [done|]. simpl. by left.
Qed.

Lemma email_char_not_at x : email_char x = true -> x <> "@"%char.
Proof. unfold email_char. intros H ->. done. Qed.

Lemma forallb_Forall_iff {A} (f : A -> bool) l : forallb f l = true <-> Forall (fun x => f x = true) l.
Proof. rewrite forallb_forall, Forall_forall. setoid_rewrite list_elem_of_In. done. Qed.

(** The hand-written check splits at the first [@] and looks for a dot
    inside the domain. *)
Lemma email_test_shape s : email_test s = true <-> email_regex s.
Proof.
  unfold email_test, email_regex. split.
  - destruct (split_at_first _ _) as [[a d]|] eqn:E; [|done].
    apply split_at_first_spec in E as [Hl _].
    rewrite !andb_true_iff, negb_true_iff, bool_decide_eq_false, !forallb_Forall_iff.
    intros [[[Ha Hfa] Hfd] (b & c & -> & Hb & Hc)%dot_inside_spec].
    exists a, b, c. split_and!; try done.
    apply Forall_app in Hfd as [Hfb Hfc]. inversion Hfc; subst.
    apply Forall_app; split; [done|]. by apply Forall_app.
  - intros (a & b & c & Hl & Ha & Hb & Hc & Hall). rewrite Hl.
    apply Forall_app in Hall as [Hfa Hbc]. apply Forall_app in Hbc as [Hfb Hfc].
    rewrite (split_at_first_app _ a). 2:{ eapply Forall_impl; [exact Hfa|]. apply email_char_not_at. }
    rewrite !andb_true_iff, negb_true_iff, bool_decide_eq_false, !forallb_Forall_iff.
    split_and!; [done|done| |].
    + apply Forall_app. split; [done|]. by constructor.
    + apply dot_inside_spec. by exists b, c.
Qed.

Lemma email_cls_char c : Regex.class_matches true [Regex.ClsSpace; Regex.ClsChar "@"%char] c = email_char c.
Proof. unfold Regex.class_matches, email_char. simpl. by rewrite orb_false_r. Qed.

Lemma email_cls_plus w :
  Regex.re_match (Regex.RPlus email_cls) w <-> w <> [] /\ Forall (fun x => email_char x = true) w.
Proof.
  unfold email_cls. rewrite Regex.re_match_plus_class.
  by setoid_rewrite email_cls_char.
Qed.

(** The language of the literal: the strings of [email_regex]. *)
Lemma emailRegex_shape s : Regex.re_match emailRegex (String.list_ascii_of_string s) <-> email_regex s.
Proof.
  unfold emailRegex, email_regex. split.
  - intros (a & r1 & E & [Ha Fa]%email_cls_plus & Hr1)%Regex.re_match_seq_iff.
    apply Regex.re_match_seq_iff in Hr1 as (t & r2 & -> & ->%Regex.re_match_char_iff & Hr2).
    apply Regex.re_match_seq_iff in Hr2 as (b & r3 & -> & [Hb Fb]%email_cls_plus & Hr3).
    apply Regex.re_match_seq_iff in Hr3 as (d & c & -> & ->%Regex.re_match_char_iff & [Hc Fc]%email_cls_plus).
    exists a, b, c. rewrite !Forall_app. by split_and!.
  - intros (a & b & c & -> & Ha & Hb & Hc & Hall).
    rewrite !Forall_app in Hall. destruct Hall as (Fa & Fb & Fc).
    apply Regex.re_match_seq_iff. exists a, (["@"%char] ++ b ++ ["."%char] ++ c).
    split_and!; [done|by apply email_cls_plus|].
    apply Regex.re_match_seq_iff. exists ["@"%char], (b ++ ["."%char] ++ c).
    split_and!; [done|constructor|].
    apply Regex.re_match_seq_iff. exists b, (["."%char] ++ c).
    split_and!; [done|by apply email_cls_plus|].
    apply Regex.re_match_seq_iff. exists ["."%char], c.
    split_and!; [done|constructor|by apply email_cls_plus].
Qed.

(** C22. The e-mail check of [/api/register] is [emailRegex.test(email)]
    for the literal [/^[^\s@]+@[^\s@]+\.[^\s@]+$/] of server.js 128: it
    accepts exactly the strings in the language of the regular
    expression (under [RegExp]'s semantics, [Regex.re_match]), and it
    agrees with the derivative matcher on every string.  That language
    is a non-empty run of characters other than white space and [@],
    an [@], and a domain of such characters with some dot that is
    neither its first nor its last character; the dot need not be the
    last one, so [a@x.y.] is accepted. *)
Theorem email_test_correct s :
  (email_test s = true <-> Regex.re_match emailRegex (String.list_ascii_of_string s)) /\
  email_test s = Regex.test emailRegex s.
Proof.
  assert (email_test s = true <-> Regex.re_match emailRegex (String.list_ascii_of_string s)) as H.
  { rewrite email_test_shape. symmetry. apply emailRegex_shape. }
  split; [done|]. apply Bool.eq_true_iff_eq. rewrite H. unfold Regex.test.
  by rewrite Regex.matchb_correct.
Qed.

Lemma email_test_correct_witness :
  Regex.re_match emailRegex (String.list_ascii_of_string "a@x.y.") /\
  Regex.test emailRegex "a@x.y." = true.
Proof.
  destruct (email_test_correct "a@x.y.") as [H1 H2].
  split; [apply H1; reflexivity|rewrite <- H2; reflexivity].
Defined.

Lemma truthy_Some o : truthy o = true -> exists s, o = Some s /\ s <> "".
Proof.
  destruct o as [s|]; simpl; [|done]. intros Hs. exists s. split; [done|].
  intros ->. done.
Qed.

Lemma truthy_nonempty s : s <> "" -> truthy (Some s) = true.
Proof. intros Hs. simpl. destruct (String.eqb_spec s ""); done. Qed.

Lemma register_start_ok `{Crypto} b users e p n :
  register_start b users = inr (e, p, n) ->
  rb_email b = Some e /\ rb_password b = Some p /\ rb_displayName b = Some n /\
  e <> "" /\ p <> "" /\ jm_has e users = false.
Proof.
  unfold register_start.
  destruct (truthy (rb_email b)) eqn:He; [|done].
  destruct (truthy (rb_password b)) eqn:Hp; [|done].
  destruct (truthy (rb_displayName b)) eqn:Hn; [|done]. simpl.
  apply truthy_Some in He as (e' & -> & He'), Hp as (p' & -> & Hp'), Hn as (n' & -> & Hn').
  simpl. destruct (email_test e'); [|done]. destruct (Nat.ltb _ 6); [done|].
  destruct (jm_has e' users) eqn:Hh; [done|]. intros [= <- <- <-]. done.
Qed.

Lemma register_start_users `{Crypto} b users users' e p n :
  register_start b users = inr (e, p, n) ->
  register_start b users' =
    if jm_has e users' then inl (Response 409 (ErrorBody "البريد الإلكتروني مستخدم مسبقاً"))
    else inr (e, p, n).
Proof.
  unfold register_start.
  destruct (truthy (rb_email b) && truthy (rb_password b) && truthy (rb_displayName b)); [|done].
  simpl. destruct (email_test _); [|done]. destruct (Nat.ltb _ 6); [done|].
  destruct (jm_has _ users); [done|]. intros [= -> -> ->]. done.
Qed.

Lemma register_unfold `{Crypto} b salt now users e p n :
  register_start b users = inr (e, p, n) ->
  register b salt now users =
    (jm_set e (new_account (e, p, n) (bcrypt_hash p salt) now) users, Response 201 Registered).
Proof. intros Hs. unfold register. by rewrite Hs. Qed.

(** C12. Registration then login round-trips: after a valid registration
    of [(e, p, n)] at time [t], logging in with [e] and [p] at [t'] answers
    200 with a token signed at [t'] for the identity [{ id: t.toString(),
    email: e, displayName: n }], and marks the account online with its
    last login time. *)
Theorem register_login_roundtrip `{Crypto} b salt t t' users e p n :
  register_start b users = inr (e, p, n) ->
  let u := {| id := pretty t; email := e; displayName := n |} in
  let users1 := (register b salt t users).1 in
  (register b salt t users).2 = Response 201 Registered /\
  (login (LoginBody (Some e) (Some p)) t' users1).2 =
    Response 200 (LoggedIn (jwt_sign u t') u) /\
  option_map acc_status (jm_get e (login (LoginBody (Some e) (Some p)) t' users1).1) =
    Some "online".
Proof.
  intros Hs u users1. pose proof (register_start_ok _ _ _ _ _ Hs) as (_ & _ & _ & He & Hp & _).
  unfold users1. rewrite (register_unfold _ _ _ _ e p n Hs). simpl. split; [done|].
  unfold login. cbn [lb_email lb_password]. rewrite !truthy_nonempty by done. simpl.
  rewrite jm_get_set_eq. simpl. rewrite bcrypt_compare_hash. simpl.
  split; [done|]. by rewrite jm_get_set_eq.
Qed.

Lemma register_login_roundtrip_witness :
  let b := RegisterBody (Some "alice@example.com") (Some "secret1") (Some "alice") in
  let u := {| id := pretty 7; email := "alice@example.com"; displayName := "alice" |} in
  let users1 := (register b 0 7 []).1 in
  (register b 0 7 []).2 = Response 201 Registered /\
  (login (LoginBody (Some "alice@example.com") (Some "secret1")) 9 users1).2 =
    Response 200 (LoggedIn (jwt_sign u 9) u) /\
  option_map acc_status (jm_get "alice@example.com"
    (login (LoginBody (Some "alice@example.com") (Some "secret1")) 9 users1).1) = Some "online".
Proof. apply (register_login_roundtrip (H := demo_crypto)). vm_compute. reflexivity. Defined.

(** C20. A second registration of an e-mail that a completed registration
    holds is refused with 409, and the accounts are left unchanged. *)
Theorem register_duplicate_rejected `{Crypto} b1 b2 salt1 salt2 t1 t2 users e p1 n1 p2 n2 :
  register_start b1 users = inr (e, p1, n1) -> register_start b2 users = inr (e, p2, n2) ->
  let users1 := (register b1 salt1 t1 users).1 in
  register b2 salt2 t2 users1 =
    (users1, Response 409 (ErrorBody "البريد الإلكتروني مستخدم مسبقاً")).
Proof.
  intros Hs1 Hs2 users1. unfold users1. rewrite (register_unfold _ _ _ _ e p1 n1 Hs1). simpl.
  unfold register. rewrite (register_start_users _ _ _ _ _ _ Hs2).
  unfold jm_has. by rewrite jm_get_set_eq.
Qed.

Lemma register_duplicate_rejected_witness :
  let b1 := RegisterBody (Some "alice@example.com") (Some "secret1") (Some "alice") in
  let b2 := RegisterBody (Some "alice@example.com") (Some "secret2") (Some "mallory") in
  let users1 := (register b1 0 7 []).1 in
  register b2 0 8 users1 = (users1, Response 409 (ErrorBody "البريد الإلكتروني مستخدم مسبقاً")).
Proof.
  apply (register_duplicate_rejected (H := demo_crypto) _ _ _ _ _ _ _
           "alice@example.com" "secret1" "alice" "secret2" "mallory"); vm_compute; reflexivity.
Defined.

(** C13. Two registrations of the same e-mail that both pass the
    [users.has] check before either [bcrypt.hash] resolves are both
    answered 201; the second [users.set] overwrites the first account,
    which is lost (the check and the write are separated by an [await]). *)
Theorem register_race_overwrites `{Crypto} b1 b2 h1 h2 t1 t2 users e p1 n1 p2 n2 :
  register_start b1 users = inr (e, p1, n1) -> register_start b2 users = inr (e, p2, n2) ->
  let '(users1, r1) := register_finish (e, p1, n1) h1 t1 users in
  let '(users2, r2) := register_finish (e, p2, n2) h2 t2 users1 in
  r1 = Response 201 Registered /\ r2 = Response 201 Registered /\
  jm_get e users2 = Some (new_account (e, p2, n2) h2 t2).
Proof.
  intros _ _. simpl. split_and!; [done|done|]. apply jm_get_set_eq.
Qed.

Lemma register_race_overwrites_witness :
  let '(users1, r1) := register_finish ("alice@example.com", "secret1", "alice") "h1" 7 [] in
  let '(users2, r2) := register_finish ("alice@example.com", "secret2", "mallory") "h2" 8 users1 in
  r1 = Response 201 Registered /\ r2 = Response 201 Registered /\
  jm_get "alice@example.com" users2 =
    Some (new_account ("alice@example.com", "secret2", "mallory") "h2" 8).
Proof.
  apply (register_race_overwrites (H := demo_crypto)
    (RegisterBody (Some "alice@example.com") (Some "secret1") (Some "alice"))
    (RegisterBody (Some "alice@example.com") (Some "secret2") (Some "mallory")));
    vm_compute; reflexivity.
Defined.

(** A login with the password of a stored account: the account is
    marked online and the reply carries a token for its identity. *)
Lemma login_ok `{Crypto} e p now users a :
  e <> "" -> p <> "" -> jm_get e users = Some a -> bcrypt_compare p (acc_password a) = true ->
  login (LoginBody (Some e) (Some p)) now users =
    (jm_set e {| acc_id := acc_id a; acc_email := acc_email a; acc_password := acc_password a;
                 acc_displayName := acc_displayName a; acc_status := "online";
                 acc_createdAt := acc_createdAt a; acc_lastLogin := Some now |} users,
     Response 200 (LoggedIn (jwt_sign (account_identity a) now) (account_identity a))).
Proof.
  intros He Hp Ha Hc. unfold login. cbn [lb_email lb_password].
  rewrite !truthy_nonempty by done. simpl. by rewrite Ha, Hc.
Qed.

(** [/api/login] refuses, and changes no account: a request missing
    the e-mail or the password (400), an unknown e-mail (401), and a
    password that [bcrypt.compare] rejects (401, the same message). *)
Theorem login_errors `{Crypto} b now users :
  (truthy (lb_email b) && truthy (lb_password b) = false ->
   login b now users = (users, Response 400 (ErrorBody "البريد الإلكتروني وكلمة المرور مطلوبان"))) /\
  (forall e p, e <> "" -> p <> "" -> jm_get e users = None ->
   login (LoginBody (Some e) (Some p)) now users =
     (users, Response 401 (ErrorBody "بيانات دخول غير صحيحة"))) /\
  (forall e p a, e <> "" -> p <> "" -> jm_get e users = Some a ->
   bcrypt_compare p (acc_password a) = false ->
   login (LoginBody (Some e) (Some p)) now users =
     (users, Response 401 (ErrorBody "بيانات دخول غير صحيحة"))).
Proof.
  split_and!.
  - intros Hb. unfold login. by rewrite Hb.
  - intros e p He Hp Hg. unfold login. cbn [lb_email lb_password].
    rewrite !truthy_nonempty by done. simpl. by rewrite Hg.
  - intros e p a He Hp Hg Hc. unfold login. cbn [lb_email lb_password].
    rewrite !truthy_nonempty by done. simpl.
    by rewrite Hg, Hc.
Qed.

(** C35. [/api/login] on JSON bodies: with string fields (or absent ones) it
    is [login]; with a stored account's e-mail and a truthy password
    that is not a string (a number, an array, an object, [true]) it
    answers 500 and changes nothing, where a wrong password gets 401. *)
Theorem login_json_strings `{Crypto} e p now users :
  login_json (JStr <$> e) (JStr <$> p) now users = login (LoginBody e p) now users /\
  (forall e' v a, e' <> "" -> jm_get e' users = Some a -> jtruthy (Some v) = true ->
   (forall s, v <> JStr s) ->
   login_json (Some (JStr e')) (Some v) now users = (users, Response 500 (ErrorBody "خطأ في الخادم"))).
Proof.
  split.
  - destruct e as [e|], p as [p|]; unfold login_json, login; simpl; rewrite ?andb_false_r; try done.
    destruct (String.eqb e ""), (String.eqb p ""); simpl; try done;
      destruct (jm_get e users); simpl; try done; by destruct (bcrypt_compare _ _).
  - intros e' v a Hne Ha Hv Hs. unfold login_json. rewrite Hv. simpl.
    destruct (String.eqb_spec e' "") as [|_]; [done|]. simpl. rewrite Ha. simpl.
    destruct v; try done. by destruct (Hs s).
Qed.

Lemma login_json_strings_witness :
  let users1 := (register (H := demo_crypto)
                   (RegisterBody (Some "alice@example.com") (Some "secret1") (Some "alice")) 0 7 []).1 in
  login_json (H := demo_crypto) (JStr <$> Some "alice@example.com") (JStr <$> Some "secret1") 8 users1 =
    login (H := demo_crypto) (LoginBody (Some "alice@example.com") (Some "secret1")) 8 users1 /\
  login_json (H := demo_crypto) (Some (JStr "alice@example.com")) (Some (JNum 123456)) 8 users1 =
    (users1, Response 500 (ErrorBody "خطأ في الخادم")).
Proof.
  intros users1.
  destruct (login_json_strings (H := demo_crypto) (Some "alice@example.com") (Some "secret1") 8 users1)
    as [Heq H500].
  split; [exact Heq|].
  eapply H500; [discriminate|cbv; reflexivity|reflexivity|intros s; discriminate].
Defined.

Lemma login_errors_witness :
  let users1 := (register (H := demo_crypto)
                   (RegisterBody (Some "alice@example.com") (Some "secret1") (Some "alice")) 0 7 []).1 in
  login (H := demo_crypto) (LoginBody (Some "alice@example.com") None) 8 users1 =
    (users1, Response 400 (ErrorBody "البريد الإلكتروني وكلمة المرور مطلوبان")) /\
  login (H := demo_crypto) (LoginBody (Some "bob@example.com") (Some "secret1")) 8 users1 =
    (users1, Response 401 (ErrorBody "بيانات دخول غير صحيحة")) /\
  login (H := demo_crypto) (LoginBody (Some "alice@example.com") (Some "wrong!")) 8 users1 =
    (users1, Response 401 (ErrorBody "بيانات دخول غير صحيحة")).
Proof.
  destruct (login_errors (H := demo_crypto) (LoginBody (Some "alice@example.com") None) 8
              (register (H := demo_crypto)
                 (RegisterBody (Some "alice@example.com") (Some "secret1") (Some "alice")) 0 7 []).1)
    as (H400 & H401a & H401b).
  split_and!.
  - apply H400. reflexivity.
  - apply H401a; vm_compute; [congruence|congruence|reflexivity].
  - eapply H401b; vm_compute; [congruence|congruence|reflexivity|reflexivity].
Defined.

(** A header [Bearer <token>] with a token free of spaces. *)
Lemma split_on_app sep (a b : list ascii) :
  Forall (fun x => x <> sep) a -> split_on sep (a ++ sep :: b) = a :: split_on sep b.
Proof.
  induction 1 as [|x a Hx _ IH]; simpl; [by rewrite Ascii.eqb_refl|].
  destruct (Ascii.eqb_spec x sep); [done|]. by rewrite IH.
Qed.

Lemma split_on_nosep sep (b : list ascii) :
  Forall (fun x => x <> sep) b -> split_on sep b = [b].
Proof.
  induction 1 as [|x b Hx _ IH]; simpl; [done|].
  destruct (Ascii.eqb_spec x sep); [done|]. by rewrite IH.
Qed.

(** C21. [authenticateToken] reads the token after ["Bearer "]: with a
    token free of spaces it passes exactly the payloads [jwt.verify]
    accepts and answers 403 otherwise; without a header it answers 401. *)
Theorem authenticateToken_bearer `{Crypto} tok now :
  tok <> "" -> Forall (fun x => x <> " "%char) (String.list_ascii_of_string tok) ->
  authenticateToken (Some ("Bearer " +:+ tok)) now =
    match jwt_verify tok now with
    | Some u => inr u
    | None => inl (Response 403 (ErrorBody "رمز دخول غير صحيح"))
    end /\
  authenticateToken None now = inl (Response 401 (ErrorBody "مطلوب رمز الدخول")).
Proof.
  intros Hne Hsp. split; [|done]. unfold authenticateToken, bearer_token.
  assert (String.list_ascii_of_string ("Bearer " +:+ tok) =
    String.list_ascii_of_string "Bearer" ++ " "%char :: String.list_ascii_of_string tok)
    as -> by reflexivity.
  rewrite split_on_app by (repeat constructor; done).
  rewrite split_on_nosep by done. simpl.
  rewrite String.string_of_list_ascii_of_string.
  destruct (String.eqb_spec tok ""); [done|]. done.
Qed.

Lemma authenticateToken_bearer_witness :
  authenticateToken (H := demo_crypto)
    (Some ("Bearer " +:+ jwt_sign (Crypto := demo_crypto) {| id := "1"; email := "a@b.c"; displayName := "a" |} 0)) 5 =
    match jwt_verify (Crypto := demo_crypto) (jwt_sign (Crypto := demo_crypto)
            {| id := "1"; email := "a@b.c"; displayName := "a" |} 0) 5 with
    | Some u => inr u
    | None => inl (Response 403 (ErrorBody "رمز دخول غير صحيح"))
    end /\
  authenticateToken (H := demo_crypto) None 5 = inl (Response 401 (ErrorBody "مطلوب رمز الدخول")).
Proof.
  apply authenticateToken_bearer; [vm_compute; congruence|].
  vm_compute. repeat constructor; discriminate.
Defined.
End Accounts.
