(* ===== verification/RateLimit.v ===== *)
(** The rate limiter in front of the HTTP API (server.js 44-54): the
    [express-rate-limit] middleware mounted on ['/api/'], with 100
    requests per client per 15 minutes, keyed by [req.ip].  The
    application sets [app.set('trust proxy', true)] (server.js 16), so
    Express takes [req.ip] from the [X-Forwarded-For] header (the
    [proxy-addr] package: the header split at commas, spaces trimmed,
    the leftmost entry when every hop is trusted), and the limiter's own
    [trustProxy: false] option does not change how Express computes it.

    The limiter's store is the package's [MemoryStore]: per key, a hit
    count and a reset time; a hit at or after the reset time opens a new
    window of [windowMs].  The middleware increments the key's count and
    answers 429 with the configured message when the count exceeds
    [max], else passes the request on.  These two packages are libraries
    the server calls; they are modelled as their documented behaviour
    with the configuration the server gives them.

    The theorems: from the store the process starts with, one key never
    gets more than [2 * max] requests through in any interval of
    [windowMs] (fixed windows allow a burst at a window's end and another
    at the next one's start); and a single TCP peer that writes a
    different [X-Forwarded-For] on each request is never refused. *)

From S2P Require Import Prelude JsMap Model Accounts.

Module RateLimit.
Import Accounts.

(** What the middleware reads of a request: the TCP peer's address and
    the [X-Forwarded-For] header. *)
Record http_req := HttpReq { remoteAddress : string; x_forwarded_for : option string }.

(** Spaces at the start of a header entry. *)
Fixpoint drop_sp (l : list ascii) : list ascii :=
  match l with
  | c :: l' => if Ascii.eqb c " "%char then drop_sp l' else l
  | [] => []
  end.

(** Spaces at both ends of a header entry. *)
Definition trim_sp (l : list ascii) : list ascii := rev (drop_sp (rev (drop_sp l))).

(** [proxy-addr]'s [parse] of [X-Forwarded-For]: the non-empty entries
    between commas, spaces trimmed, rightmost first. *)
Definition xff_tokens (h : string) : list string :=
  rev (omap (fun w => let t := trim_sp w in
                      match t with [] => None | _ => Some (String.string_of_list_ascii t) end)
            (split_on ","%char (String.list_ascii_of_string h))).

(** [forwarded(req)]: the socket address, then the header's entries from
    the nearest hop outwards. *)
Definition forwarded (r : http_req) : list string :=
  remoteAddress r :: xff_tokens (default "" (x_forwarded_for r)).

(** [req.ip] under [trust proxy] = [true]: every hop is trusted, so the
    address is the last of [forwarded(req)], the header's leftmost
    entry. *)
Definition req_ip (r : http_req) : string := default (remoteAddress r) (last (forwarded r)).

(** The limiter's options (server.js 45-53). *)
Record rl_config := RlConfig { windowMs : Z; max : nat; rl_message : string }.

Definition limiter_config : rl_config :=
  RlConfig (15 * 60 * 1000) 100 "كثرة الطلبات، حاول لاحقاً".

(** One key's entry of [MemoryStore]. *)
Record rl_client := RlClient { totalHits : nat; resetTime : Z }.

Definition rl_store := jsmap string rl_client.

(** [MemoryStore.increment(key)] at time [now], on the key's entry [c]:
    a missing or expired entry starts a window at [now]. *)
Definition hit (cfg : rl_config) (now : Z) (c : option rl_client) : rl_client :=
  let c0 := match c with
            | Some c => if Z.leb (resetTime c) now then RlClient 0 (now + windowMs cfg) else c
            | None => RlClient 0 (now + windowMs cfg)
            end in
  RlClient (S (totalHits c0)) (resetTime c0).

Definition increment (cfg : rl_config) (key : string) (now : Z) (s : rl_store)
    : rl_client * rl_store :=
  let c := hit cfg now (jm_get key s) in (c, jm_set key c s).

(** The middleware: the new store, and [Some] 429 response when the
    request is refused, [None] when it goes on to the route ([next()]). *)
Definition rateLimit (cfg : rl_config) (r : http_req) (now : Z) (s : rl_store)
    : rl_store * option response :=
  let '(c, s') := increment cfg (req_ip r) now s in
  if Nat.ltb (max cfg) (totalHits c)
  then (s', Some (Response 429 (ErrorBody (rl_message cfg))))
  else (s', None).

(** Whether the middleware lets a request of [key] at [now] through. *)
Definition allows (cfg : rl_config) (key : string) (now : Z) (s : rl_store) : bool :=
  negb (Nat.ltb (max cfg) (totalHits (hit cfg now (jm_get key s)))).

(** [app.use('/api/', limiter)] (server.js 54): the mount path covers
    [/api] and everything under [/api/]. *)
Definition limited_path (path : string) : bool :=
  String.eqb path "/api" || String.prefix "/api/" path.

(** Requests through the middleware in order from a store; each
    outcome records the key, the time and whether the request passed. *)
Definition limit_run (cfg : rl_config) (s : rl_store) (reqs : list (Z * http_req))
    : rl_store * list (string * Z * bool) :=
  foldl (fun '(s, out) '(t, r) =>
           let '(s', resp) := rateLimit cfg r t s in
           (s', out ++ [(req_ip r, t, bool_decide (resp = None))]))
        (s, []) reqs.

(** The outcomes of key [k], with their times. *)
Definition key_outs (k : string) (out : list (string * Z * bool)) : list (Z * bool) :=
  omap (fun '(k', t, p) => if String.eqb k' k then Some (t, p) else None) out.

(** The passed requests whose time lies in [[lo, hi)]. *)
Definition passes_in (lo hi : Z) (out : list (Z * bool)) : nat :=
  length (List.filter (fun '(t, p) => p && bool_decide (lo <= t < hi)%Z) out).

(** One key on its own: its entry and its outcomes after hits at times
    [ts]. *)
Definition key_run (cfg : rl_config) (ts : list Z) : option rl_client * list (Z * bool) :=
  foldl (fun '(c, out) t =>
           let c' := hit cfg t c in
           (Some c', out ++ [(t, negb (Nat.ltb (max cfg) (totalHits c')))]))
        (None, []) ts.

(** Entries with no comma or space, which [req_ip] returns as sent. *)
Definition xff_plain (h : string) : bool :=
  negb (String.eqb h "") &&
  forallb (fun c => negb (Ascii.eqb c ","%char || Ascii.eqb c " "%char)) (String.list_ascii_of_string h).

(** The invariant of one key's run: the current window (opened at
    [resetTime - windowMs]) has passed [min totalHits max] requests, the
    window before it at most [max], every hit so far is before the reset
    time, and one of them opened the window. *)
Definition window_ok (cfg : rl_config) (c : rl_client) (out : list (Z * bool)) : Prop :=
  let r := resetTime c in
  passes_in (r - windowMs cfg) r out = Nat.min (totalHits c) (max cfg) /\
  passes_in (r - windowMs cfg - windowMs cfg) (r - windowMs cfg) out <= max cfg /\
  Forall (fun p => p.1 < r)%Z out /\
  Exists (fun p => p.1 = r - windowMs cfg)%Z out.

Definition bound_ok (cfg : rl_config) (out : list (Z * bool)) : Prop :=
  forall a, passes_in a (a + windowMs cfg) out <= 2 * max cfg.

Definition key_inv (cfg : rl_config) (c : option rl_client) (out : list (Z * bool)) : Prop :=
  bound_ok cfg out /\ match c with None => out = [] | Some c => window_ok cfg c out end.

(** The times of key [k]'s requests. *)
Definition times_of (k : string) (reqs : list (Z * http_req)) : list Z :=
  omap (fun '(t, r) => if String.eqb (req_ip r) k then Some t else None) reqs.

(** [n] requests that one client may pass. *)
Definition pass_pattern (n m : nat) : list bool := repeat true (Nat.min n m) ++ repeat false (n - m).

(** Examples: a client reached directly, bursts of its requests, and
    101 forged [X-Forwarded-For] entries. *)
Definition demo_peer : http_req := HttpReq "203.0.113.7" None.

Definition burst_reqs : list (Z * http_req) :=
  [(0%Z, demo_peer)] ++ repeat (windowMs limiter_config - 1, demo_peer)%Z 99 ++
  repeat (windowMs limiter_config, demo_peer) 100.

Definition one_window_reqs : list (Z * http_req) := repeat (5%Z, demo_peer) 101.

Definition spoof_headers : list string := map (fun i : nat => "198.51.100." +:+ pretty i) (seq 0 101).

(** * Counting passed requests *)

Lemma passes_in_app lo hi l1 l2 :
  passes_in lo hi (l1 ++ l2) = passes_in lo hi l1 + passes_in lo hi l2.
Proof. unfold passes_in. by rewrite List.filter_app, length_app. Qed.

Lemma passes_in_cons lo hi t p l :
  passes_in lo hi ((t, p) :: l) = (if p && bool_decide (lo <= t < hi)%Z then 1 else 0) + passes_in lo hi l.
Proof. unfold passes_in. simpl. by destruct (_ && _). Qed.

Lemma passes_in_one lo hi t p :
  passes_in lo hi [(t, p)] = if p && bool_decide (lo <= t < hi)%Z then 1 else 0.
Proof. unfold passes_in. simpl. by destruct (_ && _). Qed.

Lemma passes_in_split lo m hi l :
  (lo <= m <= hi)%Z -> passes_in lo hi l = passes_in lo m l + passes_in m hi l.
Proof.
  intros Hm. induction l as [|[t p] l IH]; [done|].
  rewrite !passes_in_cons, IH.
  destruct p; simpl; repeat case_bool_decide; lia.
Qed.

Lemma passes_in_mono a b lo hi l :
  Forall (fun p => a <= p.1 < b -> lo <= p.1 < hi)%Z l ->
  passes_in a b l <= passes_in lo hi l.
Proof.
  induction 1 as [|[t p] l Ht _ IH]; [done|].
  rewrite !passes_in_cons. simpl in Ht.
  destruct p; simpl; repeat case_bool_decide; naive_solver lia.
Qed.

Lemma passes_in_zero lo hi l :
  Forall (fun p => ~ (lo <= p.1 < hi))%Z l -> passes_in lo hi l = 0.
Proof.
  induction 1 as [|[t p] l Ht _ IH]; [done|].
  rewrite passes_in_cons, IH. simpl in Ht.
  case_bool_decide; [done|]. by destruct p.
Qed.

(** * Requests and keys *)

Lemma drop_sp_plain l :
  (forall c l', l = c :: l' -> c <> " "%char) -> drop_sp l = l.
Proof.
  destruct l as [|c l]; intros H; [done|]. simpl.
  destruct (Ascii.eqb_spec c " "%char); [|done]. by destruct (H c l).
Qed.

Lemma trim_sp_plain l : Forall (fun c => c <> " "%char) l -> trim_sp l = l.
Proof.
  intros Hl. unfold trim_sp.
  rewrite (drop_sp_plain l) by (intros c l' ->; by inversion Hl).
  rewrite (drop_sp_plain (rev l)), rev_involutive; [done|].
  intros c l' E. apply Forall_rev in Hl. rewrite E in Hl. by inversion Hl.
Qed.

(** An entry with no comma or space is [req.ip] as sent. *)
Lemma req_ip_plain ra h : xff_plain h = true -> req_ip (HttpReq ra (Some h)) = h.
Proof.
  unfold xff_plain. intros [Hne Hc]%andb_prop. rewrite List.forallb_forall in Hc.
  assert (Forall (fun c => c <> ","%char /\ c <> " "%char) (String.list_ascii_of_string h)) as Hf.
  { apply Forall_forall. intros c Hin%list_elem_of_In. specialize (Hc c Hin).
    destruct (Ascii.eqb_spec c ","%char), (Ascii.eqb_spec c " "%char); simpl in Hc; naive_solver. }
  unfold req_ip, forwarded, xff_tokens. simpl.
  rewrite split_on_nosep by (eapply Forall_impl; [exact Hf|]; naive_solver). simpl.
  rewrite trim_sp_plain by (eapply Forall_impl; [exact Hf|]; naive_solver).
  destruct (String.list_ascii_of_string h) eqn:E.
  - apply (f_equal String.string_of_list_ascii) in E.
    rewrite String.string_of_list_ascii_of_string in E. by subst.
  - rewrite <- E, String.string_of_list_ascii_of_string. done.
Qed.

(** The middleware's answer is the hit count against [max]. *)
Lemma rateLimit_eq cfg r now s :
  rateLimit cfg r now s =
    (jm_set (req_ip r) (hit cfg now (jm_get (req_ip r) s)) s,
     if Nat.ltb (max cfg) (totalHits (hit cfg now (jm_get (req_ip r) s)))
     then Some (Response 429 (ErrorBody (rl_message cfg))) else None).
Proof. unfold rateLimit, increment. by destruct (Nat.ltb _ _). Qed.

Lemma rateLimit_allows cfg r now s :
  allows cfg (req_ip r) now s = true ->
  rateLimit cfg r now s = ((increment cfg (req_ip r) now s).2, None).
Proof. unfold allows. rewrite rateLimit_eq. by destruct (Nat.ltb _ _). Qed.

Lemma rateLimit_refuses cfg r now s :
  allows cfg (req_ip r) now s = false ->
  rateLimit cfg r now s =
    ((increment cfg (req_ip r) now s).2, Some (Response 429 (ErrorBody (rl_message cfg)))).
Proof. unfold allows. rewrite rateLimit_eq. by destruct (Nat.ltb _ _). Qed.

Lemma limit_run_snoc cfg s reqs t r :
  limit_run cfg s (reqs ++ [(t, r)]) =
    let '(s1, out) := limit_run cfg s reqs in
    (jm_set (req_ip r) (hit cfg t (jm_get (req_ip r) s1)) s1,
     out ++ [(req_ip r, t, negb (Nat.ltb (max cfg) (totalHits (hit cfg t (jm_get (req_ip r) s1)))))]).
Proof.
  unfold limit_run at 1. rewrite foldl_app. fold (limit_run cfg s reqs).
  destruct (limit_run cfg s reqs) as [s1 out]. simpl. rewrite rateLimit_eq.
  by destruct (Nat.ltb _ _).
Qed.

Lemma key_run_snoc cfg ts t :
  key_run cfg (ts ++ [t]) =
    let '(c, out) := key_run cfg ts in
    (Some (hit cfg t c), out ++ [(t, negb (Nat.ltb (max cfg) (totalHits (hit cfg t c))))]).
Proof. unfold key_run at 1. rewrite foldl_app. fold (key_run cfg ts). by destruct (key_run cfg ts). Qed.

Lemma key_run_times cfg ts : map fst (key_run cfg ts).2 = ts.
Proof.
  induction ts as [|t ts IH] using rev_ind; [done|].
  rewrite key_run_snoc. destruct (key_run cfg ts) as [c out]. simpl in *.
  by rewrite map_app, IH.
Qed.

(** Other keys do not touch key [k]: its entry and outcomes in a run are
    those of a run of its own requests. *)
Lemma limit_run_key cfg reqs k :
  jm_get k (limit_run cfg [] reqs).1 = (key_run cfg (times_of k reqs)).1 /\
  key_outs k (limit_run cfg [] reqs).2 = (key_run cfg (times_of k reqs)).2.
Proof.
  induction reqs as [|[t r] reqs IH] using rev_ind; [done|].
  rewrite limit_run_snoc. unfold times_of. rewrite omap_app. fold (times_of k reqs).
  destruct (limit_run cfg [] reqs) as [s out]. simpl in *. destruct IH as [IH1 IH2].
  unfold key_outs. rewrite omap_app. fold (key_outs k out). simpl.
  destruct (String.eqb_spec (req_ip r) k) as [<-|Hne].
  - rewrite key_run_snoc. destruct (key_run cfg (times_of (req_ip r) reqs)) as [c kout].
    simpl in *. by rewrite jm_get_set_eq, IH1, IH2.
  - rewrite jm_get_set_ne by done. by rewrite !app_nil_r.
Qed.

(** * One window, then any interval *)

Section Window.
Variable cfg : rl_config.
Hypothesis Hw : (0 < windowMs cfg)%Z.

(** A pass at [t] inside the new window keeps every interval of
    [windowMs] within the two windows the invariant bounds. *)
Lemma bound_ok_step c out t p :
  bound_ok cfg out -> window_ok cfg c (out ++ [(t, p)]) ->
  (resetTime c - windowMs cfg <= t)%Z -> bound_ok cfg (out ++ [(t, p)]).
Proof.
  intros Hb (HA & HB & Hlt & _) Hs a.
  destruct (decide (p = true /\ a <= t < a + windowMs cfg)%Z) as [[-> Ha]|Hn].
  - transitivity (passes_in (resetTime c - windowMs cfg - windowMs cfg) (resetTime c)
                    (out ++ [(t, true)])).
    + apply passes_in_mono. eapply Forall_impl; [exact Hlt|]. intros q Hq ?. simpl in *. lia.
    + rewrite (passes_in_split _ (resetTime c - windowMs cfg)) by lia.
      pose proof (Nat.le_min_r (totalHits c) (max cfg)). lia.
  - rewrite passes_in_app, passes_in_one. specialize (Hb a).
    destruct p; simpl; repeat case_bool_decide; naive_solver lia.
Qed.

(** A hit that opens a window at [t], after every earlier hit. *)
Lemma window_ok_reset out t :
  Forall (fun q => q.1 < t)%Z out -> passes_in (t - windowMs cfg) t out <= max cfg ->
  window_ok cfg (RlClient 1 (t + windowMs cfg)) (out ++ [(t, negb (Nat.ltb (max cfg) 1))]).
Proof.
  intros Hlt HB. unfold window_ok. cbn [resetTime totalHits]. rewrite !passes_in_app, !passes_in_one.
  replace (t + windowMs cfg - windowMs cfg)%Z with t by lia.
  rewrite (passes_in_zero t) by (eapply Forall_impl; [exact Hlt|]; simpl; lia).
  split_and!.
  - destruct (max cfg) as [|m]; simpl; repeat case_bool_decide; simpl; lia.
  - repeat case_bool_decide; [lia|]. rewrite andb_false_r. lia.
  - apply Forall_app; split; [eapply Forall_impl; [exact Hlt|]; simpl; lia|].
    constructor; [simpl; lia|done].
  - apply Exists_app. right. constructor. simpl. lia.
Qed.

(** A hit at [t] inside the current window. *)
Lemma window_ok_same h r out t :
  window_ok cfg (RlClient h r) out -> Forall (fun q => q.1 <= t)%Z out -> (t < r)%Z ->
  window_ok cfg (RlClient (S h) r) (out ++ [(t, negb (Nat.ltb (max cfg) (S h)))]).
Proof.
  unfold window_ok. cbn [resetTime totalHits]. intros (HA & HB & Hlt & Hex) Hle Ht.
  assert (r - windowMs cfg <= t)%Z as Hs.
  { apply Exists_exists in Hex as (q & Hq & Eq). rewrite Forall_forall in Hle.
    specialize (Hle q Hq). lia. }
  rewrite !passes_in_app, !passes_in_one, HA. split_and!.
  - destruct (Nat.ltb_spec (max cfg) (S h)); cbn [negb andb]; repeat case_bool_decide; cbn [andb]; lia.
  - repeat case_bool_decide; [lia|]. rewrite andb_false_r. lia.
  - apply Forall_app; split; [done|]. constructor; [simpl; lia|done].
  - apply Exists_app. by left.
Qed.

Lemma key_inv_step c out t :
  key_inv cfg c out -> Forall (fun q => q.1 <= t)%Z out ->
  key_inv cfg (Some (hit cfg t c)) (out ++ [(t, negb (Nat.ltb (max cfg) (totalHits (hit cfg t c))))]).
Proof.
  intros [Hb Hc] Hle.
  assert (window_ok cfg (hit cfg t c) (out ++ [(t, negb (Nat.ltb (max cfg) (totalHits (hit cfg t c))))])
          /\ resetTime (hit cfg t c) - windowMs cfg <= t)%Z as [Hw' Hs].
  { destruct c as [[h r]|]; unfold hit; cbn [resetTime totalHits].
    - destruct Hc as (HA & HB & Hlt & Hex). cbn [resetTime totalHits] in *.
      destruct (Z.leb_spec r t) as [Hr|Hr].
      + split; [|simpl; lia]. apply window_ok_reset.
        * eapply Forall_impl; [exact Hlt|]. simpl. lia.
        * etransitivity; [|apply (Nat.le_min_r h)]. rewrite <- HA.
          apply passes_in_mono. eapply Forall_impl; [exact Hlt|]. simpl. lia.
      + split; [by apply window_ok_same|].
        apply Exists_exists in Hex as (q & Hq & Eq). rewrite Forall_forall in Hle.
        specialize (Hle q Hq). simpl. lia.
    - subst out. split; [|simpl; lia]. apply window_ok_reset; [done|].
      rewrite (passes_in_zero _ _ []) by done. lia. }
  split; [|done]. by eapply bound_ok_step.
Qed.

Lemma key_run_inv ts :
  StronglySorted Z.le ts -> key_inv cfg (key_run cfg ts).1 (key_run cfg ts).2.
Proof.
  induction ts as [|t ts IH] using rev_ind; intros Hs.
  - split; [intros a; cbv [passes_in]; simpl; lia|done].
  - pose proof (key_run_times cfg ts) as Ht. rewrite key_run_snoc.
    destruct (key_run cfg ts) as [c out] eqn:E. simpl in *.
    apply key_inv_step; [by eapply IH, StronglySorted_app_1_l|].
    apply Forall_forall. intros q Hq.
    apply (StronglySorted_app_1_elem_of _ ts [t]); [done| |by left].
    rewrite <- Ht. by apply list_elem_of_fmap_2.
Qed.
End Window.

(** * Runs of the middleware *)

Lemma times_of_sublist k reqs : sublist (times_of k reqs) (map fst reqs).
Proof.
  induction reqs as [|[t r] reqs IH]; [done|]. unfold times_of. simpl.
  destruct (String.eqb _ _); simpl; [by apply sublist_skip|by apply sublist_cons].
Qed.

Lemma pass_pattern_snoc n m : pass_pattern (S n) m = pass_pattern n m ++ [Nat.ltb n m].
Proof.
  unfold pass_pattern. destruct (Nat.ltb_spec n m).
  - replace (Nat.min (S n) m) with (S (Nat.min n m)) by lia.
    replace (S n - m) with 0 by lia. replace (n - m) with 0 by lia.
    cbn [repeat]. rewrite repeat_cons, !app_nil_r. done.
  - replace (Nat.min (S n) m) with (Nat.min n m) by lia.
    replace (S n - m) with (S (n - m)) by lia.
    cbn [repeat]. by rewrite repeat_cons, app_assoc.
Qed.

(** Hits of one key inside the window its first hit opens. *)
Lemma key_run_one_window cfg t0 ts :
  (0 < windowMs cfg)%Z -> Forall (fun t => t0 <= t < t0 + windowMs cfg)%Z ts ->
  map snd (key_run cfg ts).2 = pass_pattern (length ts) (max cfg) /\
  match (key_run cfg ts).1 with
  | None => ts = []
  | Some c => totalHits c = length ts /\ (t0 + windowMs cfg <= resetTime c)%Z
  end.
Proof.
  intros Hw. induction ts as [|t ts IH] using rev_ind; intros Hts; [done|].
  apply Forall_app in Hts as [Hts Ht]. apply Forall_inv in Ht.
  destruct (IH Hts) as [IH1 IH2]. rewrite key_run_snoc.
  destruct (key_run cfg ts) as [c out]. simpl in *. rewrite length_app, Nat.add_1_r.
  rewrite map_app, IH1, pass_pattern_snoc. simpl.
  destruct c as [[h r]|]; simpl in IH2.
  - destruct IH2 as [-> Hr]. cbn [resetTime totalHits]. destruct (Z.leb_spec r t); [lia|]. simpl.
    split_and!; [|done|lia]. do 2 f_equal.
    destruct (Nat.ltb_spec (max cfg) (S (length ts))), (Nat.ltb_spec (length ts) (max cfg));
      simpl; lia.
  - subst ts. simpl. split; [|split; [done|lia]]. by destruct (max cfg) as [|[|m]].
Qed.

(** Requests with keys never seen before all pass. *)
Lemma limit_run_fresh cfg reqs :
  1 <= max cfg -> NoDup (map (fun q => req_ip q.2) reqs) ->
  Forall (fun o => o.2 = true) (limit_run cfg [] reqs).2 /\
  forall k, k ∉ map (fun q => req_ip q.2) reqs -> jm_get k (limit_run cfg [] reqs).1 = None.
Proof.
  intros Hm. induction reqs as [|[t r] reqs IH] using rev_ind; intros Hnd; [done|].
  rewrite map_app in Hnd. apply NoDup_app in Hnd as (Hnd & Hdis & _).
  destruct (IH Hnd) as [IH1 IH2]. rewrite limit_run_snoc.
  destruct (limit_run cfg [] reqs) as [s out]. cbn [fst snd] in *.
  rewrite (IH2 (req_ip r)) by (intros Hin; apply (Hdis _ Hin); by left). split.
  - apply Forall_app. split; [done|]. constructor; [|done]. simpl.
    by destruct (Nat.ltb_spec (max cfg) 1); [lia|].
  - intros k Hk. rewrite map_app in Hk. apply not_elem_of_app in Hk as [Hk1 Hk2].
    rewrite jm_get_set_ne; [by apply IH2|]. intros E. apply Hk2. simpl. rewrite E. by left.
Qed.

(** C15. From the empty store the server starts with, and with the clock
    never going back, no client key gets more than 200 requests (twice
    [max: 100]) past the limiter in any interval of 15 minutes, although
    each window alone lets only 100 through: a burst at the end of one
    window and another at the start of the next come close (199, in the
    witness). *)
Theorem limiter_window_bound reqs k a :
  Sorted Z.le (map fst reqs) ->
  passes_in a (a + windowMs limiter_config) (key_outs k (limit_run limiter_config [] reqs).2)
    <= 2 * max limiter_config.
Proof.
  intros Hs. rewrite (proj2 (limit_run_key limiter_config reqs k)).
  apply key_run_inv; [done|]. eapply StronglySorted_sublist; [apply times_of_sublist|].
  apply Sorted_StronglySorted; [apply _|done].
Qed.

(** C32. Inside one window of 15 minutes opened by its first request, a
    key's requests pass while at most 100 have been made and are refused
    with 429 after: the first 100 pass and every later one is refused. *)
Theorem limiter_one_window reqs k t0 :
  Forall (fun t => t0 <= t < t0 + windowMs limiter_config)%Z (times_of k reqs) ->
  map snd (key_outs k (limit_run limiter_config [] reqs).2) =
    pass_pattern (length (times_of k reqs)) (max limiter_config).
Proof.
  intros Hts. rewrite (proj2 (limit_run_key limiter_config reqs k)).
  by apply (key_run_one_window limiter_config t0).
Qed.

(** C14. Because the application trusts every proxy, the key is the
    leftmost [X-Forwarded-For] entry, which the client writes: requests
    from one TCP peer that each carry a different entry are never
    refused, however many there are. *)
Theorem xff_spoof_bypass ra hs now :
  NoDup hs -> Forall (fun h => xff_plain h = true) hs ->
  Forall (fun o => o.2 = true)
    (limit_run limiter_config [] (map (fun h => (now, HttpReq ra (Some h))) hs)).2.
Proof.
  intros Hnd Hp. apply limit_run_fresh; [simpl; lia|].
  rewrite map_map. simpl. erewrite map_ext_in; [by rewrite map_id|].
  intros h Hh. apply req_ip_plain. rewrite Forall_forall in Hp. by apply Hp, list_elem_of_In.
Qed.

(** [limiter_window_bound] on a burst: one request at time 0 opens a
    window, 99 more at its last millisecond and 100 at the first of the
    next: 199 pass within 15 minutes. *)
Lemma limiter_window_bound_witness :
  passes_in 1 (1 + windowMs limiter_config)
    (key_outs "203.0.113.7" (limit_run limiter_config [] burst_reqs).2) <= 2 * max limiter_config /\
  passes_in 1 (1 + windowMs limiter_config)
    (key_outs "203.0.113.7" (limit_run limiter_config [] burst_reqs).2) = 199.
Proof.
  split; [apply limiter_window_bound; by_decide|].
  vm_compute. reflexivity.
Defined.

(** [limiter_one_window] on 101 requests in one millisecond: the 101st
    is refused. *)
Lemma limiter_one_window_witness :
  map snd (key_outs "203.0.113.7" (limit_run limiter_config [] one_window_reqs).2) =
    repeat true 100 ++ [false].
Proof.
  rewrite (limiter_one_window _ _ 0); [vm_compute; reflexivity|].
  by_decide.
Defined.

(** [xff_spoof_bypass] on 101 requests from one peer in one millisecond,
    each with its own forged entry: all pass. *)
Lemma xff_spoof_bypass_witness :
  Forall (fun o => o.2 = true)
    (limit_run limiter_config [] (map (fun h => (5%Z, HttpReq "203.0.113.7" (Some h))) spoof_headers)).2 /\
  length spoof_headers = 101.
Proof.
  split; [|reflexivity].
  apply xff_spoof_bypass; by_decide.
Defined.
End RateLimit.
