(* ===== verification/Render.v ===== *)
(** What the client (src/app.js) writes into the page, as strings of
    HTML: [escapeHtml] (app.js 477-481), the message element of
    [displayMessage] (396-402), the user item of [updateUsersList]
    (429-432), the notification preview of [displayMessage] (387), and
    the search of [searchMessages] / [highlightText] (588-627).

    The browser is modelled only as far as these functions use it.
    [escapeHtml] sets a text node and reads back [innerHTML], whose
    serialisation escapes [&], [<], [>] and the no-break space; the text
    that the page shows for a piece of HTML ([textContent]) is [html_text],
    which drops tags and decodes those four entities, the only ones the
    client produces.  Strings are UTF-8 byte strings, so [toLowerCase] is
    modelled on ASCII letters and a no-break space is the two bytes
    [194 160].  The indentation inside the templates is left out: it adds
    only white-space text nodes.  [highlightText] builds a [RegExp] from
    the search term: it is modelled for terms without regular-expression
    metacharacters, where the pattern is the literal term matched without
    regard to case; for other terms the model gives [None]. *)

From S2P Require Import Prelude Model.
From Equations Require Import Equations.

Module Render.

(** The double quote character, for the attributes of the templates. *)
Definition quot : string := String (ascii_of_nat 34) EmptyString.

(** [<tag class="cls">] and [</tag>]. *)
Definition open_tag (tag cls : string) : string :=
  "<" +:+ tag +:+ " class=" +:+ quot +:+ cls +:+ quot +:+ ">".
Definition close_tag (tag : string) : string := "</" +:+ tag +:+ ">".

(** [escapeHtml(text)]: [div.textContent = text; return div.innerHTML]. *)
Fixpoint escapeHtml (s : string) : string :=
  match s with
  | EmptyString => EmptyString
  | String "&"%char r => "&amp;" +:+ escapeHtml r
  | String "<"%char r => "&lt;" +:+ escapeHtml r
  | String ">"%char r => "&gt;" +:+ escapeHtml r
  | String "194"%char (String "160"%char r) => "&nbsp;" +:+ escapeHtml r
  | String c r => String c (escapeHtml r)
  end.

(** [textContent] of HTML: the text outside tags, with the entities
    [escapeHtml] writes decoded; [in_tag] is set between [<] and [>]. *)
Fixpoint html_text_from (in_tag : bool) (s : string) : string :=
  match s with
  | EmptyString => EmptyString
  | String c r =>
      if in_tag then html_text_from (negb (Ascii.eqb c ">"%char)) r
      else match s with
           | String "&"%char (String "a"%char (String "m"%char (String "p"%char
               (String ";"%char r')))) => String "&"%char (html_text_from false r')
           | String "&"%char (String "l"%char (String "t"%char (String ";"%char r'))) =>
               String "<"%char (html_text_from false r')
           | String "&"%char (String "g"%char (String "t"%char (String ";"%char r'))) =>
               String ">"%char (html_text_from false r')
           | String "&"%char (String "n"%char (String "b"%char (String "s"%char
               (String "p"%char (String ";"%char r'))))) =>
               String "194"%char (String "160"%char (html_text_from false r'))
           | _ => if Ascii.eqb c "<"%char then html_text_from true r
                  else String c (html_text_from false r)
           end
  end.

Definition html_text : string -> string := html_text_from false.

(** The inner HTML of a message element (app.js 396-402); [time] is
    [new Date(message.timestamp).toLocaleTimeString('ar-SA', ...)]. *)
Definition message_html (time : string) (m : message) : string :=
  open_tag "div" "message-header" +:+
    open_tag "span" "sender" +:+ senderName m +:+ close_tag "span" +:+
    open_tag "span" "timestamp" +:+ time +:+ close_tag "span" +:+
  close_tag "div" +:+
  open_tag "div" "message-content" +:+ escapeHtml (content m) +:+ close_tag "div".

(** The inner HTML of a user item of the online list (app.js 429-432). *)
Definition user_item_html (displayName : string) : string :=
  open_tag "span" "user-status online" +:+ close_tag "span" +:+
  open_tag "span" "user-name" +:+ displayName +:+ close_tag "span".

(** The body of the notification of a message (app.js 387). *)
Definition preview (c : string) : string :=
  if Nat.ltb 50 (String.length c) then String.substring 0 50 c +:+ "..." else c.

(** [toLowerCase] on ASCII. *)
Definition lower_char (c : ascii) : ascii :=
  let n := nat_of_ascii c in
  if (65 <=? n) && (n <=? 90) then ascii_of_nat (n + 32) else c.

Fixpoint to_lower (s : string) : string :=
  match s with
  | EmptyString => EmptyString
  | String c r => String (lower_char c) (to_lower r)
  end.

(** The characters that make a [RegExp] source more than a literal. *)
Definition regex_meta (c : ascii) : bool :=
  match c with
  | "\"%char | "^"%char | "$"%char | "."%char | "|"%char | "?"%char | "*"%char
  | "+"%char | "("%char | ")"%char | "["%char | "]"%char | "{"%char | "}"%char => true
  | _ => false
  end.

(** [<mark style="...">] and [</mark>] of [highlightText]. *)
Definition mark_open : string :=
  "<mark style=" +:+ quot +:+ "background: #00ff00; color: #000;" +:+ quot +:+ ">".
Definition mark_close : string := "</mark>".

(** [text.replace(/(t ts)/gi, '<mark ...>$1</mark>')] for a literal
    pattern [t :: ts], on characters: each leftmost match, compared
    without regard to case, is wrapped in a mark. *)
Equations mark_matches (t : ascii) (ts : list ascii) (l : list ascii) : list ascii
    by wf (length l) lt :=
mark_matches t ts [] := [];
mark_matches t ts (c :: l) :=
  if bool_decide (map lower_char (take (S (length ts)) (c :: l)) = map lower_char (t :: ts))
  then String.list_ascii_of_string mark_open ++ take (S (length ts)) (c :: l) ++
       String.list_ascii_of_string mark_close ++ mark_matches t ts (drop (length ts) l)
  else c :: mark_matches t ts l.
Next Obligation. intros. simpl. rewrite length_drop. lia. Qed.

(** [highlightText(element, searchTerm)] (app.js 620-627), from the
    element's inner HTML to its new inner HTML: an empty term leaves it;
    otherwise its text is re-parsed as HTML with the matches marked.
    [None] when the term is outside the modelled fragment (it has a
    metacharacter). *)
Definition highlightText (html term : string) : option string :=
  match String.list_ascii_of_string term with
  | [] => Some html
  | t :: ts =>
      if existsb regex_meta (t :: ts) then None
      else Some (String.string_of_list_ascii
                   (mark_matches t ts (String.list_ascii_of_string (html_text html))))
  end.

(** A message element of [#chat-messages] as [searchMessages] sees it:
    the inner HTML of its [.sender] and [.message-content] elements, and
    whether it is shown. *)
Record msg_el := MsgEl {
  el_own : bool;
  el_sender_html : string;
  el_time : string;
  el_content_html : string;
  el_shown : bool;
}.

(** The element [displayMessage] appends for [m] (app.js 376-404):
    the sender's name as HTML, the escaped content, shown. *)
Definition display_el (own : bool) (time : string) (m : message) : msg_el :=
  MsgEl own (senderName m) time (escapeHtml (content m)) true.

Definition show_el (b : bool) (e : msg_el) : msg_el :=
  MsgEl (el_own e) (el_sender_html e) (el_time e) (el_content_html e) b.

(** One element of the [messages.forEach] of [searchMessages] for a
    non-empty term (app.js 601-617). *)
Definition search_el (term : string) (e : msg_el) : option msg_el :=
  let contentText := to_lower (html_text (el_content_html e)) in
  let senderText := to_lower (html_text (el_sender_html e)) in
  if js_includes contentText term || js_includes senderText term then
    match highlightText (el_content_html e) term with
    | Some h => Some (MsgEl (el_own e) (el_sender_html e) (el_time e) h true)
    | None => None
    end
  else Some (show_el false e).

(** [searchMessages(query)] (app.js 588-618). *)
Definition searchMessages (query : string) (els : list msg_el) : option (list msg_el) :=
  if String.eqb (js_trim query) "" then Some (map (show_el true) els)
  else mapM (search_el (js_trim (to_lower query))) els.

(** Occurrences of a character. *)
Fixpoint count_char (c : ascii) (s : string) : nat :=
  match s with
  | EmptyString => 0
  | String d r => (if Ascii.eqb d c then 1 else 0) + count_char c r
  end.

Lemma count_char_app c a b : count_char c (a +:+ b) = count_char c a + count_char c b.
Proof. induction a as [|d a IH]; [done|]. rewrite string_app_cons. simpl. lia. Qed.

Lemma escapeHtml_plain c r :
  c <> "&"%char -> c <> "<"%char -> c <> ">"%char -> c <> "194"%char ->
  escapeHtml (String c r) = String c (escapeHtml r).
Proof. destruct c as [[] [] [] [] [] [] [] []]; done. Qed.

Lemma escapeHtml_194 r :
  escapeHtml (String "194" r) =
    match r with
    | String d r' => if Ascii.eqb d "160" then "&nbsp;" +:+ escapeHtml r'
                     else String "194" (escapeHtml r)
    | EmptyString => String "194" EmptyString
    end.
Proof. destruct r as [|d r']; [done|]. destruct d as [[] [] [] [] [] [] [] []]; done. Qed.

Lemma html_text_plain c r :
  c <> "&"%char -> c <> "<"%char -> html_text_from false (String c r) = String c (html_text r).
Proof. destruct c as [[] [] [] [] [] [] [] []]; done. Qed.

(** The characters [escapeHtml] treats apart. *)
Lemma escape_char_cases (c : ascii) :
  c = "&"%char \/ c = "<"%char \/ c = ">"%char \/ c = "194"%char \/
  (c <> "&"%char /\ c <> "<"%char /\ c <> ">"%char /\ c <> "194"%char).
Proof.
  destruct (decide (c = "&"%char)); [by left|]. destruct (decide (c = "<"%char)); [by do 1 right; left|].
  destruct (decide (c = ">"%char)); [by do 2 right; left|].
  destruct (decide (c = "194"%char)); [by do 3 right; left|]. by do 4 right.
Qed.

Lemma count_char_cons_ne c d r : d <> c -> count_char c (String d r) = count_char c r.
Proof. intros Hne. simpl. by destruct (Ascii.eqb_spec d c). Qed.

(** [escapeHtml] leaves no [<] and no [>]: no text it escapes can open
    or close a tag. *)
Lemma escapeHtml_no_angle s :
  count_char "<" (escapeHtml s) = 0 /\ count_char ">" (escapeHtml s) = 0.
Proof.
  induction s as [[|c r] IH] using string_length_ind; [done|].
  assert (forall r', String.length r' <= String.length r ->
    count_char "<" (escapeHtml r') = 0 /\ count_char ">" (escapeHtml r') = 0) as IH'
    by (intros; apply IH; simpl; lia).
  destruct (escape_char_cases c) as [->|[->|[->|[->|(?&?&?&?)]]]].
  1-3: simpl escapeHtml; rewrite !count_char_app; simpl; apply IH'; lia.
  - rewrite escapeHtml_194. destruct r as [|d r']; [done|].
    destruct (Ascii.eqb d "160").
    + rewrite !count_char_app. simpl. apply IH'. simpl. lia.
    + rewrite !count_char_cons_ne by done. apply IH'. lia.
  - rewrite escapeHtml_plain, !count_char_cons_ne by done. apply IH'. lia.
Qed.

(** What the page shows of escaped text is the text: [textContent] of
    [escapeHtml s] is [s]. *)
Lemma escapeHtml_text s : html_text (escapeHtml s) = s.
Proof.
  induction s as [[|c r] IH] using string_length_ind; [done|].
  assert (forall r', String.length r' <= String.length r -> html_text (escapeHtml r') = r')
    as IH' by (intros; apply IH; simpl; lia).
  unfold html_text in *.
  destruct (escape_char_cases c) as [->|[->|[->|[->|(?&?&?&?)]]]].
  1-3: simpl escapeHtml; rewrite !string_app_cons, string_app_nil; simpl; f_equal; apply IH'; lia.
  - rewrite escapeHtml_194. destruct r as [|d r']; [done|].
    destruct (Ascii.eqb_spec d "160") as [->|Hd].
    + rewrite !string_app_cons, string_app_nil. simpl. rewrite IH'; [done|simpl; lia].
    + rewrite html_text_plain by done. f_equal. apply IH'. lia.
  - rewrite escapeHtml_plain, html_text_plain by done. f_equal. apply IH'. lia.
Qed.

Lemma list_ascii_to_lower s :
  String.list_ascii_of_string (to_lower s) = map lower_char (String.list_ascii_of_string s).
Proof. induction s as [|c s IH]; simpl; by f_equal. Qed.

Lemma string_prefix_take p s :
  String.prefix p s =
    bool_decide (take (length (String.list_ascii_of_string p)) (String.list_ascii_of_string s) =
                 String.list_ascii_of_string p).
Proof.
  revert s. induction p as [|a p IH]; intros [|b s]; simpl; try done.
  destruct (ascii_dec a b) as [->|Hne].
  - rewrite IH. apply bool_decide_ext. split; [by intros ->|by intros [=]].
  - symmetry. apply bool_decide_eq_false. by intros [= ->].
Qed.

(** A lower-case term that occurs nowhere in the lower-cased text marks
    nothing. *)
Lemma mark_matches_none t ts s :
  map lower_char (t :: ts) = t :: ts ->
  js_includes (to_lower s) (String.string_of_list_ascii (t :: ts)) = false ->
  mark_matches t ts (String.list_ascii_of_string s) = String.list_ascii_of_string s.
Proof.
  intros Hlow. induction s as [|c s IH]; intros Hinc; [by simp mark_matches|].
  cbn [to_lower js_includes] in Hinc. apply orb_false_iff in Hinc as [Hpre Hinc].
  simpl String.list_ascii_of_string. simp mark_matches.
  rewrite bool_decide_eq_false_2; [by rewrite IH|].
  rewrite Hlow. intros Heq. revert Hpre.
  rewrite string_prefix_take, String.list_ascii_of_string_of_list_ascii.
  change (String (lower_char c) (to_lower s)) with (to_lower (String c s)).
  rewrite list_ascii_to_lower, bool_decide_eq_true_2; [done|].
  rewrite firstn_map. exact Heq.
Qed.

Lemma substring0_length n s :
  String.length (String.substring 0 n s) = Nat.min n (String.length s).
Proof. revert n. induction s as [|c s IH]; intros [|n]; simpl; auto. Qed.

Lemma substring0_full n s : String.length s <= n -> String.substring 0 n s = s.
Proof.
  revert n. induction s as [|c s IH]; intros [|n] Hn; simpl in *; try done; [lia|].
  rewrite IH; [done|lia].
Qed.

Lemma prefix_app (a b : string) : String.prefix a (a +:+ b) = true.
Proof.
  induction a as [|c a IH]; [by destruct b|]. rewrite string_app_cons. simpl.
  by destruct (ascii_dec c c).
Qed.

Lemma js_includes_prefix s t : String.prefix t s = true -> js_includes s t = true.
Proof. destruct s; simpl; by intros ->. Qed.

(** C18. The content of a message cannot add markup to its element, its
    sender's name can: the inner HTML [displayMessage] writes has the
    template's eight [<], one for each [<] of the sender's display name
    and of the time, and none for the content, which [escapeHtml]
    escapes (app.js 396-402). *)
Theorem message_html_tags time m :
  count_char "<" (message_html time m) =
    8 + count_char "<" (senderName m) + count_char "<" time.
Proof.
  unfold message_html, open_tag, close_tag.
  rewrite !count_char_app, (proj1 (escapeHtml_no_angle _)). simpl. lia.
Qed.

(** A search whose term matches a message's sender but not its
    content re-parses the content as HTML: [highlightText] reads the
    content's [textContent], finds no match, and writes that text back as
    [innerHTML], so the escaping of [displayMessage] is undone and a
    content that spells a tag becomes that tag (app.js 608-626). *)
Theorem search_reparses_content term t ts own time m :
  String.list_ascii_of_string term = t :: ts -> existsb regex_meta (t :: ts) = false ->
  to_lower term = term ->
  js_includes (to_lower (html_text (senderName m))) term = true ->
  js_includes (to_lower (content m)) term = false ->
  search_el term (display_el own time m) = Some (MsgEl own (senderName m) time (content m) true).
Proof.
  intros Hterm Hmeta Hlow Hs Hc.
  assert (term = String.string_of_list_ascii (t :: ts)) as Ht
    by (rewrite <-Hterm; symmetry; apply String.string_of_list_ascii_of_string).
  assert (map lower_char (t :: ts) = t :: ts) as Hmap
    by (rewrite <-Hterm, <-list_ascii_to_lower; by f_equal).
  unfold search_el, display_el, highlightText.
  cbn [el_own el_sender_html el_time el_content_html].
  rewrite escapeHtml_text, Hs, Hc, Hterm. cbn iota beta. rewrite Hmeta. rewrite Ht in Hc.
  by rewrite mark_matches_none, String.string_of_list_ascii_of_string.
Qed.

Lemma search_reparses_content_witness :
  let m := {| msg_id := "1"; msg_roomId := "general"; senderId := "7"; senderName := "bob";
              content := "<img src=x onerror=alert(1)>"; msg_type := "text"; timestamp := 1 |} in
  search_el "bob" (display_el false "12:00" m) =
    Some (MsgEl false "bob" "12:00" "<img src=x onerror=alert(1)>" true).
Proof.
  apply (search_reparses_content "bob" "b"%char ["o"; "b"]%char); reflexivity.
Defined.

(** The notification body of a message has at most 53 characters,
    begins with the content's first 50, and is the content itself when
    that has at most 50 (app.js 387). *)
Theorem preview_bounds c :
  String.length (preview c) <= 53 /\
  String.prefix (String.substring 0 50 c) (preview c) = true /\
  (String.length c <= 50 -> preview c = c).
Proof.
  unfold preview. destruct (Nat.ltb_spec 50 (String.length c)) as [Hlt|Hge].
  - rewrite string_length_app, substring0_length.
    split_and!; [change (String.length "...") with 3; lia|apply prefix_app|intros; exfalso; lia].
  - rewrite substring0_full by done. split_and!; [lia| |done].
    rewrite <-(string_app_nil_r c) at 2. apply prefix_app.
Qed.

End Render.
