(* ===== verification/Client.v ===== *)
(** The browser client, class [TerminalChat] of src/app.js, as a state
    machine.  Its state is three records: the object's own fields
    ([socket], [token], [currentUser], [currentRoom], [typingTimeout],
    app.js 3-7), the parts of the page its handlers read and write
    ([chat_page]), and what it keeps in the browser ([localStorage], the
    pending [setTimeout] callbacks, the Socket.IO connections it opened,
    the [fetch] requests it sent, the notifications it raised).

    [step] takes one input from outside (a DOM event, a reply to a
    [fetch], a Socket.IO event on one of the connections, a timer firing)
    and runs the handler the code registers for it, with every call it
    makes.  Each Socket.IO connection records what the client emitted on
    it; a connection made by [io()] stays in the list after [this.socket]
    moves on, since the code never closes it, and its handlers still act
    on [this].  A [fetch] is two inputs: the click that sends it and the
    reply ([None] when the request fails).  Notifications follow the
    code: the constructor asks [Notification.requestPermission()] and the
    browser's answer arrives later ([PermissionAnswer]); [document.hidden]
    changes by [VisibilityChange]; a message of someone else beeps
    ([sounds], on a browser with [AudioContext]) and raises a
    notification only when permission was granted and the page is
    hidden.  The search box is modelled in [Render].  The theme toggle,
    the emoji picker and the search box listen for element ids
    ([theme-toggle], [emoji-btn], [search-input]) that no page template
    renders, so their handlers never run; the [setTimeout] of
    [loadTheme], which only sets a CSS class, is left out, so timer ids
    count the other timers. *)

From S2P Require Import Prelude JsMap Model Accounts Render.

Module Client.
Import Accounts.

(** What the client emits on a socket. *)
Inductive emit :=
| EmJoinRoom (roomId : string)
| EmSendMessage (d : send_data)
| EmTypingStart (roomId : string)
| EmTypingStop (roomId : string).

(** A connection made by [io({ auth: { token } })]: its token, whether
    Socket.IO reports it [connected], whether the client called
    [disconnect()] on it, and what was emitted on it, oldest first. *)
Record conn := Conn {
  conn_token : string;
  conn_connected : bool;
  conn_closed : bool;
  conn_out : list emit;
}.

(** The callbacks the client passes to [setTimeout]. *)
Inductive callback := CbStopTyping | CbRetry.

#[export] Instance callback_eq_dec : EqDecision callback.
Proof. solve_decision. Defined.

Record timer := Timer { t_id : nat; t_due : Z; t_cb : callback }.

(** The [fetch] requests. *)
Inductive request :=
| ReqLogin (email password : string)
| ReqRegister (displayName email password : string)
| ReqMessages (roomId token : string).

(** The fields of [TerminalChat]; [socket] is an index into the
    connections. *)
Record chat := Chat {
  socket : option nat;
  token : option string;
  currentUser : option identity;
  currentRoom : string;
  typingTimeout : option nat;
  notificationsEnabled : bool;
}.

Inductive view := AuthView | ChatView.

(** A child of [#chat-messages]. *)
Inductive line := SystemLine (text : string) | MessageLine (el : Render.msg_el).

(** The page: which interface [document.body] holds, and in it the
    auth form's mode and message, the message list, the online list,
    the typing indicator ([None] when hidden) and the input's value. *)
Record chat_page := Page {
  view_of : view;
  loginMode : bool;
  authMessage : option (string * string);
  lines : list line;
  usersList : list string;
  indicator : option string;
  inputValue : string;
}.

(** The browser's side. *)
Record browser := Browser {
  storage : jsmap string string;
  timers : list timer;
  nextTimer : nat;
  conns : list conn;
  requests : list request;
  alerts : list (string * string);
  sounds : nat;
  hidden : bool;
  permissionPending : bool;
}.

Record client := Client { c_chat : chat; c_page : chat_page; c_env : browser }.

(** Inputs from outside the client. *)
Inductive input :=
| MessageInput (value : string)
| EnterKey
| ClickSend
| ClickLogout
| ClickToggleAuth
| ClickLogin (email password : string)
| ClickRegister (displayName email password : string)
| LoginReply (r : option response)
| RegisterReply (r : option response)
| MessagesReply (r : option response)
| SockConnect (k : nat)
| SockDisconnect (k : nat)
| SockConnectError (k : nat)
| SockEvent (k : nat) (ev : out_event)
| TimerFires (id : nat)
| PermissionAnswer (permission : string)
| VisibilityChange (isHidden : bool).

(** Field updates. *)
Definition set_chat (f : chat -> chat) (c : client) : client :=
  Client (f (c_chat c)) (c_page c) (c_env c).
Definition set_page (f : chat_page -> chat_page) (c : client) : client :=
  Client (c_chat c) (f (c_page c)) (c_env c).
Definition set_env (f : browser -> browser) (c : client) : client :=
  Client (c_chat c) (c_page c) (f (c_env c)).

Definition set_socket (s : option nat) : client -> client :=
  set_chat (fun h => Chat s (token h) (currentUser h) (currentRoom h) (typingTimeout h)
                          (notificationsEnabled h)).
Definition set_token (t : option string) : client -> client :=
  set_chat (fun h => Chat (socket h) t (currentUser h) (currentRoom h) (typingTimeout h)
                          (notificationsEnabled h)).
Definition set_currentUser (u : option identity) : client -> client :=
  set_chat (fun h => Chat (socket h) (token h) u (currentRoom h) (typingTimeout h)
                          (notificationsEnabled h)).
Definition set_typingTimeout (t : option nat) : client -> client :=
  set_chat (fun h => Chat (socket h) (token h) (currentUser h) (currentRoom h) t
                          (notificationsEnabled h)).
Definition set_notificationsEnabled (b : bool) : client -> client :=
  set_chat (fun h => Chat (socket h) (token h) (currentUser h) (currentRoom h) (typingTimeout h) b).

Definition set_loginMode (b : bool) : client -> client :=
  set_page (fun p => Page (view_of p) b (authMessage p) (lines p) (usersList p) (indicator p)
                          (inputValue p)).
Definition set_authMessage (m : option (string * string)) : client -> client :=
  set_page (fun p => Page (view_of p) (loginMode p) m (lines p) (usersList p) (indicator p)
                          (inputValue p)).
Definition set_lines (f : list line -> list line) : client -> client :=
  set_page (fun p => Page (view_of p) (loginMode p) (authMessage p) (f (lines p)) (usersList p)
                          (indicator p) (inputValue p)).
Definition set_usersList (l : list string) : client -> client :=
  set_page (fun p => Page (view_of p) (loginMode p) (authMessage p) (lines p) l (indicator p)
                          (inputValue p)).
Definition set_indicator (i : option string) : client -> client :=
  set_page (fun p => Page (view_of p) (loginMode p) (authMessage p) (lines p) (usersList p) i
                          (inputValue p)).
Definition set_inputValue (v : string) : client -> client :=
  set_page (fun p => Page (view_of p) (loginMode p) (authMessage p) (lines p) (usersList p)
                          (indicator p) v).

Definition set_storage (f : jsmap string string -> jsmap string string) : client -> client :=
  set_env (fun b => Browser (f (storage b)) (timers b) (nextTimer b) (conns b) (requests b)
                            (alerts b) (sounds b) (hidden b) (permissionPending b)).
Definition set_timers (f : list timer -> list timer) : client -> client :=
  set_env (fun b => Browser (storage b) (f (timers b)) (nextTimer b) (conns b) (requests b)
                            (alerts b) (sounds b) (hidden b) (permissionPending b)).
Definition set_nextTimer (n : nat) : client -> client :=
  set_env (fun b => Browser (storage b) (timers b) n (conns b) (requests b) (alerts b) (sounds b)
                            (hidden b) (permissionPending b)).
Definition set_conns (f : list conn -> list conn) : client -> client :=
  set_env (fun b => Browser (storage b) (timers b) (nextTimer b) (f (conns b)) (requests b)
                            (alerts b) (sounds b) (hidden b) (permissionPending b)).
Definition add_request (r : request) : client -> client :=
  set_env (fun b => Browser (storage b) (timers b) (nextTimer b) (conns b) (requests b ++ [r])
                            (alerts b) (sounds b) (hidden b) (permissionPending b)).
Definition add_alert (a : string * string) : client -> client :=
  set_env (fun b => Browser (storage b) (timers b) (nextTimer b) (conns b) (requests b)
                            (alerts b ++ [a]) (sounds b) (hidden b) (permissionPending b)).
Definition add_sound : client -> client :=
  set_env (fun b => Browser (storage b) (timers b) (nextTimer b) (conns b) (requests b) (alerts b)
                            (S (sounds b)) (hidden b) (permissionPending b)).
Definition set_hidden (h : bool) : client -> client :=
  set_env (fun b => Browser (storage b) (timers b) (nextTimer b) (conns b) (requests b) (alerts b)
                            (sounds b) h (permissionPending b)).
Definition set_permissionPending (p : bool) : client -> client :=
  set_env (fun b => Browser (storage b) (timers b) (nextTimer b) (conns b) (requests b) (alerts b)
                            (sounds b) (hidden b) p).

Definition in_chat_view (c : client) : bool :=
  match view_of (c_page c) with ChatView => true | AuthView => false end.

(** Connection [k]. *)
Definition conn_at (k : nat) (c : client) : option conn := conns (c_env c) !! k.

Definition set_conn (k : nat) (f : conn -> conn) : client -> client :=
  set_conns (alter f k).

Definition conn_emit (e : emit) (cn : conn) : conn :=
  Conn (conn_token cn) (conn_connected cn) (conn_closed cn) (conn_out cn ++ [e]).
Definition conn_set_connected (b : bool) (cn : conn) : conn :=
  Conn (conn_token cn) b (conn_closed cn) (conn_out cn).
Definition conn_close (cn : conn) : conn :=
  Conn (conn_token cn) false true (conn_out cn).

(** [this.socket.emit(e)]. *)
Definition emit_on_socket (e : emit) (c : client) : client :=
  match socket (c_chat c) with
  | Some k => set_conn k (conn_emit e) c
  | None => c
  end.

(** [setTimeout(cb, delay)] at time [now]: the new timer and its id. *)
Definition setTimeout (cb : callback) (delay now : Z) (c : client) : client * nat :=
  let id := nextTimer (c_env c) in
  (set_nextTimer (S id) (set_timers (fun ts => ts ++ [Timer id (now + delay) cb]) c), id).

(** [clearTimeout(id)]; [clearTimeout(null)] does nothing. *)
Definition clearTimeout (id : option nat) (c : client) : client :=
  match id with
  | Some i => set_timers (List.filter (fun t => negb (Nat.eqb (t_id t) i))) c
  | None => c
  end.

(** [message.senderId === this.currentUser?.id] (app.js 379): with no
    [currentUser] the right side is [undefined], which no id equals. *)
Definition own_message (m : message) (c : client) : bool :=
  match currentUser (c_chat c) with
  | Some u => String.eqb (senderId m) (id u)
  | None => false
  end.

(** The title and body [displayMessage] gives [showNotification] for a
    message. *)
Definition notify_of (m : message) : string * string :=
  ("رسالة جديدة من " +:+ senderName m, Render.preview (content m)).

Section Handlers.
(** [new Date(timestamp).toLocaleTimeString('ar-SA', ...)]. *)
Variable fmt_time : Z -> string.

(** [addSystemMessage(text)] (app.js 408-418): nothing without the
    message list. *)
Definition addSystemMessage (text : string) (c : client) : client :=
  if in_chat_view c then set_lines (fun ls => ls ++ [SystemLine text]) c else c.

(** [playNotificationSound()] (app.js 483-504): one beep, on a browser
    with [AudioContext]. *)
Definition playNotificationSound (c : client) : client := add_sound c.

(** [showNotification(title, message)] (app.js 571-586): a notification
    only when permission was granted and the page is hidden. *)
Definition showNotification (title message : string) (c : client) : client :=
  if notificationsEnabled (c_chat c) && hidden (c_env c) then add_alert (title, message) c else c.

(** [displayMessage(message)] (app.js 374-406).  A message not from
    [currentUser] plays the sound and calls [showNotification] first;
    without the message list, [appendChild] then throws. *)
Definition displayMessage (m : message) (c : client) : client :=
  let isOwn := own_message m c in
  let c1 := if isOwn then c
            else showNotification ("رسالة جديدة من " +:+ senderName m) (Render.preview (content m))
                   (playNotificationSound c) in
  if in_chat_view c1
  then set_lines (fun ls => ls ++ [MessageLine (Render.display_el isOwn (fmt_time (timestamp m)) m)]) c1
  else c1.

(** [updateUsersList(users = [])] (app.js 420-435). *)
Definition updateUsersList (users : list user_summary) (c : client) : client :=
  if in_chat_view c then set_usersList (map (fun u => Render.user_item_html (us_displayName u)) users) c
  else c.

(** [showTypingIndicator(data)] (app.js 455-465). *)
Definition showTypingIndicator (userId displayName : string) (typing : bool) (c : client) : client :=
  if in_chat_view c then
    let other := match currentUser (c_chat c) with
                 | Some u => negb (String.eqb userId (id u))
                 | None => true
                 end in
    set_indicator (if typing && other then Some (displayName +:+ " يكتب...") else None) c
  else c.

(** [handleTyping()] (app.js 437-446). *)
Definition handleTyping (now : Z) (c : client) : client :=
  match socket (c_chat c) with
  | None => c
  | Some _ =>
      let c1 := emit_on_socket (EmTypingStart (currentRoom (c_chat c))) c in
      let c2 := clearTimeout (typingTimeout (c_chat c1)) c1 in
      let '(c3, id) := setTimeout CbStopTyping 2000 now c2 in
      set_typingTimeout (Some id) c3
  end.

(** [stopTyping()] (app.js 448-453). *)
Definition stopTyping (c : client) : client :=
  match socket (c_chat c) with
  | None => c
  | Some _ =>
      let c1 := emit_on_socket (EmTypingStop (currentRoom (c_chat c))) c in
      clearTimeout (typingTimeout (c_chat c1)) c1
  end.

(** An [input] event on [#message-input]: the first listener saves the
    draft and calls [handleTyping], the third calls [handleTyping] again
    (app.js 30-35, 79-83). *)
Definition onMessageInput (value : string) (now : Z) (c : client) : client :=
  let c1 := set_inputValue value c in
  let c2 := handleTyping now (set_storage (jm_set "message_draft" value) c1) in
  handleTyping now c2.

(** [sendMessage()] (app.js 358-372). *)
Definition sendMessage (c : client) : client :=
  let content := js_trim (inputValue (c_page c)) in
  if String.eqb content "" then c
  else match socket (c_chat c) with
       | None => c
       | Some _ =>
           let c1 := emit_on_socket
                       (EmSendMessage (SendData (currentRoom (c_chat c)) content (Some "text"))) c in
           stopTyping (set_inputValue "" c1)
       end.

(** [connectSocket()] (app.js 279-332): a new connection for the token;
    the handlers it registers are the [Sock*] cases of [step]. *)
Definition connectSocket (c : client) : client :=
  match token (c_chat c) with
  | Some t =>
      if String.eqb t "" then c
      else set_socket (Some (length (conns (c_env c))))
             (set_conns (fun cs => cs ++ [Conn t false false []]) c)
  | None => c
  end.

(** [loadMessages()] (app.js 334-356): the request it sends. *)
Definition loadMessages (c : client) : client :=
  match token (c_chat c) with
  | Some t => if String.eqb t "" then c
              else add_request (ReqMessages (currentRoom (c_chat c)) t) c
  | None => c
  end.

(** [showChatInterface()] (app.js 128-176): the chat page, with its
    first system line; the history request; the saved draft restored. *)
Definition showChatInterface (c : client) : client :=
  let c1 := set_page (fun p => Page ChatView (loginMode p) None
                                  [SystemLine "🔄 جاري الاتصال بالخادم..."] [] None "") c in
  let c2 := loadMessages c1 in
  match jm_get "message_draft" (storage (c_env c2)) with
  | Some d => if String.eqb d "" then c2 else set_inputValue d c2
  | None => c2
  end.

(** [showAuthInterface()] (app.js 86-126): the form in login mode. *)
Definition showAuthInterface (c : client) : client :=
  set_page (fun p => Page AuthView true (Some ("", "")) [] [] None "") c.

(** [showAuthMessage(message, type)] (app.js 203-209). *)
Definition showAuthMessage (msg ty : string) (c : client) : client :=
  if in_chat_view c then c else set_authMessage (Some (msg, ty)) c.

(** [toggleAuthMode()] (app.js 178-201); on the chat page the first
    [getElementById] is [null] and the call throws. *)
Definition toggleAuthMode (c : client) : client :=
  if in_chat_view c then c
  else set_authMessage (option_map (fun '(_, ty) => ("", ty)) (authMessage (c_page c)))
         (set_loginMode (negb (loginMode (c_page c))) c).

Definition network_error : string := "خطأ في الاتصال. حاول مرة أخرى.".

(** [login()] up to its [fetch] (app.js 211-225). *)
Definition login (email password : string) (c : client) : client :=
  let email' := js_trim email in
  if String.eqb email' "" || String.eqb password ""
  then showAuthMessage "يرجى إدخال البريد الإلكتروني وكلمة المرور" "error" c
  else add_request (ReqLogin email' password) c.

(** [login()] after its [fetch] (app.js 227-241). *)
Definition onLoginReply (r : option response) (c : client) : client :=
  match r with
  | None => showAuthMessage network_error "error" c
  | Some resp =>
      match resp_body resp with
      | LoggedIn t u =>
          let c1 := set_currentUser (Some u) (set_token (Some t) c) in
          let c2 := set_storage (jm_set "chat_token" t) c1 in
          showAuthMessage "تم تسجيل الدخول بنجاح!" "success"
            (connectSocket (showChatInterface c2))
      | ErrorBody e => showAuthMessage e "error" c
      | _ => showAuthMessage "" "error" c
      end
  end.

(** [register()] up to its [fetch] (app.js 244-264). *)
Definition register (displayName email password : string) (c : client) : client :=
  let displayName' := js_trim displayName in
  let email' := js_trim email in
  if String.eqb displayName' "" || String.eqb email' "" || String.eqb password ""
  then showAuthMessage "يرجى إدخال جميع البيانات المطلوبة" "error" c
  else if Nat.ltb (String.length password) 6
  then showAuthMessage "كلمة المرور يجب أن تكون 6 أحرف على الأقل" "error" c
  else add_request (ReqRegister displayName' email' password) c.

(** [register()] after its [fetch] (app.js 266-276). *)
Definition onRegisterReply (r : option response) (c : client) : client :=
  match r with
  | None => showAuthMessage network_error "error" c
  | Some resp =>
      match resp_body resp with
      | Registered =>
          toggleAuthMode (showAuthMessage "تم إنشاء الحساب بنجاح! يمكنك الآن تسجيل الدخول" "success" c)
      | ErrorBody e => showAuthMessage e "error" c
      | _ => showAuthMessage "" "error" c
      end
  end.

(** [loadMessages()] after its [fetch] (app.js 344-352): on a 2xx reply
    the list is emptied and each message displayed; without the list
    ([innerHTML] of [null]) the [TypeError] is caught. *)
Definition onMessagesReply (r : option response) (c : client) : client :=
  match r with
  | Some (Response st (MessageList ms)) =>
      if (200 <=? st) && (st <? 300) && in_chat_view c
      then foldl (fun c' m => displayMessage m c') (set_lines (fun _ => []) c) ms
      else c
  | _ => c
  end.

(** [logout()] (app.js 467-475). *)
Definition logout (c : client) : client :=
  let c1 := set_storage (jm_delete "chat_token") c in
  let c2 := match socket (c_chat c1) with Some k => set_conn k conn_close c1 | None => c1 end in
  showAuthInterface (set_currentUser None (set_token None c2)).

(** The handlers [connectSocket] registers on a connection (app.js
    288-331), for a connection that exists and has not been closed. *)
Definition onSocketEvent (ev : out_event) (c : client) : client :=
  match ev with
  | NewMessage m => displayMessage m c
  | UserOnline _ name =>
      updateUsersList [] (addSystemMessage ("📶 " +:+ name +:+ " انضم للدردشة") c)
  | UserOffline _ name =>
      updateUsersList [] (addSystemMessage ("📵 " +:+ name +:+ " غادر الدردشة") c)
  | UsersList us => updateUsersList us c
  | UserTyping uid name typing => showTypingIndicator uid name typing c
  end.

Definition socket_connected (c : client) : bool :=
  match socket (c_chat c) with
  | Some k => match conn_at k c with Some cn => conn_connected cn | None => false end
  | None => false
  end.

(** The callback of a timer. *)
Definition run_callback (cb : callback) (c : client) : client :=
  match cb with
  | CbStopTyping => stopTyping c
  | CbRetry => if socket_connected c then c else connectSocket c
  end.

(** Is connection [k] open (made and not closed)? *)
Definition conn_open (k : nat) (c : client) : bool :=
  match conn_at k c with Some cn => negb (conn_closed cn) | None => false end.

(** One input at time [now]. *)
Definition step (now : Z) (i : input) (c : client) : client :=
  match i with
  | MessageInput v => if in_chat_view c then onMessageInput v now c else c
  | EnterKey | ClickSend => if in_chat_view c then sendMessage c else c
  | ClickLogout => if in_chat_view c then logout c else c
  | ClickToggleAuth => toggleAuthMode c
  | ClickLogin e p =>
      if in_chat_view c || negb (loginMode (c_page c)) then c else login e p c
  | ClickRegister n e p =>
      if in_chat_view c || loginMode (c_page c) then c else register n e p c
  | LoginReply r => onLoginReply r c
  | RegisterReply r => onRegisterReply r c
  | MessagesReply r => onMessagesReply r c
  | SockConnect k =>
      if conn_open k c
      then emit_on_socket (EmJoinRoom (currentRoom (c_chat c)))
             (addSystemMessage "✅ تم الاتصال بالخادم بنجاح" (set_conn k (conn_set_connected true) c))
      else c
  | SockDisconnect k =>
      if conn_open k c
      then addSystemMessage "❌ تم قطع الاتصال عن الخادم" (set_conn k (conn_set_connected false) c)
      else c
  | SockConnectError k =>
      if conn_open k c
      then (setTimeout CbRetry 3000 now
              (addSystemMessage "❌ خطأ في الاتصال بالخادم - جاري المحاولة مرة أخرى..." c)).1
      else c
  | SockEvent k ev => if conn_open k c then onSocketEvent ev c else c
  | TimerFires id =>
      match List.find (fun t => Nat.eqb (t_id t) id) (timers (c_env c)) with
      | Some t => run_callback (t_cb t)
                    (set_timers (List.filter (fun t' => negb (Nat.eqb (t_id t') id))) c)
      | None => c
      end
  | PermissionAnswer p =>
      if permissionPending (c_env c)
      then set_notificationsEnabled (String.eqb p "granted") (set_permissionPending false c)
      else c
  | VisibilityChange h => set_hidden h c
  end.

(** [requestNotificationPermission()] (app.js 564-569) up to its
    [await]: the browser's answer arrives later as [PermissionAnswer]. *)
Definition requestNotificationPermission (c : client) : client := set_permissionPending true c.

(** [new TerminalChat()] on a visible page whose [localStorage] is [st]
    (app.js 2-26): the fields' initial values, [init()], then
    [requestNotificationPermission()]. *)
Definition boot (st : jsmap string string) : client :=
  let c0 := Client (Chat None None None "general" None false)
                   (Page AuthView true None [] [] None "")
                   (Browser st [] 1 [] [] [] 0 false false) in
  let c1 := match jm_get "chat_token" st with
            | Some t => if String.eqb t "" then showAuthInterface c0
                        else connectSocket (showChatInterface (set_token (Some t) c0))
            | None => showAuthInterface c0
            end in
  requestNotificationPermission c1.

(** The client after a sequence of timed inputs. *)
Definition run (c : client) (ins : list (Z * input)) : client :=
  foldl (fun c' '(t, i) => step t i c') c ins.

(** The states a client reaches from a boot. *)
Inductive reachable : client -> Prop :=
| reach_boot st : reachable (boot st)
| reach_step c now i : reachable c -> reachable (step now i c).
End Handlers.

(** The timer table: every id below [nextTimer], no id twice, and every
    pending [stopTyping] timer is the one [typingTimeout] names. *)
Definition timers_ok (c : client) : Prop :=
  NoDup (map t_id (timers (c_env c))) /\
  Forall (fun t => t_id t < nextTimer (c_env c)) (timers (c_env c)) /\
  Forall (fun t => t_cb t = CbStopTyping -> typingTimeout (c_chat c) = Some (t_id t))
         (timers (c_env c)).

(** What [timers_ok] reads. *)
(** What decides notifications: those raised so far and the flag. *)
Definition notif_view (c : client) : list (string * string) * bool :=
  (alerts (c_env c), notificationsEnabled (c_chat c)).

(** The input that grants notifications: the browser's answer
    ['granted']. *)
Definition grants (i : input) : bool :=
  match i with PermissionAnswer p => String.eqb p "granted" | _ => false end.

Definition timer_view (c : client) : list timer * nat * option nat :=
  (timers (c_env c), nextTimer (c_env c), typingTimeout (c_chat c)).

(** The pending [stopTyping] timers. *)
Definition stop_timers (c : client) : list timer :=
  List.filter (fun t => bool_decide (t_cb t = CbStopTyping)) (timers (c_env c)).

(** Examples: a clock format, a browser with a saved token and draft,
    the client it boots, and that client once its connection is up. *)
Definition demo_time (_ : Z) : string := "12:00".
Definition demo_store : jsmap string string := [("chat_token", "tokA"); ("message_draft", "hi")].
Definition demo_boot : client := boot demo_store.
Definition demo_live : client := step demo_time 1 (SockConnect 0) demo_boot.
Definition demo_register_form : client := step demo_time 0 ClickToggleAuth (boot []).

Section Props.
Variable fmt_time : Z -> string.

Lemma timers_ok_view c c' : timer_view c' = timer_view c -> timers_ok c -> timers_ok c'.
Proof. unfold timer_view, timers_ok. intros [= -> -> ->]. done. Qed.

(** The operations that leave the timers alone. *)
Ltac view_same := intros; unfold timer_view; repeat (case_match; simpl); done.

Lemma emit_view e c : timer_view (emit_on_socket e c) = timer_view c.
Proof. unfold emit_on_socket. view_same. Qed.
Lemma addSystemMessage_view s c : timer_view (addSystemMessage s c) = timer_view c.
Proof. unfold addSystemMessage. view_same. Qed.
Lemma displayMessage_view m c : timer_view (displayMessage fmt_time m c) = timer_view c.
Proof. unfold displayMessage, showNotification, playNotificationSound. view_same. Qed.
Lemma connectSocket_view c : timer_view (connectSocket c) = timer_view c.
Proof. unfold connectSocket. view_same. Qed.
Lemma showChatInterface_view c : timer_view (showChatInterface c) = timer_view c.
Proof. unfold showChatInterface, loadMessages. view_same. Qed.
Lemma foldl_display_view ms c :
  timer_view (foldl (fun c' m => displayMessage fmt_time m c') c ms) = timer_view c.
Proof.
  revert c. induction ms as [|m ms IH]; intros c; [done|]. simpl. by rewrite IH, displayMessage_view.
Qed.
(** Removing timers keeps the table sound. *)
Lemma timers_ok_filter p c : timers_ok c -> timers_ok (set_timers (List.filter p) c).
Proof.
  unfold timers_ok; simpl. intros (Hnd & Hlt & Hty).
  pose proof (js_filter_sublist p (timers (c_env c))) as Hs. unfold js_filter in Hs.
  split_and!; [eapply sublist_NoDup; [exact Hnd|by apply sublist_map]
              |by eapply Forall_sublist|by eapply Forall_sublist].
Qed.

Lemma clearTimeout_ok i c : timers_ok c -> timers_ok (clearTimeout i c).
Proof. destruct i; simpl; [apply timers_ok_filter|done]. Qed.

(** A new timer takes a fresh id. *)
Lemma setTimeout_fresh cb d now c :
  timers_ok c ->
  NoDup (map t_id (timers (c_env (setTimeout cb d now c).1))) /\
  Forall (fun t => t_id t < nextTimer (c_env (setTimeout cb d now c).1))
         (timers (c_env (setTimeout cb d now c).1)).
Proof.
  intros (Hnd & Hlt & _). simpl. rewrite map_app. simpl. split.
  - apply NoDup_app. split_and!; [done| |apply NoDup_singleton].
    intros x Hx ->%list_elem_of_singleton.
    apply list_elem_of_fmap in Hx as (t & Ht & Hin).
    rewrite Forall_forall in Hlt. specialize (Hlt t Hin). lia.
  - apply Forall_app. split; [|repeat constructor; simpl; lia].
    eapply Forall_impl; [exact Hlt|]. simpl. lia.
Qed.

Lemma retry_timer_ok now c : timers_ok c -> timers_ok (setTimeout CbRetry 3000 now c).1.
Proof.
  intros Hok. destruct (setTimeout_fresh CbRetry 3000 now c Hok) as [Hnd Hlt].
  destruct Hok as (_ & _ & Hty). split_and!; [done|done|]. simpl.
  apply Forall_app. split; [done|]. by repeat constructor.
Qed.

(** Clearing [typingTimeout] removes every [stopTyping] timer. *)
Lemma clear_typing_none c :
  timers_ok c ->
  Forall (fun t => t_cb t <> CbStopTyping)
         (timers (c_env (clearTimeout (typingTimeout (c_chat c)) c))).
Proof.
  intros (_ & _ & Hty). destruct (typingTimeout (c_chat c)) as [i|] eqn:Hi; simpl.
  - apply Forall_forall. intros t Hin Hcb.
    apply list_elem_of_In, filter_In in Hin as [Hin%list_elem_of_In Ht].
    rewrite Forall_forall in Hty. specialize (Hty t Hin Hcb). simplify_eq.
    by rewrite Nat.eqb_refl in Ht.
  - eapply Forall_impl; [exact Hty|]. intros t H Hcb. by specialize (H Hcb).
Qed.

(** [handleTyping] clears every [stopTyping] timer and sets one. *)
Lemma handleTyping_ok now c : timers_ok c -> timers_ok (handleTyping now c).
Proof.
  intros Hok. unfold handleTyping. destruct (socket (c_chat c)) as [k|] eqn:Hk; [|done].
  apply (timers_ok_view _ _ (emit_view (EmTypingStart (currentRoom (c_chat c))) c)) in Hok.
  pose proof (clear_typing_none _ Hok) as Hnone.
  apply (clearTimeout_ok (typingTimeout (c_chat (emit_on_socket (EmTypingStart (currentRoom (c_chat c))) c)))) in Hok.
  destruct (setTimeout_fresh CbStopTyping 2000 now _ Hok) as [Hnd Hlt].
  split_and!; [done|done|]. simpl. apply Forall_app. split; [|by repeat constructor].
  eapply Forall_impl; [exact Hnone|]. done.
Qed.

Lemma stopTyping_ok c : timers_ok c -> timers_ok (stopTyping c).
Proof.
  intros Hok. unfold stopTyping. destruct (socket (c_chat c)); [|done].
  apply clearTimeout_ok. eapply timers_ok_view; [apply emit_view|done].
Qed.

Lemma sendMessage_ok c : timers_ok c -> timers_ok (sendMessage c).
Proof.
  intros Hok. unfold sendMessage. repeat case_match; try done.
  apply stopTyping_ok. eapply timers_ok_view; [|exact Hok].
  etransitivity; [|apply emit_view]. reflexivity.
Qed.

Lemma onSocketEvent_view ev c : timer_view (onSocketEvent fmt_time ev c) = timer_view c.
Proof.
  destruct ev; [..|apply displayMessage_view|];
    simpl; unfold updateUsersList, showTypingIndicator, addSystemMessage; view_same.
Qed.

Lemma run_callback_ok cb c : timers_ok c -> timers_ok (run_callback cb c).
Proof.
  intros Hok. destruct cb; simpl; [by apply stopTyping_ok|].
  destruct (socket_connected c); [done|]. eapply timers_ok_view; [apply connectSocket_view|done].
Qed.

Lemma set_authMessage_view m c : timer_view (set_authMessage m c) = timer_view c.
Proof. done. Qed.

Lemma onLoginReply_view r c : timer_view (onLoginReply r c) = timer_view c.
Proof.
  unfold onLoginReply, showAuthMessage. repeat case_match; simpl; try done.
  all: rewrite ?set_authMessage_view, connectSocket_view, showChatInterface_view; done.
Qed.

Lemma onMessagesReply_view r c : timer_view (onMessagesReply fmt_time r c) = timer_view c.
Proof. unfold onMessagesReply. repeat case_match; try done. by rewrite foldl_display_view. Qed.

(** Every step keeps the timer table sound. *)
Lemma step_timers_ok now i c : timers_ok c -> timers_ok (step fmt_time now i c).
Proof.
  intros Hok. unfold step. destruct i; repeat case_match; try done.
  all: try (unfold onMessageInput; do 2 apply handleTyping_ok; by eapply timers_ok_view).
  all: try by apply sendMessage_ok.
  all: try by apply run_callback_ok, timers_ok_filter.
  all: try (apply retry_timer_ok; eapply timers_ok_view; [apply addSystemMessage_view|done]).
  all: eapply timers_ok_view; [|exact Hok].
  all: first [ apply onLoginReply_view | apply onMessagesReply_view | apply onSocketEvent_view
             | by rewrite emit_view, addSystemMessage_view | by rewrite addSystemMessage_view
             | unfold onRegisterReply, logout, toggleAuthMode, login, register, showAuthMessage;
               view_same ].
Qed.
Lemma requestNotificationPermission_view c :
  timer_view (requestNotificationPermission c) = timer_view c.
Proof. unfold requestNotificationPermission. view_same. Qed.
Lemma boot_view st : timer_view (boot st) = ([], 1, None).
Proof.
  unfold boot. rewrite requestNotificationPermission_view.
  repeat case_match; by rewrite ?connectSocket_view, ?showChatInterface_view.
Qed.

Lemma reachable_timers_ok c : reachable fmt_time c -> timers_ok c.
Proof.
  induction 1 as [st|c now i _ IH]; [|by apply step_timers_ok].
  pose proof (boot_view st) as Hb. unfold timer_view in Hb. simplify_eq.
  unfold timers_ok. rewrite H. split_and!; constructor.
Qed.

Lemma filter_one_id (P : timer -> bool) (i : nat) (l : list timer) :
  NoDup (map t_id l) -> Forall (fun t => P t = true -> t_id t = i) l ->
  length (List.filter P l) <= 1.
Proof.
  induction l as [|t l IH]; simpl; [lia|]. intros Hnd Hall.
  inversion Hnd as [|? ? Hnotin Hnd']; subst. inversion Hall as [|? ? Ht Hall']; subst.
  destruct (P t) eqn:Hp; [|by apply IH]. simpl.
  assert (List.filter P l = []) as ->; [|simpl; lia].
  destruct (List.filter P l) as [|t' l'] eqn:Hf; [done|]. exfalso.
  assert (In t' (List.filter P l)) as Hin by (rewrite Hf; left; done).
  apply filter_In in Hin as [Hin Hp']. rewrite Forall_forall in Hall'.
  apply Hnotin. rewrite (Ht eq_refl), <-(Hall' t' (proj2 (list_elem_of_In _ _) Hin) Hp').
  apply list_elem_of_fmap. exists t'. split; [done|by apply list_elem_of_In].
Qed.

(** C19. The typing timer is never duplicated: in every reachable state at
    most one [stopTyping] callback is pending, and it is the one
    [this.typingTimeout] holds, because [handleTyping] clears the
    previous timer before it sets a new one (app.js 442-445) and timer
    ids are never reused. *)
Theorem typing_timer_unique c :
  reachable fmt_time c ->
  length (stop_timers c) <= 1 /\
  Forall (fun t => t_cb t = CbStopTyping -> typingTimeout (c_chat c) = Some (t_id t))
         (timers (c_env c)).
Proof.
  intros Hr. destruct (reachable_timers_ok c Hr) as (Hnd & _ & Hty). split; [|done].
  destruct (typingTimeout (c_chat c)) as [i|] eqn:Hi.
  - apply (filter_one_id _ i); [done|]. eapply Forall_impl; [exact Hty|].
    intros t H Hb. apply bool_decide_eq_true in Hb. specialize (H Hb). congruence.
  - apply (filter_one_id _ 0); [done|]. eapply Forall_impl; [exact Hty|].
    intros t H Hb. apply bool_decide_eq_true in Hb. specialize (H Hb). congruence.
Qed.
Lemma conn_at_set_conn k f c : conn_at k (set_conn k f c) = f <$> conn_at k c.
Proof. apply list_lookup_alter_eq. Qed.

Lemma filter_stop_none l :
  Forall (fun t => t_cb t <> CbStopTyping) l ->
  List.filter (fun t => bool_decide (t_cb t = CbStopTyping)) l = [].
Proof. induction 1 as [|t l Ht _ IH]; simpl; [done|]. by rewrite bool_decide_eq_false_2. Qed.

(** What [handleTyping] emits, and what it leaves of the fields. *)
Lemma handleTyping_conn now c k :
  socket (c_chat c) = Some k ->
  let c' := handleTyping now c in
  conn_at k c' = conn_emit (EmTypingStart (currentRoom (c_chat c))) <$> conn_at k c /\
  socket (c_chat c') = Some k /\ currentRoom (c_chat c') = currentRoom (c_chat c) /\
  c_page c' = c_page c.
Proof.
  intros Hk c'. unfold c', handleTyping, emit_on_socket. rewrite Hk. cbn.
  unfold conn_at. destruct (typingTimeout _); cbn; rewrite ?Hk, ?list_lookup_alter_eq; by split_and!.
Qed.

(** A keystroke: the draft saved, and two [typing-start]s on the socket. *)
Lemma onMessageInput_conn now v c k cn :
  socket (c_chat c) = Some k -> conn_at k c = Some cn ->
  let r := currentRoom (c_chat c) in
  let c' := onMessageInput v now c in
  conn_at k c' = Some (conn_emit (EmTypingStart r) (conn_emit (EmTypingStart r) cn)) /\
  socket (c_chat c') = Some k /\ currentRoom (c_chat c') = r /\ inputValue (c_page c') = v.
Proof.
  intros Hk Hc r c'. unfold c', onMessageInput.
  set (c1 := set_storage (jm_set "message_draft" v) (set_inputValue v c)).
  destruct (handleTyping_conn now c1 k Hk) as (H1 & Hk1 & Hr1 & Hp1).
  destruct (handleTyping_conn now (handleTyping now c1) k Hk1) as (H2 & Hk2 & Hr2 & Hp2).
  rewrite H2, H1, Hr1, Hr2, Hp2, Hp1. unfold conn_at in *. simpl. rewrite Hc. by split_and!.
Qed.

(** What one [handleTyping] does when there is a socket. *)
Lemma handleTyping_spec now c k :
  timers_ok c -> socket (c_chat c) = Some k ->
  let c' := handleTyping now c in
  conn_at k c' = conn_emit (EmTypingStart (currentRoom (c_chat c))) <$> conn_at k c /\
  stop_timers c' = [Timer (nextTimer (c_env c)) (now + 2000) CbStopTyping] /\
  nextTimer (c_env c') = S (nextTimer (c_env c)) /\
  socket (c_chat c') = Some k /\ currentRoom (c_chat c') = currentRoom (c_chat c) /\
  storage (c_env c') = storage (c_env c) /\ c_page c' = c_page c.
Proof.
  intros Hok Hk c'. unfold c', handleTyping. rewrite Hk.
  apply (timers_ok_view _ _ (emit_view (EmTypingStart (currentRoom (c_chat c))) c)) in Hok.
  pose proof (clear_typing_none _ Hok) as Hnone. revert Hnone.
  unfold emit_on_socket. rewrite Hk. intros Hnone.
  unfold stop_timers. cbn [setTimeout fst snd]. simpl. rewrite List.filter_app, filter_stop_none by done.
  destruct (typingTimeout (c_chat c)); unfold conn_at; simpl; by rewrite list_lookup_alter_eq.
Qed.

(** Each keystroke in the message box emits [typing-start] twice,
    because two [input] listeners both call [handleTyping] (app.js 30-35
    and 79-83): the socket gets two [typing-start] events for the room,
    the draft is saved, and of the two timers set the second clears the
    first, so one [stopTyping] timer is pending, due 2000 ms later. *)
Theorem message_input_typing now v c k cn :
  timers_ok c -> in_chat_view c = true -> socket (c_chat c) = Some k -> conn_at k c = Some cn ->
  let c' := step fmt_time now (MessageInput v) c in
  let r := currentRoom (c_chat c) in
  conn_at k c' = Some (conn_emit (EmTypingStart r) (conn_emit (EmTypingStart r) cn)) /\
  stop_timers c' = [Timer (S (nextTimer (c_env c))) (now + 2000) CbStopTyping] /\
  jm_get "message_draft" (storage (c_env c')) = Some v /\ inputValue (c_page c') = v.
Proof.
  intros Hok Hv Hk Hc c' r. unfold c', step. rewrite Hv. unfold onMessageInput.
  set (c1 := set_storage (jm_set "message_draft" v) (set_inputValue v c)).
  assert (timers_ok c1) as Hok1 by (eapply timers_ok_view; [|exact Hok]; done).
  destruct (handleTyping_spec now c1 k Hok1 Hk) as (Hc1 & _ & Hn1 & Hk1 & Hr1 & Hs1 & Hp1).
  destruct (handleTyping_spec now (handleTyping now c1) k (handleTyping_ok _ _ Hok1) Hk1)
    as (Hc2 & Ht2 & _ & _ & _ & Hs2 & Hp2).
  rewrite Hc2, Hr1, Hc1, Ht2, Hn1, Hs2, Hs1, Hp2, Hp1. simpl.
  split_and!; [|done|apply jm_get_set_eq|done]. unfold conn_at in *. simpl. by rewrite Hc.
Qed.
(** Open the client record, so that the handlers compute. *)
Ltac open_client c :=
  let ch := fresh "ch" in let vw := fresh "vw" in let env := fresh "env" in
  destruct c as [ch [vw ? ? ? ? ? ?] env]; destruct vw; simpl in *.

(** C28. The online list is emptied by every [user-online] and
    [user-offline] event: their handlers call [updateUsersList()] with no
    argument, which renders the default [[]] (app.js 303-311, 420-435);
    only the [users-list] event sent once on connection fills it. *)
Theorem presence_event_clears_users_list now k c uid name :
  in_chat_view c = true -> conn_open k c = true ->
  let c1 := step fmt_time now (SockEvent k (UserOnline uid name)) c in
  let c2 := step fmt_time now (SockEvent k (UserOffline uid name)) c in
  usersList (c_page c1) = [] /\ usersList (c_page c2) = [] /\
  lines (c_page c1) = lines (c_page c) ++ [SystemLine ("📶 " +:+ name +:+ " انضم للدردشة")].
Proof. intros Hv Ho. unfold step. rewrite Ho. open_client c; done. Qed.

Lemma displayMessage_page m c :
  in_chat_view c = true ->
  in_chat_view (displayMessage fmt_time m c) = true /\
  (forall m', own_message m' (displayMessage fmt_time m c) = own_message m' c) /\
  lines (c_page (displayMessage fmt_time m c)) =
    lines (c_page c) ++ [MessageLine (Render.display_el (own_message m c) (fmt_time (timestamp m)) m)].
Proof.
  unfold displayMessage, showNotification, playNotificationSound. open_client c; [done|].
  destruct (own_message m _); [done|]. by repeat case_match.
Qed.

(** What a displayed message does to the browser: the sound for a
    message not of [currentUser], and the notification too when
    notifications are granted and the page is hidden. *)
Lemma displayMessage_notify m c :
  let c' := displayMessage fmt_time m c in
  c_chat c' = c_chat c /\ hidden (c_env c') = hidden (c_env c) /\
  sounds (c_env c') = sounds (c_env c) + (if own_message m c then 0 else 1) /\
  alerts (c_env c') = alerts (c_env c) ++
    (if negb (own_message m c) && notificationsEnabled (c_chat c) && hidden (c_env c)
     then [notify_of m] else []).
Proof.
  unfold displayMessage, showNotification, playNotificationSound, notify_of.
  destruct (own_message m c); simpl; repeat case_match; simpl in *; rewrite ?app_nil_r;
    split_and!; try done; lia.
Qed.

Lemma foldl_display_notify ms c :
  in_chat_view c = true ->
  let c' := foldl (fun c' m => displayMessage fmt_time m c') c ms in
  let others := List.filter (fun m => negb (own_message m c)) ms in
  sounds (c_env c') = sounds (c_env c) + length others /\
  alerts (c_env c') = alerts (c_env c) ++
    (if notificationsEnabled (c_chat c) && hidden (c_env c) then map notify_of others else []).
Proof.
  revert c. induction ms as [|m ms IH]; intros c Hv; simpl.
  - split; [lia|]. destruct (_ && _); simpl; by rewrite app_nil_r.
  - destruct (displayMessage_page m c Hv) as (Hv' & Hown & _).
    destruct (displayMessage_notify m c) as (Hch & Hh & Hs & Ha).
    destruct (IH _ Hv') as [IHs IHa]. rewrite IHs, IHa, Hs, Ha, Hch, Hh.
    rewrite (List.filter_ext (fun m' => negb (own_message m' (displayMessage fmt_time m c)))
                             (fun m' => negb (own_message m' c))) by (intros; by rewrite Hown).
    destruct (own_message m c); simpl; [split; [lia|by rewrite app_nil_r]|].
    split; [lia|]. rewrite <- app_assoc. by destruct (_ && _).
Qed.

Lemma foldl_display_lines ms c :
  in_chat_view c = true ->
  lines (c_page (foldl (fun c' m => displayMessage fmt_time m c') c ms)) =
    lines (c_page c) ++
    map (fun m => MessageLine (Render.display_el (own_message m c) (fmt_time (timestamp m)) m)) ms.
Proof.
  revert c. induction ms as [|m ms IH]; intros c Hv; simpl; [by rewrite app_nil_r|].
  destruct (displayMessage_page m c Hv) as (Hv' & Hown & Hl).
  rewrite IH, Hl by done. rewrite <-app_assoc. do 2 f_equal. apply map_ext. intros m'. by rewrite Hown.
Qed.

(** A 2xx history reply on the chat page empties the list and displays
    each message of the reply. *)
Lemma messages_reply_ok now st ms c :
  in_chat_view c = true -> 200 <= st < 300 ->
  step fmt_time now (MessagesReply (Some (Response st (MessageList ms)))) c =
    foldl (fun c' m => displayMessage fmt_time m c') (set_lines (fun _ => []) c) ms.
Proof.
  intros Hv Hst. cbn [step onMessagesReply]. rewrite Hv.
  replace ((200 <=? st) && (st <? 300)) with true; [done|].
  symmetry. apply andb_true_iff. split; [apply Nat.leb_le|apply Nat.ltb_lt]; lia.
Qed.

(** C24. The history reply replaces the whole message list: whatever was
    shown before it arrives (messages delivered live by [new-message],
    system lines) is removed, and the list is exactly the reply's
    messages (app.js 344-351), so a message that arrives on the socket
    after the server answered the history request and before the reply
    is processed disappears from the page. *)
Theorem history_reply_replaces_lines now st ms c :
  in_chat_view c = true -> 200 <= st < 300 ->
  lines (c_page (step fmt_time now (MessagesReply (Some (Response st (MessageList ms)))) c)) =
    map (fun m => MessageLine (Render.display_el (own_message m c) (fmt_time (timestamp m)) m)) ms.
Proof.
  intros Hv Hst. rewrite messages_reply_ok by done.
  by rewrite foldl_display_lines; [|by open_client c].
Qed.
(** The handlers that leave notifications alone. *)
Ltac notif_same := intros; unfold notif_view; repeat (case_match; simpl); done.

Lemma handleTyping_notif now c : notif_view (handleTyping now c) = notif_view c.
Proof. unfold handleTyping, setTimeout, clearTimeout, emit_on_socket. notif_same. Qed.
Lemma stopTyping_notif c : notif_view (stopTyping c) = notif_view c.
Proof. unfold stopTyping, clearTimeout, emit_on_socket. notif_same. Qed.
Lemma connectSocket_notif c : notif_view (connectSocket c) = notif_view c.
Proof. unfold connectSocket. notif_same. Qed.
Lemma showChatInterface_notif c : notif_view (showChatInterface c) = notif_view c.
Proof. unfold showChatInterface, loadMessages. notif_same. Qed.
Lemma showAuthMessage_notif m t c : notif_view (showAuthMessage m t c) = notif_view c.
Proof. unfold showAuthMessage. notif_same. Qed.
Lemma sendMessage_notif c : notif_view (sendMessage c) = notif_view c.
Proof.
  unfold sendMessage. case_match; [done|]. case_match; [|done].
  rewrite stopTyping_notif. unfold emit_on_socket. notif_same.
Qed.

Lemma displayMessage_notif m c :
  notificationsEnabled (c_chat c) = false -> notif_view (displayMessage fmt_time m c) = notif_view c.
Proof.
  intros Hd. destruct (displayMessage_notify m c) as (Hch & _ & _ & Ha). unfold notif_view.
  rewrite Ha, Hch, Hd, andb_false_r. simpl. by rewrite app_nil_r.
Qed.

Lemma foldl_display_notif ms c :
  notificationsEnabled (c_chat c) = false ->
  notif_view (foldl (fun c' m => displayMessage fmt_time m c') c ms) = notif_view c.
Proof.
  revert c. induction ms as [|m ms IH]; intros c Hd; [done|]. simpl.
  pose proof (displayMessage_notif m c Hd) as E. rewrite IH; [done|].
  unfold notif_view in E. injection E as _ E. by rewrite E.
Qed.

(** Without notifications granted, no input raises one or grants them,
    except the answer ['granted']. *)
Lemma step_notif_disabled now i c :
  notificationsEnabled (c_chat c) = false -> grants i = false ->
  notif_view (step fmt_time now i c) = notif_view c.
Proof.
  intros Hd Hg. destruct i; cbn [step]; try (case_match; [|done]).
  all: try (unfold onMessageInput; rewrite !handleTyping_notif; notif_same).
  all: try (by rewrite sendMessage_notif).
  all: try (unfold logout, showAuthInterface; notif_same).
  all: try (unfold toggleAuthMode, login, register, showAuthMessage, add_request; notif_same).
  - unfold onLoginReply. destruct r as [[? b]|]; [|by rewrite showAuthMessage_notif].
    cbn [resp_body]. destruct b; rewrite showAuthMessage_notif; try done.
    rewrite connectSocket_notif, showChatInterface_notif. notif_same.
  - unfold onRegisterReply, toggleAuthMode, showAuthMessage. notif_same.
  - unfold onMessagesReply. repeat case_match; try done.
    rewrite foldl_display_notif; [notif_same|done].
  - unfold emit_on_socket, addSystemMessage. notif_same.
  - unfold addSystemMessage. notif_same.
  - unfold setTimeout, addSystemMessage. notif_same.
  - destruct ev; cbn [onSocketEvent]; try by apply displayMessage_notif.
    all: unfold updateUsersList, showTypingIndicator, addSystemMessage; notif_same.
  - unfold run_callback. case_match; [rewrite stopTyping_notif|case_match; [|rewrite connectSocket_notif]];
      notif_same.
  - simpl in Hg. unfold notif_view. simpl. by rewrite Hg, Hd.
Qed.

Lemma boot_notif st : notif_view (boot st) = ([], false).
Proof.
  unfold boot, requestNotificationPermission.
  change (notif_view (set_permissionPending true ?x)) with (notif_view x).
  repeat case_match; rewrite ?connectSocket_notif, ?showChatInterface_notif; done.
Qed.

(** C33. No notification without the user's consent: from any page load, a
    run of inputs in which the browser never answers ['granted'] to
    [Notification.requestPermission()] raises no notification and leaves
    [notificationsEnabled] false (app.js 8, 564-574), whatever messages
    arrive and whether the page is hidden. *)
Theorem no_notification_without_grant st ins :
  forallb (fun '(_, i) => negb (grants i)) ins = true ->
  alerts (c_env (run fmt_time (boot st) ins)) = [] /\
  notificationsEnabled (c_chat (run fmt_time (boot st) ins)) = false.
Proof.
  intros Hg. pose proof (boot_notif st) as Hb. unfold run.
  assert (notif_view (foldl (fun c' '(t, i) => step fmt_time t i c') (boot st) ins) = ([], false))
    as Hv; [|unfold notif_view in Hv; by simplify_eq].
  revert Hb Hg. generalize (boot st) as c. induction ins as [|[t i] ins IH]; intros c Hc Hg; [done|].
  simpl in Hg |- *. apply andb_prop in Hg as [Hi Hg]. apply IH; [|done].
  rewrite step_notif_disabled; [done| |by destruct (grants i)].
  unfold notif_view in Hc. by simplify_eq.
Qed.

(** C30. Loading the history replays it through [displayMessage]
    (app.js 344-351): every past message of another user plays the
    new-message sound again, and raises a notification when notifications
    are granted and the page is hidden, each time the history loads (on
    every login and reload). *)
Theorem history_reply_notifies now st ms c :
  in_chat_view c = true -> 200 <= st < 300 ->
  let c' := step fmt_time now (MessagesReply (Some (Response st (MessageList ms)))) c in
  let others := List.filter (fun m => negb (own_message m c)) ms in
  sounds (c_env c') = sounds (c_env c) + length others /\
  alerts (c_env c') = alerts (c_env c) ++
    (if notificationsEnabled (c_chat c) && hidden (c_env c) then map notify_of others else []).
Proof.
  intros Hv Hst c' others. unfold c'. rewrite messages_reply_ok by done.
  apply (foldl_display_notify ms (set_lines (fun _ => []) c)). by open_client c.
Qed.

Lemma connectSocket_token c t :
  token (c_chat c) = Some t -> t <> "" ->
  connectSocket c = set_socket (Some (length (conns (c_env c))))
                      (set_conns (fun cs => cs ++ [Conn t false false []]) c).
Proof. intros Ht Hne. unfold connectSocket. rewrite Ht. by destruct (String.eqb_spec t ""). Qed.

Lemma loadMessages_token c t :
  token (c_chat c) = Some t -> t <> "" ->
  loadMessages c = add_request (ReqMessages (currentRoom (c_chat c)) t) c.
Proof. intros Ht Hne. unfold loadMessages. rewrite Ht. by destruct (String.eqb_spec t ""). Qed.

(** The login form with an e-mail that [trim()] leaves and a password
    sends [POST /api/login] and does nothing else. *)
Lemma login_click now e p c :
  in_chat_view c = false -> loginMode (c_page c) = true -> js_trim e = e -> e <> "" -> p <> "" ->
  step fmt_time now (ClickLogin e p) c = add_request (ReqLogin e p) c.
Proof.
  intros Hv Hm Ht He Hp. unfold step. rewrite Hv, Hm. simpl. unfold login. rewrite Ht.
  by destruct (String.eqb_spec e ""), (String.eqb_spec p "").
Qed.

(** A successful login reply opens the chat page as the user and a new
    connection with the token. *)
Lemma login_reply_ok now tok u c :
  tok <> "" ->
  let k := length (conns (c_env c)) in
  let c' := step fmt_time now (LoginReply (Some (Response 200 (LoggedIn tok u)))) c in
  currentUser (c_chat c') = Some u /\ in_chat_view c' = true /\ socket (c_chat c') = Some k /\
  conn_at k c' = Some (Conn tok false false []) /\ requests (c_env c') =
    requests (c_env c) ++ [ReqMessages (currentRoom (c_chat c)) tok].
Proof.
  intros Ht k c'. unfold c', step, onLoginReply. cbn [resp_body].
  unfold showChatInterface. rewrite loadMessages_token with (t := tok) by done. cbn.
  destruct (jm_get "message_draft" _) as [d|]; [destruct (String.eqb d "")|];
    rewrite connectSocket_token with (t := tok) by done; cbn;
    unfold conn_at; cbn; rewrite lookup_app_r, Nat.sub_diag by lia; by split_and!.
Qed.

(** An error reply to the login form shows the server's [error] and
    changes nothing else the client keeps. *)
Lemma login_reply_error now code msg c :
  in_chat_view c = false ->
  step fmt_time now (LoginReply (Some (Response code (ErrorBody msg)))) c =
    set_authMessage (Some (msg, "error")) c.
Proof. intros Hv. unfold step, onLoginReply, showAuthMessage. cbn [resp_body]. by rewrite Hv. Qed.

(** The [connect] handler leaves the object's fields and the view. *)
Lemma sockconnect_chat now k c :
  c_chat (step fmt_time now (SockConnect k) c) = c_chat c /\
  in_chat_view (step fmt_time now (SockConnect k) c) = in_chat_view c.
Proof.
  unfold step. destruct (conn_open k c); [|done].
  unfold emit_on_socket, addSystemMessage, in_chat_view. open_client c; repeat case_match; done.
Qed.

Lemma boot_saved st t :
  jm_get "chat_token" st = Some t -> t <> "" ->
  boot st = requestNotificationPermission (connectSocket (showChatInterface
              (Client (Chat None (Some t) None "general" None false)
                      (Page AuthView true None [] [] None "") (Browser st [] 1 [] [] [] 0 false false)))).
Proof. intros Hst Ht. unfold boot. rewrite Hst. by destruct (String.eqb_spec t ""). Qed.

(** C29. A reload forgets who the user is: [init()] restores the token
    from [localStorage] but never [currentUser] (app.js 16-20), so every
    message that arrives afterwards, the user's own included, is shown
    as someone else's: it plays the new-message sound at once and, once
    the user has granted notifications and the page is hidden, raises
    the new-message notification (app.js 374-406, 564-586). *)
Theorem reload_forgets_user st t m now :
  jm_get "chat_token" st = Some t -> t <> "" ->
  let c := boot st in
  let c' := step fmt_time now (SockEvent 0 (NewMessage m)) c in
  let c'' := run fmt_time c [(now, PermissionAnswer "granted"); (now, VisibilityChange true);
                             (now, SockEvent 0 (NewMessage m))] in
  currentUser (c_chat c) = None /\ sounds (c_env c') = 1 /\ alerts (c_env c') = [] /\
  lines (c_page c') =
    lines (c_page c) ++ [MessageLine (Render.display_el false (fmt_time (timestamp m)) m)] /\
  alerts (c_env c'') = [("رسالة جديدة من " +:+ senderName m, Render.preview (content m))].
Proof.
  intros Hst Ht c c' c''. unfold c'', c', c. clear c'' c' c. rewrite (boot_saved st t Hst Ht).
  unfold showChatInterface. rewrite loadMessages_token with (t := t) by done. cbn.
  destruct (jm_get "message_draft" st) as [d|]; [destruct (String.eqb d "")|];
    rewrite connectSocket_token with (t := t) by done; cbn; by split_and!.
Qed.

(** A reload with a saved token opens the chat page, asks for the
    history of ["general"], opens one connection with the token, and
    puts the saved draft back in the message box (app.js 16-20, 162-172);
    [sendMessage] empties the box but not the saved draft, so a sent
    message comes back after the next reload. *)
Theorem reload_restores_draft st t d :
  jm_get "chat_token" st = Some t -> t <> "" ->
  jm_get "message_draft" st = Some d -> d <> "" ->
  let c := boot st in
  in_chat_view c = true /\ inputValue (c_page c) = d /\
  requests (c_env c) = [ReqMessages "general" t] /\ conns (c_env c) = [Conn t false false []] /\
  socket (c_chat c) = Some 0.
Proof.
  intros Hst Ht Hd Hdne c. unfold c. rewrite (boot_saved st t Hst Ht).
  unfold showChatInterface. rewrite loadMessages_token with (t := t) by done.
  cbn. rewrite Hd. destruct (String.eqb_spec d ""); [done|].
  rewrite connectSocket_token with (t := t) by done. cbn. by split_and!.
Qed.
(** What [sendMessage] does when the box holds text and there is a
    socket. *)
Lemma sendMessage_spec c k cn :
  socket (c_chat c) = Some k -> conn_at k c = Some cn -> js_trim (inputValue (c_page c)) <> "" ->
  let r := currentRoom (c_chat c) in
  let c' := sendMessage c in
  conn_at k c' =
    Some (conn_emit (EmTypingStop r)
            (conn_emit (EmSendMessage (SendData r (js_trim (inputValue (c_page c))) (Some "text"))) cn)) /\
  inputValue (c_page c') = "" /\ storage (c_env c') = storage (c_env c) /\
  socket (c_chat c') = Some k /\ currentRoom (c_chat c') = r /\
  currentUser (c_chat c') = currentUser (c_chat c) /\
  view_of (c_page c') = view_of (c_page c) /\ lines (c_page c') = lines (c_page c) /\
  length (conns (c_env c')) = length (conns (c_env c)).
Proof.
  intros Hk Hc Ht r c'. unfold c', sendMessage.
  destruct (String.eqb_spec (js_trim (inputValue (c_page c))) "") as [E|_]; [done|]. rewrite Hk.
  unfold stopTyping, emit_on_socket. cbn. rewrite !Hk. cbn. rewrite !Hk.
  unfold conn_at in *. cbn. destruct (typingTimeout (c_chat c)); cbn;
    rewrite !list_lookup_alter_eq, Hc, ?length_alter; by split_and!.
Qed.

(** C23. [sendMessage] sends the trimmed text and nothing when it trims
    to empty: with text left after [trim()], the socket gets the
    [send-message] of [{ roomId: currentRoom, content, type: 'text' }]
    then [typing-stop], and the box is emptied; the draft saved in
    [localStorage] is left as it was (app.js 358-372). *)
Theorem send_message_client now c k cn :
  in_chat_view c = true -> socket (c_chat c) = Some k -> conn_at k c = Some cn ->
  let v := inputValue (c_page c) in
  let r := currentRoom (c_chat c) in
  let c' := step fmt_time now ClickSend c in
  (js_trim v = "" -> c' = c) /\
  (js_trim v <> "" ->
   conn_at k c' =
     Some (conn_emit (EmTypingStop r) (conn_emit (EmSendMessage (SendData r (js_trim v) (Some "text"))) cn)) /\
   inputValue (c_page c') = "" /\ storage (c_env c') = storage (c_env c)).
Proof.
  intros Hv Hk Hc v r c'. unfold c', step. rewrite Hv. split; intros Ht.
  - unfold sendMessage. fold v. by rewrite Ht.
  - by destruct (sendMessage_spec c k cn Hk Hc Ht) as (? & ? & ? & _).
Qed.

(** The confirmation of a registration is never seen: the success
    handler shows it and then calls [toggleAuthMode()], whose last line
    empties [#auth-message] (app.js 268-270, 200); the form is back in
    login mode with an empty message. *)
Theorem register_success_message_lost now c st :
  in_chat_view c = false -> loginMode (c_page c) = false ->
  let c' := step fmt_time now (RegisterReply (Some (Response st Registered))) c in
  authMessage (c_page c') = Some ("", "success") /\ loginMode (c_page c') = true.
Proof. intros Hv Hm. cbn. unfold showAuthMessage. rewrite Hv. open_client c; by rewrite ?Hm. Qed.

(** The client's checks before [POST /api/register] imply the
    server's first and third checks: a request the client sends is never
    refused with "all fields required" nor with "password too short"
    (app.js 245-257 against server.js 123-139); only the e-mail format
    and a duplicate can still refuse it. *)
Theorem register_request_passes_presence_checks now c n e p n' e' p' users r :
  requests (c_env (step fmt_time now (ClickRegister n e p) c)) =
    requests (c_env c) ++ [ReqRegister n' e' p'] ->
  register_start (RegisterBody (Some e') (Some p') (Some n')) users = inl r ->
  r = Response 400 (ErrorBody "البريد الإلكتروني غير صحيح") \/
  r = Response 409 (ErrorBody "البريد الإلكتروني مستخدم مسبقاً").
Proof.
  unfold step, register, showAuthMessage.
  destruct (in_chat_view c || loginMode (c_page c)).
  { intros Hr. apply (f_equal (@length _)) in Hr. rewrite length_app in Hr. simpl in Hr. lia. }
  destruct (String.eqb_spec (js_trim n) "") as [|Hn]; destruct (String.eqb_spec (js_trim e) "") as [|He];
    destruct (String.eqb_spec p "") as [|Hp]; simpl;
    try (destruct (in_chat_view c); intros Hr; apply (f_equal (@length _)) in Hr;
         rewrite length_app in Hr; simpl in Hr; lia).
  destruct (Nat.ltb_spec (String.length p) 6) as [Hl|Hl];
    [destruct (in_chat_view c); intros Hr; apply (f_equal (@length _)) in Hr;
     rewrite length_app in Hr; simpl in Hr; lia|].
  intros [= Hr]. apply app_inj_tail in Hr as [_ [= <- <- <-]].
  unfold register_start. cbn [rb_email rb_password rb_displayName default]. cbv [Datatypes.id].
  rewrite !truthy_nonempty, (proj2 (Nat.ltb_ge _ _) Hl) by done. simpl.
  destruct (email_test _); simpl; [|intros [= <-]; by left].
  destruct (jm_has _ _); [intros [= <-]; by right|done].
Qed.
Lemma find_fresh (l : list timer) (t : timer) :
  Forall (fun t' => t_id t' < t_id t) l ->
  List.find (fun t' => Nat.eqb (t_id t') (t_id t)) (l ++ [t]) = Some t.
Proof.
  induction 1 as [|t' l Ht _ IH]; simpl; [by rewrite Nat.eqb_refl|].
  destruct (Nat.eqb_spec (t_id t') (t_id t)); [lia|done].
Qed.

(** C27. A connection error never gives up and never closes anything:
    [connect_error] schedules a retry in 3000 ms, and when it fires while
    [this.socket] is still not connected, [connectSocket()] opens a new
    connection with the same token and points [this.socket] at it, while
    the failed one stays in place and the page stays on the chat
    (app.js 321-331, 279-286).  With a token the server rejects, this
    repeats every three seconds. *)
Theorem connect_error_retries now now' c k t :
  timers_ok c -> conn_open k c = true -> socket (c_chat c) = Some k ->
  socket_connected c = false -> token (c_chat c) = Some t -> t <> "" ->
  let n := nextTimer (c_env c) in
  let c1 := step fmt_time now (SockConnectError k) c in
  let c2 := step fmt_time now' (TimerFires n) c1 in
  In (Timer n (now + 3000) CbRetry) (timers (c_env c1)) /\
  conns (c_env c2) = conns (c_env c) ++ [Conn t false false []] /\
  socket (c_chat c2) = Some (length (conns (c_env c))) /\ in_chat_view c2 = in_chat_view c.
Proof.
  intros (_ & Hlt & _) Ho Hk Hsc Ht Hne n c1 c2. unfold c2, c1. clear c1 c2.
  cbn [step]. rewrite Ho. cbn [setTimeout fst].
  assert (timers (c_env (addSystemMessage "❌ خطأ في الاتصال بالخادم - جاري المحاولة مرة أخرى..." c))
          = timers (c_env c) /\
          nextTimer (c_env (addSystemMessage "❌ خطأ في الاتصال بالخادم - جاري المحاولة مرة أخرى..." c))
          = n) as [Hts Hn] by (unfold addSystemMessage; by destruct (in_chat_view c)).
  split; [cbn; rewrite Hts, Hn; apply in_or_app; right; by left|].
  cbn [timers c_env set_timers set_nextTimer set_env]. rewrite Hts, Hn.
  rewrite (find_fresh _ (Timer n (now + 3000) CbRetry)) by done. cbn [t_cb run_callback].
  unfold addSystemMessage. destruct (in_chat_view c) eqn:Hv; cbn;
    unfold socket_connected, conn_at in *; cbn; rewrite Hk in *; rewrite Hsc;
    rewrite connectSocket_token with (t := t) by done; cbn; by split_and!.
Qed.
End Props.

(** Witnesses. *)
Lemma typing_timer_unique_witness :
  let c := step demo_time 5 (MessageInput "hey") demo_live in
  length (stop_timers c) <= 1 /\
  Forall (fun t => t_cb t = CbStopTyping -> typingTimeout (c_chat c) = Some (t_id t))
         (timers (c_env c)).
Proof. apply (typing_timer_unique demo_time). repeat constructor. Defined.

Lemma message_input_typing_witness :
  let c' := step demo_time 5 (MessageInput "hey") demo_live in
  let r := currentRoom (c_chat demo_live) in
  conn_at 0 c' = Some (conn_emit (EmTypingStart r) (conn_emit (EmTypingStart r)
                         (Conn "tokA" true false [EmJoinRoom "general"]))) /\
  stop_timers c' = [Timer (S (nextTimer (c_env demo_live))) (5 + 2000) CbStopTyping] /\
  jm_get "message_draft" (storage (c_env c')) = Some "hey" /\ inputValue (c_page c') = "hey".
Proof.
  apply (message_input_typing demo_time); [|reflexivity..].
  apply (reachable_timers_ok demo_time). repeat constructor.
Defined.
Lemma presence_event_clears_users_list_witness :
  let c1 := step demo_time 2 (SockEvent 0 (UserOnline "8" "bob")) demo_live in
  let c2 := step demo_time 2 (SockEvent 0 (UserOffline "8" "bob")) demo_live in
  usersList (c_page c1) = [] /\ usersList (c_page c2) = [] /\
  lines (c_page c1) = lines (c_page demo_live) ++ [SystemLine ("📶 " +:+ "bob" +:+ " انضم للدردشة")].
Proof. apply (presence_event_clears_users_list demo_time); reflexivity. Defined.

Lemma history_reply_replaces_lines_witness :
  let m := {| msg_id := "3"; msg_roomId := "general"; senderId := "8"; senderName := "bob";
              content := "live"; msg_type := "text"; timestamp := 3 |} in
  let c := step demo_time 3 (SockEvent 0 (NewMessage m)) demo_live in
  lines (c_page (step demo_time 4 (MessagesReply (Some (Response 200 (MessageList [])))) c)) =
    map (fun m => MessageLine (Render.display_el (own_message m c) (demo_time (timestamp m)) m)) [].
Proof. apply (history_reply_replaces_lines demo_time); [reflexivity|lia]. Defined.

Lemma history_reply_notifies_witness :
  let c := run demo_time demo_live [(1%Z, PermissionAnswer "granted"); (1%Z, VisibilityChange true)] in
  let ms := [Message "1" "general" "7" "alice" "hi" "text" 1; Message "2" "general" "8" "bob" "yo" "text" 2] in
  let c' := step demo_time 2 (MessagesReply (Some (Response 200 (MessageList ms)))) c in
  let others := List.filter (fun m => negb (own_message m c)) ms in
  (sounds (c_env c') = sounds (c_env c) + length others /\
   alerts (c_env c') = alerts (c_env c) ++
     (if notificationsEnabled (c_chat c) && hidden (c_env c) then map notify_of others else [])) /\
  length (alerts (c_env c')) = 2.
Proof.
  split; [apply (history_reply_notifies demo_time); [reflexivity|lia]|].
  vm_compute. reflexivity.
Defined.

Lemma no_notification_without_grant_witness :
  let m := Message "9" "general" "8" "bob" "psst" "text" 5 in
  let ins := [(1%Z, SockConnect 0); (2%Z, PermissionAnswer "denied"); (3%Z, VisibilityChange true);
              (5%Z, SockEvent 0 (NewMessage m))] in
  alerts (c_env (run demo_time (boot demo_store) ins)) = [] /\
  notificationsEnabled (c_chat (run demo_time (boot demo_store) ins)) = false.
Proof. apply (no_notification_without_grant demo_time). reflexivity. Defined.

Lemma reload_forgets_user_witness :
  let m := {| msg_id := "3"; msg_roomId := "general"; senderId := "7"; senderName := "alice";
              content := "mine"; msg_type := "text"; timestamp := 3 |} in
  let c := boot demo_store in
  let c' := step demo_time 3 (SockEvent 0 (NewMessage m)) c in
  let c'' := run demo_time c [(3%Z, PermissionAnswer "granted"); (3%Z, VisibilityChange true);
                              (3%Z, SockEvent 0 (NewMessage m))] in
  currentUser (c_chat c) = None /\ sounds (c_env c') = 1 /\ alerts (c_env c') = [] /\
  lines (c_page c') =
    lines (c_page c) ++ [MessageLine (Render.display_el false (demo_time (timestamp m)) m)] /\
  alerts (c_env c'') = [("رسالة جديدة من " +:+ senderName m, Render.preview (content m))].
Proof. apply (reload_forgets_user demo_time demo_store "tokA"); [reflexivity|discriminate]. Defined.

Lemma reload_restores_draft_witness :
  let c := boot demo_store in
  in_chat_view c = true /\ inputValue (c_page c) = "hi" /\
  requests (c_env c) = [ReqMessages "general" "tokA"] /\
  conns (c_env c) = [Conn "tokA" false false []] /\ socket (c_chat c) = Some 0.
Proof. apply reload_restores_draft; first [reflexivity|discriminate]. Defined.

Lemma send_message_client_witness :
  let c := step demo_time 2 (MessageInput "  hi  ") demo_live in
  exists cn, conn_at 0 c = Some cn /\
  let v := inputValue (c_page c) in
  let r := currentRoom (c_chat c) in
  let c' := step demo_time 3 ClickSend c in
  (js_trim v = "" -> c' = c) /\
  (js_trim v <> "" ->
   conn_at 0 c' =
     Some (conn_emit (EmTypingStop r) (conn_emit (EmSendMessage (SendData r (js_trim v) (Some "text"))) cn)) /\
   inputValue (c_page c') = "" /\ storage (c_env c') = storage (c_env c)).
Proof.
  set (c := step demo_time 2 (MessageInput "  hi  ") demo_live).
  exists (default (Conn "" false false []) (conn_at 0 c)). split; [vm_compute; reflexivity|].
  apply (send_message_client demo_time 3 c 0); vm_compute; reflexivity.
Defined.

Lemma register_success_message_lost_witness :
  let c' := step demo_time 1 (RegisterReply (Some (Response 201 Registered))) demo_register_form in
  authMessage (c_page c') = Some ("", "success") /\ loginMode (c_page c') = true.
Proof. apply (register_success_message_lost demo_time); reflexivity. Defined.

Lemma register_request_passes_presence_checks_witness :
  let r := Response 400 (ErrorBody "البريد الإلكتروني غير صحيح") in
  r = Response 400 (ErrorBody "البريد الإلكتروني غير صحيح") \/
  r = Response 409 (ErrorBody "البريد الإلكتروني مستخدم مسبقاً").
Proof.
  apply (register_request_passes_presence_checks demo_time 1 demo_register_form
           " bob " "bob@" "secret1" "bob" "bob@" "secret1" []); reflexivity.
Defined.

Lemma connect_error_retries_witness :
  let n := nextTimer (c_env demo_boot) in
  let c1 := step demo_time 1 (SockConnectError 0) demo_boot in
  let c2 := step demo_time 3001 (TimerFires n) c1 in
  In (Timer n (1 + 3000) CbRetry) (timers (c_env c1)) /\
  conns (c_env c2) = conns (c_env demo_boot) ++ [Conn "tokA" false false []] /\
  socket (c_chat c2) = Some (length (conns (c_env demo_boot))) /\
  in_chat_view c2 = in_chat_view demo_boot.
Proof.
  apply (connect_error_retries demo_time); first [reflexivity|discriminate|idtac].
  apply (reachable_timers_ok demo_time). constructor.
Defined.
End Client.
