(* ===== verification/ServiceWorker.v ===== *)
(** The service worker, src/public/sw.js: the [install] handler fills the
    cache [terminal-chat-v1.0.1] with the static files, [activate]
    deletes every other cache, and [fetch] answers from the caches first,
    then from the network, with [/index.html] as the offline page for
    documents; Socket.IO requests are left to the browser.

    [CacheStorage] is an insertion-ordered map from cache names to caches,
    a cache a map from URL paths to responses.  The network is a function
    [net] from a path to a response, [None] when [fetch] rejects.
    [cache.addAll] is all or nothing: it rejects, and stores nothing, when
    a fetch rejects or a response is not [ok] (status 200-299).  The
    promises of the handlers resolve before the next event, so each
    handler is one step. *)

From S2P Require Import Prelude JsMap.

Module SW.

Record response := Resp { r_status : nat; r_body : string }.

Abbreviation cache := (jsmap string response).
Abbreviation cache_storage := (jsmap string cache).

(** [CACHE_NAME] and [urlsToCache] (sw.js 1-9). *)
Definition CACHE_NAME : string := "terminal-chat-v1.0.1".
Definition urlsToCache : list string :=
  ["/"; "/index.html"; "/app.js"; "/manifest.json"; "/icons/icon-72x72.png"; "/favicon.ico"].

Definition ok (r : response) : bool := (200 <=? r_status r) && (r_status r <? 300).

(** [caches.open(name)]: the cache, created empty when absent. *)
Definition cache_open (name : string) (cs : cache_storage) : cache_storage :=
  if jm_has name cs then cs else jm_set name [] cs.

(** [cache.addAll(urls)]: every response, or [None] when one request
    fails. *)
Fixpoint fetch_all (net : string -> option response) (urls : list string)
    : option (list (string * response)) :=
  match urls with
  | [] => Some []
  | u :: us =>
      match net u with
      | Some r => if ok r then (fun rs => (u, r) :: rs) <$> fetch_all net us else None
      | None => None
      end
  end.

Definition cache_put_all (rs : list (string * response)) (c : cache) : cache :=
  foldl (fun c' '(u, r) => jm_set u r c') c rs.

(** The [install] handler (sw.js 11-23); a rejected [addAll] is caught
    and logged. *)
Definition install (net : string -> option response) (cs : cache_storage) : cache_storage :=
  let cs1 := cache_open CACHE_NAME cs in
  match fetch_all net urlsToCache with
  | Some rs => jm_alter (cache_put_all rs) CACHE_NAME cs1
  | None => cs1
  end.

(** The [activate] handler (sw.js 25-40). *)
Definition activate (cs : cache_storage) : cache_storage :=
  foldl (fun cs' name => if String.eqb name CACHE_NAME then cs' else jm_delete name cs')
        cs (jm_keys cs).

(** [caches.match(url)]: the first cache, in creation order, that holds
    [url]. *)
Fixpoint caches_match (url : string) (cs : cache_storage) : option response :=
  match cs with
  | [] => None
  | (_, c) :: cs' =>
      match jm_get url c with Some r => Some r | None => caches_match url cs' end
  end.

(** What the [fetch] handler does with a request: leave it to the
    browser, or answer it with a response ([None] is the network error
    of a promise that resolves to [undefined]). *)
Inductive fetch_outcome := Bypass | Respond (r : option response).

(** The [fetch] handler (sw.js 42-62) for a request of [url] whose
    [destination] is [dest]. *)
Definition on_fetch (net : string -> option response) (url dest : string)
    (cs : cache_storage) : fetch_outcome :=
  if js_includes url "/socket.io/" then Bypass
  else Respond (match caches_match url cs with
                | Some r => Some r
                | None =>
                    match net url with
                    | Some r => Some r
                    | None => if String.eqb dest "document" then caches_match "/index.html" cs
                              else None
                    end
                end).

(** An example network that answers every path with status 200. *)
Definition demo_net (u : string) : option response := Some (Resp 200 u).

(** The fold of [activate] over a list of names, pointwise. *)
Lemma activate_fold_get (ns : list string) (cs : cache_storage) (k : string) :
  jm_get k (foldl (fun cs' name => if String.eqb name CACHE_NAME then cs' else jm_delete name cs')
                  cs ns) =
    if bool_decide (k ∈ ns) && negb (String.eqb k CACHE_NAME) then None else jm_get k cs.
Proof.
  revert cs. induction ns as [|n ns IH]; intros cs; simpl.
  { done. }
  rewrite IH. destruct (String.eqb_spec k CACHE_NAME) as [Hk|Hk].
  - rewrite Hk, !andb_false_r.
    destruct (String.eqb_spec n CACHE_NAME) as [Hn|Hn]; [done|]. by rewrite jm_get_delete_ne.
  - rewrite !andb_true_r. destruct (decide (k = n)) as [Hkn|Hkn].
    + subst n. rewrite (bool_decide_eq_true_2 (k ∈ k :: ns)) by set_solver.
      destruct (String.eqb_spec k CACHE_NAME); [done|].
      destruct (bool_decide (k ∈ ns)); [done|]. by rewrite jm_get_delete_eq.
    + rewrite (bool_decide_ext (k ∈ n :: ns) (k ∈ ns)) by set_solver.
      destruct (String.eqb n CACHE_NAME); [done|]. by rewrite jm_get_delete_ne.
Qed.

Lemma activate_fold_wf (ns : list string) (cs : cache_storage) :
  jm_wf cs ->
  jm_wf (foldl (fun cs' name => if String.eqb name CACHE_NAME then cs' else jm_delete name cs')
               cs ns).
Proof.
  revert cs. induction ns as [|n ns IH]; intros cs Hwf; simpl; [done|].
  apply IH. destruct (String.eqb n CACHE_NAME); [done|]. by apply jm_delete_wf.
Qed.

(** [activate] keeps the current cache and deletes every other one. *)
Lemma activate_get cs k :
  jm_get k (activate cs) = if String.eqb k CACHE_NAME then jm_get k cs else None.
Proof.
  unfold activate. rewrite activate_fold_get.
  destruct (String.eqb_spec k CACHE_NAME); [by rewrite andb_false_r|]. rewrite andb_true_r.
  case_bool_decide as Hin; [done|]. by apply jm_get_None_keys.
Qed.

Lemma jm_get_of_In (m : cache_storage) k v : In (k, v) m -> is_Some (jm_get k m).
Proof.
  intros Hin. destruct (jm_get k m) eqn:E; [done|]. apply jm_get_None_keys in E.
  exfalso. apply E. apply list_elem_of_fmap. exists (k, v). split; [done|by apply list_elem_of_In].
Qed.

(** After [activate], [caches.match] looks in the current cache only. *)
Lemma caches_match_activate url cs :
  jm_wf cs -> caches_match url (activate cs) = jm_get CACHE_NAME cs ≫= jm_get url.
Proof.
  intros Hwf. pose proof (activate_fold_wf (jm_keys cs) cs Hwf) as Hwf'. fold (activate cs) in Hwf'.
  assert (forall k c, In (k, c) (activate cs) -> k = CACHE_NAME) as Hkeys.
  { intros k c Hin. apply jm_get_of_In in Hin. rewrite activate_get in Hin.
    destruct (String.eqb_spec k CACHE_NAME); [done|]. by destruct Hin. }
  assert (jm_get CACHE_NAME (activate cs) = jm_get CACHE_NAME cs) as <-
    by (rewrite activate_get, String.eqb_refl; done).
  revert Hwf' Hkeys.
  generalize (activate cs) as l. intros l Hwf' Hkeys.
  destruct l as [|[k c] [|[k' c'] l]]; simpl; [done| |].
  - rewrite (Hkeys k c) by (by left). rewrite decide_True by done. simpl.
    by destruct (jm_get url c).
  - exfalso. rewrite (Hkeys k c), (Hkeys k' c') in Hwf' by (simpl; auto).
    inversion Hwf'. set_solver.
Qed.

Lemma fetch_all_spec net us rs :
  fetch_all net us = Some rs -> Forall2 (fun u ur => ur.1 = u /\ net u = Some ur.2) us rs.
Proof.
  revert rs. induction us as [|u us IH]; intros rs; simpl; [intros [= <-]; constructor|].
  destruct (net u) as [r|] eqn:Hr; [|done]. destruct (ok r); [|done].
  destruct (fetch_all net us) as [rs'|]; simpl; [|done]. intros [= <-].
  constructor; [done|]. by apply IH.
Qed.

Lemma cache_put_all_get net us rs (c : cache) u :
  Forall2 (fun u ur => ur.1 = u /\ net u = Some ur.2) us rs ->
  jm_get u (cache_put_all rs c) = if bool_decide (u ∈ us) then net u else jm_get u c.
Proof.
  intros Hf. revert c. induction Hf as [|u' [u'' r'] us rs [Hu Hr] _ IH]; intros c; simpl in *.
  { first [done|case_bool_decide; [set_solver|done]]. }
  subst u''. rewrite IH.
  case_bool_decide as Hin; [by rewrite bool_decide_eq_true_2 by set_solver|].
  destruct (decide (u = u')) as [->|Hne].
  - rewrite bool_decide_eq_true_2 by set_solver. by rewrite jm_get_set_eq.
  - rewrite bool_decide_eq_false_2 by set_solver. by rewrite jm_get_set_ne.
Qed.

Lemma fetch_all_some (net : string -> option response) (us : list string)
    (rs : list (string * response)) (u : string) :
  Forall2 (fun u ur => ur.1 = u /\ net u = Some ur.2) us rs -> u ∈ us -> is_Some (net u).
Proof.
  induction 1 as [|u' ur us rs [Hu Hr] _ IH]; [set_solver|].
  rewrite elem_of_cons. intros [->|Hin]; [by eexists|by apply IH].
Qed.

(** After a first install on a working network, [caches.match] finds
    exactly the six static files, with the responses of the install. *)
Lemma installed_match net cs rs url :
  jm_wf cs -> jm_get CACHE_NAME cs = None -> fetch_all net urlsToCache = Some rs ->
  caches_match url (activate (install net cs)) =
    if bool_decide (url ∈ urlsToCache) then net url else None.
Proof.
  intros Hwf Hnone Hf. unfold install, cache_open.
  assert (jm_has CACHE_NAME cs = false) as -> by (unfold jm_has; by rewrite Hnone).
  rewrite Hf, caches_match_activate.
  2: { unfold jm_wf, jm_alter, jm_keys in *. rewrite map_map. simpl.
       erewrite map_ext; [apply jm_set_wf, Hwf|]. intros [k v]. simpl. by case_decide. }
  rewrite jm_get_alter, decide_True, jm_get_set_eq by done. simpl.
  rewrite (cache_put_all_get net urlsToCache) by (by apply fetch_all_spec).
  by case_bool_decide.
Qed.

(** C39. The service worker after its first install and activation on a
    working network: each of the six static files is answered from the
    cache with the response fetched at install, whatever the network
    answers later (cache first, never refreshed); any other request that
    is not Socket.IO and finds the network down is answered, for a
    document, with the cached [/index.html], and otherwise with a network
    error (sw.js 11-62). *)
Theorem install_activate_fetch net net' cs rs :
  jm_wf cs -> jm_get CACHE_NAME cs = None -> fetch_all net urlsToCache = Some rs ->
  let cs' := activate (install net cs) in
  (forall u dest, u ∈ urlsToCache -> on_fetch net' u dest cs' = Respond (net u)) /\
  (forall u dest, u ∉ urlsToCache -> js_includes u "/socket.io/" = false -> net' u = None ->
     on_fetch net' u dest cs' =
       Respond (if String.eqb dest "document" then net "/index.html" else None)).
Proof.
  intros Hwf Hnone Hf cs'. pose proof (fetch_all_spec _ _ _ Hf) as Hf2.
  assert (Forall (fun u => js_includes u "/socket.io/" = false) urlsToCache) as Hno
    by (repeat constructor).
  unfold on_fetch, cs'. split.
  - intros u dest Hin. rewrite Forall_forall in Hno. rewrite (Hno u Hin).
    rewrite (installed_match net cs rs u), bool_decide_eq_true_2 by done.
    destruct (fetch_all_some _ _ _ u Hf2 Hin) as [r ->]. done.
  - intros u dest Hin Hs Hnet. rewrite Hs, (installed_match net cs rs u), bool_decide_eq_false_2,
      Hnet by done.
    destruct (String.eqb dest "document"); [|done].
    rewrite (installed_match net cs rs), bool_decide_eq_true_2 by (done || set_solver).
    destruct (fetch_all_some net urlsToCache rs "/index.html" Hf2) as [r ->]; [set_solver|done].
Qed.

Lemma install_activate_fetch_witness :
  let cs' := activate (install demo_net []) in
  (forall u dest, u ∈ urlsToCache -> on_fetch (fun _ => None) u dest cs' = Respond (demo_net u)) /\
  (forall u dest, u ∉ urlsToCache -> js_includes u "/socket.io/" = false ->
     (fun _ : string => @None response) u = None ->
     on_fetch (fun _ => None) u dest cs' =
       Respond (if String.eqb dest "document" then demo_net "/index.html" else None)).
Proof.
  apply (install_activate_fetch demo_net (fun _ => None) []
           (map (fun u => (u, Resp 200 u)) urlsToCache)); [constructor|reflexivity|reflexivity].
Defined.
End SW.
