(* ===== verification/App.v ===== *)
(** The two halves of server.js together: the HTTP routes of [Accounts]
    and the Socket.IO loop of [Session] share the process state, and the
    token that [/api/login] issues is the one the [io.use] middleware
    verifies.  Here [Session]'s token check is instantiated with
    [jwt_verify] of a [Crypto] instance, and the theorems follow a user
    from login to a live socket, show that socket events never touch the
    accounts, and show what two registrations in one millisecond do to
    the presence registry. *)

From S2P Require Import Prelude JsMap Model Crypto Retention Presence Broadcast Session Accounts.

Module App.
Import Accounts.

(** Users and states of the examples. *)
Definition reg_alice : register_body :=
  RegisterBody (Some "alice@example.com") (Some "secret1") (Some "alice").
Definition reg_bob : register_body :=
  RegisterBody (Some "bob@example.com") (Some "secret2") (Some "bob").

(** The Socket.IO half of the process: [Session]'s loop whose [io.use]
    middleware calls [jwt.verify(token, JWT_SECRET, ...)] (server.js
    239-254), the same secret [/api/login] signs with. *)
Definition io_handle `{Crypto} (st : server) (ev : Session.event) : server :=
  Session.handle jwt_verify st ev.

Definition io_run `{Crypto} (st : server) (evs : list Session.event) : server :=
  foldl io_handle st evs.

Definition token_of (r : response) : string :=
  match resp_body r with LoggedIn tok _ => tok | _ => "" end.

Lemma handle_users verify st ev : users (Session.handle verify st ev) = users st.
Proof.
  destruct ev; simpl; unfold Session.with_socket; chat_cases.
Qed.

(** A token [jwt.sign] issued passes the [io.use] middleware during its
    seven days. *)
Lemma jwt_authenticate `{Crypto} u t now :
  (t <= now < t + jwt_lifetime)%Z -> Session.authenticate jwt_verify (jwt_sign u t) now = Some u.
Proof.
  intros Ht. unfold Session.authenticate. destruct (String.eqb_spec (jwt_sign u t) "") as [E|_].
  - by apply jwt_sign_nonempty in E.
  - by apply jwt_verify_sign.
Qed.

(** C16. A token issued by [/api/login] opens a socket as the account's
    identity: within the token's seven days, a connection that presents
    it on a fresh socket id is accepted and registers that identity as
    online under the new socket. *)
Theorem login_then_connect `{Crypto} b t users users' tok u st sid now :
  login b t users = (users', Response 200 (LoggedIn tok u)) ->
  (t <= now < t + jwt_lifetime)%Z -> jm_has sid (sockets st) = false ->
  let st' := io_handle st (Session.EvConnect sid tok now) in
  jm_get (id u) (connectedUsers st') =
    Some {| socketId := sid; pe_user := u; pe_status := "online" |} /\
  option_map sock_user (jm_get sid (sockets st')) = Some u.
Proof.
  intros Hl Ht Hf st'. unfold io_handle in st'.
  assert (tok = jwt_sign u t) as ->.
  { revert Hl. unfold login. destruct (truthy _ && truthy _); simpl; [|done].
    destruct (jm_get _ _) as [a|]; [|done].
    destruct (bcrypt_compare _ _); simpl; [|done]. intros [= _ <- <-]. done. }
  by apply Session.connect_accepted; [apply jwt_authenticate|].
Qed.

Lemma login_then_connect_witness :
  let r := login (H := demo_crypto) (LoginBody (Some "alice@example.com") (Some "secret1")) 8
             (register (H := demo_crypto) reg_alice 0 7 []).1 in
  let u := {| id := pretty 7; email := "alice@example.com"; displayName := "alice" |} in
  let st' := io_handle (H := demo_crypto) (init_server 0)
               (Session.EvConnect "s1" (token_of r.2) 9) in
  jm_get (id u) (connectedUsers st') =
    Some {| socketId := "s1"; pe_user := u; pe_status := "online" |} /\
  option_map sock_user (jm_get "s1" (sockets st')) = Some u.
Proof.
  apply (login_then_connect (H := demo_crypto)
           (LoginBody (Some "alice@example.com") (Some "secret1")) 8
           (register (H := demo_crypto) reg_alice 0 7 []).1
           (login (H := demo_crypto) (LoginBody (Some "alice@example.com") (Some "secret1")) 8
              (register (H := demo_crypto) reg_alice 0 7 []).1).1);
    [vm_compute; reflexivity|unfold jwt_lifetime; lia|reflexivity].
Defined.

(** A login with the password an account was registered with returns
    a token for the account's identity, and changes no other entry. *)
Lemma login_registered `{Crypto} e p salt t users a :
  e <> "" -> p <> "" -> jm_get e users = Some a -> acc_password a = bcrypt_hash p salt ->
  token_of (login (LoginBody (Some e) (Some p)) t users).2 = jwt_sign (account_identity a) t /\
  (forall e', e <> e' -> jm_get e' (login (LoginBody (Some e) (Some p)) t users).1 = jm_get e' users).
Proof.
  intros He Hp Ha Hpw. rewrite (login_ok e p t users a); [|done|done|done|].
  - split; [done|]. intros e' Hne. by apply jm_get_set_ne.
  - rewrite Hpw. apply bcrypt_compare_hash.
Qed.

(** Two registrations that pass their checks one after the other store
    two accounts under different e-mails. *)
Lemma register_twice `{Crypto} b1 b2 salt1 salt2 now users e1 p1 n1 e2 p2 n2 :
  register_start b1 users = inr (e1, p1, n1) ->
  register_start b2 (register b1 salt1 now users).1 = inr (e2, p2, n2) ->
  let users2 := (register b2 salt2 now (register b1 salt1 now users).1).1 in
  e1 <> e2 /\
  jm_get e1 users2 = Some (new_account (e1, p1, n1) (bcrypt_hash p1 salt1) now) /\
  jm_get e2 users2 = Some (new_account (e2, p2, n2) (bcrypt_hash p2 salt2) now).
Proof.
  intros Hs1 Hs2 users2. unfold users2. rewrite (register_unfold _ _ _ _ e1 p1 n1 Hs1) in Hs2 |- *.
  simpl in Hs2 |- *. rewrite (register_unfold _ _ _ _ e2 p2 n2 Hs2). simpl.
  pose proof (register_start_ok _ _ _ _ _ Hs2) as (_ & _ & _ & _ & _ & Hh2).
  assert (e1 <> e2) as Hee by (intros ->; unfold jm_has in Hh2; by rewrite jm_get_set_eq in Hh2).
  split_and!; [done| |apply jm_get_set_eq].
  rewrite jm_get_set_ne by congruence. apply jm_get_set_eq.
Qed.

(** Socket events never touch the accounts: whatever events the loop
    handles, [users] is unchanged, so the [status: 'online'] that
    [/api/login] writes is never reset when the user disconnects. *)
Theorem socket_events_keep_accounts verify st evs :
  users (Session.run verify st evs) = users st.
Proof.
  unfold Session.run. revert st. induction evs as [|ev evs IH]; intros st; [done|].
  simpl. by rewrite IH, handle_users.
Qed.

(** C40. Two accounts registered in the same millisecond share an id
    ([Date.now().toString()], server.js 144).  Take any two valid
    registrations of different e-mails completed at the same time
    [now], any logins with their passwords, and any state where two
    fresh sockets present the two tokens within their seven days: both
    sockets are live, but the presence registry, keyed by that id, holds
    one entry, the second user's; and the first socket's disconnect
    deletes it, so the registry no longer lists the id while the second
    user's socket is still live. *)
Theorem same_millisecond_ids_collide `{Crypto} b1 b2 salt1 salt2 now users e1 p1 n1 e2 p2 n2
    tl tc st sid1 sid2 :
  register_start b1 users = inr (e1, p1, n1) ->
  register_start b2 (register b1 salt1 now users).1 = inr (e2, p2, n2) ->
  (tl <= tc < tl + jwt_lifetime)%Z ->
  jm_has sid1 (sockets st) = false -> jm_has sid2 (sockets st) = false -> sid1 <> sid2 ->
  let users2 := (register b2 salt2 now (register b1 salt1 now users).1).1 in
  let l1 := login (LoginBody (Some e1) (Some p1)) tl users2 in
  let l2 := login (LoginBody (Some e2) (Some p2)) tl l1.1 in
  let u1 := {| id := pretty now; email := e1; displayName := n1 |} in
  let u2 := {| id := pretty now; email := e2; displayName := n2 |} in
  let st1 := io_run st [Session.EvConnect sid1 (token_of l1.2) tc;
                        Session.EvConnect sid2 (token_of l2.2) tc] in
  let st2 := io_handle st1 (Session.EvDisconnect sid1) in
  option_map acc_id (jm_get e1 users2) = Some (pretty now) /\
  option_map acc_id (jm_get e2 users2) = Some (pretty now) /\
  option_map sock_user (jm_get sid1 (sockets st1)) = Some u1 /\
  jm_get (pretty now) (connectedUsers st1) =
    Some {| socketId := sid2; pe_user := u2; pe_status := "online" |} /\
  jm_get (pretty now) (connectedUsers st2) = None /\
  option_map sock_user (jm_get sid2 (sockets st2)) = Some u2.
Proof.
  intros Hs1 Hs2 Ht Hf1 Hf2 Hne users2 l1 l2 u1 u2 st1 st2.
  pose proof (register_start_ok _ _ _ _ _ Hs1) as (_ & _ & _ & He1 & Hp1 & _).
  pose proof (register_start_ok _ _ _ _ _ Hs2) as (_ & _ & _ & He2 & Hp2 & _).
  destruct (register_twice b1 b2 salt1 salt2 now users e1 p1 n1 e2 p2 n2 Hs1 Hs2)
    as (Hee & G1 & G2).
  fold users2 in G1, G2.
  destruct (login_registered e1 p1 salt1 tl users2 _ He1 Hp1 G1 eq_refl) as [T1 K1].
  destruct (login_registered e2 p2 salt2 tl l1.1 (new_account (e2, p2, n2) (bcrypt_hash p2 salt2) now)
              He2 Hp2) as [T2 _];
    [unfold l1; rewrite K1 by done; exact G2|done|].
  fold l1 in T1. fold l2 in T2.
  set (st0 := io_handle st (Session.EvConnect sid1 (jwt_sign u1 tl) tc)).
  assert (st1 = io_handle st0 (Session.EvConnect sid2 (jwt_sign u2 tl) tc)) as E1
    by (unfold st1; rewrite T1, T2; reflexivity).
  destruct (Session.connect_accepted jwt_verify st sid1 (jwt_sign u1 tl) tc u1) as [_ U1];
    [by apply jwt_authenticate|done|].
  assert (jm_has sid2 (sockets st0) = false) as Hf2' by (by apply Session.connect_fresh_ne).
  destruct (Session.connect_accepted jwt_verify st0 sid2 (jwt_sign u2 tl) tc u2) as [R2 U2];
    [by apply jwt_authenticate|done|]. fold (io_handle st0 (Session.EvConnect sid2 (jwt_sign u2 tl) tc)) in R2, U2.
  rewrite <- E1 in R2, U2.
  assert (option_map sock_user (jm_get sid1 (sockets st1)) = Some u1) as V1.
  { rewrite E1. unfold io_handle. rewrite Session.connect_get_ne by done. exact U1. }
  split_and!; [by rewrite G1|by rewrite G2|exact V1|exact R2| |];
  destruct (jm_get sid1 (sockets st1)) as [s1|] eqn:S1; [|done| |done];
  destruct (jm_get sid2 (sockets st1)) as [s2|] eqn:S2; try done; simpl in V1, U2; injection V1 as V1; injection U2 as U2.
  - unfold st2, io_handle. rewrite (Session.disconnect_registry _ _ _ s1), V1 by done.
    apply (Presence.unregister_get u1).
  - destruct (Session.disconnect_other jwt_verify st1 sid1 s1 sid2 s2) as (s2' & G & U & _);
      [done|congruence|done|].
    unfold st2, io_handle. rewrite G. simpl. by rewrite U, U2.
Qed.

Lemma same_millisecond_ids_collide_witness :
  let users2 := (register (H := demo_crypto) reg_bob 0 7 (register (H := demo_crypto) reg_alice 0 7 []).1).1 in
  let l1 := login (H := demo_crypto) (LoginBody (Some "alice@example.com") (Some "secret1")) 8 users2 in
  let l2 := login (H := demo_crypto) (LoginBody (Some "bob@example.com") (Some "secret2")) 8 l1.1 in
  let u1 := {| id := pretty 7; email := "alice@example.com"; displayName := "alice" |} in
  let u2 := {| id := pretty 7; email := "bob@example.com"; displayName := "bob" |} in
  let st1 := io_run (H := demo_crypto) (init_server 0)
               [Session.EvConnect "s1" (token_of l1.2) 9; Session.EvConnect "s2" (token_of l2.2) 9] in
  let st2 := io_handle (H := demo_crypto) st1 (Session.EvDisconnect "s1") in
  option_map acc_id (jm_get "alice@example.com" users2) = Some (pretty 7) /\
  option_map acc_id (jm_get "bob@example.com" users2) = Some (pretty 7) /\
  option_map sock_user (jm_get "s1" (sockets st1)) = Some u1 /\
  jm_get (pretty 7) (connectedUsers st1) =
    Some {| socketId := "s2"; pe_user := u2; pe_status := "online" |} /\
  jm_get (pretty 7) (connectedUsers st2) = None /\
  option_map sock_user (jm_get "s2" (sockets st2)) = Some u2.
Proof.
  apply (same_millisecond_ids_collide (H := demo_crypto) reg_alice reg_bob 0 0 7 []
           "alice@example.com" "secret1" "alice" "bob@example.com" "secret2" "bob" 8 9
           (init_server 0) "s1" "s2");
    [vm_compute; reflexivity|vm_compute; reflexivity|unfold jwt_lifetime; lia
    |reflexivity|reflexivity|done].
Defined.

(** [/api/messages/:roomId] serves any room's history to any
    authenticated user: Bob, who never joined room ["secret"], reads the
    message Alice sent there. *)
Theorem history_readable_without_membership :
  let tokA := jwt_sign (Crypto := demo_crypto) Session.alice 0 in
  let tok := jwt_sign (Crypto := demo_crypto) Session.bob 3 in
  let st := io_run (H := demo_crypto) (init_server 0)
              [Session.EvConnect "s1" tokA 1; Session.EvJoinRoom "s1" "secret";
               Session.EvSendMessage "s1" (SendData "secret" "psst" None) 2;
               Session.EvConnect "s2" tok 3] in
  (exists s, jm_get "s2" (sockets st) = Some s /\ Broadcast.in_room "secret" s = false) /\
  messages_route (H := demo_crypto) (Some ("Bearer " +:+ tok)) "secret" 4 st =
    Response 200 (MessageList [Session.make_message Session.alice
                                 (SendData "secret" "psst" None) 2]).
Proof. vm_compute. split; [eexists; split; reflexivity|reflexivity]. Qed.
End App.
