(* ===== verification/Net.v ===== *)
(** The clients of src/app.js and the server of src/server.js composed
    over Socket.IO.  A connection the client opens with
    [io({ auth: { token } })] (app.js 282-286) reaches the server as a
    socket that the [io.use] middleware accepts or refuses (server.js
    239-252); once accepted, connection and socket form a [link].  Each
    direction of a link is a FIFO channel: [l_up] counts the client's
    emits the server has handled, [l_down] the events of the socket's
    inbox the client has received.  A client's [socket.emit('x', d)] is
    handled by the server's [socket.on('x', ...)] with the same payload.

    The system moves by [action]s: an input at one client (a DOM event
    or a timer), the handshake of an open connection, the delivery of
    the next item of one direction of a link, the hang-up of a
    connection the client closed, a tick of the server's sweep, and the
    answer to the oldest pending [fetch] of a client: either the rate
    limiter of [/api/] and then, unless the limiter answered 429, the
    Express route it names handle it ([api_request], [serve_request])
    and the client gets the response, or it fails as a network error.  Requests of one
    client are answered in order and one at a time.
    Socket.IO buffers the emits made before the handshake and sends
    them once the connection is up; a connection the client closed
    sends nothing more.  A connection refused by the middleware is not
    retried by Socket.IO ([dialed] records the connections that tried);
    the client's own [setTimeout] retry opens a new one. *)

From S2P Require Import Prelude JsMap Model Crypto Broadcast Session Accounts RateLimit Render App Client.

Module Net.
Import Accounts Client.

(** Connection [l_conn] of client [l_client] is the server socket
    [l_sid]; [l_up] emits and [l_down] inbox events have crossed. *)
Record link := Link {
  l_client : nat;
  l_conn : nat;
  l_sid : string;
  l_up : nat;
  l_down : nat;
}.

(** The server, the clients, the live links, the connections that have
    made their handshake, for each client the number of its [fetch]
    requests answered so far, and the store of the rate limiter. *)
Record sys := Sys {
  srv : server;
  cls : list client;
  links : list link;
  dialed : list (nat * nat);
  served : list nat;
  limits : RateLimit.rl_store;
}.

(** The server handler an emit of the client runs: the event name of
    [this.socket.emit] (app.js 291, 364, 440, 451) is the one the
    server listens to (server.js 284, 290, 314, 323). *)
Definition server_event (sid : string) (now : Z) (e : emit) : Session.event :=
  match e with
  | EmJoinRoom r => Session.EvJoinRoom sid r
  | EmSendMessage d => Session.EvSendMessage sid d now
  | EmTypingStart r => Session.EvTypingStart sid r
  | EmTypingStop r => Session.EvTypingStop sid r
  end.

Inductive action :=
| Input (i : nat) (now : Z) (inp : input)
| Handshake (i k : nat) (sid : string) (now : Z)
| Uplink (j : nat) (now : Z)
| Downlink (j : nat) (now : Z)
| Hangup (j : nat)
| Tick (now : Z)
| Serve (i : nat) (now : Z)
| FetchFail (i : nat).

(** The inputs that come from the page, [fetch] and timers; the
    [Sock*] inputs come only from the network. *)
Definition local_input (inp : input) : bool :=
  match inp with
  | SockConnect _ | SockDisconnect _ | SockConnectError _ | SockEvent _ _ => false
  | _ => true
  end.

Definition set_srv (s : server) (y : sys) : sys := Sys s (cls y) (links y) (dialed y) (served y) (limits y).
Definition set_client (i : nat) (c : client) (y : sys) : sys :=
  Sys (srv y) (<[i := c]> (cls y)) (links y) (dialed y) (served y) (limits y).
Definition set_link (j : nat) (l : link) (y : sys) : sys :=
  Sys (srv y) (cls y) (<[j := l]> (links y)) (dialed y) (served y) (limits y).
Definition set_served (i n : nat) (y : sys) : sys :=
  Sys (srv y) (cls y) (links y) (dialed y) (<[i := n]> (served y)) (limits y).
Definition set_limits (m : RateLimit.rl_store) (y : sys) : sys :=
  Sys (srv y) (cls y) (links y) (dialed y) (served y) m.

(** The reply of a request as the client's input. *)
Definition reply_input (r : request) (resp : option response) : input :=
  match r with
  | ReqLogin _ _ => LoginReply resp
  | ReqRegister _ _ _ => RegisterReply resp
  | ReqMessages _ _ => MessagesReply resp
  end.

Definition link_conn (y : sys) (l : link) : option conn :=
  cls y !! l_client l ≫= fun c => conn_at (l_conn l) c.

Definition link_socket (y : sys) (l : link) : option Model.socket :=
  jm_get (l_sid l) (sockets (srv y)).

(** Is some link or the server already using the socket id? *)
Definition sid_used (sid : string) (y : sys) : bool :=
  jm_has sid (sockets (srv y)) || existsb (fun l => String.eqb (l_sid l) sid) (links y).

Section Step.
Context {C : Crypto}.
Variable fmt_time : Z -> string.
Local Abbreviation verify := jwt_verify.

(** The next emit of link [l] the server has not handled, if the
    connection is up. *)
Definition next_up (y : sys) (l : link) : option emit :=
  match link_conn y l with
  | Some cn => if conn_connected cn then conn_out cn !! l_up l else None
  | None => None
  end.

(** The next event of the socket of [l] the client has not received. *)
Definition next_down (y : sys) (l : link) : option out_event :=
  link_socket y l ≫= fun s => sock_inbox s !! l_down l.

(** A [fetch] of app.js (221-225, 255-259, 338-342) handled by the route
    of server.js it names (165, 119, 214): the JSON body the client
    builds, the [Authorization] header [Bearer token], and the salt of
    [bcrypt.hash] taken from the clock. *)
Definition serve_request (r : request) (now : Z) (st : server) : server * response :=
  match r with
  | ReqLogin e p =>
      let '(us, resp) := Accounts.login (LoginBody (Some e) (Some p)) now (users st) in
      (set_users (fun _ => us) st, resp)
  | ReqRegister n e p =>
      let '(us, resp) := Accounts.register (RegisterBody (Some e) (Some p) (Some n)) now now (users st) in
      (set_users (fun _ => us) st, resp)
  | ReqMessages room t => (st, Accounts.messages_route (Some ("Bearer " +:+ t)) room now st)
  end.

(** The TCP peer of client [i]: a browser sends no [X-Forwarded-For]. *)
Definition client_peer (i : nat) : RateLimit.http_req := RateLimit.HttpReq (pretty i) None.

(** The Express app on a request of client [i] to an [/api/] route: the
    rate limiter (server.js 54), then the route unless the limiter
    answered. *)
Definition api_request (i : nat) (r : request) (now : Z) (m : RateLimit.rl_store) (st : server)
    : RateLimit.rl_store * server * response :=
  let '(m', gate) := RateLimit.rateLimit RateLimit.limiter_config (client_peer i) now m in
  match gate with
  | Some resp => (m', st, resp)
  | None => let '(st', resp) := serve_request r now st in (m', st', resp)
  end.

(** The next request of client [i] not yet answered. *)
Definition next_request (y : sys) (i : nat) : option (client * nat * request) :=
  match cls y !! i, served y !! i with
  | Some c, Some n => (fun r => (c, n, r)) <$> requests (c_env c) !! n
  | _, _ => None
  end.

(** One action. *)
Definition net_step (a : action) (y : sys) : sys :=
  match a with
  | Input i now inp =>
      match cls y !! i with
      | Some c => if local_input inp then set_client i (step fmt_time now inp c) y else y
      | None => y
      end
  | Handshake i k sid now =>
      match cls y !! i with
      | Some c =>
          match conn_at k c with
          | Some cn =>
              if conn_closed cn || bool_decide ((i, k) ∈ dialed y) || sid_used sid y then y
              else
                let s' := Session.handle verify (srv y) (Session.EvConnect sid (conn_token cn) now) in
                let d' := dialed y ++ [(i, k)] in
                if jm_has sid (sockets s')
                then Sys s' (<[i := step fmt_time now (SockConnect k) c]> (cls y))
                         (links y ++ [Link i k sid 0 0]) d' (served y) (limits y)
                else Sys s' (<[i := step fmt_time now (SockConnectError k) c]> (cls y)) (links y) d'
                         (served y) (limits y)
          | None => y
          end
      | None => y
      end
  | Uplink j now =>
      match links y !! j with
      | Some l =>
          match next_up y l with
          | Some e =>
              set_link j (Link (l_client l) (l_conn l) (l_sid l) (S (l_up l)) (l_down l))
                (set_srv (Session.handle verify (srv y) (server_event (l_sid l) now e)) y)
          | None => y
          end
      | None => y
      end
  | Downlink j now =>
      match links y !! j, (links y !! j) ≫= next_down y with
      | Some l, Some ev =>
          match cls y !! l_client l with
          | Some c =>
              set_link j (Link (l_client l) (l_conn l) (l_sid l) (l_up l) (S (l_down l)))
                (set_client (l_client l) (step fmt_time now (SockEvent (l_conn l) ev) c) y)
          | None => y
          end
      | _, _ => y
      end
  | Hangup j =>
      match links y !! j with
      | Some l =>
          match link_conn y l with
          | Some cn =>
              if conn_closed cn
              then Sys (Session.handle verify (srv y) (Session.EvDisconnect (l_sid l)))
                       (cls y) (delete j (links y)) (dialed y) (served y) (limits y)
              else y
          | None => y
          end
      | None => y
      end
  | Tick now => set_srv (Session.handle verify (srv y) (Session.EvSweep now)) y
  | Serve i now =>
      match next_request y i with
      | Some (c, n, r) =>
          let '(m', s', resp) := api_request i r now (limits y) (srv y) in
          set_limits m' (set_served i (S n) (set_client i (step fmt_time now (reply_input r (Some resp)) c)
                                               (set_srv s' y)))
      | None => y
      end
  | FetchFail i =>
      match next_request y i with
      | Some (c, n, r) => set_served i (S n) (set_client i (step fmt_time 0 (reply_input r None) c) y)
      | None => y
      end
  end.

Definition net_run (y : sys) (acts : list action) : sys := foldl (fun y a => net_step a y) y acts.

(** The system when the server starts at [t0] and browsers with the
    given [localStorage] load the page. *)
Definition init_sys (t0 : Z) (stores : list (jsmap string string)) : sys :=
  Sys (init_server t0) (map boot stores) [] [] (map (fun _ => 0) stores) [].

Inductive net_reachable (t0 : Z) (stores : list (jsmap string string)) : sys -> Prop :=
| nreach_init : net_reachable t0 stores (init_sys t0 stores)
| nreach_step y a : net_reachable t0 stores y -> net_reachable t0 stores (net_step a y).

(** One delivery of an item that is waiting, in either direction. *)
Inductive deliver (y : sys) : sys -> Prop :=
| deliver_up j l e now :
    links y !! j = Some l -> next_up y l = Some e -> deliver y (net_step (Uplink j now) y)
| deliver_down j l ev c now :
    links y !! j = Some l -> next_down y l = Some ev -> cls y !! l_client l = Some c ->
    deliver y (net_step (Downlink j now) y).
End Step.

(** An example: Alice and Bob reload the page with their saved tokens;
    both connections are accepted, their [join-room]s cross, and Alice
    types "hi" and lets both [typing-start]s cross. *)
Definition demo_stores : list (jsmap string string) :=
  [[("chat_token", jwt_sign (Crypto := demo_crypto) Session.alice 0)];
   [("chat_token", jwt_sign (Crypto := demo_crypto) Session.bob 0)]].
Definition demo_acts : list action :=
  [Handshake 0 0 "s1" 1; Handshake 1 0 "s2" 2; Uplink 0 3; Uplink 1 4;
   Input 0 5 (MessageInput "hi"); Uplink 0 6; Uplink 0 7].
Definition demo_y : sys :=
  net_run (C := demo_crypto) demo_time (init_sys 0 demo_stores) demo_acts.
(** A browser without a saved token: the user switches the form to
    registration, registers, and the reply puts the form back in login
    mode. *)
Definition demo_login_y : sys :=
  net_run (C := demo_crypto) demo_time (init_sys 0 [[]])
    [Input 0 0 ClickToggleAuth; Input 0 0 (ClickRegister "alice" "alice@example.com" "secret1");
     Serve 0 1].
(** A browser without a saved token whose 100 logins, all with a wrong
    password, were answered within one millisecond. *)
Definition demo_limited_y : sys :=
  net_run (C := demo_crypto) demo_time (init_sys 0 [[]])
    (concat (repeat [Input 0 1 (ClickLogin "alice@example.com" "wrong-pw"); Serve 0 1] 100)).
(** Bob sends ["hello"] to ["general"] before Alice's history request
    is answered. *)
Definition demo_hist_y : sys :=
  net_run (C := demo_crypto) demo_time (init_sys 0 demo_stores)
    [Handshake 0 0 "s1" 1; Handshake 1 0 "s2" 2; Uplink 0 3; Uplink 1 4;
     Input 1 5 (MessageInput "hello"); Input 1 6 EnterKey; Uplink 1 7; Uplink 1 8; Uplink 1 9;
     Uplink 1 10].
Definition demo_account : account :=
  default (Account "" "" "" "" "" 0 None) (jm_get "alice@example.com" (users (srv demo_login_y))).
Definition demo_link (y : sys) (j : nat) : link := default (Link 0 0 "" 0 0) (links y !! j).
Definition demo_client (y : sys) (i : nat) : client := default (boot []) (cls y !! i).
Definition demo_conn (c : client) (k : nat) : conn := default (Conn "" false false []) (conn_at k c).

(** The items waiting on each direction of a link. *)
Definition up_pending (y : sys) (l : link) : nat :=
  match link_conn y l with Some cn => length (conn_out cn) - l_up l | None => 0 end.
Definition down_pending (y : sys) (l : link) : nat :=
  match link_socket y l with Some s => length (sock_inbox s) - l_down l | None => 0 end.

(** The work in flight: an emit the server handles gives each link at
    most one event to carry back, so it weighs one more than the links. *)
Definition in_flight (y : sys) : nat :=
  sum_list_with (down_pending y) (links y) +
  S (length (links y)) * sum_list_with (up_pending y) (links y).

(** A connection only gains emits at the end, keeps its token, and a
    closed connection stays closed. *)
Definition conn_le (cn cn' : conn) : Prop :=
  conn_token cn' = conn_token cn /\ prefix (conn_out cn) (conn_out cn') /\
  (conn_closed cn = true -> conn_closed cn' = true).

(** Every connection of [c] is still in [c'], evolved by [conn_le]. *)
Definition conns_evolve (c c' : client) : Prop :=
  forall k cn, conn_at k c = Some cn -> exists cn', conn_at k c' = Some cn' /\ conn_le cn cn'.

(** The connections of a client. *)
Definition conn_view (c : client) : list conn := conns (c_env c).

(** A socket that keeps its user and gains at most one event. *)
Definition grows1 (s s' : Model.socket) : Prop :=
  sock_user s' = sock_user s /\ exists evs, sock_inbox s' = sock_inbox s ++ evs /\ length evs <= 1.

(** Every client of [cs] is in [cs'], its connections evolved. *)
Definition clients_evolve (cs cs' : list client) : Prop :=
  forall i c, cs !! i = Some c -> exists c', cs' !! i = Some c' /\ conns_evolve c c'.

(** A socket that keeps its user and only gains events at the end. *)
Definition sock_le (s s' : Model.socket) : Prop :=
  sock_user s' = sock_user s /\ prefix (sock_inbox s) (sock_inbox s').

Section Inv.
Variable verify : string -> Z -> option identity.

(** A link joins a connection of a client to a live socket whose user
    is what the middleware made of the connection's token, and neither
    direction has carried more than was sent. *)
Definition link_ok (y : sys) (l : link) : Prop :=
  exists cn s, link_conn y l = Some cn /\ link_socket y l = Some s /\
    l_up l <= length (conn_out cn) /\ l_down l <= length (sock_inbox s) /\
    exists t, Session.authenticate verify (conn_token cn) t = Some (sock_user s).

(** Every connection that made its handshake exists. *)
Definition dialed_ok (y : sys) : Prop :=
  Forall (fun p => exists c cn, cls y !! p.1 = Some c /\ conn_at p.2 c = Some cn) (dialed y).

(** The invariant of the system: the server's own, every link sound,
    the live sockets exactly the linked ones, each linked once, and each
    connection linked at most once, after its handshake, and every
    connection that made its handshake exists. *)
Definition net_ok (y : sys) : Prop :=
  Session.state_ok (srv y) /\ Forall (link_ok y) (links y) /\
  NoDup (map l_sid (links y)) /\
  (forall k, k ∈ jm_keys (sockets (srv y)) -> k ∈ map l_sid (links y)) /\
  Forall (fun l => (l_client l, l_conn l) ∈ dialed y) (links y) /\
  NoDup (map (fun l => (l_client l, l_conn l)) (links y)) /\ dialed_ok y.
End Inv.

#[export] Instance conn_le_preorder : PreOrder conn_le.
Proof.
  split.
  - intros cn. split_and!; done.
  - intros a b c (Ht1 & Hp1 & Hc1) (Ht2 & Hp2 & Hc2). split_and!; [congruence| |auto].
    by etrans.
Qed.

#[export] Instance conns_evolve_preorder : PreOrder conns_evolve.
Proof.
  split.
  - intros c k cn Hc. exists cn. split; [done|reflexivity].
  - intros a b c Hab Hbc k cn Hk.
    destruct (Hab k cn Hk) as (cn1 & H1 & Hl1). destruct (Hbc k cn1 H1) as (cn2 & H2 & Hl2).
    exists cn2. split; [done|by etrans].
Qed.

Section Evolve.
Variable fmt_time : Z -> string.

Lemma conns_evolve_view c c' : conn_view c' = conn_view c -> conns_evolve c c'.
Proof.
  unfold conn_view, conns_evolve, conn_at. intros Hv k cn Hk. rewrite Hv. exists cn.
  split; [done|reflexivity].
Qed.

(** The handlers that leave the connections alone. *)
Ltac conns_same :=
  intros; unfold conn_view, setTimeout, showAuthMessage, toggleAuthMode, add_request, showNotification,
    playNotificationSound; simpl; repeat (case_match; simpl); done.

Lemma addSystemMessage_conns s c : conn_view (addSystemMessage s c) = conn_view c.
Proof. unfold addSystemMessage. conns_same. Qed.
Lemma displayMessage_conns m c : conn_view (displayMessage fmt_time m c) = conn_view c.
Proof. unfold displayMessage. conns_same. Qed.
Lemma onSocketEvent_conns ev c : conn_view (onSocketEvent fmt_time ev c) = conn_view c.
Proof.
  destruct ev; simpl; unfold updateUsersList, showTypingIndicator, addSystemMessage, displayMessage;
    conns_same.
Qed.
Lemma foldl_display_conns ms c :
  conn_view (foldl (fun c' m => displayMessage fmt_time m c') c ms) = conn_view c.
Proof.
  revert c. induction ms as [|m ms IH]; intros c; [done|]. simpl. by rewrite IH, displayMessage_conns.
Qed.
Lemma showChatInterface_conns c : conn_view (showChatInterface c) = conn_view c.
Proof. unfold showChatInterface, loadMessages. conns_same. Qed.

Lemma evolve_view_r c c1 c2 : conns_evolve c c1 -> conn_view c2 = conn_view c1 -> conns_evolve c c2.
Proof. intros H1 H2. etrans; [exact H1|]. by apply conns_evolve_view. Qed.
Lemma evolve_view_l c c1 c2 : conn_view c1 = conn_view c -> conns_evolve c1 c2 -> conns_evolve c c2.
Proof. intros H1 H2. etrans; [|exact H2]. by apply conns_evolve_view. Qed.

(** Changing one connection by [f], or opening new ones. *)
Lemma alter_evolve k f c c' :
  (forall cn, conn_le cn (f cn)) -> conn_view c' = alter f k (conn_view c) -> conns_evolve c c'.
Proof.
  intros Hf Hv k' cn Hk. unfold conn_at, conn_view in *. rewrite Hv.
  destruct (decide (k' = k)) as [->|Hne].
  - rewrite list_lookup_alter_eq, Hk. by eexists.
  - rewrite list_lookup_alter_ne by done. exists cn. split; [done|reflexivity].
Qed.
Lemma app_evolve l c c' : conn_view c' = conn_view c ++ l -> conns_evolve c c'.
Proof.
  intros Hv k cn Hk. exists cn. split; [|reflexivity]. unfold conn_at, conn_view in *.
  rewrite Hv. by rewrite lookup_app_l by (by eapply lookup_lt_Some).
Qed.

Lemma set_conn_evolve k f c : (forall cn, conn_le cn (f cn)) -> conns_evolve c (set_conn k f c).
Proof. intros Hf. by apply (alter_evolve k f). Qed.

Lemma conn_emit_le e cn : conn_le cn (conn_emit e cn).
Proof. split_and!; [done|by eexists|done]. Qed.
Lemma conn_set_connected_le b cn : conn_le cn (conn_set_connected b cn).
Proof. split_and!; [done|done|done]. Qed.
Lemma conn_close_le cn : conn_le cn (conn_close cn).
Proof. split_and!; [done|done|done]. Qed.

Lemma emit_evolve e c : conns_evolve c (emit_on_socket e c).
Proof.
  unfold emit_on_socket. destruct (socket _); [|reflexivity]. apply set_conn_evolve, conn_emit_le.
Qed.

Lemma connectSocket_evolve c : conns_evolve c (connectSocket c).
Proof.
  unfold connectSocket. destruct (token _); [|reflexivity]. case_match; [reflexivity|].
  by eapply app_evolve.
Qed.

Lemma handleTyping_evolve now c : conns_evolve c (handleTyping now c).
Proof.
  unfold handleTyping. destruct (socket _); [|reflexivity].
  etrans; [apply (emit_evolve (EmTypingStart (currentRoom (c_chat c))))|].
  apply conns_evolve_view. unfold clearTimeout. conns_same.
Qed.

Lemma stopTyping_evolve c : conns_evolve c (stopTyping c).
Proof.
  unfold stopTyping. destruct (socket _); [|reflexivity].
  etrans; [apply (emit_evolve (EmTypingStop (currentRoom (c_chat c))))|].
  apply conns_evolve_view. unfold clearTimeout. conns_same.
Qed.

Lemma sendMessage_evolve c : conns_evolve c (sendMessage c).
Proof.
  unfold sendMessage. case_match; [reflexivity|]. destruct (socket _); [|reflexivity].
  etrans; [apply emit_evolve|]. etrans; [|apply stopTyping_evolve].
  apply conns_evolve_view. done.
Qed.

Lemma step_evolve now i c : conns_evolve c (step fmt_time now i c).
Proof.
  destruct i; simpl.
  - case_match; [|reflexivity]. unfold onMessageInput.
    etrans; [|apply handleTyping_evolve]. etrans; [|apply handleTyping_evolve].
    apply conns_evolve_view. done.
  - case_match; [apply sendMessage_evolve|reflexivity].
  - case_match; [apply sendMessage_evolve|reflexivity].
  - case_match; [|reflexivity]. unfold logout. simpl.
    destruct (socket (c_chat c)) as [k|]; [|by apply conns_evolve_view].
    apply (alter_evolve k conn_close); [apply conn_close_le|done].
  - apply conns_evolve_view. unfold toggleAuthMode. conns_same.
  - apply conns_evolve_view. unfold login, showAuthMessage, add_request. conns_same.
  - apply conns_evolve_view. unfold register, showAuthMessage, add_request. conns_same.
  - unfold onLoginReply. destruct r as [[st b]|]; [|apply conns_evolve_view; conns_same].
    destruct b; try (apply conns_evolve_view; conns_same).
    eapply evolve_view_r; [|unfold showAuthMessage; conns_same].
    eapply evolve_view_l; [|apply connectSocket_evolve]. by rewrite showChatInterface_conns.
  - apply conns_evolve_view. unfold onRegisterReply, toggleAuthMode, showAuthMessage. conns_same.
  - apply conns_evolve_view. unfold onMessagesReply. repeat case_match; try done.
    by rewrite foldl_display_conns.
  - case_match; [|reflexivity]. etrans; [apply set_conn_evolve, conn_set_connected_le|].
    etrans; [apply conns_evolve_view, addSystemMessage_conns|apply emit_evolve].
  - case_match; [|reflexivity]. etrans; [apply set_conn_evolve, conn_set_connected_le|].
    apply conns_evolve_view, addSystemMessage_conns.
  - case_match; [|reflexivity]. apply conns_evolve_view. unfold setTimeout. simpl.
    apply addSystemMessage_conns.
  - case_match; [apply conns_evolve_view, onSocketEvent_conns|reflexivity].
  - case_match; [|reflexivity].
    eapply evolve_view_l; [|destruct (t_cb _); simpl;
                            [apply stopTyping_evolve|case_match; [reflexivity|apply connectSocket_evolve]]].
    done.
  - case_match; [|reflexivity]. by apply conns_evolve_view.
  - by apply conns_evolve_view.
Qed.
End Evolve.

(** What the server's handlers do to the live sockets, seen from the
    network. *)
#[local] Existing Instance Session.sockets_grow_preorder.

Section ServerSide.
Variable verify : string -> Z -> option identity.

Lemma sockets_get_keys (socks : jsmap string Model.socket) k s :
  jm_get k socks = Some s -> k ∈ jm_keys socks.
Proof. intros Hk. destruct (decide (k ∈ jm_keys socks)) as [|Hn]; [done|].
  apply jm_get_None_keys in Hn. congruence. Qed.

Lemma keys_get (socks : jsmap string Model.socket) k :
  k ∈ jm_keys socks -> exists s, jm_get k socks = Some s.
Proof. intros Hk. destruct (jm_get k socks) eqn:E; [by eexists|]. by apply jm_get_None_keys in E. Qed.

(** A connection of a fresh socket id that the middleware accepts adds
    that socket, whose user is what [authenticate] made of the token,
    and no other. *)
Lemma connect_sockets st sid tok now :
  jm_has sid (sockets st) = false ->
  let st' := Session.handle verify st (Session.EvConnect sid tok now) in
  (jm_has sid (sockets st') = false -> st' = st) /\
  (forall s, jm_get sid (sockets st') = Some s ->
     Session.authenticate verify tok now = Some (sock_user s)) /\
  (forall k, k ∈ jm_keys (sockets st') -> k = sid \/ k ∈ jm_keys (sockets st)).
Proof.
  intros Hf st'. unfold st'; simpl. rewrite Hf.
  destruct (Session.authenticate verify tok now) as [u|] eqn:Ha.
  2: { split_and!; [done| |auto]. intros s Hs. unfold jm_has in Hf. by rewrite Hs in Hf. }
  set (s0 := {| sock_user := u; sock_rooms := [sid]; sock_inbox := [] |}).
  assert (Session.sockets_grow (jm_set sid s0 (sockets st)) (sockets (Session.on_connection sid u st)))
    as Hg.
  { simpl. unfold Broadcast.emit_self, Broadcast.broadcast_from.
    etrans; [apply Session.join_grow|]. etrans; apply Session.emit_where_grow. }
  destruct (Hg sid s0 (jm_get_set_eq _ _ _)) as (s1 & Hs1 & Hu1).
  split_and!.
  - unfold jm_has. by rewrite Hs1.
  - intros s Hs. rewrite Hs1 in Hs. simplify_eq. by rewrite Hu1.
  - intros k. simpl. unfold Broadcast.emit_self, Broadcast.broadcast_from, Broadcast.join.
    rewrite !Broadcast.emit_where_keys, jm_keys_alter, jm_keys_set, Hf, elem_of_app,
      list_elem_of_singleton.
    intros [|]; auto.
Qed.

Lemma grows1_refl s : grows1 s s.
Proof. split; [done|]. exists []. split; [by rewrite app_nil_r|simpl; lia]. Qed.

Lemma emit_where_grows1 P ev socks k s :
  jm_get k socks = Some s ->
  exists s', jm_get k (Broadcast.emit_where P ev socks) = Some s' /\ grows1 s s'.
Proof.
  intros Hk. destruct (Broadcast.emit_where_socket P ev socks k s Hk) as (s' & ? & ? & _ & Hi).
  exists s'. do 2 (split; [done|]). eexists; split; [done|]. case_match; simpl; lia.
Qed.

(** The handlers of the emits keep the live sockets and their users,
    and give each socket at most one event. *)
Lemma emit_event_sockets st sid now e k s :
  jm_get k (sockets st) = Some s ->
  exists s', jm_get k (sockets (Session.handle verify st (server_event sid now e))) = Some s' /\
    grows1 s s'.
Proof.
  intros Hk. destruct e; simpl; unfold Session.with_socket;
    (destruct (jm_get sid (sockets st)) as [s0|]; [|exists s; split; [done|apply grows1_refl]]);
    simpl; try by apply emit_where_grows1.
  rewrite Broadcast.join_get, Hk. case_decide; simpl; eexists; (split; [done|]);
    [split; [done|exists []; split; [by rewrite app_nil_r|simpl; lia]]|apply grows1_refl].
Qed.

Lemma emit_event_keys st sid now e :
  jm_keys (sockets (Session.handle verify st (server_event sid now e))) = jm_keys (sockets st).
Proof.
  destruct e; simpl; unfold Session.with_socket; destruct (jm_get sid (sockets st)); simpl;
    unfold Broadcast.to_room, Broadcast.to_room_from, Broadcast.join;
    rewrite ?Broadcast.emit_where_keys, ?jm_keys_alter; done.
Qed.

(** A disconnect removes its socket; the others live on as the emits
    leave them. *)
Lemma disconnect_sockets st sid k s :
  k <> sid -> jm_get k (sockets st) = Some s ->
  exists s', jm_get k (sockets (Session.handle verify st (Session.EvDisconnect sid))) = Some s' /\
    grows1 s s'.
Proof.
  intros Hne Hk. simpl. unfold Session.with_socket. destruct (jm_get sid (sockets st)); simpl;
    [|exists s; split; [done|apply grows1_refl]].
  apply emit_where_grows1. by rewrite jm_get_delete_ne by congruence.
Qed.

Lemma disconnect_keys st sid k :
  k ∈ jm_keys (sockets (Session.handle verify st (Session.EvDisconnect sid))) ->
  k ∈ jm_keys (sockets st) /\ (is_Some (jm_get sid (sockets st)) -> k <> sid).
Proof.
  simpl. unfold Session.with_socket. destruct (jm_get sid (sockets st)) eqn:E; simpl;
    [|intros; split; [done|by intros []]].
  unfold Broadcast.broadcast_from. rewrite Broadcast.emit_where_keys, jm_delete_keys. intros Hk.
  apply list_elem_of_In, filter_In in Hk as [Hk Hb]. apply list_elem_of_In in Hk.
  split; [done|]. intros _. by case_bool_decide.
Qed.

Lemma sweep_sockets st now :
  sockets (Session.handle verify st (Session.EvSweep now)) = sockets st.
Proof. done. Qed.
End ServerSide.

Lemma clients_evolve_refl cs : clients_evolve cs cs.
Proof. intros i c Hc. exists c. split; [done|reflexivity]. Qed.

Lemma clients_evolve_insert cs i c c' :
  cs !! i = Some c -> conns_evolve c c' -> clients_evolve cs (<[i := c']> cs).
Proof.
  intros Hc Hev i' c0 Hc0. destruct (decide (i' = i)) as [->|Hne].
  - rewrite list_lookup_insert_eq by (by eapply lookup_lt_Some). rewrite Hc in Hc0.
    simplify_eq. by eexists.
  - rewrite list_lookup_insert_ne by done. exists c0. split; [done|reflexivity].
Qed.

Lemma grows1_le s s' : grows1 s s' -> sock_le s s'.
Proof. intros (? & evs & Hi & _). split; [done|]. rewrite Hi. by eexists. Qed.

(** [link_ok] holds on as the clients' connections evolve and the
    link's socket lives on. *)
Lemma link_ok_mono verify y y' l :
  link_ok verify y l -> clients_evolve (cls y) (cls y') ->
  (forall s, link_socket y l = Some s -> exists s', link_socket y' l = Some s' /\ sock_le s s') ->
  link_ok verify y' l.
Proof.
  intros (cn & s & Hc & Hs & Hup & Hdown & t & Ht) Hcl Hso.
  unfold link_conn in *. destruct (cls y !! l_client l) as [c|] eqn:Ec; simplify_eq/=.
  destruct (Hcl _ _ Ec) as (c' & Ec' & Hev). destruct (Hev _ _ Hc) as (cn' & Hc' & Htok & Hpre & _).
  destruct (Hso s Hs) as (s' & Hs' & Hu & Hpre').
  exists cn', s'. unfold link_conn. rewrite Ec'. simpl. split_and!; [done|done| | |].
  - apply prefix_length in Hpre. lia.
  - apply prefix_length in Hpre'. lia.
  - exists t. by rewrite Htok, Hu.
Qed.

Lemma sock_le_refl s : sock_le s s.
Proof. split; [done|reflexivity]. Qed.

Lemma evolve_sock_le socks socks' k s :
  Session.sockets_evolve socks socks' -> jm_get k socks = Some s ->
  exists s', jm_get k socks' = Some s' /\ sock_le s s'.
Proof.
  intros [Hg He] Hk. destruct (Hg k s Hk) as (s' & Hk' & Hu). exists s'. split; [done|].
  destruct (He k s s' Hk Hk') as [_ Hp]. by split.
Qed.

Section Preserve.
Context {C : Crypto}.
Variable fmt_time : Z -> string.
Local Abbreviation verify := jwt_verify.

Lemma dialed_ok_evolve y y' :
  dialed_ok y -> clients_evolve (cls y) (cls y') -> dialed y' = dialed y ++ [] -> dialed_ok y'.
Proof.
  intros Hd Hcl Heq. unfold dialed_ok. rewrite Heq, app_nil_r. eapply Forall_impl; [exact Hd|].
  intros [i k] (c & cn & Hc & Hcn). destruct (Hcl _ _ Hc) as (c' & Hc' & Hev).
  destruct (Hev _ _ Hcn) as (cn' & ? & _). by exists c', cn'.
Qed.

Lemma dialed_ok_snoc y y' i k c cn :
  dialed_ok y -> clients_evolve (cls y) (cls y') -> dialed y' = dialed y ++ [(i, k)] ->
  cls y' !! i = Some c -> conn_at k c = Some cn -> dialed_ok y'.
Proof.
  intros Hd Hcl Heq Hc Hcn. unfold dialed_ok. rewrite Heq. apply Forall_app. split.
  - apply (dialed_ok_evolve y (Sys (srv y') (cls y') (links y') (dialed y) (served y') (limits y'))); [done|done|].
    by rewrite app_nil_r.
  - apply Forall_singleton. by exists c, cn.
Qed.

(** An action that keeps the links and lets clients and sockets evolve
    keeps the invariant. *)
Lemma net_ok_frame y y' :
  net_ok verify y -> Session.state_ok (srv y') -> clients_evolve (cls y) (cls y') ->
  links y' = links y ->
  (forall k s, jm_get k (sockets (srv y)) = Some s ->
     exists s', jm_get k (sockets (srv y')) = Some s' /\ sock_le s s') ->
  (forall k, k ∈ jm_keys (sockets (srv y')) -> k ∈ jm_keys (sockets (srv y))) ->
  dialed y ⊆ dialed y' -> dialed_ok y' ->
  net_ok verify y'.
Proof.
  intros (_ & Hl & Hnd & Hlive & Hd & Hndp & _) Hok Hcl Hlk Hso Hkeys Hdial Hdo.
  unfold net_ok. rewrite Hlk. split_and!; try done.
  - eapply Forall_impl; [exact Hl|]. intros l Hlo. apply (link_ok_mono _ y); [done|done|].
    apply Hso.
  - intros k Hk. by apply Hlive, Hkeys.
  - eapply Forall_impl; [exact Hd|]. set_solver.
Qed.

Lemma input_ok y i now inp :
  net_ok verify y -> net_ok verify (net_step fmt_time (Input i now inp) y).
Proof.
  intros Hok. simpl. destruct (cls y !! i) as [c|] eqn:Ec; [|done]. case_match; [|done].
  assert (clients_evolve (cls y) (<[i := step fmt_time now inp c]> (cls y))) as Hcl
    by (eapply clients_evolve_insert; [done|apply step_evolve]).
  apply (net_ok_frame y); try done; [apply Hok| |].
  - intros k s Hk. exists s. split; [done|apply sock_le_refl].
  - apply (dialed_ok_evolve y); [apply Hok|done|by rewrite app_nil_r].
Qed.

Lemma tick_ok y now : net_ok verify y -> net_ok verify (net_step fmt_time (Tick now) y).
Proof.
  intros Hok. apply (net_ok_frame y); try done.
  - apply Session.handle_ok, Hok.
  - apply clients_evolve_refl.
  - intros k s Hk. exists s. split; [done|apply sock_le_refl].
  - apply (dialed_ok_evolve y); [apply Hok|apply clients_evolve_refl|by rewrite app_nil_r].
Qed.

Lemma connect_not_disconnect sid tok now : forall sid', Session.EvConnect sid tok now <> Session.EvDisconnect sid'.
Proof. done. Qed.

Lemma handshake_ok y i k sid now :
  net_ok verify y -> net_ok verify (net_step fmt_time (Handshake i k sid now) y).
Proof.
  intros Hok. unfold net_step. destruct (cls y !! i) as [c|] eqn:Ec; [|done].
  destruct (conn_at k c) as [cn|] eqn:Ecn; [|done].
  destruct (conn_closed cn || _ || sid_used sid y) eqn:Eg; [done|]. cbv beta iota zeta.
  apply orb_false_iff in Eg as [Eg Hused]. apply orb_false_iff in Eg as [_ Hdial].
  apply orb_false_iff in Hused as [Hfresh Hnl]. apply bool_decide_eq_false in Hdial.
  destruct (connect_sockets verify (srv y) sid (conn_token cn) now Hfresh) as (Href & Huser & Hkeys).
  pose proof (Session.handle_evolve verify (srv y) _ (connect_not_disconnect sid (conn_token cn) now))
    as Hev.
  destruct Hok as (Hst & Hl & Hnd & Hlive & Hd & Hndp & Hdo).
  destruct (jm_has sid (sockets (Session.handle verify (srv y)
                                   (Session.EvConnect sid (conn_token cn) now)))) eqn:Ha.
  2: { rewrite (Href eq_refl).
       set (c' := step fmt_time now (SockConnectError k) c).
       assert (clients_evolve (cls y) (<[i := c']> (cls y))) as Hcl
         by (eapply clients_evolve_insert; [done|apply step_evolve]).
       destruct (Hcl _ _ Ec) as (c1 & Ec1 & Hev1). destruct (Hev1 _ _ Ecn) as (cn1 & Ecn1 & _).
       apply (net_ok_frame y); try done.
       - intros k' s Hk'. exists s. split; [done|apply sock_le_refl].
       - simpl. set_solver.
       - by eapply (dialed_ok_snoc y _ i k c1 cn1). }
  set (c' := step fmt_time now (SockConnect k) c).
  assert (clients_evolve (cls y) (<[i := c']> (cls y))) as Hcl
    by (eapply clients_evolve_insert; [done|apply step_evolve]).
  apply jm_has_get in Ha as [s Hs].
  destruct (step_evolve fmt_time now (SockConnect k) c k cn Ecn) as (cn' & Ecn' & Htok & _).
  assert (sid ∉ map l_sid (links y)) as Hsid.
  { intros (l & -> & Hin)%list_elem_of_fmap. apply Bool.not_true_iff_false in Hnl. apply Hnl.
    apply existsb_exists. exists l. split; [by apply list_elem_of_In|apply String.eqb_refl]. }
  split_and!; cbn [srv cls links dialed].
  - by apply Session.handle_ok.
  - apply Forall_app. split.
    + eapply Forall_impl; [exact Hl|]. intros l Hlo.
      apply (link_ok_mono _ y); [done|by eapply clients_evolve_insert; [|apply step_evolve]|].
      intros s0 Hs0. by apply (evolve_sock_le _ _ _ _ Hev).
    + apply Forall_singleton. exists cn', s. unfold link_conn, link_socket; simpl.
      rewrite list_lookup_insert_eq by (by eapply lookup_lt_Some). simpl.
      split_and!; [done|done|lia|lia|]. exists now. rewrite Htok. by apply Huser.
  - rewrite map_app. apply NoDup_app. split_and!; [done| |apply NoDup_singleton].
    intros x Hx Hin. simpl in Hin. by apply list_elem_of_singleton in Hin as ->.
  - intros k' Hk'. rewrite map_app, elem_of_app. simpl. rewrite list_elem_of_singleton.
    destruct (Hkeys k' Hk'); [by right|left; by apply Hlive].
  - apply Forall_app. split; [eapply Forall_impl; [exact Hd|]; set_solver|].
    apply Forall_singleton. simpl. set_solver.
  - rewrite map_app. apply NoDup_app. split_and!; [done| |apply NoDup_singleton].
    intros x Hx Hin'. simpl in Hin'. apply list_elem_of_singleton in Hin' as ->.
    apply list_elem_of_fmap in Hx as (l & Heq & Hin).
    rewrite Forall_forall in Hd. apply Hdial. rewrite Heq. by apply Hd.
  - destruct (Hcl _ _ Ec) as (c1 & Ec1 & Hev1). destruct (Hev1 _ _ Ecn) as (cn1 & Ecn1 & _).
    by eapply (dialed_ok_snoc y _ i k c1 cn1).
Qed.

Lemma uplink_ok y j now :
  net_ok verify y -> net_ok verify (net_step fmt_time (Uplink j now) y).
Proof.
  intros Hok. unfold net_step. destruct (links y !! j) as [l|] eqn:El; [|done].
  destruct (next_up y l) as [e|] eqn:Ee; [|done].
  destruct Hok as (Hst & Hl & Hnd & Hlive & Hd & Hndp & Hdo).
  set (st' := Session.handle verify (srv y) (server_event (l_sid l) now e)).
  assert (forall k s, jm_get k (sockets (srv y)) = Some s ->
            exists s', jm_get k (sockets st') = Some s' /\ sock_le s s') as Hso.
  { intros k s Hk. destruct (emit_event_sockets verify (srv y) (l_sid l) now e k s Hk)
      as (s' & ? & ?). exists s'. split; [done|by apply grows1_le]. }
  pose proof (Forall_lookup_1 _ _ _ _ Hl El) as (cn & s & Hc & Hs & Hup & Hdown & t & Ht).
  unfold set_link, set_srv. split_and!; cbn [srv cls links dialed].
  - apply Session.handle_ok, Hst.
  - apply Forall_insert.
    + eapply Forall_impl; [exact Hl|]. intros l0 Hl0.
      apply (link_ok_mono _ y); [done|apply clients_evolve_refl|]. intros s0 Hs0. by apply Hso.
    + unfold next_up in Ee. rewrite Hc in Ee. destruct (conn_connected cn); [|done].
      destruct (Hso _ _ Hs) as (s' & Hs' & Hu & Hp). exists cn, s'.
      split_and!; [exact Hc|exact Hs'| | |].
      * simpl. apply lookup_lt_Some in Ee. lia.
      * simpl. apply prefix_length in Hp. lia.
      * exists t. by rewrite Hu.
  - by rewrite (map_insert_same _ _ j l).
  - intros k Hk. rewrite (map_insert_same _ _ j l) by done. apply Hlive.
    unfold st' in Hk. by rewrite emit_event_keys in Hk.
  - apply Forall_insert; [done|]. apply (Forall_lookup_1 _ _ _ _ Hd El).
  - by rewrite (map_insert_same _ _ j l).
  - apply (dialed_ok_evolve y); [done|apply clients_evolve_refl|by rewrite app_nil_r].
Qed.

Lemma downlink_ok y j now :
  net_ok verify y -> net_ok verify (net_step fmt_time (Downlink j now) y).
Proof.
  intros Hok. unfold net_step. destruct (links y !! j) as [l|] eqn:El; [|done].
  change (Some l ≫= next_down y) with (next_down y l).
  destruct (next_down y l) as [ev|] eqn:Ee; [|done].
  destruct (cls y !! l_client l) as [c|] eqn:Ec; [|done].
  destruct Hok as (Hst & Hl & Hnd & Hlive & Hd & Hndp & Hdo).
  set (c' := step fmt_time now (SockEvent (l_conn l) ev) c).
  assert (clients_evolve (cls y) (<[l_client l := c']> (cls y))) as Hcl
    by (eapply clients_evolve_insert; [done|apply step_evolve]).
  pose proof (Forall_lookup_1 _ _ _ _ Hl El) as (cn & s & Hc & Hs & Hup & Hdown & t & Ht).
  unfold set_link, set_client. split_and!; cbn [srv cls links dialed]; try done.
  - apply Forall_insert.
    + eapply Forall_impl; [exact Hl|]. intros l0 Hl0.
      apply (link_ok_mono _ y); [done|done|]. intros s0 Hs0. exists s0.
      split; [done|apply sock_le_refl].
    + unfold link_conn in Hc. rewrite Ec in Hc. simpl in Hc.
      destruct (step_evolve fmt_time now (SockEvent (l_conn l) ev) c _ _ Hc)
        as (cn' & Hc' & Htok & Hp & _).
      unfold next_down in Ee. rewrite Hs in Ee. simpl in Ee.
      exists cn', s. unfold link_conn. cbn [l_client l_conn cls].
      rewrite list_lookup_insert_eq by (by eapply lookup_lt_Some). simpl.
      split_and!; [exact Hc'|exact Hs| | |exists t].
      * apply prefix_length in Hp. simpl. lia.
      * simpl. apply lookup_lt_Some in Ee. lia.
      * by rewrite Htok.
  - by rewrite (map_insert_same _ _ j l).
  - intros k Hk. rewrite (map_insert_same _ _ j l) by done. by apply Hlive.
  - apply Forall_insert; [done|]. apply (Forall_lookup_1 _ _ _ _ Hd El).
  - by rewrite (map_insert_same _ _ j l).
  - apply (dialed_ok_evolve y); [done|done|by rewrite app_nil_r].
Qed.

Lemma hangup_ok y j :
  net_ok verify y -> net_ok verify (net_step fmt_time (Hangup j) y).
Proof.
  intros Hok. unfold net_step. destruct (links y !! j) as [l|] eqn:El; [|done].
  destruct (link_conn y l) as [cn|] eqn:Ec; [|done]. destruct (conn_closed cn); [|done].
  destruct Hok as (Hst & Hl & Hnd & Hlive & Hd & Hndp & Hdo).
  destruct (NoDup_map_delete l_sid _ j l Hnd El) as [Hnd' Hne].
  pose proof (Forall_lookup_1 _ _ _ _ Hl El) as (cn0 & s0 & _ & Hs0 & _).
  split_and!; cbn [srv cls links dialed]; try done.
  - apply Session.handle_ok, Hst.
  - apply Forall_delete with (i := j) in Hl.
    eapply Forall_impl; [apply Forall_and; split; [exact Hl|exact Hne]|]. intros l2 [Hl2 Hn2].
    apply (link_ok_mono _ y); [done|apply clients_evolve_refl|]. intros s Hs.
    destruct (disconnect_sockets verify (srv y) (l_sid l) (l_sid l2) s Hn2 Hs) as (s' & ? & ?).
    exists s'. split; [done|by apply grows1_le].
  - intros k Hk. apply disconnect_keys in Hk as [Hk Hk']. specialize (Hk' (ex_intro _ _ Hs0)).
    apply Hlive, list_elem_of_fmap in Hk as (l2 & -> & Hin). apply list_elem_of_fmap.
    exists l2. split; [done|]. eapply elem_of_delete_ne; [exact El|done|congruence].
  - by apply Forall_delete.
  - eapply sublist_NoDup; [exact Hndp|apply sublist_map, sublist_delete].
Qed.

Lemma serve_request_frame r now st :
  let st' := (serve_request r now st).1 in
  sockets st' = sockets st /\ connectedUsers st' = connectedUsers st /\ messages st' = messages st.
Proof. destruct r; simpl; repeat case_match; simplify_eq/=; done. Qed.

Lemma api_request_frame i r now m st :
  let st' := (api_request i r now m st).1.2 in
  sockets st' = sockets st /\ connectedUsers st' = connectedUsers st /\ messages st' = messages st.
Proof.
  unfold api_request. destruct (RateLimit.rateLimit _ _ _ _) as [m' [g|]]; [done|].
  pose proof (serve_request_frame r now st) as Hf. by destruct (serve_request r now st).
Qed.

(** A request the limiter lets through reaches its route. *)
Lemma api_request_allowed i r now m st :
  RateLimit.allows RateLimit.limiter_config (RateLimit.req_ip (client_peer i)) now m = true ->
  api_request i r now m st =
    ((RateLimit.increment RateLimit.limiter_config (RateLimit.req_ip (client_peer i)) now m).2,
     (serve_request r now st).1, (serve_request r now st).2).
Proof.
  intros Ha. unfold api_request. rewrite RateLimit.rateLimit_allows by done.
  by destruct (serve_request r now st).
Qed.

(** A request the limiter refuses gets its 429 and leaves the server as
    it was. *)
Lemma api_request_refused i r now m st :
  RateLimit.allows RateLimit.limiter_config (RateLimit.req_ip (client_peer i)) now m = false ->
  api_request i r now m st =
    ((RateLimit.increment RateLimit.limiter_config (RateLimit.req_ip (client_peer i)) now m).2, st,
     Response 429 (ErrorBody (RateLimit.rl_message RateLimit.limiter_config))).
Proof. intros Ha. unfold api_request. by rewrite RateLimit.rateLimit_refuses by done. Qed.

Lemma next_request_eq y i c n r :
  cls y !! i = Some c -> served y !! i = Some n -> requests (c_env c) !! n = Some r ->
  next_request y i = Some (c, n, r).
Proof. intros Hc Hn Hr. unfold next_request. by rewrite Hc, Hn, Hr. Qed.

Lemma next_request_some y i c n r :
  next_request y i = Some (c, n, r) -> cls y !! i = Some c.
Proof.
  unfold next_request. destruct (cls y !! i), (served y !! i); simpl; try done.
  destruct (requests _ !! _); simpl; congruence.
Qed.

Lemma serve_ok y i now : net_ok verify y -> net_ok verify (net_step fmt_time (Serve i now) y).
Proof.
  intros Hok. cbv [net_step]. destruct (next_request y i) as [[[c n] r]|] eqn:En; [|done].
  apply next_request_some in En.
  destruct (api_request i r now (limits y) (srv y)) as [[m' st'] resp] eqn:Es.
  pose proof (api_request_frame i r now (limits y) (srv y)) as Hf. rewrite Es in Hf. simpl in Hf.
  destruct Hf as (Hso & Hcu & Hm).
  assert (clients_evolve (cls y) (<[i := step fmt_time now (reply_input r (Some resp)) c]> (cls y)))
    as Hcl by (eapply clients_evolve_insert; [done|apply step_evolve]).
  apply (net_ok_frame y); cbn [srv cls links dialed set_served set_client set_srv set_limits];
    rewrite ?Hso;
    try done.
  - destruct Hok as ((? & ? & ? & ? & ?) & _). unfold Session.state_ok. by rewrite Hso, Hcu, Hm.
  - intros k s Hk. exists s. split; [done|apply sock_le_refl].
  - apply (dialed_ok_evolve y); [apply Hok|done|by rewrite app_nil_r].
Qed.

Lemma fetchfail_ok y i : net_ok verify y -> net_ok verify (net_step fmt_time (FetchFail i) y).
Proof.
  intros Hok. cbv [net_step]. destruct (next_request y i) as [[[c n] r]|] eqn:En; [|done].
  apply next_request_some in En.
  assert (clients_evolve (cls y) (<[i := step fmt_time 0 (reply_input r None) c]> (cls y)))
    as Hcl by (eapply clients_evolve_insert; [done|apply step_evolve]).
  apply (net_ok_frame y); try done; [apply Hok| |].
  - intros k s Hk. exists s. split; [done|apply sock_le_refl].
  - apply (dialed_ok_evolve y); [apply Hok|done|by rewrite app_nil_r].
Qed.

(** Every action keeps the invariant. *)
Lemma net_step_ok y a : net_ok verify y -> net_ok verify (net_step fmt_time a y).
Proof.
  destruct a; [apply input_ok|apply handshake_ok|apply uplink_ok|apply downlink_ok
              |apply hangup_ok|apply tick_ok|apply serve_ok|apply fetchfail_ok].
Qed.

Lemma net_run_ok y acts : net_ok verify y -> net_ok verify (net_run fmt_time y acts).
Proof. revert y. induction acts as [|a acts IH]; intros y Hy; [done|]. apply IH, net_step_ok, Hy. Qed.

Lemma net_reachable_run t0 stores y acts :
  net_reachable fmt_time t0 stores y ->
  net_reachable fmt_time t0 stores (net_run fmt_time y acts).
Proof. revert y. induction acts as [|a acts IH]; intros y Hy; [done|]. by apply IH, nreach_step. Qed.

Lemma init_sys_ok t0 stores : net_ok verify (init_sys t0 stores).
Proof.
  split_and!; [apply Session.init_ok|constructor|constructor| |constructor|constructor|constructor].
  intros k Hk. by apply elem_of_nil in Hk.
Qed.

(** The two halves of a round trip: a local input changes only its
    client; an uplink runs the server handler of the next emit. *)
Lemma input_step y i now inp c :
  cls y !! i = Some c -> local_input inp = true ->
  net_step fmt_time (Input i now inp) y = set_client i (step fmt_time now inp c) y.
Proof. intros Hc Hl. simpl. by rewrite Hc, Hl. Qed.

Lemma uplink_step y j l e now :
  links y !! j = Some l -> next_up y l = Some e ->
  net_step fmt_time (Uplink j now) y =
    set_link j (Link (l_client l) (l_conn l) (l_sid l) (S (l_up l)) (l_down l))
      (set_srv (Session.handle verify (srv y) (server_event (l_sid l) now e)) y).
Proof. intros Hj He. simpl. by rewrite Hj, He. Qed.

Lemma serve_step y i now c n r m' st' resp :
  next_request y i = Some (c, n, r) -> api_request i r now (limits y) (srv y) = (m', st', resp) ->
  net_step fmt_time (Serve i now) y =
    set_limits m' (set_served i (S n)
      (set_client i (step fmt_time now (reply_input r (Some resp)) c) (set_srv st' y))).
Proof. intros Hn Hs. cbv [net_step]. by rewrite Hn, Hs. Qed.

(** The handshake of an open, fresh connection that the middleware
    accepts. *)
Lemma handshake_accept_step y i k sid now c cn :
  cls y !! i = Some c -> conn_at k c = Some cn -> conn_closed cn = false ->
  (i, k) ∉ dialed y -> sid_used sid y = false ->
  jm_has sid (sockets (Session.handle verify (srv y) (Session.EvConnect sid (conn_token cn) now))) = true ->
  net_step fmt_time (Handshake i k sid now) y =
    Sys (Session.handle verify (srv y) (Session.EvConnect sid (conn_token cn) now))
        (<[i := step fmt_time now (SockConnect k) c]> (cls y))
        (links y ++ [Link i k sid 0 0]) (dialed y ++ [(i, k)]) (served y) (limits y).
Proof.
  intros Hc Hcn Hcl Hd Hu Ha. cbv [net_step]. rewrite Hc, Hcn, Hcl, Hu, bool_decide_eq_false_2 by done.
  cbv beta iota zeta. by rewrite Ha.
Qed.

(** The client's [send-message], carried to the server and handled
    there, for a sender whose socket is live. *)
Lemma send_on_server st sid s d now :
  jm_get sid (sockets st) = Some s ->
  let m := Session.make_message (sock_user s) d now in
  let st' := Session.handle verify st (server_event sid now (EmSendMessage d)) in
  jm_get (d_roomId d) (messages st') = Some (default [] (jm_get (d_roomId d) (messages st)) ++ [m]) /\
  (forall k sk, jm_get k (sockets st) = Some sk -> Broadcast.in_room (d_roomId d) sk = true ->
     exists sk', jm_get k (sockets st') = Some sk' /\ sock_inbox sk' = sock_inbox sk ++ [NewMessage m]).
Proof.
  intros Hs m st'. split.
  - unfold st'. simpl. rewrite (Session.with_socket_live _ _ s) by done. simpl.
    by rewrite Session.append_message_get, decide_True.
  - intros k sk Hk Hin.
    destruct (Session.send_socket_step verify st sid s d now k sk Hs Hk) as (sk' & ? & _ & _ & Hi).
    exists sk'. split; [done|]. by rewrite Hi, Hin.
Qed.

(** The client's [typing-start], handled by the server for a sender
    whose socket is live: every other socket in the room gets one
    [user-typing]. *)
Lemma typing_on_server st sid s r now k sk :
  jm_get sid (sockets st) = Some s -> jm_get k (sockets st) = Some sk ->
  exists sk', jm_get k (sockets (Session.handle verify st (server_event sid now (EmTypingStart r))))
                = Some sk' /\ sock_user sk' = sock_user sk /\ sock_rooms sk' = sock_rooms sk /\
    sock_inbox sk' = sock_inbox sk ++
      (if Broadcast.in_room r sk && negb (bool_decide (k = sid))
       then [UserTyping (id (sock_user s)) (displayName (sock_user s)) true] else []).
Proof.
  intros Hs Hk. simpl. rewrite (Session.with_socket_live _ _ s) by done.
  unfold Session.on_typing_start, Session.typing_event, Broadcast.to_room_from. simpl.
  by apply Broadcast.emit_where_socket.
Qed.
End Preserve.

Section Measure.
Context {C : Crypto}.
Variable fmt_time : Z -> string.
Local Abbreviation verify := jwt_verify.

(** The handlers of server events leave the client's connections alone. *)
Lemma step_sockevent_conns now k ev c :
  conn_view (step fmt_time now (SockEvent k ev) c) = conn_view c.
Proof. simpl. case_match; [apply onSocketEvent_conns|done]. Qed.

Lemma uplink_decreases y j l e now :
  links y !! j = Some l -> next_up y l = Some e ->
  in_flight (net_step fmt_time (Uplink j now) y) < in_flight y.
Proof.
  intros Hj He. rewrite (uplink_step fmt_time y j l e now Hj He).
  set (l' := Link (l_client l) (l_conn l) (l_sid l) (S (l_up l)) (l_down l)).
  set (st' := Session.handle verify (srv y) (server_event (l_sid l) now e)).
  set (y' := set_link j l' (set_srv st' y)).
  assert (links y' = <[j:=l']> (links y)) as Hly by done.
  assert (sum_list_with (down_pending y') (links y') <=
          sum_list_with (down_pending y) (links y) + length (links y)) as Hd.
  { rewrite Hly. assert (down_pending y' l' = down_pending y' l) as E by done.
    pose proof (sum_list_with_insert (down_pending y') _ j l l' Hj) as Hins. rewrite E in Hins.
    assert (sum_list_with (down_pending y') (<[j:=l']> (links y)) =
            sum_list_with (down_pending y') (links y)) as -> by lia.
    apply sum_list_with_le_S. intros l0 _. unfold down_pending, link_socket. cbn.
    destruct (jm_get (l_sid l0) (sockets (srv y))) as [s|] eqn:Es.
    - destruct (emit_event_sockets verify (srv y) (l_sid l) now e _ _ Es)
        as (s' & Hs' & _ & evs & Hi & Hlen).
      unfold st'. rewrite Hs', Hi, length_app. lia.
    - assert (jm_get (l_sid l0) (sockets st') = None) as ->; [|lia].
      apply jm_get_None_keys. unfold st'. rewrite emit_event_keys. by apply jm_get_None_keys. }
  assert (sum_list_with (up_pending y') (links y') + 1 = sum_list_with (up_pending y) (links y)) as Hu.
  { rewrite Hly. pose proof (sum_list_with_insert (up_pending y') _ j l l' Hj) as Hins.
    assert (up_pending y' = up_pending y) as E by done. rewrite E in Hins |- *.
    unfold next_up in He. destruct (link_conn y l) as [cn|] eqn:Ec; [|done].
    destruct (conn_connected cn); [|done]. apply lookup_lt_Some in He.
    assert (up_pending y l = length (conn_out cn) - l_up l) as E1 by (unfold up_pending; by rewrite Ec).
    assert (up_pending y l' = length (conn_out cn) - S (l_up l)) as E2.
    { unfold up_pending. change (link_conn y l') with (link_conn y l). by rewrite Ec. }
    lia. }
  unfold in_flight. fold y'. assert (length (links y') = length (links y)) as Hlen
    by (rewrite Hly; apply length_insert).
  rewrite Hlen. rewrite <-Hu, Nat.add_1_r, Nat.mul_succ_r. lia.
Qed.

Lemma downlink_step y j l ev c now :
  links y !! j = Some l -> next_down y l = Some ev -> cls y !! l_client l = Some c ->
  net_step fmt_time (Downlink j now) y =
    set_link j (Link (l_client l) (l_conn l) (l_sid l) (l_up l) (S (l_down l)))
      (set_client (l_client l) (step fmt_time now (SockEvent (l_conn l) ev) c) y).
Proof. intros Hj He Hc. simpl. rewrite Hj. simpl. by rewrite He, Hc. Qed.

Lemma link_conn_set_client y i c c' l0 :
  cls y !! i = Some c -> (forall k, conn_at k c' = conn_at k c) ->
  link_conn (set_client i c' y) l0 = link_conn y l0.
Proof.
  intros Hc Hk. unfold link_conn. simpl. destruct (decide (l_client l0 = i)) as [->|Hne].
  - rewrite list_lookup_insert_eq by (by eapply lookup_lt_Some). rewrite Hc. simpl. apply Hk.
  - by rewrite list_lookup_insert_ne by done.
Qed.

Lemma downlink_decreases y j l ev c now :
  links y !! j = Some l -> next_down y l = Some ev -> cls y !! l_client l = Some c ->
  in_flight (net_step fmt_time (Downlink j now) y) < in_flight y.
Proof.
  intros Hj He Hc. rewrite (downlink_step y j l ev c now Hj He Hc).
  set (l' := Link (l_client l) (l_conn l) (l_sid l) (l_up l) (S (l_down l))).
  set (y1 := set_client (l_client l) (step fmt_time now (SockEvent (l_conn l) ev) c) y).
  set (y' := set_link j l' y1).
  assert (links y' = <[j:=l']> (links y)) as Hly by done.
  assert (forall l0, link_conn y' l0 = link_conn y l0) as Hlc.
  { intros l0. apply (link_conn_set_client y _ c); [done|]. intros k. unfold conn_at.
    pose proof (step_sockevent_conns now (l_conn l) ev c) as Hv. unfold conn_view in Hv. by rewrite Hv. }
  assert (sum_list_with (up_pending y') (links y') = sum_list_with (up_pending y) (links y)) as Hu.
  { rewrite Hly. pose proof (sum_list_with_insert (up_pending y') _ j l l' Hj) as Hins.
    assert (up_pending y' l' = up_pending y' l) as E by (unfold up_pending; by rewrite !Hlc).
    rewrite E in Hins. assert (sum_list_with (up_pending y') (<[j:=l']> (links y)) =
      sum_list_with (up_pending y') (links y)) as -> by lia.
    apply sum_list_with_ext. intros l0 _. unfold up_pending. by rewrite Hlc. }
  assert (sum_list_with (down_pending y') (links y') + 1 = sum_list_with (down_pending y) (links y))
    as Hd.
  { rewrite Hly. assert (down_pending y' = down_pending y) as E by done. rewrite E.
    pose proof (sum_list_with_insert (down_pending y) _ j l l' Hj) as Hins.
    unfold next_down in He. destruct (link_socket y l) as [s|] eqn:Es; [|done]. simpl in He.
    apply lookup_lt_Some in He.
    assert (down_pending y l = length (sock_inbox s) - l_down l) as E1
      by (unfold down_pending; by rewrite Es).
    assert (down_pending y l' = length (sock_inbox s) - S (l_down l)) as E2.
    { unfold down_pending. change (link_socket y l') with (link_socket y l). by rewrite Es. }
    lia. }
  unfold in_flight. fold y'. assert (length (links y') = length (links y)) as Hlen
    by (rewrite Hly; apply length_insert).
  rewrite Hlen, Hu. lia.
Qed.

Lemma deliver_decreases y y' : deliver fmt_time y y' -> in_flight y' < in_flight y.
Proof.
  destruct 1; [by eapply uplink_decreases|by eapply downlink_decreases].
Qed.
End Measure.

Section Claims.
Context {C : Crypto}.
Variable fmt_time : Z -> string.
Local Abbreviation verify := jwt_verify.

(** C8. In every state the composed system reaches from start-up, the
    server's invariant holds, every link joins an existing connection of
    a client to a live socket whose user is the identity the [io.use]
    middleware obtained from that connection's token, neither direction
    of a link has carried more than was sent, every live socket is the
    end of exactly one link, and every connection has at most one
    link, made by its handshake. *)
Theorem net_reachable_ok t0 stores y :
  net_reachable fmt_time t0 stores y -> net_ok verify y.
Proof. induction 1; [apply init_sys_ok|by apply net_step_ok]. Qed.

(** C6. A message typed in the browser reaches the server's log under
    the identity of the token: when a linked client on the chat page
    whose emits have all crossed presses Enter with text that trims to
    something, and the network then carries the next emit, the room's
    log gains one message whose sender is the user the middleware
    verified from the connection's token and whose content is the
    trimmed text, and every live socket in the room gets it once, at
    the end of its inbox (app.js 358-372 with server.js 290-311). *)
Theorem send_end_to_end y j l c cn now t :
  net_ok verify y -> links y !! j = Some l -> cls y !! l_client l = Some c ->
  in_chat_view c = true -> socket (c_chat c) = Some (l_conn l) ->
  conn_at (l_conn l) c = Some cn -> conn_connected cn = true ->
  l_up l = length (conn_out cn) -> js_trim (inputValue (c_page c)) <> "" ->
  let r := currentRoom (c_chat c) in
  let y' := net_run fmt_time y [Input (l_client l) now EnterKey; Uplink j t] in
  exists s, link_socket y l = Some s /\
    (exists t0, Session.authenticate verify (conn_token cn) t0 = Some (sock_user s)) /\
    let m := Session.make_message (sock_user s)
               (SendData r (js_trim (inputValue (c_page c))) (Some "text")) t in
    jm_get r (messages (srv y')) = Some (default [] (jm_get r (messages (srv y))) ++ [m]) /\
    (forall k sk, jm_get k (sockets (srv y)) = Some sk -> Broadcast.in_room r sk = true ->
       exists sk', jm_get k (sockets (srv y')) = Some sk' /\
         sock_inbox sk' = sock_inbox sk ++ [NewMessage m]).
Proof.
  intros (_ & Hl & _) Hj Hc Hv Hk Hcn Hconn Hup Ht r y'.
  pose proof (Forall_lookup_1 _ _ _ _ Hl Hj) as (cn0 & s & Hc0 & Hs & _ & _ & t0 & Ht0).
  unfold link_conn in Hc0. rewrite Hc in Hc0. simpl in Hc0. rewrite Hcn in Hc0.
  injection Hc0 as <-.
  destruct (sendMessage_spec c (l_conn l) cn Hk Hcn Ht) as (Hc1 & _).
  set (d := SendData r (js_trim (inputValue (c_page c))) (Some "text")).
  set (y1 := net_step fmt_time (Input (l_client l) now EnterKey) y).
  assert (cls y1 !! l_client l = Some (sendMessage c) /\ srv y1 = srv y /\ links y1 = links y)
    as (Hc1' & Hsrv1 & Hl1).
  { unfold y1. rewrite (input_step fmt_time y (l_client l) now EnterKey c) by done. simpl.
    rewrite list_lookup_insert_eq by (by eapply lookup_lt_Some). unfold step. by rewrite Hv. }
  assert (next_up y1 l = Some (EmSendMessage d)) as Hnext.
  { unfold next_up, link_conn. rewrite Hc1'. simpl. rewrite Hc1. simpl.
    rewrite Hconn, Hup, <-app_assoc. by rewrite lookup_app_r, Nat.sub_diag by lia. }
  assert (srv y' = Session.handle verify (srv y) (server_event (l_sid l) t (EmSendMessage d))) as Hy'.
  { unfold y', net_run. cbn [foldl]. fold y1.
    rewrite (uplink_step fmt_time y1 j l _ t) by (rewrite ?Hl1; done). simpl. by rewrite Hsrv1. }
  exists s. rewrite Hy'. unfold link_socket in Hs.
  split_and!; [done|by exists t0|..]; apply (send_on_server (srv y) (l_sid l) s d t Hs).
Qed.

(** C25. Delivery terminates: without new input, the network can carry
    only finitely many items, whatever the order in which it picks the
    links and directions.  Each emit the server handles gives every
    socket at most one event ([io.to(room)], [socket.to(room)] and
    [join] all do), and the client's handlers of server events emit
    nothing (app.js 298-318), so the weighted count [in_flight] of
    waiting items drops at every delivery. *)
Theorem delivery_terminates y : Acc (fun y' y => deliver fmt_time y y') y.
Proof.
  remember (in_flight y) as n eqn:Hn. revert y Hn.
  induction (lt_wf n) as [n _ IH]. intros y ->. constructor. intros y' Hd.
  by apply (IH (in_flight y')); [apply (deliver_decreases fmt_time)|].
Qed.

(** C31. One keystroke in the message box reaches every other user in
    the room twice: after the [input] event and the delivery of the next
    two emits of the connection, every other live socket in the room
    has two [user-typing] events of the sender at the end of its inbox,
    and the sender's own socket none (app.js 30-35, 79-83, 437-446 with
    server.js 314-320). *)
Theorem keystroke_typing_twice y j l c cn v now t1 t2 :
  net_ok verify y -> links y !! j = Some l -> cls y !! l_client l = Some c ->
  in_chat_view c = true -> socket (c_chat c) = Some (l_conn l) ->
  conn_at (l_conn l) c = Some cn -> conn_connected cn = true -> l_up l = length (conn_out cn) ->
  let r := currentRoom (c_chat c) in
  let y' := net_run fmt_time y
              [Input (l_client l) now (MessageInput v); Uplink j t1; Uplink j t2] in
  exists s, link_socket y l = Some s /\
    forall k sk, jm_get k (sockets (srv y)) = Some sk ->
      exists sk', jm_get k (sockets (srv y')) = Some sk' /\
        sock_inbox sk' = sock_inbox sk ++
          (if Broadcast.in_room r sk && negb (bool_decide (k = l_sid l))
           then [UserTyping (id (sock_user s)) (displayName (sock_user s)) true;
                 UserTyping (id (sock_user s)) (displayName (sock_user s)) true] else []).
Proof.
  intros (_ & Hl & _) Hj Hc Hv Hk Hcn Hconn Hup r y'.
  pose proof (Forall_lookup_1 _ _ _ _ Hl Hj) as (cn0 & s & Hc0 & Hs & _).
  unfold link_conn in Hc0. rewrite Hc in Hc0. simpl in Hc0. rewrite Hcn in Hc0.
  injection Hc0 as <-.
  destruct (onMessageInput_conn now v c (l_conn l) cn Hk Hcn) as (Hc1 & _).
  set (y1 := net_step fmt_time (Input (l_client l) now (MessageInput v)) y).
  set (l2 := Link (l_client l) (l_conn l) (l_sid l) (S (l_up l)) (l_down l)).
  set (y2 := net_step fmt_time (Uplink j t1) y1).
  assert (cls y1 !! l_client l = Some (onMessageInput v now c) /\ srv y1 = srv y /\
          links y1 = links y) as (Hc1' & Hsrv1 & Hl1).
  { unfold y1. rewrite (input_step fmt_time y (l_client l) now (MessageInput v) c) by done.
    simpl. rewrite list_lookup_insert_eq by (by eapply lookup_lt_Some). unfold step. by rewrite Hv. }
  assert (link_conn y1 l = Some (conn_emit (EmTypingStart r) (conn_emit (EmTypingStart r) cn)))
    as Hlc1 by (unfold link_conn; rewrite Hc1'; exact Hc1).
  assert (next_up y1 l = Some (EmTypingStart r)) as Hn1.
  { unfold next_up. rewrite Hlc1. simpl. rewrite Hconn, Hup, <-app_assoc.
    by rewrite lookup_app_r, Nat.sub_diag by lia. }
  assert (y2 = set_link j l2 (set_srv (Session.handle verify (srv y)
                  (server_event (l_sid l) t1 (EmTypingStart r))) y1)) as Hy2.
  { unfold y2. rewrite (uplink_step fmt_time y1 j l _ t1) by (rewrite ?Hl1; done).
    by rewrite Hsrv1. }
  assert (next_up y2 l2 = Some (EmTypingStart r)) as Hn2.
  { unfold next_up. assert (link_conn y2 l2 = link_conn y1 l) as -> by (by rewrite Hy2).
    rewrite Hlc1. simpl.
    rewrite Hconn. simpl. rewrite Hup, <-app_assoc. by rewrite lookup_app_r, Nat.sub_succ_l,
      Nat.sub_diag by lia. }
  assert (srv y' = Session.handle verify (Session.handle verify (srv y)
             (server_event (l_sid l) t1 (EmTypingStart r))) (server_event (l_sid l) t2 (EmTypingStart r)))
    as Hy'.
  { unfold y', net_run. cbn [foldl]. fold y1 y2.
    rewrite (uplink_step fmt_time y2 j l2 (EmTypingStart r) t2); [by rewrite Hy2| |done].
    rewrite Hy2. simpl. rewrite list_lookup_insert_eq; [done|]. rewrite Hl1. by eapply lookup_lt_Some. }
  exists s. split; [done|]. intros k sk Hk0. rewrite Hy'. unfold link_socket in Hs.
  destruct (typing_on_server (srv y) (l_sid l) s r t1 (l_sid l) s Hs Hs)
    as (s1 & Hs1 & Hu1 & _).
  destruct (typing_on_server (srv y) (l_sid l) s r t1 k sk Hs Hk0)
    as (sk1 & Hk1 & _ & Hr1 & Hi1).
  destruct (typing_on_server _ (l_sid l) s1 r t2 k sk1 Hs1 Hk1)
    as (sk2 & Hk2 & _ & _ & Hi2).
  exists sk2. split; [done|]. rewrite Hi2, Hi1, Hu1. unfold Broadcast.in_room. rewrite Hr1.
  fold (Broadcast.in_room r sk). destruct (Broadcast.in_room r sk && _); simpl;
    by rewrite <-?app_assoc, ?app_nil_r.
Qed.

(** Submitting the login form sends its request, which is the client's
    next one to answer. *)
Lemma login_click_next y i c e p t0 :
  cls y !! i = Some c -> served y !! i = Some (length (requests (c_env c))) ->
  in_chat_view c = false -> loginMode (c_page c) = true -> js_trim e = e -> e <> "" -> p <> "" ->
  let c1 := add_request (ReqLogin e p) c in
  net_step fmt_time (Input i t0 (ClickLogin e p)) y = set_client i c1 y /\
  cls (set_client i c1 y) !! i = Some c1 /\
  next_request (set_client i c1 y) i = Some (c1, length (requests (c_env c)), ReqLogin e p).
Proof.
  intros Hc Hn Hv Hm Ht He Hp c1.
  assert (cls (set_client i c1 y) !! i = Some c1) as Hc1
    by (simpl; rewrite list_lookup_insert_eq by (by eapply lookup_lt_Some); done).
  split_and!; [|done|].
  - rewrite (input_step fmt_time y i t0 _ c Hc) by done. by rewrite login_click.
  - unfold next_request. rewrite Hc1. simpl. rewrite Hn. simpl.
    rewrite lookup_app_r, Nat.sub_diag by lia. done.
Qed.

(** C9. Logging in through the form ends with a live socket of the
    account: a client on the login form, whose earlier requests are all
    answered, that submits the e-mail and password of a stored account,
    gets the server's reply, and whose new connection then makes its
    handshake within the token's seven days on a fresh socket id, while
    the rate limiter still lets the client's requests through, is on
    the chat page as the account's identity with [this.socket] on that
    connection; the server registers that identity as online under the
    new socket, whose user it is, and the connection and socket are
    linked (app.js 211-241, 279-286 with server.js 165-205, 239-281). *)
Theorem login_form_to_socket y i c a e p sid t0 t1 t2 :
  net_ok verify y -> cls y !! i = Some c -> served y !! i = Some (length (requests (c_env c))) ->
  in_chat_view c = false -> loginMode (c_page c) = true ->
  js_trim e = e -> e <> "" -> p <> "" ->
  jm_get e (users (srv y)) = Some a -> bcrypt_compare p (acc_password a) = true ->
  sid_used sid y = false -> (t1 <= t2 < t1 + jwt_lifetime)%Z ->
  RateLimit.allows RateLimit.limiter_config (RateLimit.req_ip (client_peer i)) t1 (limits y) = true ->
  let k := length (conns (c_env c)) in
  let u := account_identity a in
  let y' := net_run fmt_time y [Input i t0 (ClickLogin e p); Serve i t1; Handshake i k sid t2] in
  links y' = links y ++ [Link i k sid 0 0] /\
  jm_get (id u) (connectedUsers (srv y')) =
    Some {| socketId := sid; pe_user := u; pe_status := "online" |} /\
  option_map sock_user (jm_get sid (sockets (srv y'))) = Some u /\
  exists c', cls y' !! i = Some c' /\ currentUser (c_chat c') = Some u /\
    in_chat_view c' = true /\ socket (c_chat c') = Some k.
Proof.
  intros (_ & _ & _ & _ & _ & _ & Hdo) Hc Hn Hv Hm Ht He Hp Ha Hpw Hsid Htime Hlim k u y'.
  set (c1 := add_request (ReqLogin e p) c).
  set (y1 := set_client i c1 y).
  destruct (login_click_next y i c e p t0) as (Hy1 & Hc1 & Hnr); try done. fold c1 y1 in Hy1, Hc1, Hnr.
  set (tok := jwt_sign u t1).
  set (st1 := set_users (fun _ => (Accounts.login (LoginBody (Some e) (Some p)) t1 (users (srv y))).1) (srv y)).
  set (m1 := (RateLimit.increment RateLimit.limiter_config (RateLimit.req_ip (client_peer i)) t1
                (limits y)).2).
  assert (api_request i (ReqLogin e p) t1 (limits y1) (srv y1) = (m1, st1, Response 200 (LoggedIn tok u)))
    as Hsr.
  { rewrite api_request_allowed by done. unfold st1. simpl. by rewrite (login_ok e p t1 _ a). }
  set (c2 := step fmt_time t1 (LoginReply (Some (Response 200 (LoggedIn tok u)))) c1).
  assert (tok <> "") as Htok by apply jwt_sign_nonempty.
  destruct (login_reply_ok fmt_time t1 tok u c1 Htok) as (Hu2 & Hv2 & Hk2 & Hcn2 & _).
  fold c2 in Hu2, Hv2, Hk2, Hcn2.
  assert (length (conns (c_env c1)) = k) as Hk by done. rewrite Hk in Hk2, Hcn2.
  set (y2 := set_limits m1 (set_served i (S (length (requests (c_env c)))) (set_client i c2 (set_srv st1 y1)))).
  assert ((i, k) ∉ dialed y2) as Hnd.
  { intros Hin. unfold dialed_ok in Hdo. rewrite Forall_forall in Hdo.
    destruct (Hdo _ Hin) as (c0 & cn0 & Hc0 & Hcn0). simpl in Hc0. rewrite Hc in Hc0.
    injection Hc0 as <-. unfold conn_at in Hcn0. apply lookup_lt_Some in Hcn0. unfold k in Hcn0.
    simpl in Hcn0. lia. }
  assert (sid_used sid y2 = false) as Hsid2 by done.
  assert (Session.authenticate verify tok t2 = Some u) as Hauth by (by apply App.jwt_authenticate).
  assert (jm_has sid (sockets (srv y2)) = false) as Hfresh.
  { unfold sid_used in Hsid. apply orb_false_iff in Hsid as [? _]. done. }
  destruct (Session.connect_accepted verify (srv y2) sid tok t2 u Hauth Hfresh) as (Hpres & Huser).
  assert (jm_has sid (sockets (Session.handle verify (srv y2) (Session.EvConnect sid tok t2))) = true)
    as Hacc.
  { unfold jm_has. destruct (jm_get sid _); [done|discriminate]. }
  assert (cls y2 !! i = Some c2) as Hc2.
  { unfold y2. simpl. rewrite list_lookup_insert_eq; [done|]. rewrite length_insert.
    by eapply lookup_lt_Some. }
  assert (y' = Sys (Session.handle verify (srv y2) (Session.EvConnect sid tok t2))
                   (<[i := step fmt_time t2 (SockConnect k) c2]> (cls y2))
                   (links y2 ++ [Link i k sid 0 0]) (dialed y2 ++ [(i, k)]) (served y2) (limits y2)) as Hy'.
  { unfold y', net_run. cbn [foldl]. rewrite Hy1, (serve_step fmt_time y1 i t1 c1 _ _ m1 st1 _ Hnr Hsr).
    fold c2 y2. by apply (handshake_accept_step fmt_time y2 i k sid t2 c2 (Conn tok false false [])). }
  rewrite Hy'. cbn [links srv cls]. split_and!; [done|done|done|].
  exists (step fmt_time t2 (SockConnect k) c2).
  destruct (sockconnect_chat fmt_time t2 k c2) as [Hch Hvw].
  rewrite Hch, Hvw. split_and!; [|done|done|done].
  rewrite list_lookup_insert_eq; [done|]. by eapply lookup_lt_Some.
Qed.
(** C26. The rate limiter stands in front of [/api/login] too: when it
    refuses the client's peer, the login form's request is answered 429
    without reaching the route, the server state (accounts, sockets,
    presence, messages) is as it was, no connection is opened, and the
    client stays on the form showing the limiter's message as an error
    (app.js 211-241, server.js 44-54). *)
Theorem login_rate_limited y i c e p t0 t1 :
  cls y !! i = Some c -> served y !! i = Some (length (requests (c_env c))) ->
  in_chat_view c = false -> loginMode (c_page c) = true -> js_trim e = e -> e <> "" -> p <> "" ->
  RateLimit.allows RateLimit.limiter_config (RateLimit.req_ip (client_peer i)) t1 (limits y) = false ->
  let y' := net_run fmt_time y [Input i t0 (ClickLogin e p); Serve i t1] in
  srv y' = srv y /\ links y' = links y /\
  exists c', cls y' !! i = Some c' /\ in_chat_view c' = false /\
    currentUser (c_chat c') = currentUser (c_chat c) /\ conns (c_env c') = conns (c_env c) /\
    authMessage (c_page c') = Some (RateLimit.rl_message RateLimit.limiter_config, "error").
Proof.
  intros Hc Hn Hv Hm Ht He Hp Hlim y'.
  set (c1 := add_request (ReqLogin e p) c).
  set (y1 := set_client i c1 y).
  destruct (login_click_next y i c e p t0) as (Hy1 & Hc1 & Hnr); try done. fold c1 y1 in Hy1, Hc1, Hnr.
  pose proof (api_request_refused i (ReqLogin e p) t1 (limits y1) (srv y1) Hlim) as Hsr.
  unfold y', net_run. cbn [foldl]. rewrite Hy1, (serve_step fmt_time y1 i t1 c1 _ _ _ _ _ Hnr Hsr).
  assert (in_chat_view c1 = false) as Hv1 by done.
  cbn [reply_input]. rewrite login_reply_error by done.
  cbn [srv links cls set_limits set_served set_client set_srv]. split_and!; [done|done|].
  eexists. split.
  - rewrite list_lookup_insert_eq; [done|]. by eapply lookup_lt_Some.
  - split_and!; [|done..]. rewrite <- Hv1. by destruct c1 as [? [] ?].
Qed.
(** C7. C-HL. The history a client loads is the room's log on the server:
    when the client's next request is [GET /api/messages/:roomId] with a
    token [authenticateToken] accepts and the rate limiter lets it
    through, answering it leaves the server as it was and makes the
    client's message list exactly the room's stored messages, in order,
    each rendered by [displayMessage] (app.js 334-352, server.js
    214-218). *)
Theorem history_load_shows_log y i c n room tok now u :
  cls y !! i = Some c -> served y !! i = Some n -> requests (c_env c) !! n = Some (ReqMessages room tok) ->
  in_chat_view c = true ->
  Accounts.authenticateToken (Some ("Bearer " +:+ tok)) now = inr u ->
  RateLimit.allows RateLimit.limiter_config (RateLimit.req_ip (client_peer i)) now (limits y) = true ->
  let y' := net_step fmt_time (Serve i now) y in
  srv y' = srv y /\
  exists c', cls y' !! i = Some c' /\
    lines (c_page c') =
      map (fun m => MessageLine (Render.display_el (own_message m c) (fmt_time (timestamp m)) m))
          (default [] (jm_get room (messages (srv y)))).
Proof.
  intros Hc Hn Hr Hv Hauth Hlim y'.
  pose proof (next_request_eq y i c n _ Hc Hn Hr) as Hnr.
  set (m1 := (RateLimit.increment RateLimit.limiter_config (RateLimit.req_ip (client_peer i)) now
                (limits y)).2).
  set (log := default [] (jm_get room (messages (srv y)))).
  assert (api_request i (ReqMessages room tok) now (limits y) (srv y) =
            (m1, srv y, Response 200 (MessageList log))) as Hsr.
  { rewrite api_request_allowed by done. simpl. unfold messages_route. by rewrite Hauth. }
  unfold y'. rewrite (serve_step fmt_time y i now c n _ _ _ _ Hnr Hsr).
  cbn [srv cls set_limits set_served set_client set_srv]. split; [done|].
  eexists. split; [rewrite list_lookup_insert_eq; [done|by eapply lookup_lt_Some]|].
  cbn [reply_input]. rewrite messages_reply_ok by (done || lia).
  rewrite foldl_display_lines; [done|]. rewrite <- Hv. by destruct c as [? [[] ? ? ? ? ? ?] ?].
Qed.
End Claims.

Lemma keystroke_typing_twice_witness :
  let y := demo_y in let l := demo_link y 1 in let c := demo_client y (l_client l) in
  let cn := demo_conn c (l_conn l) in
  let r := currentRoom (c_chat c) in
  let y' := net_run demo_time y
              [Input (l_client l) 8 (MessageInput "yo"); Uplink 1 9; Uplink 1 10] in
  exists s, link_socket y l = Some s /\
    forall k sk, jm_get k (sockets (srv y)) = Some sk ->
      exists sk', jm_get k (sockets (srv y')) = Some sk' /\
        sock_inbox sk' = sock_inbox sk ++
          (if Broadcast.in_room r sk && negb (bool_decide (k = l_sid l))
           then [UserTyping (id (sock_user s)) (displayName (sock_user s)) true;
                 UserTyping (id (sock_user s)) (displayName (sock_user s)) true] else []).
Proof.
  intros y l c cn r y'.
  apply (keystroke_typing_twice (C := demo_crypto) demo_time y 1 l c cn "yo" 8 9 10);
    [apply net_run_ok, init_sys_ok|vm_compute; reflexivity..].
Defined.

Lemma history_load_shows_log_witness :
  let y := demo_hist_y in let c := demo_client y 0 in
  let tok := jwt_sign (Crypto := demo_crypto) Session.alice 0 in
  let y' := net_step demo_time (Serve 0 11) y in
  (srv y' = srv y /\
   exists c', cls y' !! 0 = Some c' /\
     lines (c_page c') =
       map (fun m => MessageLine (Render.display_el (own_message m c) (demo_time (timestamp m)) m))
           (default [] (jm_get "general" (messages (srv y))))) /\
  length (default [] (jm_get "general" (messages (srv y)))) = 1.
Proof.
  intros y c tok y'. split; [|vm_compute; reflexivity].
  apply (history_load_shows_log (C := demo_crypto) demo_time y 0 c 0 "general" tok 11 Session.alice);
    vm_compute; reflexivity.
Defined.

Lemma login_rate_limited_witness :
  let y := demo_limited_y in let c := demo_client y 0 in
  let y' := net_run demo_time y [Input 0 2 (ClickLogin "alice@example.com" "secret1"); Serve 0 2] in
  srv y' = srv y /\ links y' = links y /\
  exists c', cls y' !! 0 = Some c' /\ in_chat_view c' = false /\
    currentUser (c_chat c') = currentUser (c_chat c) /\ conns (c_env c') = conns (c_env c) /\
    authMessage (c_page c') = Some (RateLimit.rl_message RateLimit.limiter_config, "error").
Proof.
  intros y c y'.
  apply (login_rate_limited (C := demo_crypto) demo_time y 0 c "alice@example.com" "secret1" 2 2);
    first [vm_compute; reflexivity|vm_compute; discriminate].
Defined.

Lemma login_form_to_socket_witness :
  let y := demo_login_y in let c := demo_client y 0 in let a := demo_account in
  let k := length (conns (c_env c)) in
  let u := account_identity a in
  let y' := net_run demo_time y [Input 0 2 (ClickLogin "alice@example.com" "secret1"); Serve 0 3;
                                 Handshake 0 k "s1" 4] in
  links y' = links y ++ [Link 0 k "s1" 0 0] /\
  jm_get (id u) (connectedUsers (srv y')) =
    Some {| socketId := "s1"; pe_user := u; pe_status := "online" |} /\
  option_map sock_user (jm_get "s1" (sockets (srv y'))) = Some u /\
  exists c', cls y' !! 0 = Some c' /\ currentUser (c_chat c') = Some u /\
    in_chat_view c' = true /\ socket (c_chat c') = Some k.
Proof.
  intros y c a k u y'.
  apply (login_form_to_socket (C := demo_crypto) demo_time y 0 c a "alice@example.com" "secret1" "s1" 2 3 4);
    [apply net_run_ok, init_sys_ok|..];
    first [unfold jwt_lifetime; lia|vm_compute; reflexivity|vm_compute; discriminate].
Defined.

Lemma net_reachable_ok_witness : net_ok jwt_verify demo_y.
Proof.
  apply (net_reachable_ok (C := demo_crypto) demo_time 0 demo_stores).
  apply net_reachable_run, nreach_init.
Defined.

Lemma send_end_to_end_witness :
  let y := demo_y in let l := demo_link y 0 in let c := demo_client y (l_client l) in
  let cn := demo_conn c (l_conn l) in
  let r := currentRoom (c_chat c) in
  let y' := net_run demo_time y [Input (l_client l) 8 EnterKey; Uplink 0 9] in
  exists s, link_socket y l = Some s /\
    (exists t0, Session.authenticate jwt_verify (conn_token cn) t0 = Some (sock_user s)) /\
    let m := Session.make_message (sock_user s)
               (SendData r (js_trim (inputValue (c_page c))) (Some "text")) 9 in
    jm_get r (messages (srv y')) = Some (default [] (jm_get r (messages (srv y))) ++ [m]) /\
    (forall k sk, jm_get k (sockets (srv y)) = Some sk -> Broadcast.in_room r sk = true ->
       exists sk', jm_get k (sockets (srv y')) = Some sk' /\
         sock_inbox sk' = sock_inbox sk ++ [NewMessage m]).
Proof.
  intros y l c cn r y'.
  apply (send_end_to_end (C := demo_crypto) demo_time y 0 l c cn 8 9);
    [apply net_run_ok, init_sys_ok|vm_compute; reflexivity..|vm_compute; discriminate].
Defined.

End Net.
